(** * libcaer, DAVIS common driver core: event translation and data start

    Shallow embedding of [davisEventTranslator], its helpers [initFrame],
    [calculateIMUAccelScale], [calculateIMUGyroScale], [freeAllDataMemory]
    and of [davisCommonDataStart] (davis_common.c), followed by the
    properties of the decoder, of the packet commit policy and of the
    start-up path.

    Machine integers are [Z] with the wrap-around of their C type written
    out; packet positions, capacities and array indices are [nat].  The
    [float] of the IMU samples is IEEE 754 binary32.  The in-progress
    packets are arrays of event slots updated in place. *)

From Stdlib Require Import ZArith Bool List Lia.
From Stdlib Require Strings.Byte Strings.String Floats.SpecFloat.
From stdpp Require Import base list numbers.
Import ListNotations.

Local Open Scope Z_scope.

(** ** Integer conversions of the C types *)

(** [U8T], [U16T], [U32T]: the cast macros, to uint8_t, uint16_t and
    uint32_t. *)
Definition U8T (x : Z) : Z := x mod 2 ^ 8.
Definition U16T (x : Z) : Z := x mod 2 ^ 16.
Definition U32T (x : Z) : Z := x mod 2 ^ 32.

(** Conversion to int16_t and int32_t (two's complement). *)
Definition I16T (x : Z) : Z :=
  let y := x mod 2 ^ 16 in if y <? 2 ^ 15 then y else y - 2 ^ 16.
Definition I32T (x : Z) : Z :=
  let y := x mod 2 ^ 32 in if y <? 2 ^ 31 then y else y - 2 ^ 32.

Definition UINT32_MAX : Z := 4294967295.

(** ** Constants and enumerations of davis_common.h *)

(** Modelled from the spec: [IMU6_COUNT] is a macro of davis_common.h,
    which is outside the sources verified here; an IMU6 record is complete
    when imu_count is 14. *)
Definition IMU6_COUNT : Z := 14.

(** Modelled from the spec: [DAVIS_ADC_DEPTH] is a macro of davis_common.h;
    the ADC depth is 10 bits. *)
Definition DAVIS_ADC_DEPTH : Z := 10.

(** Modelled from the spec: the chip identifiers are declared in
    davis_common.h; the translator only compares [chipID] with
    [CHIP_DAVIS208] and [CHIP_DAVISRGB], every other chip is [CHIP_OTHER]. *)
Inductive chip : Set := CHIP_DAVIS208 | CHIP_DAVISRGB | CHIP_OTHER.

Definition chip_eqb (a b : chip) : bool :=
  match a, b with
  | CHIP_DAVIS208, CHIP_DAVIS208 => true
  | CHIP_DAVISRGB, CHIP_DAVISRGB => true
  | CHIP_OTHER, CHIP_OTHER => true
  | _, _ => false
  end.

(** Modelled from the spec: the readout phases are declared in
    davis_common.h; there are two, reset and signal, the indices of
    [apsCountX] and [apsCountY] ([APS_READOUT_TYPES_NUM] is 2). *)
Inductive aps_readout : Set := APS_READOUT_RESET | APS_READOUT_SIGNAL.

Definition aps_readout_eqb (a b : aps_readout) : bool :=
  match a, b with
  | APS_READOUT_RESET, APS_READOUT_RESET => true
  | APS_READOUT_SIGNAL, APS_READOUT_SIGNAL => true
  | _, _ => false
  end.

(** A two-element array indexed by the readout phase. *)
Record readout_counts : Set := { count_reset : Z; count_signal : Z }.

Definition count_get (c : readout_counts) (j : aps_readout) : Z :=
  match j with
  | APS_READOUT_RESET => count_reset c
  | APS_READOUT_SIGNAL => count_signal c
  end.

Definition count_set (c : readout_counts) (j : aps_readout) (v : Z) : readout_counts :=
  match j with
  | APS_READOUT_RESET => {| count_reset := v; count_signal := count_signal c |}
  | APS_READOUT_SIGNAL => {| count_reset := count_reset c; count_signal := v |}
  end.

Definition counts_zero : readout_counts := {| count_reset := 0; count_signal := 0 |}.

(** ** Events and packets

    The event and packet accessor library (libcaer events) is outside the
    sources verified here.  An event is a record of the fields its setters
    write, with a validity mark; a timestamp field holds the value its
    setter was given.  A packet is an array of zero-initialised slots, its
    capacity the number of slots. *)

(** Modelled from the spec: the kinds of special events (libcaer special
    event header). *)
Inductive special_type : Set :=
  | TIMESTAMP_RESET
  | EXTERNAL_INPUT_FALLING_EDGE
  | EXTERNAL_INPUT_RISING_EDGE
  | EXTERNAL_INPUT_PULSE
  | DVS_ROW_ONLY.

(** Modelled from the spec: the four event types (libcaer event headers),
    with the fields the translator sets. *)
Record polarity_event : Set := {
  pol_timestamp : Z;
  pol_polarity : bool;          (* true: ON, false: OFF *)
  pol_x : Z;
  pol_y : Z;
  pol_valid : bool
}.

Record special_event : Set := {
  spe_timestamp : Z;
  spe_type : option special_type;   (* None: no type written yet *)
  spe_data : Z;
  spe_valid : bool
}.

Record frame_event : Set := {
  frm_ts_start_of_frame : Z;
  frm_ts_end_of_frame : Z;
  frm_ts_start_of_exposure : Z;
  frm_ts_end_of_exposure : Z;
  frm_length_x : Z;
  frm_length_y : Z;
  frm_channels : Z;
  frm_pixels : list Z;
  frm_valid : bool
}.

(** ** The [float] of the C source

    IEEE 754 binary32 (24 bits of precision, exponents up to 128) with
    rounding to nearest, ties to even, on the specification of floating
    point numbers of the standard library. *)
Definition float : Set := SpecFloat.spec_float.

(** Conversion of an integer to [float]. *)
Definition float_of_Z (z : Z) : float := SpecFloat.binary_normalize 24 128 z 0 false.

Definition float_div (x y : float) : float := SpecFloat.SFdiv 24 128 x y.

Definition float_add (x y : float) : float := SpecFloat.SFadd 24 128 x y.

(** The zero of zeroed memory, +0.0f. *)
Definition float_zero : float := SpecFloat.S754_zero false.

(** The literal 36.53f: 9576120 * 2^-18 = 36.529998779296875, the binary32
    number nearest to 36.53. *)
Definition float_36_53 : float := SpecFloat.S754_finite false 9576120 (-18).

Record imu6_event : Set := {
  imu_timestamp : Z;
  imu_accel_x : float; imu_accel_y : float; imu_accel_z : float;
  imu_temp : float;
  imu_gyro_x : float; imu_gyro_y : float; imu_gyro_z : float;
  imu_valid : bool
}.

Definition polarity_zero : polarity_event :=
  {| pol_timestamp := 0; pol_polarity := false; pol_x := 0; pol_y := 0; pol_valid := false |}.

Definition special_zero : special_event :=
  {| spe_timestamp := 0; spe_type := None; spe_data := 0; spe_valid := false |}.

Definition frame_zero : frame_event :=
  {| frm_ts_start_of_frame := 0; frm_ts_end_of_frame := 0;
     frm_ts_start_of_exposure := 0; frm_ts_end_of_exposure := 0;
     frm_length_x := 0; frm_length_y := 0; frm_channels := 0;
     frm_pixels := []; frm_valid := false |}.

Definition imu6_zero : imu6_event :=
  {| imu_timestamp := 0;
     imu_accel_x := float_zero; imu_accel_y := float_zero; imu_accel_z := float_zero;
     imu_temp := float_zero;
     imu_gyro_x := float_zero; imu_gyro_y := float_zero; imu_gyro_z := float_zero;
     imu_valid := false |}.

(** Modelled from the spec: the setters of the polarity event (libcaer
    polarity event header); each writes its field. *)
Definition caerPolarityEventSetTimestamp (ts : Z) (e : polarity_event) : polarity_event :=
  {| pol_timestamp := ts; pol_polarity := pol_polarity e; pol_x := pol_x e;
     pol_y := pol_y e; pol_valid := pol_valid e |}.
Definition caerPolarityEventSetPolarity (p : bool) (e : polarity_event) : polarity_event :=
  {| pol_timestamp := pol_timestamp e; pol_polarity := p; pol_x := pol_x e;
     pol_y := pol_y e; pol_valid := pol_valid e |}.
Definition caerPolarityEventSetX (x : Z) (e : polarity_event) : polarity_event :=
  {| pol_timestamp := pol_timestamp e; pol_polarity := pol_polarity e; pol_x := x;
     pol_y := pol_y e; pol_valid := pol_valid e |}.
Definition caerPolarityEventSetY (y : Z) (e : polarity_event) : polarity_event :=
  {| pol_timestamp := pol_timestamp e; pol_polarity := pol_polarity e; pol_x := pol_x e;
     pol_y := y; pol_valid := pol_valid e |}.
Definition caerPolarityEventValidate (e : polarity_event) : polarity_event :=
  {| pol_timestamp := pol_timestamp e; pol_polarity := pol_polarity e; pol_x := pol_x e;
     pol_y := pol_y e; pol_valid := true |}.

(** Modelled from the spec: the setters of the special event. *)
Definition caerSpecialEventSetTimestamp (ts : Z) (e : special_event) : special_event :=
  {| spe_timestamp := ts; spe_type := spe_type e; spe_data := spe_data e;
     spe_valid := spe_valid e |}.
Definition caerSpecialEventSetType (t : special_type) (e : special_event) : special_event :=
  {| spe_timestamp := spe_timestamp e; spe_type := Some t; spe_data := spe_data e;
     spe_valid := spe_valid e |}.
Definition caerSpecialEventSetData (d : Z) (e : special_event) : special_event :=
  {| spe_timestamp := spe_timestamp e; spe_type := spe_type e; spe_data := d;
     spe_valid := spe_valid e |}.
Definition caerSpecialEventValidate (e : special_event) : special_event :=
  {| spe_timestamp := spe_timestamp e; spe_type := spe_type e; spe_data := spe_data e;
     spe_valid := true |}.

(** Modelled from the spec: the setters of the frame event. *)
Definition caerFrameEventSetTSStartOfFrame (ts : Z) (e : frame_event) : frame_event :=
  {| frm_ts_start_of_frame := ts; frm_ts_end_of_frame := frm_ts_end_of_frame e;
     frm_ts_start_of_exposure := frm_ts_start_of_exposure e;
     frm_ts_end_of_exposure := frm_ts_end_of_exposure e;
     frm_length_x := frm_length_x e; frm_length_y := frm_length_y e;
     frm_channels := frm_channels e; frm_pixels := frm_pixels e; frm_valid := frm_valid e |}.
Definition caerFrameEventSetTSEndOfFrame (ts : Z) (e : frame_event) : frame_event :=
  {| frm_ts_start_of_frame := frm_ts_start_of_frame e; frm_ts_end_of_frame := ts;
     frm_ts_start_of_exposure := frm_ts_start_of_exposure e;
     frm_ts_end_of_exposure := frm_ts_end_of_exposure e;
     frm_length_x := frm_length_x e; frm_length_y := frm_length_y e;
     frm_channels := frm_channels e; frm_pixels := frm_pixels e; frm_valid := frm_valid e |}.
Definition caerFrameEventSetTSStartOfExposure (ts : Z) (e : frame_event) : frame_event :=
  {| frm_ts_start_of_frame := frm_ts_start_of_frame e; frm_ts_end_of_frame := frm_ts_end_of_frame e;
     frm_ts_start_of_exposure := ts;
     frm_ts_end_of_exposure := frm_ts_end_of_exposure e;
     frm_length_x := frm_length_x e; frm_length_y := frm_length_y e;
     frm_channels := frm_channels e; frm_pixels := frm_pixels e; frm_valid := frm_valid e |}.
Definition caerFrameEventSetTSEndOfExposure (ts : Z) (e : frame_event) : frame_event :=
  {| frm_ts_start_of_frame := frm_ts_start_of_frame e; frm_ts_end_of_frame := frm_ts_end_of_frame e;
     frm_ts_start_of_exposure := frm_ts_start_of_exposure e;
     frm_ts_end_of_exposure := ts;
     frm_length_x := frm_length_x e; frm_length_y := frm_length_y e;
     frm_channels := frm_channels e; frm_pixels := frm_pixels e; frm_valid := frm_valid e |}.
(** [caerFrameEventAllocatePixels]: records the frame geometry and
    allocates the zeroed pixel array. *)
Definition caerFrameEventAllocatePixels (lx ly ch : Z) (e : frame_event) : frame_event :=
  {| frm_ts_start_of_frame := frm_ts_start_of_frame e; frm_ts_end_of_frame := frm_ts_end_of_frame e;
     frm_ts_start_of_exposure := frm_ts_start_of_exposure e;
     frm_ts_end_of_exposure := frm_ts_end_of_exposure e;
     frm_length_x := lx; frm_length_y := ly; frm_channels := ch;
     frm_pixels := repeat 0 (Z.to_nat (lx * ly * ch)); frm_valid := frm_valid e |}.
Definition frame_set_pixels (px : list Z) (e : frame_event) : frame_event :=
  {| frm_ts_start_of_frame := frm_ts_start_of_frame e; frm_ts_end_of_frame := frm_ts_end_of_frame e;
     frm_ts_start_of_exposure := frm_ts_start_of_exposure e;
     frm_ts_end_of_exposure := frm_ts_end_of_exposure e;
     frm_length_x := frm_length_x e; frm_length_y := frm_length_y e;
     frm_channels := frm_channels e; frm_pixels := px; frm_valid := frm_valid e |}.
Definition caerFrameEventValidate (e : frame_event) : frame_event :=
  {| frm_ts_start_of_frame := frm_ts_start_of_frame e; frm_ts_end_of_frame := frm_ts_end_of_frame e;
     frm_ts_start_of_exposure := frm_ts_start_of_exposure e;
     frm_ts_end_of_exposure := frm_ts_end_of_exposure e;
     frm_length_x := frm_length_x e; frm_length_y := frm_length_y e;
     frm_channels := frm_channels e; frm_pixels := frm_pixels e; frm_valid := true |}.

(** Modelled from the spec: the setters of the IMU6 event. *)
Definition caerIMU6EventSetTimestamp (ts : Z) (e : imu6_event) : imu6_event :=
  {| imu_timestamp := ts;
     imu_accel_x := imu_accel_x e; imu_accel_y := imu_accel_y e; imu_accel_z := imu_accel_z e;
     imu_temp := imu_temp e;
     imu_gyro_x := imu_gyro_x e; imu_gyro_y := imu_gyro_y e; imu_gyro_z := imu_gyro_z e;
     imu_valid := imu_valid e |}.
Definition caerIMU6EventSetAccelX (v : float) (e : imu6_event) : imu6_event :=
  {| imu_timestamp := imu_timestamp e;
     imu_accel_x := v; imu_accel_y := imu_accel_y e; imu_accel_z := imu_accel_z e;
     imu_temp := imu_temp e;
     imu_gyro_x := imu_gyro_x e; imu_gyro_y := imu_gyro_y e; imu_gyro_z := imu_gyro_z e;
     imu_valid := imu_valid e |}.
Definition caerIMU6EventSetAccelY (v : float) (e : imu6_event) : imu6_event :=
  {| imu_timestamp := imu_timestamp e;
     imu_accel_x := imu_accel_x e; imu_accel_y := v; imu_accel_z := imu_accel_z e;
     imu_temp := imu_temp e;
     imu_gyro_x := imu_gyro_x e; imu_gyro_y := imu_gyro_y e; imu_gyro_z := imu_gyro_z e;
     imu_valid := imu_valid e |}.
Definition caerIMU6EventSetAccelZ (v : float) (e : imu6_event) : imu6_event :=
  {| imu_timestamp := imu_timestamp e;
     imu_accel_x := imu_accel_x e; imu_accel_y := imu_accel_y e; imu_accel_z := v;
     imu_temp := imu_temp e;
     imu_gyro_x := imu_gyro_x e; imu_gyro_y := imu_gyro_y e; imu_gyro_z := imu_gyro_z e;
     imu_valid := imu_valid e |}.
Definition caerIMU6EventSetTemp (v : float) (e : imu6_event) : imu6_event :=
  {| imu_timestamp := imu_timestamp e;
     imu_accel_x := imu_accel_x e; imu_accel_y := imu_accel_y e; imu_accel_z := imu_accel_z e;
     imu_temp := v;
     imu_gyro_x := imu_gyro_x e; imu_gyro_y := imu_gyro_y e; imu_gyro_z := imu_gyro_z e;
     imu_valid := imu_valid e |}.
Definition caerIMU6EventSetGyroX (v : float) (e : imu6_event) : imu6_event :=
  {| imu_timestamp := imu_timestamp e;
     imu_accel_x := imu_accel_x e; imu_accel_y := imu_accel_y e; imu_accel_z := imu_accel_z e;
     imu_temp := imu_temp e;
     imu_gyro_x := v; imu_gyro_y := imu_gyro_y e; imu_gyro_z := imu_gyro_z e;
     imu_valid := imu_valid e |}.
Definition caerIMU6EventSetGyroY (v : float) (e : imu6_event) : imu6_event :=
  {| imu_timestamp := imu_timestamp e;
     imu_accel_x := imu_accel_x e; imu_accel_y := imu_accel_y e; imu_accel_z := imu_accel_z e;
     imu_temp := imu_temp e;
     imu_gyro_x := imu_gyro_x e; imu_gyro_y := v; imu_gyro_z := imu_gyro_z e;
     imu_valid := imu_valid e |}.
Definition caerIMU6EventSetGyroZ (v : float) (e : imu6_event) : imu6_event :=
  {| imu_timestamp := imu_timestamp e;
     imu_accel_x := imu_accel_x e; imu_accel_y := imu_accel_y e; imu_accel_z := imu_accel_z e;
     imu_temp := imu_temp e;
     imu_gyro_x := imu_gyro_x e; imu_gyro_y := imu_gyro_y e; imu_gyro_z := v;
     imu_valid := imu_valid e |}.
Definition caerIMU6EventValidate (e : imu6_event) : imu6_event :=
  {| imu_timestamp := imu_timestamp e;
     imu_accel_x := imu_accel_x e; imu_accel_y := imu_accel_y e; imu_accel_z := imu_accel_z e;
     imu_temp := imu_temp e;
     imu_gyro_x := imu_gyro_x e; imu_gyro_y := imu_gyro_y e; imu_gyro_z := imu_gyro_z e;
     imu_valid := true |}.

(** Modelled from the spec: allocation of a packet with a capacity of [n]
    events, all slots zeroed. *)
Definition caerPolarityEventPacketAllocate (n : nat) : list polarity_event := repeat polarity_zero n.
Definition caerSpecialEventPacketAllocate (n : nat) : list special_event := repeat special_zero n.
Definition caerFrameEventPacketAllocate (n : nat) : list frame_event := repeat frame_zero n.
Definition caerIMU6EventPacketAllocate (n : nat) : list imu6_event := repeat imu6_zero n.

(** [caerEventPacketHeaderGetEventCapacity]. *)
Definition caerEventPacketHeaderGetEventCapacity {E : Type} (p : list E) : nat := length p.

(** A packet handed over to the consumer, or freed. *)
Inductive event_packet : Set :=
  | PolarityPacket (p : list polarity_event)
  | SpecialPacket (p : list special_event)
  | FramePacket (p : list frame_event)
  | IMU6Packet (p : list imu6_event).

(** ** The exchange buffer and its consumer

    The exchange buffer is a bounded FIFO shared with the consumer thread,
    which takes packets from its head.  [consumer] lists, for each coming
    call of [ringBufferPut], how many packets the consumer has taken since
    the call before; once the list is used up the consumer stays idle.
    [freed] records the packets released with [free] after a failed
    put. *)
Record exchange : Set := {
  ring : list event_packet;
  consumer : list nat;
  freed : list event_packet
}.

(** Modelled from the spec: [ringBufferPut] (ringbuffer.c, outside the
    sources verified here) is non-blocking and returns false when the
    buffer is full. *)
Definition ringBufferPut (cap : nat) (r : list event_packet) (p : event_packet)
  : option (list event_packet) :=
  if (length r <? cap)%nat then Some (r ++ [p]) else None.

(** One call of [ringBufferPut] by the producer, after the consumer's
    turn; a failed put of [p] is followed by [free p]. *)
Definition put_or_drop (cap : nat) (x : exchange) (p : event_packet) : exchange :=
  let r := drop (hd 0%nat (consumer x)) (ring x) in
  match ringBufferPut cap r p with
  | Some r' => {| ring := r'; consumer := tl (consumer x); freed := freed x |}
  | None => {| ring := r; consumer := tl (consumer x); freed := p :: freed x |}
  end.

(** The [retry_special] loop under [forcePacketCommit]: the put is
    repeated until it succeeds.  [None]: the buffer is full and the
    consumer idle, the loop never exits. *)
Fixpoint retry_special (cap : nat) (sched : list nat) (r : list event_packet)
  (p : event_packet) : option (list nat * list event_packet) :=
  match sched with
  | [] => match ringBufferPut cap r p with
          | Some r' => Some ([], r')
          | None => None
          end
  | k :: sched' =>
      match ringBufferPut cap (drop k r) p with
      | Some r' => Some (sched', r')
      | None => retry_special cap sched' (drop k r) p
      end
  end.

Definition put_or_spin (cap : nat) (x : exchange) (p : event_packet) : option exchange :=
  match retry_special cap (consumer x) (ring x) p with
  | Some (sched, r) => Some {| ring := r; consumer := sched; freed := freed x |}
  | None => None
  end.

(** ** The device state (struct davis_state)

    The struct is declared in davis_common.h; its fields are those the
    translator uses, with the integer types of the data model of the
    specification, grouped by the part of the translator that writes
    them. *)

(** Fields the translator only reads: device geometry and packet limits. *)
Record davis_settings : Set := {
  chipID : chip;
  dvsSizeX : Z;
  dvsSizeY : Z;
  dvsInvertXY : bool;
  apsSizeX : Z;
  apsSizeY : Z;
  apsChannels : Z;
  apsInvertXY : bool;
  apsFlipX : bool;
  apsFlipY : bool;
  apsWindow0StartX : Z;
  apsWindow0StartY : Z;
  apsWindow0SizeX : Z;
  apsWindow0SizeY : Z;
  dataExchangeBufferSize : nat;
  maxPolarityPacketSize : nat;
  maxPolarityPacketInterval : Z;
  maxSpecialPacketSize : nat;
  maxSpecialPacketInterval : Z;
  maxFramePacketSize : nat;
  maxFramePacketInterval : Z;
  maxIMU6PacketSize : nat;
  maxIMU6PacketInterval : Z
}.

Record timestamp_state : Set := {
  wrapAdd : Z;             (* uint32_t *)
  lastTimestamp : Z;       (* int32_t *)
  currentTimestamp : Z     (* int32_t *)
}.

Record dvs_state : Set := {
  dvsTimestamp : Z;        (* int32_t *)
  dvsLastY : Z;            (* uint16_t *)
  dvsGotY : bool
}.

Record aps_state : Set := {
  apsIgnoreEvents : bool;
  apsGlobalShutter : bool;
  apsResetRead : bool;
  apsCurrentReadoutType : aps_readout;
  apsCountX : readout_counts;      (* uint16_t [2] *)
  apsCountY : readout_counts;      (* uint16_t [2] *)
  apsRGBPixelOffset : Z;           (* int16_t *)
  apsRGBPixelOffsetDirection : Z;  (* 0: increasing, 1: decreasing *)
  apsCurrentResetFrame : list Z    (* uint16_t [] *)
}.

Record imu_state : Set := {
  imuIgnoreEvents : bool;
  imuCount : Z;            (* uint8_t *)
  imuTmpData : Z;          (* uint8_t *)
  imuAccelScale : float;
  imuGyroScale : float
}.

Record packet_state : Set := {
  currentPolarityPacket : list polarity_event;
  currentPolarityPacketPosition : nat;
  currentSpecialPacket : list special_event;
  currentSpecialPacketPosition : nat;
  currentFramePacket : list frame_event;
  currentFramePacketPosition : nat;
  currentIMU6Packet : list imu6_event;
  currentIMU6PacketPosition : nat
}.

Record davis_state : Set := {
  settings : davis_settings;
  timestamps : timestamp_state;
  dvs : dvs_state;
  aps : aps_state;
  imu : imu_state;
  packets : packet_state;
  dataExchangeBuffer : exchange
}.

(** *** Field updates *)

Definition with_timestamps (t : timestamp_state) (st : davis_state) : davis_state :=
  {| settings := settings st; timestamps := t; dvs := dvs st; aps := aps st; imu := imu st;
     packets := packets st; dataExchangeBuffer := dataExchangeBuffer st |}.
Definition with_dvs (d : dvs_state) (st : davis_state) : davis_state :=
  {| settings := settings st; timestamps := timestamps st; dvs := d; aps := aps st; imu := imu st;
     packets := packets st; dataExchangeBuffer := dataExchangeBuffer st |}.
Definition with_aps (a : aps_state) (st : davis_state) : davis_state :=
  {| settings := settings st; timestamps := timestamps st; dvs := dvs st; aps := a; imu := imu st;
     packets := packets st; dataExchangeBuffer := dataExchangeBuffer st |}.
Definition with_imu (i : imu_state) (st : davis_state) : davis_state :=
  {| settings := settings st; timestamps := timestamps st; dvs := dvs st; aps := aps st; imu := i;
     packets := packets st; dataExchangeBuffer := dataExchangeBuffer st |}.
Definition with_packets (p : packet_state) (st : davis_state) : davis_state :=
  {| settings := settings st; timestamps := timestamps st; dvs := dvs st; aps := aps st;
     imu := imu st; packets := p; dataExchangeBuffer := dataExchangeBuffer st |}.
Definition with_exchange (x : exchange) (st : davis_state) : davis_state :=
  {| settings := settings st; timestamps := timestamps st; dvs := dvs st; aps := aps st;
     imu := imu st; packets := packets st; dataExchangeBuffer := x |}.

Definition set_apsIgnoreEvents (b : bool) (a : aps_state) : aps_state :=
  {| apsIgnoreEvents := b; apsGlobalShutter := apsGlobalShutter a;
     apsResetRead := apsResetRead a; apsCurrentReadoutType := apsCurrentReadoutType a;
     apsCountX := apsCountX a; apsCountY := apsCountY a;
     apsRGBPixelOffset := apsRGBPixelOffset a;
     apsRGBPixelOffsetDirection := apsRGBPixelOffsetDirection a;
     apsCurrentResetFrame := apsCurrentResetFrame a |}.
Definition set_apsGlobalShutter (b : bool) (a : aps_state) : aps_state :=
  {| apsIgnoreEvents := apsIgnoreEvents a; apsGlobalShutter := b;
     apsResetRead := apsResetRead a; apsCurrentReadoutType := apsCurrentReadoutType a;
     apsCountX := apsCountX a; apsCountY := apsCountY a;
     apsRGBPixelOffset := apsRGBPixelOffset a;
     apsRGBPixelOffsetDirection := apsRGBPixelOffsetDirection a;
     apsCurrentResetFrame := apsCurrentResetFrame a |}.
Definition set_apsResetRead (b : bool) (a : aps_state) : aps_state :=
  {| apsIgnoreEvents := apsIgnoreEvents a; apsGlobalShutter := apsGlobalShutter a;
     apsResetRead := b; apsCurrentReadoutType := apsCurrentReadoutType a;
     apsCountX := apsCountX a; apsCountY := apsCountY a;
     apsRGBPixelOffset := apsRGBPixelOffset a;
     apsRGBPixelOffsetDirection := apsRGBPixelOffsetDirection a;
     apsCurrentResetFrame := apsCurrentResetFrame a |}.
Definition set_apsCurrentReadoutType (r : aps_readout) (a : aps_state) : aps_state :=
  {| apsIgnoreEvents := apsIgnoreEvents a; apsGlobalShutter := apsGlobalShutter a;
     apsResetRead := apsResetRead a; apsCurrentReadoutType := r;
     apsCountX := apsCountX a; apsCountY := apsCountY a;
     apsRGBPixelOffset := apsRGBPixelOffset a;
     apsRGBPixelOffsetDirection := apsRGBPixelOffsetDirection a;
     apsCurrentResetFrame := apsCurrentResetFrame a |}.
Definition set_apsCountX (c : readout_counts) (a : aps_state) : aps_state :=
  {| apsIgnoreEvents := apsIgnoreEvents a; apsGlobalShutter := apsGlobalShutter a;
     apsResetRead := apsResetRead a; apsCurrentReadoutType := apsCurrentReadoutType a;
     apsCountX := c; apsCountY := apsCountY a;
     apsRGBPixelOffset := apsRGBPixelOffset a;
     apsRGBPixelOffsetDirection := apsRGBPixelOffsetDirection a;
     apsCurrentResetFrame := apsCurrentResetFrame a |}.
Definition set_apsCountY (c : readout_counts) (a : aps_state) : aps_state :=
  {| apsIgnoreEvents := apsIgnoreEvents a; apsGlobalShutter := apsGlobalShutter a;
     apsResetRead := apsResetRead a; apsCurrentReadoutType := apsCurrentReadoutType a;
     apsCountX := apsCountX a; apsCountY := c;
     apsRGBPixelOffset := apsRGBPixelOffset a;
     apsRGBPixelOffsetDirection := apsRGBPixelOffsetDirection a;
     apsCurrentResetFrame := apsCurrentResetFrame a |}.
Definition set_apsRGBPixelOffset (dir off : Z) (a : aps_state) : aps_state :=
  {| apsIgnoreEvents := apsIgnoreEvents a; apsGlobalShutter := apsGlobalShutter a;
     apsResetRead := apsResetRead a; apsCurrentReadoutType := apsCurrentReadoutType a;
     apsCountX := apsCountX a; apsCountY := apsCountY a;
     apsRGBPixelOffset := off;
     apsRGBPixelOffsetDirection := dir;
     apsCurrentResetFrame := apsCurrentResetFrame a |}.
Definition set_apsCurrentResetFrame (f : list Z) (a : aps_state) : aps_state :=
  {| apsIgnoreEvents := apsIgnoreEvents a; apsGlobalShutter := apsGlobalShutter a;
     apsResetRead := apsResetRead a; apsCurrentReadoutType := apsCurrentReadoutType a;
     apsCountX := apsCountX a; apsCountY := apsCountY a;
     apsRGBPixelOffset := apsRGBPixelOffset a;
     apsRGBPixelOffsetDirection := apsRGBPixelOffsetDirection a;
     apsCurrentResetFrame := f |}.

Definition set_imuIgnoreEvents (b : bool) (i : imu_state) : imu_state :=
  {| imuIgnoreEvents := b; imuCount := imuCount i; imuTmpData := imuTmpData i;
     imuAccelScale := imuAccelScale i; imuGyroScale := imuGyroScale i |}.
Definition set_imuCount (c : Z) (i : imu_state) : imu_state :=
  {| imuIgnoreEvents := imuIgnoreEvents i; imuCount := c; imuTmpData := imuTmpData i;
     imuAccelScale := imuAccelScale i; imuGyroScale := imuGyroScale i |}.
Definition set_imuTmpData (d : Z) (i : imu_state) : imu_state :=
  {| imuIgnoreEvents := imuIgnoreEvents i; imuCount := imuCount i; imuTmpData := d;
     imuAccelScale := imuAccelScale i; imuGyroScale := imuGyroScale i |}.
Definition set_imuScales (a g : float) (i : imu_state) : imu_state :=
  {| imuIgnoreEvents := imuIgnoreEvents i; imuCount := imuCount i; imuTmpData := imuTmpData i;
     imuAccelScale := a; imuGyroScale := g |}.

(** Writing through the pointer returned by [caer...EventPacketGetEvent]
    for the current position, and advancing the position.  No slot exists
    at a position beyond the capacity, the write is then without effect
    (the C code would dereference NULL; the position stays below the
    capacity in the states that satisfy [packets_wf]). *)
Definition alter_polarity (f : polarity_event -> polarity_event) (p : packet_state) : packet_state :=
  {| currentPolarityPacket :=
       alter f (currentPolarityPacketPosition p) (currentPolarityPacket p);
     currentPolarityPacketPosition := currentPolarityPacketPosition p;
     currentSpecialPacket := currentSpecialPacket p;
     currentSpecialPacketPosition := currentSpecialPacketPosition p;
     currentFramePacket := currentFramePacket p;
     currentFramePacketPosition := currentFramePacketPosition p;
     currentIMU6Packet := currentIMU6Packet p;
     currentIMU6PacketPosition := currentIMU6PacketPosition p |}.
Definition alter_special (f : special_event -> special_event) (p : packet_state) : packet_state :=
  {| currentPolarityPacket := currentPolarityPacket p;
     currentPolarityPacketPosition := currentPolarityPacketPosition p;
     currentSpecialPacket :=
       alter f (currentSpecialPacketPosition p) (currentSpecialPacket p);
     currentSpecialPacketPosition := currentSpecialPacketPosition p;
     currentFramePacket := currentFramePacket p;
     currentFramePacketPosition := currentFramePacketPosition p;
     currentIMU6Packet := currentIMU6Packet p;
     currentIMU6PacketPosition := currentIMU6PacketPosition p |}.
Definition alter_frame (f : frame_event -> frame_event) (p : packet_state) : packet_state :=
  {| currentPolarityPacket := currentPolarityPacket p;
     currentPolarityPacketPosition := currentPolarityPacketPosition p;
     currentSpecialPacket := currentSpecialPacket p;
     currentSpecialPacketPosition := currentSpecialPacketPosition p;
     currentFramePacket := alter f (currentFramePacketPosition p) (currentFramePacket p);
     currentFramePacketPosition := currentFramePacketPosition p;
     currentIMU6Packet := currentIMU6Packet p;
     currentIMU6PacketPosition := currentIMU6PacketPosition p |}.
Definition alter_imu6 (f : imu6_event -> imu6_event) (p : packet_state) : packet_state :=
  {| currentPolarityPacket := currentPolarityPacket p;
     currentPolarityPacketPosition := currentPolarityPacketPosition p;
     currentSpecialPacket := currentSpecialPacket p;
     currentSpecialPacketPosition := currentSpecialPacketPosition p;
     currentFramePacket := currentFramePacket p;
     currentFramePacketPosition := currentFramePacketPosition p;
     currentIMU6Packet := alter f (currentIMU6PacketPosition p) (currentIMU6Packet p);
     currentIMU6PacketPosition := currentIMU6PacketPosition p |}.

(** Replacing a packet and its position ([position++], or a new packet at
    position 0). *)
Definition set_polarity (l : list polarity_event) (n : nat) (p : packet_state) : packet_state :=
  {| currentPolarityPacket := l;
     currentPolarityPacketPosition := n;
     currentSpecialPacket := currentSpecialPacket p;
     currentSpecialPacketPosition := currentSpecialPacketPosition p;
     currentFramePacket := currentFramePacket p;
     currentFramePacketPosition := currentFramePacketPosition p;
     currentIMU6Packet := currentIMU6Packet p;
     currentIMU6PacketPosition := currentIMU6PacketPosition p |}.
Definition set_special (l : list special_event) (n : nat) (p : packet_state) : packet_state :=
  {| currentPolarityPacket := currentPolarityPacket p;
     currentPolarityPacketPosition := currentPolarityPacketPosition p;
     currentSpecialPacket := l;
     currentSpecialPacketPosition := n;
     currentFramePacket := currentFramePacket p;
     currentFramePacketPosition := currentFramePacketPosition p;
     currentIMU6Packet := currentIMU6Packet p;
     currentIMU6PacketPosition := currentIMU6PacketPosition p |}.
Definition set_frame (l : list frame_event) (n : nat) (p : packet_state) : packet_state :=
  {| currentPolarityPacket := currentPolarityPacket p;
     currentPolarityPacketPosition := currentPolarityPacketPosition p;
     currentSpecialPacket := currentSpecialPacket p;
     currentSpecialPacketPosition := currentSpecialPacketPosition p;
     currentFramePacket := l;
     currentFramePacketPosition := n;
     currentIMU6Packet := currentIMU6Packet p;
     currentIMU6PacketPosition := currentIMU6PacketPosition p |}.
Definition set_imu6 (l : list imu6_event) (n : nat) (p : packet_state) : packet_state :=
  {| currentPolarityPacket := currentPolarityPacket p;
     currentPolarityPacketPosition := currentPolarityPacketPosition p;
     currentSpecialPacket := currentSpecialPacket p;
     currentSpecialPacketPosition := currentSpecialPacketPosition p;
     currentFramePacket := currentFramePacket p;
     currentFramePacketPosition := currentFramePacketPosition p;
     currentIMU6Packet := l;
     currentIMU6PacketPosition := n |}.

Definition advance_polarity (p : packet_state) : packet_state :=
  set_polarity (currentPolarityPacket p) (S (currentPolarityPacketPosition p)) p.
Definition advance_special (p : packet_state) : packet_state :=
  set_special (currentSpecialPacket p) (S (currentSpecialPacketPosition p)) p.
Definition advance_frame (p : packet_state) : packet_state :=
  set_frame (currentFramePacket p) (S (currentFramePacketPosition p)) p.
Definition advance_imu6 (p : packet_state) : packet_state :=
  set_imu6 (currentIMU6Packet p) (S (currentIMU6PacketPosition p)) p.

(** The event under the pointer [currentFrameEvent]; reading a slot that
    does not exist gives the zero event. *)
Definition currentFrameEvent (p : packet_state) : frame_event :=
  default frame_zero (currentFramePacket p !! currentFramePacketPosition p).

(** ** davisEventTranslator: decoding one 16-bit word *)

(** [initFrame]. *)
Definition initFrame (st : davis_state) : davis_state :=
  let a := set_apsCountY counts_zero
             (set_apsCountX counts_zero
                (set_apsCurrentReadoutType APS_READOUT_RESET (aps st))) in
  let s := settings st in
  let p := alter_frame
             (fun e => caerFrameEventAllocatePixels
                         (apsWindow0SizeX s) (apsWindow0SizeY s) (apsChannels s)
                         (caerFrameEventSetTSStartOfFrame (currentTimestamp (timestamps st)) e))
             (packets st) in
  with_packets p (with_aps a st).

(** [calculateIMUAccelScale] and [calculateIMUGyroScale]: 65536.0f divided
    by the [float] of an unsigned 32-bit integer. *)
Definition calculateIMUAccelScale (imuAccelScale : Z) : float :=
  float_div (float_of_Z 65536) (float_of_Z (U32T (4 * Z.shiftl 1 imuAccelScale))).

Definition calculateIMUGyroScale (imuGyroScale : Z) : float :=
  float_div (float_of_Z 65536) (float_of_Z (U32T (500 * Z.shiftl 1 imuGyroScale))).

(** The fields of a word. *)
Definition isTimestamp (event : Z) : bool := negb (Z.land event 0x8000 =? 0).
Definition eventCode (event : Z) : Z := Z.shiftr (Z.land event 0x7000) 12.
Definition eventData (event : Z) : Z := Z.land event 0x0FFF.

(** Timestamp word: expansion to 32 bits. *)
Definition timestampEvent (event : Z) (t : timestamp_state) : timestamp_state :=
  {| wrapAdd := wrapAdd t;
     lastTimestamp := currentTimestamp t;
     currentTimestamp := I32T (U32T (wrapAdd t + Z.land event 0x7FFF)) |}.

(** case 7: timestamp wrap. *)
Definition timestampWrap (data : Z) (t : timestamp_state) : timestamp_state :=
  let w := U32T (wrapAdd t + U32T (0x8000 * data)) in
  {| wrapAdd := w;
     lastTimestamp := currentTimestamp t;
     currentTimestamp := I32T w |}.

(** A special event written at the current position, validated, the
    position advanced. *)
Definition specialEventEmit (f : special_event -> special_event) (st : davis_state) : davis_state :=
  with_packets
    (advance_special (alter_special (fun e => caerSpecialEventValidate (f e)) (packets st))) st.

(** case 0, data 1: timestamp reset. *)
Definition timestampReset (st : davis_state) : davis_state :=
  let st1 := with_dvs {| dvsTimestamp := 0; dvsLastY := dvsLastY (dvs st);
                         dvsGotY := dvsGotY (dvs st) |}
               (with_timestamps {| wrapAdd := 0; lastTimestamp := 0; currentTimestamp := 0 |} st) in
  specialEventEmit
    (fun e => caerSpecialEventSetType TIMESTAMP_RESET (caerSpecialEventSetTimestamp UINT32_MAX e))
    st1.

(** case 0, data 2, 3, 4: external input. *)
Definition externalInput (t : special_type) (st : davis_state) : davis_state :=
  specialEventEmit
    (fun e => caerSpecialEventSetType t
                (caerSpecialEventSetTimestamp (currentTimestamp (timestamps st)) e))
    st.

(** case 0, data 5: IMU start. *)
Definition imuStart (st : davis_state) : davis_state :=
  with_packets
    (alter_imu6 (caerIMU6EventSetTimestamp (currentTimestamp (timestamps st))) (packets st))
    (with_imu (set_imuCount 0 (set_imuIgnoreEvents false (imu st))) st).

(** case 0, data 7: IMU end. *)
Definition imuEnd (st : davis_state) : davis_state :=
  if imuIgnoreEvents (imu st) then st
  else if imuCount (imu st) =? IMU6_COUNT then
    with_packets (advance_imu6 (alter_imu6 caerIMU6EventValidate (packets st))) st
  else st.

(** case 0, data 8, 9, 14, 15: APS frame start. *)
Definition apsFrameStart (globalShutter resetRead : bool) (st : davis_state) : davis_state :=
  let st1 := with_aps (set_apsResetRead resetRead
                         (set_apsGlobalShutter globalShutter
                            (set_apsIgnoreEvents false (aps st)))) st in
  let st2 := initFrame st1 in
  if resetRead then st2
  else with_packets
         (alter_frame (caerFrameEventSetTSStartOfExposure (currentTimestamp (timestamps st2)))
            (packets st2)) st2.

(** The column count a readout phase must have reached at frame end. *)
Definition frameEndCheckValue (st : davis_state) (j : aps_readout) : Z :=
  if aps_readout_eqb j APS_READOUT_RESET && negb (apsResetRead (aps st)) then 0
  else frm_length_x (currentFrameEvent (packets st)).

Definition frameEndValid (st : davis_state) : bool :=
  forallb (fun j => count_get (apsCountX (aps st)) j =? frameEndCheckValue st j)
    [APS_READOUT_RESET; APS_READOUT_SIGNAL].

(** case 0, data 10: APS frame end. *)
Definition apsFrameEnd (st : davis_state) : davis_state :=
  if apsIgnoreEvents (aps st) then st
  else
    let validFrame := frameEndValid st in
    let p1 := alter_frame (caerFrameEventSetTSEndOfFrame (currentTimestamp (timestamps st)))
                (packets st) in
    let p2 := if validFrame then alter_frame caerFrameEventValidate p1 else p1 in
    with_packets (advance_frame p2) st.

(** case 0, data 11: APS reset column start. *)
Definition apsResetColumnStart (st : davis_state) : davis_state :=
  if apsIgnoreEvents (aps st) then st
  else
    let a1 := set_apsCurrentReadoutType APS_READOUT_RESET (aps st) in
    let a2 := set_apsCountY (count_set (apsCountY a1) (apsCurrentReadoutType a1) 0) a1 in
    let a3 := set_apsRGBPixelOffset 0 1 a2 in
    let st1 := with_aps a3 st in
    if negb (apsGlobalShutter a3) && (count_get (apsCountX a3) APS_READOUT_RESET =? 0) then
      with_packets
        (alter_frame (caerFrameEventSetTSStartOfExposure (currentTimestamp (timestamps st)))
           (packets st1)) st1
    else st1.

(** case 0, data 12: APS signal column start. *)
Definition apsSignalColumnStart (st : davis_state) : davis_state :=
  if apsIgnoreEvents (aps st) then st
  else
    let a1 := set_apsCurrentReadoutType APS_READOUT_SIGNAL (aps st) in
    let a2 := set_apsCountY (count_set (apsCountY a1) (apsCurrentReadoutType a1) 0) a1 in
    let a3 := set_apsRGBPixelOffset 0 1 a2 in
    let st1 := with_aps a3 st in
    if count_get (apsCountX a3) APS_READOUT_SIGNAL =? 0 then
      with_packets
        (alter_frame (caerFrameEventSetTSEndOfExposure (currentTimestamp (timestamps st)))
           (packets st1)) st1
    else st1.

(** case 0, data 13: APS column end. *)
Definition apsColumnEnd (st : davis_state) : davis_state :=
  if apsIgnoreEvents (aps st) then st
  else
    let a := aps st in
    let rt := apsCurrentReadoutType a in
    let a1 := set_apsCountX (count_set (apsCountX a) rt (U16T (count_get (apsCountX a) rt + 1))) a in
    let st1 := with_aps a1 st in
    if apsGlobalShutter a1 && aps_readout_eqb rt APS_READOUT_RESET
       && (count_get (apsCountX a1) APS_READOUT_RESET
           =? frm_length_x (currentFrameEvent (packets st))) then
      with_packets
        (alter_frame (caerFrameEventSetTSStartOfExposure (currentTimestamp (timestamps st)))
           (packets st1)) st1
    else st1.

(** case 0, data 16 to 31: IMU scale configuration. *)
Definition imuScaleConfig (data : Z) (st : davis_state) : davis_state :=
  if imuIgnoreEvents (imu st) then st
  else
    with_imu
      (set_imuCount 1
         (set_imuScales (calculateIMUAccelScale (Z.land (Z.shiftr data 2) 0x03))
            (calculateIMUGyroScale (Z.land data 0x03)) (imu st))) st.

(** case 0: the special events, selected by the data field; the second
    component is [forcePacketCommit]. *)
Definition specialEvent (data : Z) (st : davis_state) : davis_state * bool :=
  match data with
  | 0 => (st, false)
  | 1 => (timestampReset st, true)
  | 2 => (externalInput EXTERNAL_INPUT_FALLING_EDGE st, false)
  | 3 => (externalInput EXTERNAL_INPUT_RISING_EDGE st, false)
  | 4 => (externalInput EXTERNAL_INPUT_PULSE st, false)
  | 5 => (imuStart st, false)
  | 7 => (imuEnd st, false)
  | 8 => (apsFrameStart true true st, false)
  | 9 => (apsFrameStart false true st, false)
  | 10 => (apsFrameEnd st, false)
  | 11 => (apsResetColumnStart st, false)
  | 12 => (apsSignalColumnStart st, false)
  | 13 => (apsColumnEnd st, false)
  | 14 => (apsFrameStart true false st, false)
  | 15 => (apsFrameStart false false st, false)
  | 16 | 17 | 18 | 19 | 20 | 21 | 22 | 23
  | 24 | 25 | 26 | 27 | 28 | 29 | 30 | 31 => (imuScaleConfig data st, false)
  | _ => (st, false)
  end.

(** case 1: DVS Y address. *)
Definition dvsYAddress (data : Z) (st : davis_state) : davis_state :=
  if dvsSizeY (settings st) <=? data then st
  else
    let st1 :=
      if dvsGotY (dvs st) then
        specialEventEmit
          (fun e => caerSpecialEventSetData (dvsLastY (dvs st))
                      (caerSpecialEventSetType DVS_ROW_ONLY
                         (caerSpecialEventSetTimestamp (dvsTimestamp (dvs st)) e)))
          st
      else st in
    with_dvs {| dvsTimestamp := currentTimestamp (timestamps st1);
                dvsLastY := data;
                dvsGotY := true |} st1.

(** case 2 and 3: the polarity bit of an X address; the DAVIS208 inverts
    it for the high gain pixels. *)
Definition dvsPolarity (s : davis_settings) (code data : Z) : bool :=
  let polarity :=
    if chip_eqb (chipID s) CHIP_DAVIS208 && (data <? 192)
    then U8T (Z.lnot code) else code in
  Z.land polarity 0x01 =? 1.

(** case 2 and 3: DVS X address with polarity OFF (code 2) or ON (code 3). *)
Definition dvsXAddress (code data : Z) (st : davis_state) : davis_state :=
  if dvsSizeX (settings st) <=? data then st
  else
    let d := dvs st in
    let setXY (e : polarity_event) :=
      if dvsInvertXY (settings st)
      then caerPolarityEventSetX (dvsLastY d) (caerPolarityEventSetY data e)
      else caerPolarityEventSetX data (caerPolarityEventSetY (dvsLastY d) e) in
    let p := alter_polarity
               (fun e => caerPolarityEventValidate
                           (setXY (caerPolarityEventSetPolarity (dvsPolarity (settings st) code data)
                                     (caerPolarityEventSetTimestamp (dvsTimestamp d) e))))
               (packets st) in
    with_dvs {| dvsTimestamp := dvsTimestamp d; dvsLastY := dvsLastY d; dvsGotY := false |}
      (with_packets (advance_polarity p) st).

(** The RGB pixel offset walk after a sample. *)
Definition apsRGBOffsetStep (a : aps_state) : aps_state :=
  if apsRGBPixelOffsetDirection a =? 0 then
    let off := I16T (apsRGBPixelOffset a + 1) in
    if off =? 321 then set_apsRGBPixelOffset 1 318 a
    else set_apsRGBPixelOffset (apsRGBPixelOffsetDirection a) off a
  else
    set_apsRGBPixelOffset (apsRGBPixelOffsetDirection a) (I16T (apsRGBPixelOffset a - 3)) a.

(** case 4: position of the sample in the frame, after flipping, the RGB
    offset and the exchange of the axes. *)
Definition apsSampleXY (st : davis_state) : Z * Z :=
  let a := aps st in
  let s := settings st in
  let rt := apsCurrentReadoutType a in
  let lengthX := frm_length_x (currentFrameEvent (packets st)) in
  let lengthY := frm_length_y (currentFrameEvent (packets st)) in
  let xPos := if apsFlipX s then U16T (lengthX - 1 - count_get (apsCountX a) rt)
              else U16T (count_get (apsCountX a) rt) in
  let yPos := if apsFlipY s then U16T (lengthY - 1 - count_get (apsCountY a) rt)
              else U16T (count_get (apsCountY a) rt) in
  let yPos := if chip_eqb (chipID s) CHIP_DAVISRGB
              then U16T (yPos + apsRGBPixelOffset a) else yPos in
  if apsInvertXY s then (yPos, xPos) else (xPos, yPos).

(** [pixelPosition], the index in the pixel array of the frame event. *)
Definition apsPixelPosition (st : davis_state) : nat :=
  let (xPos, yPos) := apsSampleXY st in
  Z.to_nat (yPos * frm_length_x (currentFrameEvent (packets st)) + xPos).

(** [pixelPositionAbs], the index in [apsCurrentResetFrame]. *)
Definition apsPixelPositionAbs (st : davis_state) : nat :=
  let (xPos, yPos) := apsSampleXY st in
  let xPosAbs := U16T (xPos + apsWindow0StartX (settings st)) in
  let yPosAbs := U16T (yPos + apsWindow0StartY (settings st)) in
  Z.to_nat (yPosAbs * apsSizeX (settings st) + xPosAbs).

(** The DAVIS RGB in global shutter mode has the two reads exchanged. *)
Definition apsRGBGlobalShutter (st : davis_state) : bool :=
  chip_eqb (chipID (settings st)) CHIP_DAVISRGB && apsGlobalShutter (aps st).

(** The sample is a reset read, stored in [apsCurrentResetFrame]. *)
Definition apsSampleIsResetRead (st : davis_state) : bool :=
  let rt := apsCurrentReadoutType (aps st) in
  (aps_readout_eqb rt APS_READOUT_RESET && negb (apsRGBGlobalShutter st))
  || (aps_readout_eqb rt APS_READOUT_SIGNAL && apsRGBGlobalShutter st).

(** The value of [apsCurrentResetFrame] at the sample; reading outside the
    bounds of the array (undefined in C) gives 0. *)
Definition apsResetValue (st : davis_state) : Z :=
  default 0 (apsCurrentResetFrame (aps st) !! apsPixelPositionAbs st).

(** The pixel value of a signal read: difference to the reset read,
    clamped at 0, normalised to 16 bits. *)
Definition apsPixelValue (st : davis_state) (data : Z) : Z :=
  let pixelValue := if apsRGBGlobalShutter st then data - apsResetValue st
                    else apsResetValue st - data in
  let pixelValue := if pixelValue <? 0 then 0 else pixelValue in
  let pixelValue := Z.shiftl pixelValue (16 - DAVIS_ADC_DEPTH) in
  U16T pixelValue.

(** case 4: APS ADC sample.  A write outside the bounds of an array
    (undefined in C) is without effect. *)
Definition apsADCSample (data : Z) (st : davis_state) : davis_state :=
  let a := aps st in
  if apsIgnoreEvents a then st
  else
    let rt := apsCurrentReadoutType a in
    if frm_length_y (currentFrameEvent (packets st)) <=? count_get (apsCountY a) rt then st
    else
      let st1 :=
        if apsSampleIsResetRead st
        then with_aps (set_apsCurrentResetFrame
                         (<[apsPixelPositionAbs st := data]> (apsCurrentResetFrame a)) a) st
        else
          with_packets
            (alter_frame
               (fun e => frame_set_pixels
                           (<[apsPixelPosition st := apsPixelValue st data]> (frm_pixels e)) e)
               (packets st)) st in
      let a1 := aps st1 in
      let a2 := set_apsCountY (count_set (apsCountY a1) rt (U16T (count_get (apsCountY a1) rt + 1))) a1 in
      let a3 := if chip_eqb (chipID (settings st)) CHIP_DAVISRGB then apsRGBOffsetStep a2 else a2 in
      with_aps a3 st1.

(** The 16-bit sample assembled from the stored high byte and the low
    byte of this word, converted to [float] for the division. *)
Definition imuSample (i : imu_state) (misc8Data : Z) : float :=
  float_of_Z (I16T (Z.lor (Z.shiftl (imuTmpData i) 8) misc8Data)).

(** case 5, misc8 code 0: one byte of IMU data. *)
Definition imuData (misc8Data : Z) (st : davis_state) : davis_state :=
  let i := imu st in
  if imuIgnoreEvents i then st
  else if IMU6_COUNT <=? imuCount i then st
  else
    let v := imuSample i misc8Data in
    let st1 :=
      match imuCount i with
      | 0 => with_imu (set_imuTmpData misc8Data (set_imuCount 1 i)) st
      | 1 | 3 | 5 | 7 | 9 | 11 | 13 => with_imu (set_imuTmpData misc8Data i) st
      | 2 => with_packets
               (alter_imu6 (caerIMU6EventSetAccelX (float_div v (imuAccelScale i))) (packets st)) st
      | 4 => with_packets
               (alter_imu6 (caerIMU6EventSetAccelY (float_div v (imuAccelScale i))) (packets st)) st
      | 6 => with_packets
               (alter_imu6 (caerIMU6EventSetAccelZ (float_div v (imuAccelScale i))) (packets st)) st
      | 8 => with_packets
               (alter_imu6
                  (caerIMU6EventSetTemp
                     (float_add (float_div v (float_of_Z 340)) float_36_53))
                  (packets st)) st
      | 10 => with_packets
                (alter_imu6 (caerIMU6EventSetGyroX (float_div v (imuGyroScale i))) (packets st)) st
      | 12 => with_packets
                (alter_imu6 (caerIMU6EventSetGyroY (float_div v (imuGyroScale i))) (packets st)) st
      | 14 => with_packets
                (alter_imu6 (caerIMU6EventSetGyroZ (float_div v (imuGyroScale i))) (packets st)) st
      | _ => st
      end in
    with_imu (set_imuCount (U8T (imuCount (imu st1) + 1)) (imu st1)) st1.

(** case 5: misc 8-bit data. *)
Definition misc8Event (data : Z) (st : davis_state) : davis_state :=
  let misc8Code := U8T (Z.shiftr (Z.land data 0x0F00) 8) in
  let misc8Data := U8T (Z.land data 0x00FF) in
  match misc8Code with
  | 0 => imuData misc8Data st
  | _ => st
  end.

(** The first half of the loop body: the word is decoded into the
    in-progress packets; the second component is [forcePacketCommit]. *)
Definition decodeEvent (st : davis_state) (event : Z) : davis_state * bool :=
  if isTimestamp event then
    (with_timestamps (timestampEvent event (timestamps st)) st, false)
  else
    let code := eventCode event in
    let data := eventData event in
    match code with
    | 0 => specialEvent data st
    | 1 => (dvsYAddress data st, false)
    | 2 | 3 => (dvsXAddress code data st, false)
    | 4 => (apsADCSample data st, false)
    | 5 => (misc8Event data st, false)
    | 7 => (with_timestamps (timestampWrap data (timestamps st)) st, false)
    | _ => (st, false)
    end.

(** ** davisEventTranslator: committing the packets

    A packet is committed when the commit is forced, when its position has
    reached its capacity, or when the span between its first and its last
    event has reached the packet interval.  The log messages and the
    data-available notification are not part of the state. *)

Definition polarityCommitCheck (force : bool) (st : davis_state) : bool :=
  let p := packets st in
  let pos := currentPolarityPacketPosition p in
  let ts (n : nat) := pol_timestamp (default polarity_zero (currentPolarityPacket p !! n)) in
  force
  || (caerEventPacketHeaderGetEventCapacity (currentPolarityPacket p) <=? pos)%nat
  || ((1 <? pos)%nat && (maxPolarityPacketInterval (settings st) <=? ts (pos - 1)%nat - ts 0%nat)).

Definition frameCommitCheck (force : bool) (st : davis_state) : bool :=
  let p := packets st in
  let pos := currentFramePacketPosition p in
  let ts (n : nat) := frm_ts_start_of_exposure (default frame_zero (currentFramePacket p !! n)) in
  force
  || (caerEventPacketHeaderGetEventCapacity (currentFramePacket p) <=? pos)%nat
  || ((1 <? pos)%nat && (maxFramePacketInterval (settings st) <=? ts (pos - 1)%nat - ts 0%nat)).

Definition imu6CommitCheck (force : bool) (st : davis_state) : bool :=
  let p := packets st in
  let pos := currentIMU6PacketPosition p in
  let ts (n : nat) := imu_timestamp (default imu6_zero (currentIMU6Packet p !! n)) in
  force
  || (caerEventPacketHeaderGetEventCapacity (currentIMU6Packet p) <=? pos)%nat
  || ((1 <? pos)%nat && (maxIMU6PacketInterval (settings st) <=? ts (pos - 1)%nat - ts 0%nat)).

Definition specialCommitCheck (force : bool) (st : davis_state) : bool :=
  let p := packets st in
  let pos := currentSpecialPacketPosition p in
  let ts (n : nat) := spe_timestamp (default special_zero (currentSpecialPacket p !! n)) in
  force
  || (caerEventPacketHeaderGetEventCapacity (currentSpecialPacket p) <=? pos)%nat
  || ((1 <? pos)%nat && (maxSpecialPacketInterval (settings st) <=? ts (pos - 1)%nat - ts 0%nat)).

Definition commitPolarity (force : bool) (st : davis_state) : davis_state :=
  if polarityCommitCheck force st then
    let x := put_or_drop (dataExchangeBufferSize (settings st)) (dataExchangeBuffer st)
               (PolarityPacket (currentPolarityPacket (packets st))) in
    with_packets
      (set_polarity (caerPolarityEventPacketAllocate (maxPolarityPacketSize (settings st))) 0
         (packets st))
      (with_exchange x st)
  else st.

Definition commitFrame (force : bool) (st : davis_state) : davis_state :=
  if frameCommitCheck force st then
    let x := put_or_drop (dataExchangeBufferSize (settings st)) (dataExchangeBuffer st)
               (FramePacket (currentFramePacket (packets st))) in
    with_aps (set_apsIgnoreEvents true (aps st))
      (with_packets
         (set_frame (caerFrameEventPacketAllocate (maxFramePacketSize (settings st))) 0
            (packets st))
         (with_exchange x st))
  else st.

Definition commitIMU6 (force : bool) (st : davis_state) : davis_state :=
  if imu6CommitCheck force st then
    let x := put_or_drop (dataExchangeBufferSize (settings st)) (dataExchangeBuffer st)
               (IMU6Packet (currentIMU6Packet (packets st))) in
    with_imu (set_imuIgnoreEvents true (imu st))
      (with_packets
         (set_imu6 (caerIMU6EventPacketAllocate (maxIMU6PacketSize (settings st))) 0
            (packets st))
         (with_exchange x st))
  else st.

(** The special packet: under [forcePacketCommit] the put is retried
    until it succeeds, otherwise a failed put drops the packet.  [None]:
    the retry loop never exits. *)
Definition commitSpecial (force : bool) (st : davis_state) : option davis_state :=
  if specialCommitCheck force st then
    let pkt := SpecialPacket (currentSpecialPacket (packets st)) in
    let cap := dataExchangeBufferSize (settings st) in
    let ox := if force then put_or_spin cap (dataExchangeBuffer st) pkt
              else Some (put_or_drop cap (dataExchangeBuffer st) pkt) in
    match ox with
    | Some x =>
        Some (with_packets
                (set_special (caerSpecialEventPacketAllocate (maxSpecialPacketSize (settings st))) 0
                   (packets st))
                (with_exchange x st))
    | None => None
    end
  else Some st.

(** One iteration of the loop of [davisEventTranslator]. *)
Definition translateEvent (st : davis_state) (event : Z) : option davis_state :=
  let (st1, forcePacketCommit) := decodeEvent st event in
  commitSpecial forcePacketCommit
    (commitIMU6 forcePacketCommit
       (commitFrame forcePacketCommit
          (commitPolarity forcePacketCommit st1))).

(** The loop over the words of a transfer. *)
Fixpoint translateEvents (st : davis_state) (events : list Z) : option davis_state :=
  match events with
  | [] => Some st
  | event :: rest =>
      match translateEvent st event with
      | Some st' => translateEvents st' rest
      | None => None
      end
  end.

(** The little-endian 16-bit words of a buffer; an odd trailing byte is
    cut off. *)
Fixpoint le16_words (buffer : list Byte.byte) : list Z :=
  match buffer with
  | lo :: hi :: rest =>
      (Z.of_N (Byte.to_N lo) + 256 * Z.of_N (Byte.to_N hi)) :: le16_words rest
  | _ => []
  end.

Definition davisEventTranslator (st : davis_state) (buffer : list Byte.byte)
  : option davis_state :=
  translateEvents st (le16_words buffer).

(** ** The state after davisOpen and davisCommonDataStart

    The handle is zeroed by calloc; [davisOpen] reads the geometry from
    the device and [davisCommonDataStart] allocates the four packets and
    the reset frame and reads the shutter settings. *)
Definition start_state (s : davis_settings) (globalShutter resetRead : bool)
  (accelScale gyroScale : Z) : davis_state :=
  {| settings := s;
     timestamps := {| wrapAdd := 0; lastTimestamp := 0; currentTimestamp := 0 |};
     dvs := {| dvsTimestamp := 0; dvsLastY := 0; dvsGotY := false |};
     aps := {| apsIgnoreEvents := false;
               apsGlobalShutter := globalShutter;
               apsResetRead := resetRead;
               apsCurrentReadoutType := APS_READOUT_RESET;
               apsCountX := counts_zero; apsCountY := counts_zero;
               apsRGBPixelOffset := 0; apsRGBPixelOffsetDirection := 0;
               apsCurrentResetFrame :=
                 repeat 0 (Z.to_nat (apsSizeX s * apsSizeY s * apsChannels s)) |};
     imu := {| imuIgnoreEvents := false; imuCount := 0; imuTmpData := 0;
               imuAccelScale := calculateIMUAccelScale (U8T accelScale);
               imuGyroScale := calculateIMUGyroScale (U8T gyroScale) |};
     packets := {| currentPolarityPacket := caerPolarityEventPacketAllocate (maxPolarityPacketSize s);
                   currentPolarityPacketPosition := 0;
                   currentSpecialPacket := caerSpecialEventPacketAllocate (maxSpecialPacketSize s);
                   currentSpecialPacketPosition := 0;
                   currentFramePacket := caerFrameEventPacketAllocate (maxFramePacketSize s);
                   currentFramePacketPosition := 0;
                   currentIMU6Packet := caerIMU6EventPacketAllocate (maxIMU6PacketSize s);
                   currentIMU6PacketPosition := 0 |};
     dataExchangeBuffer := {| ring := []; consumer := []; freed := [] |} |}.

(** The packet limits set by [davisOpen], with the geometry of a
    DAVIS240 (240 x 180, one APS channel, full-frame window). *)
Definition davis240_settings : davis_settings :=
  {| chipID := CHIP_OTHER;
     dvsSizeX := 240; dvsSizeY := 180; dvsInvertXY := false;
     apsSizeX := 240; apsSizeY := 180; apsChannels := 1;
     apsInvertXY := false; apsFlipX := false; apsFlipY := false;
     apsWindow0StartX := 0; apsWindow0StartY := 0;
     apsWindow0SizeX := 240; apsWindow0SizeY := 180;
     dataExchangeBufferSize := 64;
     maxPolarityPacketSize := 4096; maxPolarityPacketInterval := 5000;
     maxSpecialPacketSize := 128; maxSpecialPacketInterval := 1000;
     maxFramePacketSize := 4; maxFramePacketInterval := 50000;
     maxIMU6PacketSize := 8; maxIMU6PacketInterval := 5000 |}.

Definition davis240_start : davis_state := start_state davis240_settings true true 0 0.

(** ** davisCommonDataStart

    The pointers of the state that [davisCommonDataStart] fills and
    [freeAllDataMemory] releases; [true] stands for a live allocation,
    [false] for NULL. *)
Record data_memory : Set := {
  mem_dataExchangeBuffer : bool;
  mem_currentPacketContainer : bool;
  mem_currentPolarityPacket : bool;
  mem_currentSpecialPacket : bool;
  mem_currentFramePacket : bool;
  mem_currentIMU6Packet : bool;
  mem_apsCurrentResetFrame : bool
}.

(** The outcome of each allocation of one call, in program order, and of
    [pthread_create]; [true] stands for success. *)
Record start_outcomes : Set := {
  ringBufferInit_ok : bool;
  caerEventPacketContainerAllocate_ok : bool;
  caerPolarityEventPacketAllocate_ok : bool;
  caerSpecialEventPacketAllocate_ok : bool;
  caerFrameEventPacketAllocate_ok : bool;
  caerIMU6EventPacketAllocate_ok : bool;
  calloc_apsCurrentResetFrame_ok : bool;
  pthread_create_ok : bool
}.

Record start_result : Set := {
  start_returned : bool;        (* value returned to the caller *)
  start_memory : data_memory;   (* the pointers on return *)
  start_thread : bool           (* the acquisition thread runs *)
}.

Definition memory_null : data_memory :=
  {| mem_dataExchangeBuffer := false; mem_currentPacketContainer := false;
     mem_currentPolarityPacket := false; mem_currentSpecialPacket := false;
     mem_currentFramePacket := false; mem_currentIMU6Packet := false;
     mem_apsCurrentResetFrame := false |}.

(** [freeAllDataMemory]: every pointer that is not NULL is freed and set
    to NULL. *)
Definition freeAllDataMemory (m : data_memory) : data_memory :=
  {| mem_dataExchangeBuffer := if mem_dataExchangeBuffer m then false else mem_dataExchangeBuffer m;
     mem_currentPacketContainer := if mem_currentPacketContainer m then false else mem_currentPacketContainer m;
     mem_currentPolarityPacket := if mem_currentPolarityPacket m then false else mem_currentPolarityPacket m;
     mem_currentSpecialPacket := if mem_currentSpecialPacket m then false else mem_currentSpecialPacket m;
     mem_currentFramePacket := if mem_currentFramePacket m then false else mem_currentFramePacket m;
     mem_currentIMU6Packet := if mem_currentIMU6Packet m then false else mem_currentIMU6Packet m;
     mem_apsCurrentResetFrame := if mem_apsCurrentResetFrame m then false else mem_apsCurrentResetFrame m |}.

Definition start_failed (m : data_memory) : start_result :=
  {| start_returned := false; start_memory := m; start_thread := false |}.

(** [davisCommonDataStart], from a state whose pointers are NULL.  After
    the calloc of the reset frame the code tests [currentIMU6Packet]. *)
Definition davisCommonDataStart (o : start_outcomes) : start_result :=
  let m0 := memory_null in
  let m1 := {| mem_dataExchangeBuffer := ringBufferInit_ok o;
               mem_currentPacketContainer := mem_currentPacketContainer m0;
               mem_currentPolarityPacket := mem_currentPolarityPacket m0;
               mem_currentSpecialPacket := mem_currentSpecialPacket m0;
               mem_currentFramePacket := mem_currentFramePacket m0;
               mem_currentIMU6Packet := mem_currentIMU6Packet m0;
               mem_apsCurrentResetFrame := mem_apsCurrentResetFrame m0 |} in
  if negb (mem_dataExchangeBuffer m1) then start_failed m1
  else
  let m2 := {| mem_dataExchangeBuffer := mem_dataExchangeBuffer m1;
               mem_currentPacketContainer := caerEventPacketContainerAllocate_ok o;
               mem_currentPolarityPacket := mem_currentPolarityPacket m1;
               mem_currentSpecialPacket := mem_currentSpecialPacket m1;
               mem_currentFramePacket := mem_currentFramePacket m1;
               mem_currentIMU6Packet := mem_currentIMU6Packet m1;
               mem_apsCurrentResetFrame := mem_apsCurrentResetFrame m1 |} in
  if negb (mem_currentPacketContainer m2) then start_failed (freeAllDataMemory m2)
  else
  let m3 := {| mem_dataExchangeBuffer := mem_dataExchangeBuffer m2;
               mem_currentPacketContainer := mem_currentPacketContainer m2;
               mem_currentPolarityPacket := caerPolarityEventPacketAllocate_ok o;
               mem_currentSpecialPacket := mem_currentSpecialPacket m2;
               mem_currentFramePacket := mem_currentFramePacket m2;
               mem_currentIMU6Packet := mem_currentIMU6Packet m2;
               mem_apsCurrentResetFrame := mem_apsCurrentResetFrame m2 |} in
  if negb (mem_currentPolarityPacket m3) then start_failed (freeAllDataMemory m3)
  else
  let m4 := {| mem_dataExchangeBuffer := mem_dataExchangeBuffer m3;
               mem_currentPacketContainer := mem_currentPacketContainer m3;
               mem_currentPolarityPacket := mem_currentPolarityPacket m3;
               mem_currentSpecialPacket := caerSpecialEventPacketAllocate_ok o;
               mem_currentFramePacket := mem_currentFramePacket m3;
               mem_currentIMU6Packet := mem_currentIMU6Packet m3;
               mem_apsCurrentResetFrame := mem_apsCurrentResetFrame m3 |} in
  if negb (mem_currentSpecialPacket m4) then start_failed (freeAllDataMemory m4)
  else
  let m5 := {| mem_dataExchangeBuffer := mem_dataExchangeBuffer m4;
               mem_currentPacketContainer := mem_currentPacketContainer m4;
               mem_currentPolarityPacket := mem_currentPolarityPacket m4;
               mem_currentSpecialPacket := mem_currentSpecialPacket m4;
               mem_currentFramePacket := caerFrameEventPacketAllocate_ok o;
               mem_currentIMU6Packet := mem_currentIMU6Packet m4;
               mem_apsCurrentResetFrame := mem_apsCurrentResetFrame m4 |} in
  if negb (mem_currentFramePacket m5) then start_failed (freeAllDataMemory m5)
  else
  let m6 := {| mem_dataExchangeBuffer := mem_dataExchangeBuffer m5;
               mem_currentPacketContainer := mem_currentPacketContainer m5;
               mem_currentPolarityPacket := mem_currentPolarityPacket m5;
               mem_currentSpecialPacket := mem_currentSpecialPacket m5;
               mem_currentFramePacket := mem_currentFramePacket m5;
               mem_currentIMU6Packet := caerIMU6EventPacketAllocate_ok o;
               mem_apsCurrentResetFrame := mem_apsCurrentResetFrame m5 |} in
  if negb (mem_currentIMU6Packet m6) then start_failed (freeAllDataMemory m6)
  else
  let m7 := {| mem_dataExchangeBuffer := mem_dataExchangeBuffer m6;
               mem_currentPacketContainer := mem_currentPacketContainer m6;
               mem_currentPolarityPacket := mem_currentPolarityPacket m6;
               mem_currentSpecialPacket := mem_currentSpecialPacket m6;
               mem_currentFramePacket := mem_currentFramePacket m6;
               mem_currentIMU6Packet := mem_currentIMU6Packet m6;
               mem_apsCurrentResetFrame := calloc_apsCurrentResetFrame_ok o |} in
  if negb (mem_currentIMU6Packet m7) then start_failed (freeAllDataMemory m7)
  else
  if negb (pthread_create_ok o) then start_failed (freeAllDataMemory m7)
  else {| start_returned := true; start_memory := m7; start_thread := true |}.

(** All allocations succeed except the calloc of the reset frame. *)
Definition reset_frame_calloc_fails : start_outcomes :=
  {| ringBufferInit_ok := true;
     caerEventPacketContainerAllocate_ok := true;
     caerPolarityEventPacketAllocate_ok := true;
     caerSpecialEventPacketAllocate_ok := true;
     caerFrameEventPacketAllocate_ok := true;
     caerIMU6EventPacketAllocate_ok := true;
     calloc_apsCurrentResetFrame_ok := false;
     pthread_create_ok := true |}.

(** ** Observations used by the properties *)

(** The classes of words the translator tells apart. *)
Definition isSpecial (event : Z) (data : Z) : bool :=
  negb (isTimestamp event) && (eventCode event =? 0) && (eventData event =? data).

Definition isAPSFrameStart (event : Z) : bool :=
  isSpecial event 8 || isSpecial event 9 || isSpecial event 14 || isSpecial event 15.

(** The APS words other than a frame start: frame end, column start and
    end, ADC sample. *)
Definition isAPSWord (event : Z) : bool :=
  isSpecial event 10 || isSpecial event 11 || isSpecial event 12 || isSpecial event 13
  || (negb (isTimestamp event) && (eventCode event =? 4)).

Definition isIMUStart (event : Z) : bool := isSpecial event 5.

(** The IMU words other than an IMU start: IMU end, scale configuration,
    IMU data byte. *)
Definition isIMUWord (event : Z) : bool :=
  isSpecial event 7
  || (negb (isTimestamp event) && (eventCode event =? 0)
      && (16 <=? eventData event) && (eventData event <=? 31))
  || (negb (isTimestamp event) && (eventCode event =? 5)).

Definition isDvsY (event : Z) : bool :=
  negb (isTimestamp event) && (eventCode event =? 1).

Definition isDvsX (event : Z) : bool :=
  negb (isTimestamp event) && ((eventCode event =? 2) || (eventCode event =? 3)).

(** No slot of a packet from position [pos] on is validated. *)
Definition fresh_from {E : Type} (valid : E -> bool) (pos : nat) (l : list E) : Prop :=
  forall i e, (pos <= i)%nat -> l !! i = Some e -> valid e = false.

(** The in-progress packets have a slot at their position and no slot from
    the position on is validated; the packet sizes are positive. *)
Record packets_wf (st : davis_state) : Prop := {
  wf_polarity_pos :
    (currentPolarityPacketPosition (packets st) < length (currentPolarityPacket (packets st)))%nat;
  wf_special_pos :
    (currentSpecialPacketPosition (packets st) < length (currentSpecialPacket (packets st)))%nat;
  wf_frame_pos :
    (currentFramePacketPosition (packets st) < length (currentFramePacket (packets st)))%nat;
  wf_imu6_pos :
    (currentIMU6PacketPosition (packets st) < length (currentIMU6Packet (packets st)))%nat;
  wf_polarity_fresh :
    fresh_from pol_valid (currentPolarityPacketPosition (packets st))
      (currentPolarityPacket (packets st));
  wf_special_fresh :
    fresh_from spe_valid (currentSpecialPacketPosition (packets st))
      (currentSpecialPacket (packets st));
  wf_frame_fresh :
    fresh_from frm_valid (currentFramePacketPosition (packets st))
      (currentFramePacket (packets st));
  wf_imu6_fresh :
    fresh_from imu_valid (currentIMU6PacketPosition (packets st))
      (currentIMU6Packet (packets st));
  wf_polarity_size : (0 < maxPolarityPacketSize (settings st))%nat;
  wf_special_size : (0 < maxSpecialPacketSize (settings st))%nat;
  wf_frame_size : (0 < maxFramePacketSize (settings st))%nat;
  wf_imu6_size : (0 < maxIMU6PacketSize (settings st))%nat
}.

(** The same between the decoding of a word and the commit checks, where a
    position may have reached the capacity. *)
Record packets_decoded (st : davis_state) : Prop := {
  dec_polarity_pos :
    (currentPolarityPacketPosition (packets st) <= length (currentPolarityPacket (packets st)))%nat;
  dec_special_pos :
    (currentSpecialPacketPosition (packets st) <= length (currentSpecialPacket (packets st)))%nat;
  dec_frame_pos :
    (currentFramePacketPosition (packets st) <= length (currentFramePacket (packets st)))%nat;
  dec_imu6_pos :
    (currentIMU6PacketPosition (packets st) <= length (currentIMU6Packet (packets st)))%nat;
  dec_polarity_fresh :
    fresh_from pol_valid (currentPolarityPacketPosition (packets st))
      (currentPolarityPacket (packets st));
  dec_special_fresh :
    fresh_from spe_valid (currentSpecialPacketPosition (packets st))
      (currentSpecialPacket (packets st));
  dec_frame_fresh :
    fresh_from frm_valid (currentFramePacketPosition (packets st))
      (currentFramePacket (packets st));
  dec_imu6_fresh :
    fresh_from imu_valid (currentIMU6PacketPosition (packets st))
      (currentIMU6Packet (packets st));
  dec_polarity_size : (0 < maxPolarityPacketSize (settings st))%nat;
  dec_special_size : (0 < maxSpecialPacketSize (settings st))%nat;
  dec_frame_size : (0 < maxFramePacketSize (settings st))%nat;
  dec_imu6_size : (0 < maxIMU6PacketSize (settings st))%nat
}.

(** A special packet carries a timestamp reset marker. *)
Definition isTimestampReset (e : special_event) : bool :=
  spe_valid e && match spe_type e with Some TIMESTAMP_RESET => true | _ => false end.

Definition carriesTimestampReset (p : event_packet) : bool :=
  match p with
  | SpecialPacket l => existsb isTimestampReset l
  | _ => false
  end.

(** No timestamp reset marker is pending in the in-progress special packet
    and none was freed. *)
Definition no_reset_lost (st : davis_state) : Prop :=
  existsb isTimestampReset (currentSpecialPacket (packets st)) = false
  /\ forallb (fun p => negb (carriesTimestampReset p)) (freed (dataExchangeBuffer st)) = true.

(** The exchange buffer is full when the producer calls [ringBufferPut]. *)
Definition exchangeFull (st : davis_state) : bool :=
  (dataExchangeBufferSize (settings st)
   <=? length (drop (hd 0%nat (consumer (dataExchangeBuffer st)))
                 (ring (dataExchangeBuffer st))))%nat.

(** Number of polarity events the words of a transfer write into the
    polarity packets. *)
Fixpoint polarityEmitted (st : davis_state) (events : list Z) : nat :=
  match events with
  | [] => 0
  | event :: rest =>
      let n := (currentPolarityPacketPosition (packets (fst (decodeEvent st event)))
                - currentPolarityPacketPosition (packets st))%nat in
      match translateEvent st event with
      | Some st' => (n + polarityEmitted st' rest)%nat
      | None => n
      end
  end.

(** The pairing of the specification: an X address counts when a Y
    address is latched, and takes the latch. *)
Fixpoint spec_yx_pairs (gotY : bool) (events : list Z) : nat :=
  match events with
  | [] => 0
  | event :: rest =>
      if isDvsY event then spec_yx_pairs true rest
      else if isDvsX event then
        ((if gotY then 1 else 0) + spec_yx_pairs false rest)%nat
      else spec_yx_pairs gotY rest
  end.

(** The pixel of the specification for a reset read [R] and a signal read
    [S]. *)
Definition spec_cds_pixel (R S : Z) : Z :=
  if S <=? R then Z.shiftl (R - S) (16 - DAVIS_ADC_DEPTH) else 0.

(** The pairing property of the specification: the polarity events written
    are as many as the (Y, X) pairs of the words. *)
Definition spec_polarity_in_pairs (st : davis_state) (events : list Z) : Prop :=
  polarityEmitted st events = spec_yx_pairs (dvsGotY (dvs st)) events.

(** Scenario S1 of the specification: the words and the polarity event
    expected of them. *)
Definition spec_S1_words : list Z := [0x0005; 0x8010; 0x2003].

Definition spec_S1_holds (st : davis_state) : Prop :=
  exists st', translateEvents st spec_S1_words = Some st'
    /\ currentPolarityPacketPosition (packets st') = 1%nat
    /\ currentPolarityPacket (packets st') !! 0%nat
       = Some {| pol_timestamp := 0x10; pol_polarity := false; pol_x := 3; pol_y := 5;
                 pol_valid := true |}.

(** A monochrome sensor with an APS array of 2 x 1 pixels, read in full. *)
Definition mono_2x1_settings : davis_settings :=
  {| chipID := CHIP_OTHER;
     dvsSizeX := 2; dvsSizeY := 1; dvsInvertXY := false;
     apsSizeX := 2; apsSizeY := 1; apsChannels := 1;
     apsInvertXY := false; apsFlipX := false; apsFlipY := false;
     apsWindow0StartX := 0; apsWindow0StartY := 0;
     apsWindow0SizeX := 2; apsWindow0SizeY := 1;
     dataExchangeBufferSize := 64;
     maxPolarityPacketSize := 4096; maxPolarityPacketInterval := 5000;
     maxSpecialPacketSize := 128; maxSpecialPacketInterval := 1000;
     maxFramePacketSize := 4; maxFramePacketInterval := 50000;
     maxIMU6PacketSize := 8; maxIMU6PacketInterval := 5000 |}.

Definition mono_2x1_start : davis_state := start_state mono_2x1_settings true true 0 0.

(** The state after the words of a transfer (the state before, should the
    translator not return). *)
Definition state_after (st : davis_state) (events : list Z) : davis_state :=
  default st (translateEvents st events).

(** Scenario S5 of the specification: global shutter frame start, reset
    column start, sample 800, column end, signal column start, sample 200,
    column end, frame end. *)
Definition spec_S5_words : list Z :=
  [0x0008; 0x000B; 0x4320; 0x000D; 0x000C; 0x40C8; 0x000D; 0x000A].

(** The CDS property of the specification for the sample [event] decoded
    in [st]: the pixel stored is (R - S) << 6, or 0 when R < S. *)
Definition spec_cds_holds (st : davis_state) (event : Z) : Prop :=
  frm_pixels (currentFrameEvent (packets (fst (decodeEvent st event)))) !! apsPixelPosition st
  = Some (spec_cds_pixel (apsResetValue st) (eventData event)).

(** The state after start with an exchange buffer filled to its capacity
    and an idle consumer. *)
Definition davis240_full : davis_state :=
  with_exchange {| ring := repeat (PolarityPacket []) 64; consumer := []; freed := [] |}
    davis240_start.

(** An X address word within the DVS array. *)
Definition dvsXInRange (s : davis_settings) (event : Z) : bool :=
  isDvsX event && (eventData event <? dvsSizeX s).

(** Number of in-range X address words of a transfer. *)
Definition inRangeXWords (s : davis_settings) (events : list Z) : nat :=
  length (List.filter (dvsXInRange s) events).

(** No commit is due: the state between two iterations. *)
Definition commits_quiescent (st : davis_state) : Prop :=
  polarityCommitCheck false st = false /\ frameCommitCheck false st = false
  /\ imu6CommitCheck false st = false /\ specialCommitCheck false st = false.

(** The state after an IMU start, a scale configuration and thirteen IMU
    data bytes: imuCount has reached [IMU6_COUNT]. *)
Definition imu_record_state : davis_state :=
  state_after davis240_start (0x0005 :: 0x0010 :: repeat 0x5000 13).

(** ** The SPI configuration transfers

    [spiConfigSend] and [spiConfigReceive] exchange a 32-bit parameter with
    the device in a vendor control transfer of four bytes. *)

(** The control transfer [spiConfigSend] submits: module address,
    parameter address and the bytes of [spiConfig]. *)
Record control_transfer : Set := {
  ct_moduleAddr : Z;
  ct_paramAddr : Z;
  ct_data : list Z
}.

(** [spiConfigSend]: the parameter is laid out most significant byte
    first. *)
Definition spiConfigSend (moduleAddr paramAddr param : Z) : control_transfer :=
  {| ct_moduleAddr := moduleAddr;
     ct_paramAddr := paramAddr;
     ct_data := [U8T (Z.shiftr param 24); U8T (Z.shiftr param 16);
                 U8T (Z.shiftr param 8); U8T (Z.shiftr param 0)] |}.

(** The buffer [spiConfig] of [spiConfigReceive] after the control
    transfer: four zero bytes, overwritten from the front by the bytes the
    device returned (none when the transfer failed). *)
Definition spiConfigBuffer (reply : list Z) : list Z :=
  take 4 (reply ++ repeat 0 4).

(** [spiConfigReceive]: the four bytes are combined, most significant
    first.  Each byte is shifted as an int and converted to uint32_t. *)
Definition spiConfigReceive (reply : list Z) : Z :=
  let spiConfig (n : nat) := default 0 (spiConfigBuffer reply !! n) in
  let returnedParam := 0 in
  let returnedParam := Z.lor returnedParam (U32T (Z.shiftl (spiConfig 0%nat) 24)) in
  let returnedParam := Z.lor returnedParam (U32T (Z.shiftl (spiConfig 1%nat) 16)) in
  let returnedParam := Z.lor returnedParam (U32T (Z.shiftl (spiConfig 2%nat) 8)) in
  let returnedParam := Z.lor returnedParam (U32T (Z.shiftl (spiConfig 3%nat) 0)) in
  returnedParam.

(** ** davisDeviceOpen: the search for the device

    What libusb reports for one device of the list: its descriptor, its
    place on the bus, and the outcome of each call should the search try
    it. *)
Record usb_device : Set := {
  dev_descriptor_ok : bool;            (* libusb_get_device_descriptor succeeds *)
  dev_idVendor : Z;
  dev_idProduct : Z;
  dev_bcdDevice : Z;
  dev_bus_number : Z;
  dev_address : Z;
  dev_open_ok : bool;                  (* libusb_open succeeds *)
  dev_configuration : option Z;        (* libusb_get_configuration, None: it fails *)
  dev_set_configuration_ok : bool;     (* libusb_set_configuration succeeds *)
  dev_claim_interface_ok : bool        (* libusb_claim_interface succeeds *)
}.

(** The handle returned, by the index of its device in the list, with the
    devices opened and the devices closed again during the search. *)
Record device_search : Set := {
  devHandle : option nat;
  handles_opened : list nat;
  handles_closed : list nat
}.

(** The test on vendor, product and device type. *)
Definition deviceMatches (devVID devPID devType : Z) (d : usb_device) : bool :=
  (dev_idVendor d =? devVID) && (dev_idProduct d =? devPID)
  && (U8T (Z.shiftr (Z.land (dev_bcdDevice d) 0xFF00) 8) =? devType).

(** The loop over the device list, from index [i] on. *)
Fixpoint davisDeviceOpen_loop (devVID devPID devType busNumber devAddress : Z)
  (i : nat) (devicesList : list usb_device) (r : device_search) : device_search :=
  match devicesList with
  | [] => r
  | d :: rest =>
      let continue (r' : device_search) :=
        davisDeviceOpen_loop devVID devPID devType busNumber devAddress (S i) rest r' in
      if negb (dev_descriptor_ok d) then continue r
      else if deviceMatches devVID devPID devType d then
        if (0 <? busNumber) && negb (dev_bus_number d =? busNumber) then continue r
        else if (0 <? devAddress) && negb (dev_address d =? devAddress) then continue r
        else if negb (dev_open_ok d) then continue r
        else
          let opened := {| devHandle := Some i;
                           handles_opened := handles_opened r ++ [i];
                           handles_closed := handles_closed r |} in
          let closed := {| devHandle := None;
                           handles_opened := handles_opened opened;
                           handles_closed := handles_closed r ++ [i] |} in
          match dev_configuration d with
          | None => continue closed
          | Some activeConfiguration =>
              if negb (activeConfiguration =? 1) && negb (dev_set_configuration_ok d)
              then continue closed
              else if negb (dev_claim_interface_ok d) then continue closed
              else opened
          end
      else continue r
  end.

(** [davisDeviceOpen]; [None] for the list: libusb_get_device_list
    fails. *)
Definition davisDeviceOpen (devicesList : option (list usb_device))
  (devVID devPID devType busNumber devAddress : Z) : device_search :=
  let r := {| devHandle := None; handles_opened := []; handles_closed := [] |} in
  match devicesList with
  | None => r
  | Some l => davisDeviceOpen_loop devVID devPID devType busNumber devAddress 0 l r
  end.

(** A device the search accepts: every test and every call on it
    succeeds. *)
Definition deviceUsable (devVID devPID devType busNumber devAddress : Z)
  (d : usb_device) : bool :=
  dev_descriptor_ok d
  && deviceMatches devVID devPID devType d
  && ((busNumber <=? 0) || (dev_bus_number d =? busNumber))
  && ((devAddress <=? 0) || (dev_address d =? devAddress))
  && dev_open_ok d
  && match dev_configuration d with
     | None => false
     | Some c => (c =? 1) || dev_set_configuration_ok d
     end
  && dev_claim_interface_ok d.

(** The search opens a device once its descriptor, its identifiers and its
    place on the bus fit and libusb_open succeeds. *)
Definition deviceOpened (devVID devPID devType busNumber devAddress : Z)
  (d : usb_device) : bool :=
  dev_descriptor_ok d
  && deviceMatches devVID devPID devType d
  && ((busNumber <=? 0) || (dev_bus_number d =? busNumber))
  && ((devAddress <=? 0) || (dev_address d =? devAddress))
  && dev_open_ok d.


(** ** The transfer ring (davisAllocateTransfers, davisLibUsbCallback,
    davisDeallocateTransfers)

    A transfer is known by the index at which it was allocated.  The
    counters are of type size_t, taken as 64 bits wide. *)
Definition SIZE_T (x : Z) : Z := x mod 2 ^ 64.

(** The status libusb reports to the callback (enum
    libusb_transfer_status). *)
Inductive transfer_status : Set :=
  | LIBUSB_TRANSFER_COMPLETED
  | LIBUSB_TRANSFER_ERROR
  | LIBUSB_TRANSFER_TIMED_OUT
  | LIBUSB_TRANSFER_CANCELLED
  | LIBUSB_TRANSFER_STALL
  | LIBUSB_TRANSFER_NO_DEVICE
  | LIBUSB_TRANSFER_OVERFLOW.

Definition transfer_status_eqb (a b : transfer_status) : bool :=
  match a, b with
  | LIBUSB_TRANSFER_COMPLETED, LIBUSB_TRANSFER_COMPLETED => true
  | LIBUSB_TRANSFER_ERROR, LIBUSB_TRANSFER_ERROR => true
  | LIBUSB_TRANSFER_TIMED_OUT, LIBUSB_TRANSFER_TIMED_OUT => true
  | LIBUSB_TRANSFER_CANCELLED, LIBUSB_TRANSFER_CANCELLED => true
  | LIBUSB_TRANSFER_STALL, LIBUSB_TRANSFER_STALL => true
  | LIBUSB_TRANSFER_NO_DEVICE, LIBUSB_TRANSFER_NO_DEVICE => true
  | LIBUSB_TRANSFER_OVERFLOW, LIBUSB_TRANSFER_OVERFLOW => true
  | _, _ => false
  end.

(** The transfer fields of the state; [dataTransfers] is NULL ([None]) or
    an array of transfer pointers, NULL or not.  [transfersFreed] records
    the calls of libusb_free_transfer. *)
Record usb_transfers : Set := {
  dataTransfers : option (list (option nat));
  dataTransfersLength : nat;
  activeDataTransfers : Z;
  transfersFreed : list nat
}.

(** The outcome of the three calls made for one transfer. *)
Record transfer_outcome : Set := {
  alloc_transfer_ok : bool;      (* libusb_alloc_transfer returns a transfer *)
  malloc_buffer_ok : bool;       (* malloc of its buffer succeeds *)
  submit_transfer_ok : bool      (* libusb_submit_transfer succeeds *)
}.

Definition set_dataTransfer (i : nat) (v : option nat) (u : usb_transfers) : usb_transfers :=
  {| dataTransfers := match dataTransfers u with
                      | Some arr => Some (<[i := v]> arr)
                      | None => None
                      end;
     dataTransfersLength := dataTransfersLength u;
     activeDataTransfers := activeDataTransfers u;
     transfersFreed := transfersFreed u |}.

Definition free_transfer (t : nat) (u : usb_transfers) : usb_transfers :=
  {| dataTransfers := dataTransfers u;
     dataTransfersLength := dataTransfersLength u;
     activeDataTransfers := activeDataTransfers u;
     transfersFreed := transfersFreed u ++ [t] |}.

Definition set_activeDataTransfers (n : Z) (u : usb_transfers) : usb_transfers :=
  {| dataTransfers := dataTransfers u;
     dataTransfersLength := dataTransfersLength u;
     activeDataTransfers := n;
     transfersFreed := transfersFreed u |}.

(** The body of the allocation loop for index [i]. *)
Definition allocateTransfer (i : nat) (o : transfer_outcome) (u : usb_transfers)
  : usb_transfers :=
  if negb (alloc_transfer_ok o) then set_dataTransfer i None u
  else
    let u1 := set_dataTransfer i (Some i) u in
    if negb (malloc_buffer_ok o) then set_dataTransfer i None (free_transfer i u1)
    else if submit_transfer_ok o then
      set_activeDataTransfers (SIZE_T (activeDataTransfers u1 + 1)) u1
    else set_dataTransfer i None (free_transfer i u1).

Fixpoint allocateTransfers_loop (i : nat) (outcomes : list transfer_outcome)
  (u : usb_transfers) : usb_transfers :=
  match outcomes with
  | [] => u
  | o :: rest => allocateTransfers_loop (S i) rest (allocateTransfer i o u)
  end.

(** [davisAllocateTransfers]; [bufferNum] is the number of outcomes
    given. *)
Definition davisAllocateTransfers (calloc_ok : bool) (outcomes : list transfer_outcome)
  (u : usb_transfers) : usb_transfers :=
  let bufferNum := length outcomes in
  if negb calloc_ok then
    {| dataTransfers := None;
       dataTransfersLength := dataTransfersLength u;
       activeDataTransfers := activeDataTransfers u;
       transfersFreed := transfersFreed u |}
  else
    let u1 := {| dataTransfers := Some (repeat None bufferNum);
                 dataTransfersLength := bufferNum;
                 activeDataTransfers := activeDataTransfers u;
                 transfersFreed := transfersFreed u |} in
    let u2 := allocateTransfers_loop 0 outcomes u1 in
    if activeDataTransfers u2 =? 0 then
      {| dataTransfers := None;
         dataTransfersLength := 0;
         activeDataTransfers := activeDataTransfers u2;
         transfersFreed := transfersFreed u2 |}
    else u2.

(** The handle: decoder state and transfer ring. *)
Record davis_handle : Set := {
  handle_state : davis_state;
  handle_transfers : usb_transfers
}.

(** The end of the callback for a transfer that is not submitted again:
    the counter is decreased, the transfer taken out of the array and
    freed. *)
Definition removeTransfer (transfer : nat) (u : usb_transfers) : usb_transfers :=
  let clear (s : option nat) :=
    match s with
    | Some t => if (t =? transfer)%nat then None else s
    | None => None
    end in
  {| dataTransfers :=
       match dataTransfers u with
       | Some arr => Some (map clear (take (dataTransfersLength u) arr)
                           ++ drop (dataTransfersLength u) arr)
       | None => None
       end;
     dataTransfersLength := dataTransfersLength u;
     activeDataTransfers := SIZE_T (activeDataTransfers u - 1);
     transfersFreed := transfersFreed u ++ [transfer] |}.

(** [davisLibUsbCallback] for [transfer], with its status, the bytes it
    received and the outcome of submitting it again.  [None]: the
    translator does not return. *)
Definition davisLibUsbCallback (h : davis_handle) (transfer : nat)
  (status : transfer_status) (buffer : list Byte.byte) (resubmit_ok : bool)
  : option davis_handle :=
  let translated :=
    if transfer_status_eqb status LIBUSB_TRANSFER_COMPLETED
    then davisEventTranslator (handle_state h) buffer
    else Some (handle_state h) in
  match translated with
  | None => None
  | Some st =>
      if negb (transfer_status_eqb status LIBUSB_TRANSFER_CANCELLED)
         && negb (transfer_status_eqb status LIBUSB_TRANSFER_NO_DEVICE)
         && resubmit_ok
      then Some {| handle_state := st; handle_transfers := handle_transfers h |}
      else Some {| handle_state := st;
                   handle_transfers := removeTransfer transfer (handle_transfers h) |}
  end.

(** One callback as libusb delivers it. *)
Record callback_event : Set := {
  cb_transfer : nat;
  cb_status : transfer_status;
  cb_buffer : list Byte.byte;
  cb_resubmit_ok : bool
}.

(** The callbacks run by one call of libusb_handle_events_timeout. *)
Fixpoint handle_events (events : list callback_event) (h : davis_handle)
  : option davis_handle :=
  match events with
  | [] => Some h
  | e :: rest =>
      match davisLibUsbCallback h (cb_transfer e) (cb_status e) (cb_buffer e)
              (cb_resubmit_ok e) with
      | Some h' => handle_events rest h'
      | None => None
      end
  end.

(** The loop of [davisDeallocateTransfers] that waits for the transfers to
    go away; [batches] lists the callbacks of each coming call of
    libusb_handle_events_timeout, and no callback comes once it is used
    up.  [None]: the loop never exits. *)
Fixpoint waitTransfers (batches : list (list callback_event)) (h : davis_handle)
  : option davis_handle :=
  match batches with
  | [] => if 0 <? activeDataTransfers (handle_transfers h) then None else Some h
  | b :: rest =>
      if 0 <? activeDataTransfers (handle_transfers h) then
        match handle_events b h with
        | Some h' => waitTransfers rest h'
        | None => None
        end
      else Some h
  end.

(** The transfers of the array, without the NULL entries. *)
Definition transfersInFlight (u : usb_transfers) : list nat :=
  match dataTransfers u with
  | Some arr => omap id (take (dataTransfersLength u) arr)
  | None => []
  end.

(** [davisDeallocateTransfers]: the transfers it asks libusb to cancel and
    the handle once the wait is over and the array freed. *)
Definition davisDeallocateTransfers (batches : list (list callback_event))
  (h : davis_handle) : list nat * option davis_handle :=
  (transfersInFlight (handle_transfers h),
   match waitTransfers batches h with
   | Some h' =>
       Some {| handle_state := handle_state h';
               handle_transfers :=
                 {| dataTransfers := None;
                    dataTransfersLength := 0;
                    activeDataTransfers := activeDataTransfers (handle_transfers h');
                    transfersFreed := transfersFreed (handle_transfers h') |} |}
   | None => None
   end).

(** The counter agrees with the array: it counts the transfers in the
    array, which are distinct and not freed. *)
Record transfers_wf (u : usb_transfers) : Prop := {
  twf_array : exists arr, dataTransfers u = Some arr /\ length arr = dataTransfersLength u;
  twf_active : activeDataTransfers u = Z.of_nat (length (transfersInFlight u));
  twf_nodup : NoDup (transfersInFlight u);
  twf_live : forall t, t ∈ transfersInFlight u -> t ∉ transfersFreed u;
  twf_small : Z.of_nat (dataTransfersLength u) < 2 ^ 64
}.

(** A transfer the allocation keeps (all three calls succeed), and one it
    frees again (allocated, but the buffer or the submission fails). *)
Definition transferSubmitted (o : transfer_outcome) : bool :=
  alloc_transfer_ok o && malloc_buffer_ok o && submit_transfer_ok o.

Definition transferDiscarded (o : transfer_outcome) : bool :=
  alloc_transfer_ok o && negb (malloc_buffer_ok o && submit_transfer_ok o).

Definition submittedCount (outcomes : list transfer_outcome) : nat :=
  length (List.filter transferSubmitted outcomes).

(** The transfer fields before the first allocation (the state is
    zeroed). *)
Definition no_transfers : usb_transfers :=
  {| dataTransfers := None; dataTransfersLength := 0;
     activeDataTransfers := 0; transfersFreed := [] |}.

(** A callback that cannot submit its transfer again: the transfer was
    cancelled or the device is gone. *)
Definition cb_final (e : callback_event) : bool :=
  transfer_status_eqb (cb_status e) LIBUSB_TRANSFER_CANCELLED
  || transfer_status_eqb (cb_status e) LIBUSB_TRANSFER_NO_DEVICE.

(** ** The DVS geometry of the device info

    [davisOpen] reads [dvsSizeX], [dvsSizeY] and [dvsInvertXY] from the
    device and publishes in the device info the sizes as the user sees
    them: exchanged when the array is read transposed. *)
Definition info_dvsSizeX (s : davis_settings) : Z :=
  if dvsInvertXY s then dvsSizeY s else dvsSizeX s.

Definition info_dvsSizeY (s : davis_settings) : Z :=
  if dvsInvertXY s then dvsSizeX s else dvsSizeY s.

(** A polarity event that is validated lies within the array of the
    device info. *)
Definition polarityInArray (s : davis_settings) (e : polarity_event) : bool :=
  negb (pol_valid e)
  || ((0 <=? pol_x e) && (pol_x e <? info_dvsSizeX s)
      && (0 <=? pol_y e) && (pol_y e <? info_dvsSizeY s)).

Definition packetInArray (s : davis_settings) (p : event_packet) : bool :=
  match p with
  | PolarityPacket l => forallb (polarityInArray s) l
  | _ => true
  end.

(** The latched row is a row of the array, and so is every polarity event
    of the packet in progress, of the exchange buffer and of the packets
    freed. *)
Definition polarity_in_array (st : davis_state) : Prop :=
  0 <= dvsLastY (dvs st) < dvsSizeY (settings st)
  /\ forallb (polarityInArray (settings st)) (currentPolarityPacket (packets st)) = true
  /\ forallb (packetInArray (settings st)) (ring (dataExchangeBuffer st)) = true
  /\ forallb (packetInArray (settings st)) (freed (dataExchangeBuffer st)) = true.

(** ** Words that write no event

    The words that advance no packet position: every word but the
    timestamp reset, the external inputs, the IMU end, the APS frame end
    and the DVS addresses. *)
Definition isQuietWord (event : Z) : bool :=
  negb (isSpecial event 1 || isSpecial event 2 || isSpecial event 3 || isSpecial event 4
        || isSpecial event 7 || isSpecial event 10 || isDvsY event || isDvsX event).

(** The decoding of the words of a transfer, without the commits. *)
Definition decodeEvents (st : davis_state) (events : list Z) : davis_state :=
  fold_left (fun st event => fst (decodeEvent st event)) events st.

(** ** An APS readout

    The words of a frame as the device sends them: frame start, then for
    each column and readout phase a column start, the ADC samples of the
    column and a column end, then frame end. *)
Definition isAPSSample (event : Z) : bool :=
  negb (isTimestamp event) && (eventCode event =? 4).

Definition apsColumnStartWord (rt : aps_readout) : Z :=
  match rt with
  | APS_READOUT_RESET => 0x000B
  | APS_READOUT_SIGNAL => 0x000C
  end.

Definition apsColumnWords (column : aps_readout * list Z) : list Z :=
  apsColumnStartWord (fst column) :: snd column ++ [0x000D].

Definition apsReadoutWords (columns : list (aps_readout * list Z)) : list Z :=
  concat (map apsColumnWords columns).

(** Frame start with reset read: global shutter (8) or rolling shutter
    (9). *)
Definition apsFrameStartWord (globalShutter : bool) : Z :=
  if globalShutter then 0x0008 else 0x0009.

(** The sample data of the columns of one readout phase, in the order of
    the readout. *)
Definition readoutColumns (rt : aps_readout) (columns : list (aps_readout * list Z))
  : list (list Z) :=
  map (fun column => map eventData (snd column))
    (List.filter (fun column => aps_readout_eqb (fst column) rt) columns).

(** The signal read of a column never comes before its reset read: [nr]
    and [ns] count the columns read so far. *)
Fixpoint readoutOrdered (nr ns : nat) (columns : list (aps_readout * list Z)) : bool :=
  match columns with
  | [] => true
  | (APS_READOUT_RESET, _) :: rest => (ns <=? nr)%nat && readoutOrdered (S nr) ns rest
  | (APS_READOUT_SIGNAL, _) :: rest => readoutOrdered nr (S ns) rest
  end.

(** Every column has at most [h] samples, all of them ADC sample words. *)
Definition columnsWellFormed (h : Z) (columns : list (aps_readout * list Z)) : bool :=
  forallb (fun column => (Z.of_nat (length (snd column)) <=? h)
                         && forallb isAPSSample (snd column)) columns.

(** Correlated double sampling of a reset read [r] and a signal read [sg],
    as a 16-bit pixel. *)
Definition cdsPixel (r sg : Z) : Z :=
  U16T (Z.shiftl (Z.max 0 (r - sg)) (16 - DAVIS_ADC_DEPTH)).

(** The pixel of a frame event at column [x] and row [y]. *)
Definition framePixel (e : frame_event) (x y : nat) : option Z :=
  frm_pixels e !! Z.to_nat (Z.of_nat y * frm_length_x e + Z.of_nat x).

(** The entry of the reset frame for column [x] and row [y] of the
    window. *)
Definition resetFrameEntry (st : davis_state) (x y : nat) : option Z :=
  apsCurrentResetFrame (aps st)
    !! Z.to_nat ((Z.of_nat y + apsWindow0StartY (settings st)) * apsSizeX (settings st)
                 + (Z.of_nat x + apsWindow0StartX (settings st))).

(** A sensor read upright, other than the DAVIS RGB, whose window lies
    within the array. *)
Record upright_window (s : davis_settings) : Prop := {
  uw_chip : chip_eqb (chipID s) CHIP_DAVISRGB = false;
  uw_invert : apsInvertXY s = false;
  uw_flipX : apsFlipX s = false;
  uw_flipY : apsFlipY s = false;
  uw_width : 0 < apsWindow0SizeX s;
  uw_height : 0 < apsWindow0SizeY s;
  uw_channels : 1 <= apsChannels s;
  uw_startX : 0 <= apsWindow0StartX s;
  uw_startY : 0 <= apsWindow0StartY s;
  uw_endX : apsWindow0StartX s + apsWindow0SizeX s <= apsSizeX s;
  uw_endY : apsWindow0StartY s + apsWindow0SizeY s <= apsSizeY s;
  uw_sizeX : apsSizeX s < 2 ^ 16;
  uw_sizeY : apsSizeY s < 2 ^ 16
}.

(** The state of a readout in progress: [nr] reset and [ns] signal
    columns are counted, the reset frame holds the reset reads [Rs] and
    the frame event at the position the pixels of the columns read in
    both phases. *)
Record readout_inv (s : davis_settings) (Rs Ss : list (list Z)) (nr ns : nat)
  (st : davis_state) : Prop := {
  ri_settings : settings st = s;
  ri_ignore : apsIgnoreEvents (aps st) = false;
  ri_resetRead : apsResetRead (aps st) = true;
  ri_countX_reset : count_get (apsCountX (aps st)) APS_READOUT_RESET = Z.of_nat nr;
  ri_countX_signal : count_get (apsCountX (aps st)) APS_READOUT_SIGNAL = Z.of_nat ns;
  ri_reset_length :
    apsSizeX s * apsSizeY s <= Z.of_nat (length (apsCurrentResetFrame (aps st)));
  ri_reset :
    forall x rcol y r, Rs !! x = Some rcol -> rcol !! y = Some r ->
      resetFrameEntry st x y = Some r;
  ri_slot :
    is_Some (currentFramePacket (packets st) !! currentFramePacketPosition (packets st));
  ri_length_x : frm_length_x (currentFrameEvent (packets st)) = apsWindow0SizeX s;
  ri_length_y : frm_length_y (currentFrameEvent (packets st)) = apsWindow0SizeY s;
  ri_pixels_length :
    apsWindow0SizeX s * apsWindow0SizeY s
    <= Z.of_nat (length (frm_pixels (currentFrameEvent (packets st))));
  ri_pixels :
    forall x rcol scol y r sg,
      Rs !! x = Some rcol -> Ss !! x = Some scol ->
      rcol !! y = Some r -> scol !! y = Some sg ->
      framePixel (currentFrameEvent (packets st)) x y = Some (cdsPixel r sg)
}.

(** ** The rows of a DAVIS RGB column

    The row the DAVIS RGB stores sample number [i] of a column in: the odd
    rows upwards, then the even rows downwards. *)
Definition rgbRow (i : Z) : Z := if i <? 320 then 2 * i + 1 else 1278 - 2 * i.

(** A DAVIS RGB read upright, whose window lies within the array. *)
Record rgb_window (s : davis_settings) : Prop := {
  rw_chip : chip_eqb (chipID s) CHIP_DAVISRGB = true;
  rw_invert : apsInvertXY s = false;
  rw_flipX : apsFlipX s = false;
  rw_flipY : apsFlipY s = false;
  rw_width : 0 < apsWindow0SizeX s;
  rw_height : 0 < apsWindow0SizeY s;
  rw_startX : 0 <= apsWindow0StartX s;
  rw_startY : 0 <= apsWindow0StartY s;
  rw_endX : apsWindow0StartX s + apsWindow0SizeX s <= apsSizeX s;
  rw_endY : apsWindow0StartY s + apsWindow0SizeY s <= apsSizeY s;
  rw_sizeX : apsSizeX s < 2 ^ 16;
  rw_sizeY : apsSizeY s < 2 ^ 16
}.

(** The samples of a column of readout [rt] are stored in the reset
    frame: the reset read, or on the DAVIS RGB in global shutter mode the
    signal read. *)
Definition rgbResetStore (globalShutter : bool) (rt : aps_readout) : bool :=
  match rt with
  | APS_READOUT_RESET => negb globalShutter
  | APS_READOUT_SIGNAL => globalShutter
  end.

(** The pixel the DAVIS RGB stores for the read [d] against the entry [r]
    of the reset frame; in global shutter mode the difference is taken
    the other way round. *)
Definition rgbPixel (globalShutter : bool) (r d : Z) : Z :=
  U16T (Z.shiftl (Z.max 0 (if globalShutter then d - r else r - d)) (16 - DAVIS_ADC_DEPTH)).

(** Row number [i] of the walk, as an index. *)
Definition rgbRowIndex (i : nat) : nat := Z.to_nat (rgbRow (Z.of_nat i)).

(** The index in the reset frame of column [x] and row [y] of the window,
    and the index of pixel ([x], [y]) in a pixel array of rows of width
    [w]. *)
Definition resetFrameIndex (s : davis_settings) (x y : nat) : nat :=
  Z.to_nat ((Z.of_nat y + apsWindow0StartY s) * apsSizeX s
            + (Z.of_nat x + apsWindow0StartX s)).

Definition framePixelIndex (w : Z) (x y : nat) : nat :=
  Z.to_nat (Z.of_nat y * w + Z.of_nat x).

(** A DAVIS RGB with an APS array of 2 x 4 pixels (four colour channels),
    read in full, and its state after a global shutter frame start. *)
Definition rgb_2x4_settings : davis_settings :=
  {| chipID := CHIP_DAVISRGB;
     dvsSizeX := 2; dvsSizeY := 4; dvsInvertXY := false;
     apsSizeX := 2; apsSizeY := 4; apsChannels := 4;
     apsInvertXY := false; apsFlipX := false; apsFlipY := false;
     apsWindow0StartX := 0; apsWindow0StartY := 0;
     apsWindow0SizeX := 2; apsWindow0SizeY := 4;
     dataExchangeBufferSize := 64;
     maxPolarityPacketSize := 4096; maxPolarityPacketInterval := 5000;
     maxSpecialPacketSize := 128; maxSpecialPacketInterval := 1000;
     maxFramePacketSize := 4; maxFramePacketInterval := 50000;
     maxIMU6PacketSize := 8; maxIMU6PacketInterval := 5000 |}.

Definition rgb_2x4_frame : davis_state :=
  state_after (start_state rgb_2x4_settings true true 0 0) [0x0008].

(** ** The words of an IMU record *)

(** IMU scale configuration: special event with data 16 to 31. *)
Definition isIMUScaleConfig (event : Z) : bool :=
  negb (isTimestamp event) && (eventCode event =? 0)
  && (16 <=? eventData event) && (eventData event <=? 31).

(** IMU data byte: misc 8-bit data with code 0, and the byte it carries. *)
Definition isIMUData (event : Z) : bool :=
  negb (isTimestamp event) && (eventCode event =? 5)
  && (U8T (Z.shiftr (Z.land (eventData event) 0x0F00) 8) =? 0).

Definition imuDataByte (event : Z) : Z := U8T (Z.land (eventData event) 0x00FF).

(** The signed 16-bit value of a high and a low byte, as a [float]. *)
Definition imuInt16 (hi lo : Z) : float := float_of_Z (I16T (hi * 256 + lo)).

(** The event under the pointer [currentIMU6Event]. *)
Definition currentIMU6Event (p : packet_state) : imu6_event :=
  default imu6_zero (currentIMU6Packet p !! currentIMU6PacketPosition p).

(** ** davisOpen

    The module and parameter addresses are macros of davis.h, outside the
    sources verified here; they are left open. *)
Record davis_config : Set := {
  DAVIS_CONFIG_SYSINFO : Z;
  DAVIS_CONFIG_SYSINFO_LOGIC_VERSION : Z;
  DAVIS_CONFIG_SYSINFO_LOGIC_CLOCK : Z;
  DAVIS_CONFIG_SYSINFO_ADC_CLOCK : Z;
  DAVIS_CONFIG_SYSINFO_CHIP_IDENTIFIER : Z;
  DAVIS_CONFIG_DVS : Z;
  DAVIS_CONFIG_DVS_SIZE_COLUMNS : Z;
  DAVIS_CONFIG_DVS_SIZE_ROWS : Z;
  DAVIS_CONFIG_DVS_ORIENTATION_INFO : Z;
  DAVIS_CONFIG_APS : Z;
  DAVIS_CONFIG_APS_COLOR_FILTER : Z;
  DAVIS_CONFIG_APS_SIZE_COLUMNS : Z;
  DAVIS_CONFIG_APS_SIZE_ROWS : Z;
  DAVIS_CONFIG_APS_ORIENTATION_INFO : Z
}.

(** What the calls of one run of [davisOpen] meet: the outcome of
    libusb_init, the device list, the serial number read from string
    descriptor 3 (its first eight characters), the outcome of the malloc
    of the log string, and the reply of the device to the configuration
    read of a module and parameter address. *)
Record open_environment : Set := {
  libusb_init_ok : bool;
  env_devicesList : option (list usb_device);
  env_serialNumber : String.string;
  malloc_fullLogString_ok : bool;
  env_registers : Z -> Z -> list Z
}.

(** The releases of a failure path, and the log message that prints
    [handle->info.logicVersion]. *)
Inductive open_action : Set :=
  | LIBUSB_CLOSE          (* libusb_close(state->deviceHandle) *)
  | LIBUSB_EXIT           (* libusb_exit(state->deviceContext) *)
  | FREE_HANDLE           (* free(handle) *)
  | LOG_LOGIC_VERSION     (* caerLog(..., handle->info.logicVersion, ...) *)
  | FREE_LOG_STRING.      (* free(fullLogString) *)

Definition open_action_eqb (a b : open_action) : bool :=
  match a, b with
  | LIBUSB_CLOSE, LIBUSB_CLOSE => true
  | LIBUSB_EXIT, LIBUSB_EXIT => true
  | FREE_HANDLE, FREE_HANDLE => true
  | LOG_LOGIC_VERSION, LOG_LOGIC_VERSION => true
  | FREE_LOG_STRING, FREE_LOG_STRING => true
  | _, _ => false
  end.

(** The fields of the device info computed from values whose width the
    source shows; the capability flags, whose types are declared in
    davis.h, are left out. *)
Record davis_info : Set := {
  info_deviceID : Z;
  info_logicVersion : Z;
  info_logicClock : Z;
  info_adcClock : Z;
  info_chipID : Z;
  info_apsColorFilter : Z;
  info_dvsSize : Z * Z;      (* dvsSizeX, dvsSizeY *)
  info_apsSize : Z * Z       (* apsSizeX, apsSizeY *)
}.

Record open_result : Set := {
  open_returned : bool;
  open_actions : list open_action;     (* the releases, in program order *)
  open_search : device_search;         (* the device search, when it was run *)
  open_info : option davis_info;       (* the info, once populated *)
  open_settings : davis_settings;      (* the state fields of the settings *)
  open_dataExchangeBlocking : bool;
  open_usbBufferNumber : Z;
  open_usbBufferSize : Z;
  open_maxPacketContainerSize : Z;
  open_maxPacketContainerInterval : Z
}.

(** Modelled from the spec: [caerStrEquals] (libcaer utilities, outside
    the sources verified here) tells whether two strings are equal. *)
Definition caerStrEquals (a b : String.string) : bool := String.eqb a b.

(** The default values [davisOpen] stores first. *)
Definition open_defaults (s0 : davis_settings) : davis_settings :=
  {| chipID := chipID s0;
     dvsSizeX := dvsSizeX s0; dvsSizeY := dvsSizeY s0; dvsInvertXY := dvsInvertXY s0;
     apsSizeX := apsSizeX s0; apsSizeY := apsSizeY s0; apsChannels := apsChannels s0;
     apsInvertXY := apsInvertXY s0; apsFlipX := apsFlipX s0; apsFlipY := apsFlipY s0;
     apsWindow0StartX := apsWindow0StartX s0; apsWindow0StartY := apsWindow0StartY s0;
     apsWindow0SizeX := apsWindow0SizeX s0; apsWindow0SizeY := apsWindow0SizeY s0;
     dataExchangeBufferSize := 64;
     maxPolarityPacketSize := 4096; maxPolarityPacketInterval := 5000;
     maxSpecialPacketSize := 128; maxSpecialPacketInterval := 1000;
     maxFramePacketSize := 4; maxFramePacketInterval := 50000;
     maxIMU6PacketSize := 8; maxIMU6PacketInterval := 5000 |}.

(** The geometry and the orientation read from the device. *)
Definition open_geometry (c : davis_config) (registers : Z -> Z -> list Z)
  (apsColorFilter : Z) (s : davis_settings) : davis_settings :=
  let read m p := spiConfigReceive (registers m p) in
  let apsOrientationInfo := U16T (read (DAVIS_CONFIG_APS_ORIENTATION_INFO c) 2) in
  {| chipID := chipID s;
     dvsSizeX := U16T (read (DAVIS_CONFIG_DVS c) (DAVIS_CONFIG_DVS_SIZE_COLUMNS c));
     dvsSizeY := U16T (read (DAVIS_CONFIG_DVS c) (DAVIS_CONFIG_DVS_SIZE_ROWS c));
     dvsInvertXY :=
       negb (Z.land (U16T (read (DAVIS_CONFIG_DVS c) (DAVIS_CONFIG_DVS_ORIENTATION_INFO c)))
               0x04 =? 0);
     apsSizeX := U16T (read (DAVIS_CONFIG_APS c) (DAVIS_CONFIG_APS_SIZE_COLUMNS c));
     apsSizeY := U16T (read (DAVIS_CONFIG_APS c) (DAVIS_CONFIG_APS_SIZE_ROWS c));
     apsChannels := if apsColorFilter =? 0 then 1 else 4;
     apsInvertXY := negb (Z.land apsOrientationInfo 0x04 =? 0);
     apsFlipX := negb (Z.land apsOrientationInfo 0x02 =? 0);
     apsFlipY := negb (Z.land apsOrientationInfo 0x01 =? 0);
     apsWindow0StartX := apsWindow0StartX s; apsWindow0StartY := apsWindow0StartY s;
     apsWindow0SizeX := apsWindow0SizeX s; apsWindow0SizeY := apsWindow0SizeY s;
     dataExchangeBufferSize := dataExchangeBufferSize s;
     maxPolarityPacketSize := maxPolarityPacketSize s;
     maxPolarityPacketInterval := maxPolarityPacketInterval s;
     maxSpecialPacketSize := maxSpecialPacketSize s;
     maxSpecialPacketInterval := maxSpecialPacketInterval s;
     maxFramePacketSize := maxFramePacketSize s;
     maxFramePacketInterval := maxFramePacketInterval s;
     maxIMU6PacketSize := maxIMU6PacketSize s;
     maxIMU6PacketInterval := maxIMU6PacketInterval s |}.

(** The APS geometry of the device info, exchanged like the DVS
    geometry. *)
Definition info_apsSizeX (s : davis_settings) : Z :=
  if apsInvertXY s then apsSizeY s else apsSizeX s.

Definition info_apsSizeY (s : davis_settings) : Z :=
  if apsInvertXY s then apsSizeX s else apsSizeY s.

(** [davisOpen], on a handle whose settings are [s0] (zeroed by calloc). *)
Definition davisOpen (c : davis_config) (env : open_environment) (s0 : davis_settings)
  (VID PID DID_TYPE deviceID busNumberRestrict devAddressRestrict : Z)
  (serialNumberRestrict : String.string) (requiredLogicRevision : Z) : open_result :=
  let s1 := open_defaults s0 in
  let no_search := {| devHandle := None; handles_opened := []; handles_closed := [] |} in
  let result (returned : bool) (actions : list open_action) (search : device_search)
        (info : option davis_info) (s : davis_settings) :=
    {| open_returned := returned; open_actions := actions; open_search := search;
       open_info := info; open_settings := s;
       open_dataExchangeBlocking := false;
       open_usbBufferNumber := 8; open_usbBufferSize := 4096;
       open_maxPacketContainerSize := 4096 + 128;
       open_maxPacketContainerInterval := 5000 |} in
  if negb (libusb_init_ok env) then result false [FREE_HANDLE] no_search None s1
  else
    let search := davisDeviceOpen (env_devicesList env) VID PID DID_TYPE
                    busNumberRestrict devAddressRestrict in
    match devHandle search with
    | None => result false [LIBUSB_EXIT; FREE_HANDLE] search None s1
    | Some _ =>
        if negb (malloc_fullLogString_ok env) then
          result false [LIBUSB_CLOSE; LIBUSB_EXIT; FREE_HANDLE] search None s1
        else if negb (caerStrEquals serialNumberRestrict String.EmptyString)
                && negb (caerStrEquals serialNumberRestrict (env_serialNumber env)) then
          result false [LIBUSB_CLOSE; LIBUSB_EXIT; FREE_HANDLE; FREE_LOG_STRING] search None s1
        else
          let read m p := spiConfigReceive (env_registers env m p) in
          let apsColorFilter :=
            U8T (read (DAVIS_CONFIG_APS c) (DAVIS_CONFIG_APS_COLOR_FILTER c)) in
          let s2 := open_geometry c (env_registers env) apsColorFilter s1 in
          let info :=
            {| info_deviceID := deviceID;
               info_logicVersion :=
                 U16T (read (DAVIS_CONFIG_SYSINFO c) (DAVIS_CONFIG_SYSINFO_LOGIC_VERSION c));
               info_logicClock :=
                 U16T (read (DAVIS_CONFIG_SYSINFO c) (DAVIS_CONFIG_SYSINFO_LOGIC_CLOCK c));
               info_adcClock :=
                 U16T (read (DAVIS_CONFIG_SYSINFO c) (DAVIS_CONFIG_SYSINFO_ADC_CLOCK c));
               info_chipID :=
                 U16T (read (DAVIS_CONFIG_SYSINFO c) (DAVIS_CONFIG_SYSINFO_CHIP_IDENTIFIER c));
               info_apsColorFilter := apsColorFilter;
               info_dvsSize := (info_dvsSizeX s2, info_dvsSizeY s2);
               info_apsSize := (info_apsSizeX s2, info_apsSizeY s2) |} in
          if info_logicVersion info <? requiredLogicRevision then
            result false
              [LIBUSB_CLOSE; LIBUSB_EXIT; FREE_HANDLE; LOG_LOGIC_VERSION; FREE_LOG_STRING]
              search (Some info) s2
          else result true [] search (Some info) s2
    end.

(** How often a failure path runs an action. *)
Definition actionCount (a : open_action) (actions : list open_action) : nat :=
  length (List.filter (open_action_eqb a) actions).

(** * Properties *)

(** ** Integer conversions *)

Lemma U32T_small (x : Z) : 0 <= x < 2 ^ 32 -> U32T x = x.
Proof. intros H. unfold U32T. apply Z.mod_small. exact H. Qed.

Lemma I32T_small (x : Z) : 0 <= x < 2 ^ 31 -> I32T x = x.
Proof.
  intros H. unfold I32T. cbv zeta.
  rewrite Z.mod_small by lia.
  destruct (Z.ltb_spec x (2 ^ 31)); lia.
Qed.

Lemma I32T_U32T_small (x : Z) : 0 <= x < 2 ^ 31 -> I32T (U32T x) = x.
Proof. intros H. rewrite U32T_small by lia. apply I32T_small. exact H. Qed.

(** ** The commit phase leaves the decoder fields alone *)

Ltac commit_cases :=
  match goal with
  | |- context [commitPolarity ?f ?st] =>
      unfold commitPolarity; destruct (polarityCommitCheck f st)
  | |- context [commitFrame ?f ?st] =>
      unfold commitFrame; destruct (frameCommitCheck f st)
  | |- context [commitIMU6 ?f ?st] =>
      unfold commitIMU6; destruct (imu6CommitCheck f st)
  end.

Lemma commitPolarity_settings force st : settings (commitPolarity force st) = settings st.
Proof. commit_cases; reflexivity. Qed.
Lemma commitFrame_settings force st : settings (commitFrame force st) = settings st.
Proof. commit_cases; reflexivity. Qed.
Lemma commitIMU6_settings force st : settings (commitIMU6 force st) = settings st.
Proof. commit_cases; reflexivity. Qed.

Lemma commitPolarity_timestamps force st : timestamps (commitPolarity force st) = timestamps st.
Proof. commit_cases; reflexivity. Qed.
Lemma commitFrame_timestamps force st : timestamps (commitFrame force st) = timestamps st.
Proof. commit_cases; reflexivity. Qed.
Lemma commitIMU6_timestamps force st : timestamps (commitIMU6 force st) = timestamps st.
Proof. commit_cases; reflexivity. Qed.

Lemma commitPolarity_dvs force st : dvs (commitPolarity force st) = dvs st.
Proof. commit_cases; reflexivity. Qed.
Lemma commitFrame_dvs force st : dvs (commitFrame force st) = dvs st.
Proof. commit_cases; reflexivity. Qed.
Lemma commitIMU6_dvs force st : dvs (commitIMU6 force st) = dvs st.
Proof. commit_cases; reflexivity. Qed.

Lemma commitPolarity_aps force st : aps (commitPolarity force st) = aps st.
Proof. commit_cases; reflexivity. Qed.
Lemma commitIMU6_aps force st : aps (commitIMU6 force st) = aps st.
Proof. commit_cases; reflexivity. Qed.
Lemma commitPolarity_imu force st : imu (commitPolarity force st) = imu st.
Proof. commit_cases; reflexivity. Qed.
Lemma commitFrame_imu force st : imu (commitFrame force st) = imu st.
Proof. commit_cases; reflexivity. Qed.

(** What [commitSpecial] returns, when it returns. *)
Lemma commitSpecial_inv force st st' :
  commitSpecial force st = Some st' ->
  settings st' = settings st /\ timestamps st' = timestamps st /\ dvs st' = dvs st
  /\ aps st' = aps st /\ imu st' = imu st.
Proof.
  unfold commitSpecial.
  destruct (specialCommitCheck force st).
  - destruct (if force then _ else _) as [x|]; [|discriminate].
    intros [= <-]. repeat split.
  - intros [= <-]. repeat split.
Qed.

(** Without [forcePacketCommit] the commit phase always returns. *)
Lemma commitSpecial_unforced st : is_Some (commitSpecial false st).
Proof.
  unfold commitSpecial. destruct (specialCommitCheck false st); eauto.
Qed.

Lemma translateEvent_unfold st event :
  translateEvent st event =
  commitSpecial (snd (decodeEvent st event))
    (commitIMU6 (snd (decodeEvent st event))
       (commitFrame (snd (decodeEvent st event))
          (commitPolarity (snd (decodeEvent st event)) (fst (decodeEvent st event))))).
Proof. unfold translateEvent. destruct (decodeEvent st event); reflexivity. Qed.

(** The decoder fields after one iteration are those the decoding of the
    word left, but for the two ignore flags. *)
Lemma translateEvent_fields st event st' :
  translateEvent st event = Some st' ->
  settings st' = settings (fst (decodeEvent st event))
  /\ timestamps st' = timestamps (fst (decodeEvent st event))
  /\ dvs st' = dvs (fst (decodeEvent st event)).
Proof.
  rewrite translateEvent_unfold. intros H.
  apply commitSpecial_inv in H as (Hs & Ht & Hd & _ & _).
  rewrite Hs, Ht, Hd.
  rewrite commitIMU6_settings, commitFrame_settings, commitPolarity_settings.
  rewrite commitIMU6_timestamps, commitFrame_timestamps, commitPolarity_timestamps.
  rewrite commitIMU6_dvs, commitFrame_dvs, commitPolarity_dvs.
  repeat split.
Qed.

Lemma translateEvent_unforced st event :
  snd (decodeEvent st event) = false -> is_Some (translateEvent st event).
Proof.
  intros H. rewrite translateEvent_unfold, H. apply commitSpecial_unforced.
Qed.

(** ** Decoding by class of word *)

Lemma decodeEvent_timestamp st event :
  isTimestamp event = true ->
  decodeEvent st event = (with_timestamps (timestampEvent event (timestamps st)) st, false).
Proof. intros H. unfold decodeEvent. rewrite H. reflexivity. Qed.

Lemma decodeEvent_wrap st event :
  isTimestamp event = false -> eventCode event = 7 ->
  decodeEvent st event
  = (with_timestamps (timestampWrap (eventData event) (timestamps st)) st, false).
Proof. intros H Hc. unfold decodeEvent. rewrite H, Hc. reflexivity. Qed.

Lemma eventData_range event : 0 <= eventData event < 4096.
Proof.
  unfold eventData. change 4095 with (Z.ones 12). rewrite Z.land_ones by lia.
  apply Z.mod_pos_bound. lia.
Qed.

(** An odd trailing byte of a transfer is not decoded. *)
Lemma le16_words_app (lo hi : Byte.byte) (rest : list Byte.byte) :
  le16_words (lo :: hi :: rest)
  = (Z.of_N (Byte.to_N lo) + 256 * Z.of_N (Byte.to_N hi)) :: le16_words rest.
Proof. reflexivity. Qed.

Lemma le16_words_odd (buffer : list Byte.byte) (b : Byte.byte) :
  Nat.Even (length buffer) -> le16_words (buffer ++ [b]) = le16_words buffer.
Proof.
  intros [k Hk]. revert buffer Hk.
  induction k as [|k IH]; intros buffer Hk.
  - destruct buffer; [reflexivity | cbn in Hk; lia].
  - destruct buffer as [|lo [|hi rest]]; cbn in Hk; try lia.
    cbn [app]. rewrite !le16_words_app. f_equal. apply IH. lia.
Qed.

Lemma davisEventTranslator_odd st buffer b :
  Nat.Even (length buffer) ->
  davisEventTranslator st (buffer ++ [b]) = davisEventTranslator st buffer.
Proof. intros H. unfold davisEventTranslator. rewrite le16_words_odd by exact H. reflexivity. Qed.

(** ** Case analysis of the decoder *)

Lemma decodeEvent_special st event :
  isTimestamp event = false -> eventCode event = 0 ->
  decodeEvent st event = specialEvent (eventData event) st.
Proof. intros H Hc. unfold decodeEvent. rewrite H, Hc. reflexivity. Qed.

(** [decode_cases] splits a goal about [decodeEvent st event] into the
    branches of the two switches, keeping the equations on the fields of
    the word; [helper_cases] then splits the branch at hand. *)
Ltac decode_cases event :=
  let c := fresh "code" in
  let d := fresh "data" in
  let Ht := fresh "Hts" in
  let Hc := fresh "Hcode" in
  let Hd := fresh "Hdata" in
  unfold decodeEvent;
  destruct (isTimestamp event) eqn:Ht;
  [ | remember (eventCode event) as c eqn:Hc;
      remember (eventData event) as d eqn:Hd;
      symmetry in Hc; symmetry in Hd;
      destruct c as [|c|c];
      [ unfold specialEvent; destruct d as [|d|d]; [ | do 5 (try destruct d as [d|d|]) | ]
      | do 3 (try destruct c as [c|c|]) | ] ].

Ltac unfold_helpers :=
  unfold imuScaleConfig, imuEnd, imuStart, apsFrameEnd, apsFrameStart, initFrame,
    apsResetColumnStart, apsSignalColumnStart, apsColumnEnd, externalInput,
    timestampReset, specialEventEmit, dvsYAddress, dvsXAddress, apsADCSample,
    apsRGBOffsetStep, misc8Event, imuData, dvsPolarity.

Ltac split_ifs :=
  repeat match goal with
         | |- context [if ?b then _ else _] => destruct b eqn:?
         | |- context [match ?x with _ => _ end] => destruct x eqn:?
         end.

Ltac helper_cases := unfold_helpers; cbv zeta; split_ifs; cbn.

Ltac word_class_absurd :=
  match goal with
  | Ht : isTimestamp ?e = _, Hc : eventCode ?e = _ |- _ =>
      unfold isAPSFrameStart, isAPSWord, isIMUStart, isIMUWord, isDvsX, isDvsY, isSpecial in *;
      rewrite ?Ht, ?Hc in *;
      try match goal with Hd : eventData e = _ |- _ => rewrite ?Hd in * end;
      cbn in *; congruence
  | Ht : isTimestamp ?e = true |- _ =>
      unfold isAPSFrameStart, isAPSWord, isIMUStart, isIMUWord, isDvsX, isDvsY, isSpecial in *;
      rewrite ?Ht in *; cbn in *; congruence
  end.

(** What the decoding of a word leaves unchanged. *)
Lemma decodeEvent_frame st event :
  settings (fst (decodeEvent st event)) = settings st
  /\ dataExchangeBuffer (fst (decodeEvent st event)) = dataExchangeBuffer st
  /\ (isAPSFrameStart event = false ->
      apsIgnoreEvents (aps (fst (decodeEvent st event))) = apsIgnoreEvents (aps st))
  /\ (isIMUStart event = false ->
      imuIgnoreEvents (imu (fst (decodeEvent st event))) = imuIgnoreEvents (imu st))
  /\ (isDvsX event = false ->
      currentPolarityPacket (packets (fst (decodeEvent st event)))
      = currentPolarityPacket (packets st)
      /\ currentPolarityPacketPosition (packets (fst (decodeEvent st event)))
         = currentPolarityPacketPosition (packets st)).
Proof.
  decode_cases event; cbn [fst snd]; helper_cases;
    repeat split; intros; try reflexivity; try word_class_absurd.
Qed.

(** ** The exchange buffer *)

Lemma put_or_drop_length cap x p :
  (length (ring (put_or_drop cap x p)) <= S (length (ring x)))%nat.
Proof.
  unfold put_or_drop, ringBufferPut.
  destruct (_ <? _)%nat; cbn [ring].
  - rewrite length_app, length_drop. cbn. lia.
  - rewrite length_drop. lia.
Qed.

(** When the retry loop exits the packet is the newest of the buffer. *)
Lemma retry_special_some cap sched r p sched' r' :
  retry_special cap sched r p = Some (sched', r') -> exists r0, r' = r0 ++ [p].
Proof.
  revert r. induction sched as [|k sched IH]; intros r; cbn [retry_special]; unfold ringBufferPut.
  - destruct (_ <? _)%nat; [|discriminate]. intros [= _ <-]. eauto.
  - destruct (_ <? _)%nat.
    + intros [= _ <-]. eauto.
    + apply IH.
Qed.

(** With a free slot the first put succeeds. *)
Lemma retry_special_room cap sched r p :
  (length r < cap)%nat -> is_Some (retry_special cap sched r p).
Proof.
  intros H. destruct sched as [|k sched]; cbn [retry_special]; unfold ringBufferPut.
  - destruct (Nat.ltb_spec (length r) cap); [eauto | lia].
  - destruct (Nat.ltb_spec (length (drop k r)) cap); [eauto |].
    rewrite length_drop in *. lia.
Qed.

(** The loop exits once the consumer has taken a packet. *)
Lemma retry_special_progress cap p sched :
  forall r, (0 < cap)%nat -> (length r <= cap)%nat ->
  Exists (fun k => (0 < k)%nat) sched -> is_Some (retry_special cap sched r p).
Proof.
  induction sched as [|k sched IH]; intros r Hcap Hr Hex.
  - inversion Hex.
  - cbn [retry_special]. unfold ringBufferPut.
    destruct (Nat.ltb_spec (length (drop k r)) cap) as [Hlt|Hge]; [eauto|].
    rewrite length_drop in Hge.
    apply IH; [exact Hcap | rewrite length_drop; lia |].
    inversion Hex as [? ? Hk | ? ? Hrest]; subst; [lia | exact Hrest].
Qed.

(** The loop never exits while the buffer is full and the consumer idle. *)
Lemma retry_special_idle cap r p :
  (cap <= length r)%nat -> retry_special cap [] r p = None.
Proof.
  intros H. cbn. unfold ringBufferPut.
  destruct (Nat.ltb_spec (length r) cap); [lia | reflexivity].
Qed.

Lemma commitPolarity_ring force st :
  (length (ring (dataExchangeBuffer (commitPolarity force st)))
   <= S (length (ring (dataExchangeBuffer st))))%nat.
Proof. commit_cases; cbn; [apply put_or_drop_length | lia]. Qed.

Lemma commitFrame_ring force st :
  (length (ring (dataExchangeBuffer (commitFrame force st)))
   <= S (length (ring (dataExchangeBuffer st))))%nat.
Proof. commit_cases; cbn; [apply put_or_drop_length | lia]. Qed.

Lemma commitIMU6_ring force st :
  (length (ring (dataExchangeBuffer (commitIMU6 force st)))
   <= S (length (ring (dataExchangeBuffer st))))%nat.
Proof. commit_cases; cbn; [apply put_or_drop_length | lia]. Qed.

(** A write through the slot pointer replaces the slot. *)
Lemma alter_as_insert {A : Type} (f : A -> A) (l : list A) (i : nat) (e : A) :
  l !! i = Some e -> alter f i l = <[i := f e]> l.
Proof.
  intros He. pose proof (lookup_lt_Some _ _ _ He) as Hlt.
  apply list_eq. intros j.
  destruct (decide (j = i)) as [->|Hne].
  - rewrite list_lookup_alter_eq, list_lookup_insert_eq by exact Hlt.
    rewrite He. reflexivity.
  - rewrite list_lookup_alter_ne, list_lookup_insert_ne by congruence. reflexivity.
Qed.

(** ** The packets stay well formed *)

Lemma fresh_from_alter {E : Type} (valid : E -> bool) (f : E -> E) pos l :
  (forall e, valid (f e) = valid e) ->
  fresh_from valid pos l -> fresh_from valid pos (alter f pos l).
Proof.
  intros Hf Hl i e Hi. destruct (decide (i = pos)) as [->|Hne].
  - rewrite list_lookup_alter_eq. destruct (l !! pos) as [e0|] eqn:He0; [|discriminate].
    intros [= <-]. rewrite Hf. exact (Hl pos e0 Hi He0).
  - rewrite list_lookup_alter_ne by congruence. apply Hl. exact Hi.
Qed.

Lemma fresh_from_advance {E : Type} (valid : E -> bool) (f : E -> E) pos l :
  fresh_from valid pos l -> fresh_from valid (S pos) (alter f pos l).
Proof.
  intros Hl i e Hi. rewrite list_lookup_alter_ne by lia. apply Hl. lia.
Qed.

Lemma fresh_from_S {E : Type} (valid : E -> bool) pos (l : list E) :
  fresh_from valid pos l -> fresh_from valid (S pos) l.
Proof. intros Hl i e Hi. apply Hl. lia. Qed.

Lemma fresh_from_repeat {E : Type} (valid : E -> bool) (x : E) n :
  valid x = false -> fresh_from valid 0 (repeat x n).
Proof.
  intros Hx i e _ He. apply list_elem_of_lookup_2 in He.
  apply list_elem_of_In, repeat_spec in He. subst. exact Hx.
Qed.

Ltac fresh_solve :=
  repeat first
    [ assumption
    | apply fresh_from_alter; [intros; reflexivity|]
    | apply fresh_from_advance
    | apply fresh_from_S ].

(** Decoding a word keeps the packets well formed, up to a position that
    reaches the capacity. *)
Lemma decodeEvent_wf st event :
  packets_wf st -> packets_decoded (fst (decodeEvent st event)).
Proof.
  intros [Hp Hs Hf Hi Fp Fs Ff Fi Sp Ss Sf Si].
  decode_cases event; cbn [fst snd]; helper_cases;
    (constructor; cbn;
     [ rewrite ?length_alter; lia | rewrite ?length_alter; lia
     | rewrite ?length_alter; lia | rewrite ?length_alter; lia
     | fresh_solve | fresh_solve | fresh_solve | fresh_solve
     | assumption | assumption | assumption | assumption ]).
Qed.

Ltac check_false H :=
  apply orb_false_iff in H as [H _];
  apply orb_false_iff in H as [_ H];
  apply Nat.leb_gt in H; cbn in H.

Ltac new_packet :=
  cbn;
  unfold caerPolarityEventPacketAllocate, caerSpecialEventPacketAllocate,
    caerFrameEventPacketAllocate, caerIMU6EventPacketAllocate;
  first [ rewrite repeat_length; assumption
        | apply fresh_from_repeat; reflexivity ].

(** The commit checks restore a slot at every position. *)
Lemma commit_wf force st st' :
  packets_decoded st ->
  commitSpecial force (commitIMU6 force (commitFrame force (commitPolarity force st))) = Some st' ->
  packets_wf st'.
Proof.
  intros [Hp Hs Hf Hi Fp Fs Ff Fi Sp Ss Sf Si].
  unfold commitSpecial.
  destruct (specialCommitCheck _ _) eqn:Cs;
    [ destruct (if force then _ else _) as [x|]; [|discriminate] | ];
    intros [= <-];
    unfold commitIMU6 in *; destruct (imu6CommitCheck _ _) eqn:Ci;
    unfold commitFrame in *; destruct (frameCommitCheck _ _) eqn:Cf;
    unfold commitPolarity in *; destruct (polarityCommitCheck _ _) eqn:Cp;
    unfold specialCommitCheck, imu6CommitCheck, frameCommitCheck, polarityCommitCheck,
      caerEventPacketHeaderGetEventCapacity in *;
    try check_false Cs; try check_false Ci; try check_false Cf; try check_false Cp;
    constructor; first [ new_packet | cbn; assumption ].
Qed.

Lemma translateEvent_wf st event st' :
  packets_wf st -> translateEvent st event = Some st' -> packets_wf st'.
Proof.
  intros Hwf. rewrite translateEvent_unfold.
  apply commit_wf, decodeEvent_wf, Hwf.
Qed.

Lemma translateEvents_wf events :
  forall st st', packets_wf st -> translateEvents st events = Some st' -> packets_wf st'.
Proof.
  induction events as [|event rest IH]; intros st st' Hwf; cbn [translateEvents].
  - intros [= <-]. exact Hwf.
  - destruct (translateEvent st event) as [st1|] eqn:Hstep; [|discriminate].
    apply IH. eapply translateEvent_wf; eassumption.
Qed.

Lemma start_state_wf s gs rr a g :
  (0 < maxPolarityPacketSize s)%nat -> (0 < maxSpecialPacketSize s)%nat ->
  (0 < maxFramePacketSize s)%nat -> (0 < maxIMU6PacketSize s)%nat ->
  packets_wf (start_state s gs rr a g).
Proof.
  intros Sp Ss Sf Si. constructor; first [ new_packet | cbn; assumption ].
Qed.

(** In a well-formed state the slot under each event pointer exists, and
    the frame and the IMU6 event under it are not validated. *)
Lemma packets_wf_slots st :
  packets_wf st ->
  is_Some (currentPolarityPacket (packets st) !! currentPolarityPacketPosition (packets st))
  /\ is_Some (currentSpecialPacket (packets st) !! currentSpecialPacketPosition (packets st))
  /\ (exists e, currentFramePacket (packets st) !! currentFramePacketPosition (packets st) = Some e
                /\ frm_valid e = false)
  /\ (exists e, currentIMU6Packet (packets st) !! currentIMU6PacketPosition (packets st) = Some e
                /\ imu_valid e = false).
Proof.
  intros [Hp Hs Hf Hi Fp Fs Ff Fi Sp Ss Sf Si].
  split; [apply lookup_lt_is_Some_2; exact Hp|].
  split; [apply lookup_lt_is_Some_2; exact Hs|].
  split.
  - destruct (lookup_lt_is_Some_2 _ _ Hf) as [e He]. exists e. split; [exact He|].
    apply (Ff _ e (Nat.le_refl _) He).
  - destruct (lookup_lt_is_Some_2 _ _ Hi) as [e He]. exists e. split; [exact He|].
    apply (Fi _ e (Nat.le_refl _) He).
Qed.

(** ** Timestamp reconstruction *)

Lemma timestamp_word_step st event :
  isTimestamp event = true ->
  exists st', translateEvent st event = Some st'
    /\ wrapAdd (timestamps st') = wrapAdd (timestamps st)
    /\ lastTimestamp (timestamps st') = currentTimestamp (timestamps st)
    /\ currentTimestamp (timestamps st')
       = I32T (U32T (wrapAdd (timestamps st) + Z.land event 0x7FFF)).
Proof.
  intros H.
  destruct (translateEvent_unforced st event) as [st' Hst'].
  { rewrite decodeEvent_timestamp by exact H. reflexivity. }
  exists st'. split; [exact Hst'|].
  apply translateEvent_fields in Hst' as (_ & Ht & _).
  rewrite Ht, decodeEvent_timestamp by exact H. repeat split.
Qed.

Lemma wrap_word_step st event :
  isTimestamp event = false -> eventCode event = 7 ->
  exists st', translateEvent st event = Some st'
    /\ wrapAdd (timestamps st') = U32T (wrapAdd (timestamps st) + 0x8000 * eventData event)
    /\ lastTimestamp (timestamps st') = currentTimestamp (timestamps st)
    /\ currentTimestamp (timestamps st') = I32T (wrapAdd (timestamps st')).
Proof.
  intros H Hc.
  destruct (translateEvent_unforced st event) as [st' Hst'].
  { rewrite decodeEvent_wrap by assumption. reflexivity. }
  exists st'. split; [exact Hst'|].
  apply translateEvent_fields in Hst' as (_ & Ht & _).
  rewrite Ht, decodeEvent_wrap by assumption. cbn.
  rewrite (U32T_small (32768 * eventData event))
    by (pose proof (eventData_range event); lia).
  repeat split.
Qed.

Lemma tick_range event : 0 <= Z.land event 0x7FFF < 2 ^ 15.
Proof.
  change 32767 with (Z.ones 15). rewrite Z.land_ones by lia.
  apply Z.mod_pos_bound. lia.
Qed.

(** C1: a timestamp word moves the current timestamp to the last one and
    sets the current one to wrapAdd + (word & 0x7FFF), in the arithmetic of
    the uint32_t sum stored to the int32_t field, which is the exact sum
    while it stays below 2^31; a wrap word (code 7, data d) adds 0x8000 * d
    to wrapAdd (uint32_t) and sets the current timestamp to wrapAdd; from
    every state after start the words 0x8000, 0x7001, 0x8005 leave the
    current timestamp at 0x8005. *)
Theorem timestamp_reconstruction :
  (forall st event, isTimestamp event = true ->
     exists st', translateEvent st event = Some st'
       /\ wrapAdd (timestamps st') = wrapAdd (timestamps st)
       /\ lastTimestamp (timestamps st') = currentTimestamp (timestamps st)
       /\ currentTimestamp (timestamps st')
          = I32T (U32T (wrapAdd (timestamps st) + Z.land event 0x7FFF))
       /\ (0 <= wrapAdd (timestamps st) ->
           wrapAdd (timestamps st) + Z.land event 0x7FFF < 2 ^ 31 ->
           currentTimestamp (timestamps st')
           = wrapAdd (timestamps st) + Z.land event 0x7FFF))
  /\ (forall st event, isTimestamp event = false -> eventCode event = 7 ->
     exists st', translateEvent st event = Some st'
       /\ wrapAdd (timestamps st') = U32T (wrapAdd (timestamps st) + 0x8000 * eventData event)
       /\ lastTimestamp (timestamps st') = currentTimestamp (timestamps st)
       /\ currentTimestamp (timestamps st') = I32T (wrapAdd (timestamps st'))
       /\ (0 <= wrapAdd (timestamps st) ->
           wrapAdd (timestamps st) + 0x8000 * eventData event < 2 ^ 31 ->
           wrapAdd (timestamps st') = wrapAdd (timestamps st) + 0x8000 * eventData event
           /\ currentTimestamp (timestamps st') = wrapAdd (timestamps st')))
  /\ (forall s globalShutter resetRead accelScale gyroScale,
     exists st',
       translateEvents (start_state s globalShutter resetRead accelScale gyroScale)
         [0x8000; 0x7001; 0x8005] = Some st'
       /\ currentTimestamp (timestamps st') = 0x8005).
Proof.
  split; [|split].
  - intros st event H.
    destruct (timestamp_word_step st event H) as (st' & Hst' & Hw & Hl & Hc).
    exists st'. repeat split; try assumption.
    intros Hw0 Hlt. rewrite Hc. apply I32T_U32T_small.
    pose proof (tick_range event). lia.
  - intros st event H Hcode.
    destruct (wrap_word_step st event H Hcode) as (st' & Hst' & Hw & Hl & Hc).
    exists st'. repeat split; try assumption.
    + rewrite Hw. apply U32T_small. pose proof (eventData_range event). lia.
    + pose proof (eventData_range event).
      rewrite Hc, Hw, U32T_small by lia. apply I32T_small. lia.
  - intros s gs rr a g.
    destruct (timestamp_word_step (start_state s gs rr a g) 0x8000 eq_refl)
      as (st1 & H1 & Hw1 & _ & Hc1).
    destruct (wrap_word_step st1 0x7001 eq_refl eq_refl) as (st2 & H2 & Hw2 & _ & Hc2).
    destruct (timestamp_word_step st2 0x8005 eq_refl) as (st3 & H3 & Hw3 & _ & Hc3).
    exists st3. split.
    + cbn [translateEvents]. rewrite H1, H2, H3. reflexivity.
    + rewrite Hc3, Hw2, Hw1. reflexivity.
Qed.

Lemma timestamp_reconstruction_witness :
  (exists st', translateEvent davis240_start 0x8010 = Some st'
     /\ wrapAdd (timestamps st') = wrapAdd (timestamps davis240_start)
     /\ lastTimestamp (timestamps st') = currentTimestamp (timestamps davis240_start)
     /\ currentTimestamp (timestamps st')
        = I32T (U32T (wrapAdd (timestamps davis240_start) + Z.land 0x8010 0x7FFF))
     /\ (0 <= wrapAdd (timestamps davis240_start) ->
         wrapAdd (timestamps davis240_start) + Z.land 0x8010 0x7FFF < 2 ^ 31 ->
         currentTimestamp (timestamps st')
         = wrapAdd (timestamps davis240_start) + Z.land 0x8010 0x7FFF))
  /\ (exists st', translateEvent davis240_start 0x7001 = Some st'
     /\ wrapAdd (timestamps st')
        = U32T (wrapAdd (timestamps davis240_start) + 0x8000 * eventData 0x7001)
     /\ lastTimestamp (timestamps st') = currentTimestamp (timestamps davis240_start)
     /\ currentTimestamp (timestamps st') = I32T (wrapAdd (timestamps st'))
     /\ (0 <= wrapAdd (timestamps davis240_start) ->
         wrapAdd (timestamps davis240_start) + 0x8000 * eventData 0x7001 < 2 ^ 31 ->
         wrapAdd (timestamps st')
         = wrapAdd (timestamps davis240_start) + 0x8000 * eventData 0x7001
         /\ currentTimestamp (timestamps st') = wrapAdd (timestamps st'))).
Proof.
  split.
  - apply (proj1 timestamp_reconstruction davis240_start 0x8010). reflexivity.
  - apply (proj1 (proj2 timestamp_reconstruction) davis240_start 0x7001); reflexivity.
Defined.

(** ** Forced commits *)

Lemma commitChecks_forced st :
  polarityCommitCheck true st = true /\ frameCommitCheck true st = true
  /\ imu6CommitCheck true st = true /\ specialCommitCheck true st = true.
Proof. repeat split. Qed.

Lemma decodeEvent_timestampReset st event :
  isTimestamp event = false -> eventCode event = 0 -> eventData event = 1 ->
  decodeEvent st event = (timestampReset st, true).
Proof.
  intros H Hc Hd. rewrite decodeEvent_special by assumption. rewrite Hd. reflexivity.
Qed.

(** C2: a special word with data 1 zeroes wrapAdd, lastTimestamp,
    currentTimestamp and dvsTimestamp, writes a validated TIMESTAMP_RESET
    event with timestamp UINT32_MAX into the slot of the special packet at
    its position and advances the position, and sets forcePacketCommit;
    under forcePacketCommit each of the four commit checks holds whatever
    the state, so that the iteration, when it ends, leaves four new packets
    at position 0 and the special packet with the reset event as the newest
    packet of the exchange buffer; it ends whenever four slots are free. *)
Theorem timestamp_reset_word st event :
  isTimestamp event = false -> eventCode event = 0 -> eventData event = 1 ->
  (currentSpecialPacketPosition (packets st) < length (currentSpecialPacket (packets st)))%nat ->
  let pos := currentSpecialPacketPosition (packets st) in
  let st1 := fst (decodeEvent st event) in
  snd (decodeEvent st event) = true
  /\ timestamps st1 = {| wrapAdd := 0; lastTimestamp := 0; currentTimestamp := 0 |}
  /\ dvsTimestamp (dvs st1) = 0
  /\ (exists e, currentSpecialPacket (packets st) !! pos = Some e
        /\ currentSpecialPacket (packets st1)
           = <[pos := {| spe_timestamp := UINT32_MAX; spe_type := Some TIMESTAMP_RESET;
                         spe_data := spe_data e; spe_valid := true |}]>
               (currentSpecialPacket (packets st)))
  /\ currentSpecialPacketPosition (packets st1) = S pos
  /\ (forall s, polarityCommitCheck true s = true /\ frameCommitCheck true s = true
                /\ imu6CommitCheck true s = true /\ specialCommitCheck true s = true)
  /\ (forall st', translateEvent st event = Some st' ->
        timestamps st' = {| wrapAdd := 0; lastTimestamp := 0; currentTimestamp := 0 |}
        /\ dvsTimestamp (dvs st') = 0
        /\ packets st'
           = {| currentPolarityPacket :=
                  caerPolarityEventPacketAllocate (maxPolarityPacketSize (settings st));
                currentPolarityPacketPosition := 0;
                currentSpecialPacket :=
                  caerSpecialEventPacketAllocate (maxSpecialPacketSize (settings st));
                currentSpecialPacketPosition := 0;
                currentFramePacket :=
                  caerFrameEventPacketAllocate (maxFramePacketSize (settings st));
                currentFramePacketPosition := 0;
                currentIMU6Packet :=
                  caerIMU6EventPacketAllocate (maxIMU6PacketSize (settings st));
                currentIMU6PacketPosition := 0 |}
        /\ apsIgnoreEvents (aps st') = true
        /\ imuIgnoreEvents (imu st') = true
        /\ exists r, ring (dataExchangeBuffer st')
                     = r ++ [SpecialPacket (currentSpecialPacket (packets st1))])
  /\ ((length (ring (dataExchangeBuffer st)) + 3 < dataExchangeBufferSize (settings st))%nat ->
      is_Some (translateEvent st event)).
Proof.
  intros Hts Hcode Hdata Hpos pos st1.
  subst st1. rewrite (decodeEvent_timestampReset st event Hts Hcode Hdata). cbn [fst snd].
  split; [reflexivity|]. split; [reflexivity|]. split; [reflexivity|].
  split.
  { destruct (lookup_lt_is_Some_2 _ _ Hpos) as [e He]. exists e. split; [exact He|].
    cbn. rewrite (alter_as_insert _ _ _ _ He). reflexivity. }
  split; [reflexivity|].
  split; [intros s; apply commitChecks_forced|].
  split.
  - intros st'. rewrite translateEvent_unfold.
    rewrite (decodeEvent_timestampReset st event Hts Hcode Hdata). cbn [fst snd].
    unfold commitSpecial. cbn [specialCommitCheck orb].
    unfold put_or_spin.
    destruct (retry_special _ _ _ _) as [[sched r]|] eqn:Hretry; [|discriminate].
    intros [= <-]. apply retry_special_some in Hretry as [r0 ->].
    cbn. repeat split. exists r0. reflexivity.
  - intros Hroom. rewrite translateEvent_unfold.
    rewrite (decodeEvent_timestampReset st event Hts Hcode Hdata). cbn [fst snd].
    unfold commitSpecial. cbn [specialCommitCheck orb].
    unfold put_or_spin.
    set (s3 := commitIMU6 true (commitFrame true (commitPolarity true (timestampReset st)))).
    destruct (retry_special_room (dataExchangeBufferSize (settings s3))
                (consumer (dataExchangeBuffer s3)) (ring (dataExchangeBuffer s3))
                (SpecialPacket (currentSpecialPacket (packets s3)))) as [[sched r] Hr].
    + subst s3.
      rewrite commitIMU6_settings, commitFrame_settings, commitPolarity_settings.
      pose proof (commitIMU6_ring true (commitFrame true (commitPolarity true (timestampReset st)))).
      pose proof (commitFrame_ring true (commitPolarity true (timestampReset st))).
      pose proof (commitPolarity_ring true (timestampReset st)).
      change (dataExchangeBuffer (timestampReset st)) with (dataExchangeBuffer st) in *.
      change (settings (timestampReset st)) with (settings st).
      lia.
    + rewrite Hr. eauto.
Qed.

Lemma timestamp_reset_word_witness :
  isTimestamp 1 = false /\ eventCode 1 = 0 /\ eventData 1 = 1
  /\ (currentSpecialPacketPosition (packets davis240_start)
      < length (currentSpecialPacket (packets davis240_start)))%nat
  /\ snd (decodeEvent davis240_start 1) = true
  /\ timestamps (fst (decodeEvent davis240_start 1))
     = {| wrapAdd := 0; lastTimestamp := 0; currentTimestamp := 0 |}
  /\ currentSpecialPacketPosition (packets (fst (decodeEvent davis240_start 1))) = 1%nat
  /\ is_Some (translateEvent davis240_start 1).
Proof.
  assert (Hpos : (currentSpecialPacketPosition (packets davis240_start)
                  < length (currentSpecialPacket (packets davis240_start)))%nat)
    by (vm_compute; lia).
  destruct (timestamp_reset_word davis240_start 1 eq_refl eq_refl eq_refl Hpos)
    as (H1 & H2 & _ & _ & H5 & _ & _ & H8).
  repeat split; try assumption.
  apply H8. vm_compute. lia.
Defined.

(** ** DVS addresses *)

Lemma isDvsX_inv event :
  isDvsX event = true ->
  isTimestamp event = false /\ (eventCode event = 2 \/ eventCode event = 3).
Proof.
  unfold isDvsX. intros H.
  apply andb_true_iff in H as [Ht Hc]. apply negb_true_iff in Ht.
  apply orb_true_iff in Hc as [Hc|Hc]; apply Z.eqb_eq in Hc; auto.
Qed.

Lemma isDvsY_inv event :
  isDvsY event = true -> isTimestamp event = false /\ eventCode event = 1.
Proof.
  unfold isDvsY. intros H.
  apply andb_true_iff in H as [Ht Hc]. apply negb_true_iff in Ht.
  apply Z.eqb_eq in Hc. auto.
Qed.

Lemma decodeEvent_dvsX st event :
  isDvsX event = true ->
  decodeEvent st event = (dvsXAddress (eventCode event) (eventData event) st, false).
Proof.
  intros H. apply isDvsX_inv in H as [Ht [Hc|Hc]];
    unfold decodeEvent; rewrite Ht, Hc; reflexivity.
Qed.

Lemma decodeEvent_dvsY st event :
  isDvsY event = true ->
  decodeEvent st event = (dvsYAddress (eventData event) st, false).
Proof.
  intros H. apply isDvsY_inv in H as [Ht Hc].
  unfold decodeEvent; rewrite Ht, Hc; reflexivity.
Qed.

(** On every chip but the DAVIS208, code 2 is OFF and code 3 is ON. *)
Lemma dvsPolarity_plain s code data :
  chipID s <> CHIP_DAVIS208 -> code = 2 \/ code = 3 ->
  dvsPolarity s code data = (code =? 3).
Proof.
  intros Hchip Hcode. unfold dvsPolarity.
  destruct (chipID s); [congruence | |]; cbn; destruct Hcode as [-> | ->]; reflexivity.
Qed.

(** The polarity position moves by one at an in-range X address and at no
    other word. *)
Lemma decodeEvent_polarity_position st event :
  currentPolarityPacketPosition (packets (fst (decodeEvent st event)))
  = (currentPolarityPacketPosition (packets st)
     + if dvsXInRange (settings st) event then 1 else 0)%nat.
Proof.
  unfold dvsXInRange. destruct (isDvsX event) eqn:HX.
  - rewrite decodeEvent_dvsX by exact HX. cbn [fst andb]. unfold dvsXAddress.
    destruct (Z.leb_spec (dvsSizeX (settings st)) (eventData event)) as [Hge|Hlt].
    + destruct (Z.ltb_spec (eventData event) (dvsSizeX (settings st))); [lia|]. lia.
    + destruct (Z.ltb_spec (eventData event) (dvsSizeX (settings st))); [|lia].
      cbn. lia.
  - cbn [andb].
    rewrite (proj2 (proj2 (proj2 (proj2 (proj2 (decodeEvent_frame st event)))) HX)). lia.
Qed.

Lemma translateEvent_settings st event st' :
  translateEvent st event = Some st' -> settings st' = settings st.
Proof.
  intros H. apply translateEvent_fields in H as (Hs & _).
  rewrite Hs. apply (decodeEvent_frame st event).
Qed.

(** Over a transfer the polarity events written are as many as the
    in-range X address words. *)
Lemma polarityEmitted_count events :
  forall st st', translateEvents st events = Some st' ->
  polarityEmitted st events = inRangeXWords (settings st) events.
Proof.
  unfold inRangeXWords.
  induction events as [|event rest IH]; intros st st'; cbn [translateEvents polarityEmitted];
    [reflexivity|].
  destruct (translateEvent st event) as [st1|] eqn:Hstep; [|discriminate].
  intros Hrun. rewrite (IH st1 st' Hrun), (translateEvent_settings _ _ _ Hstep).
  rewrite decodeEvent_polarity_position. cbn [List.filter].
  destruct (dvsXInRange (settings st) event); cbn [length]; lia.
Qed.

(** C3, as the code has it: every in-range X address word writes exactly
    one polarity event, with the latched row and the timestamp taken at the
    last Y address, whether or not the Y latch is set, and clears the
    latch; no other word writes a polarity event.  An in-range Y address
    arriving while the latch is set writes exactly one DVS_ROW_ONLY special
    event with the previous row and the timestamp taken with it, then
    latches the new row; with the latch clear it writes no special event.
    An out-of-range Y address leaves the whole state as it was.  Over
    every transfer the polarity events written are as many as the in-range
    X address words. *)
Theorem dvs_address_words :
  (forall st event e,
     isDvsX event = true -> eventData event < dvsSizeX (settings st) ->
     currentPolarityPacket (packets st) !! currentPolarityPacketPosition (packets st) = Some e ->
     let st1 := fst (decodeEvent st event) in
     currentPolarityPacketPosition (packets st1) = S (currentPolarityPacketPosition (packets st))
     /\ currentPolarityPacket (packets st1)
        = <[currentPolarityPacketPosition (packets st) :=
              {| pol_timestamp := dvsTimestamp (dvs st);
                 pol_polarity := dvsPolarity (settings st) (eventCode event) (eventData event);
                 pol_x := if dvsInvertXY (settings st) then dvsLastY (dvs st) else eventData event;
                 pol_y := if dvsInvertXY (settings st) then eventData event else dvsLastY (dvs st);
                 pol_valid := true |}]> (currentPolarityPacket (packets st))
     /\ dvs st1 = {| dvsTimestamp := dvsTimestamp (dvs st); dvsLastY := dvsLastY (dvs st);
                     dvsGotY := false |})
  /\ (forall st event,
        isDvsX event = false \/ dvsSizeX (settings st) <= eventData event ->
        let st1 := fst (decodeEvent st event) in
        currentPolarityPacket (packets st1) = currentPolarityPacket (packets st)
        /\ currentPolarityPacketPosition (packets st1)
           = currentPolarityPacketPosition (packets st))
  /\ (forall st event e,
        isDvsY event = true -> eventData event < dvsSizeY (settings st) ->
        dvsGotY (dvs st) = true ->
        currentSpecialPacket (packets st) !! currentSpecialPacketPosition (packets st) = Some e ->
        let st1 := fst (decodeEvent st event) in
        currentSpecialPacketPosition (packets st1) = S (currentSpecialPacketPosition (packets st))
        /\ currentSpecialPacket (packets st1)
           = <[currentSpecialPacketPosition (packets st) :=
                 {| spe_timestamp := dvsTimestamp (dvs st); spe_type := Some DVS_ROW_ONLY;
                    spe_data := dvsLastY (dvs st); spe_valid := true |}]>
               (currentSpecialPacket (packets st))
        /\ dvs st1 = {| dvsTimestamp := currentTimestamp (timestamps st);
                        dvsLastY := eventData event; dvsGotY := true |})
  /\ (forall st event,
        isDvsY event = true -> eventData event < dvsSizeY (settings st) ->
        dvsGotY (dvs st) = false ->
        let st1 := fst (decodeEvent st event) in
        packets st1 = packets st
        /\ dvs st1 = {| dvsTimestamp := currentTimestamp (timestamps st);
                        dvsLastY := eventData event; dvsGotY := true |})
  /\ (forall st event,
        isDvsY event = true -> dvsSizeY (settings st) <= eventData event ->
        decodeEvent st event = (st, false))
  /\ (forall st events st',
        translateEvents st events = Some st' ->
        polarityEmitted st events = inRangeXWords (settings st) events).
Proof.
  split; [|split; [|split; [|split; [|split]]]].
  - intros st event e HX Hrange He st1. subst st1.
    rewrite decodeEvent_dvsX by exact HX. cbn [fst]. unfold dvsXAddress.
    destruct (Z.leb_spec (dvsSizeX (settings st)) (eventData event)); [lia|].
    cbn. rewrite (alter_as_insert _ _ _ _ He).
    destruct (dvsInvertXY (settings st)); repeat split.
  - intros st event [HX | Hrange] st1; subst st1.
    + apply (decodeEvent_frame st event). exact HX.
    + destruct (isDvsX event) eqn:HX.
      * rewrite decodeEvent_dvsX by exact HX. cbn [fst]. unfold dvsXAddress.
        destruct (Z.leb_spec (dvsSizeX (settings st)) (eventData event)); [|lia].
        split; reflexivity.
      * apply (decodeEvent_frame st event). exact HX.
  - intros st event e HY Hrange Hgot He st1. subst st1.
    rewrite decodeEvent_dvsY by exact HY. cbn [fst]. unfold dvsYAddress.
    destruct (Z.leb_spec (dvsSizeY (settings st)) (eventData event)); [lia|].
    rewrite Hgot. cbn. rewrite (alter_as_insert _ _ _ _ He). repeat split.
  - intros st event HY Hrange Hgot st1. subst st1.
    rewrite decodeEvent_dvsY by exact HY. cbn [fst]. unfold dvsYAddress.
    destruct (Z.leb_spec (dvsSizeY (settings st)) (eventData event)); [lia|].
    rewrite Hgot. cbn. split; reflexivity.
  - intros st event HY Hrange.
    rewrite decodeEvent_dvsY by exact HY. unfold dvsYAddress.
    destruct (Z.leb_spec (dvsSizeY (settings st)) (eventData event)); [|lia].
    reflexivity.
  - intros st events st'. apply polarityEmitted_count.
Qed.

Lemma dvs_address_words_witness :
  (isDvsX 0x2003 = true /\ eventData 0x2003 < dvsSizeX (settings davis240_start)
   /\ currentPolarityPacketPosition (packets (fst (decodeEvent davis240_start 0x2003))) = 1%nat)
  /\ (isDvsY 0x1FFF = true /\ dvsSizeY (settings davis240_start) <= eventData 0x1FFF
      /\ decodeEvent davis240_start 0x1FFF = (davis240_start, false))
  /\ (isDvsX 0x1005 = false
      /\ currentPolarityPacketPosition (packets (fst (decodeEvent davis240_start 0x1005)))
         = currentPolarityPacketPosition (packets davis240_start)).
Proof.
  split; [|split].
  - split; [reflexivity|]. split; [reflexivity|].
    apply (proj1 dvs_address_words davis240_start 0x2003 polarity_zero);
      [reflexivity | reflexivity | reflexivity].
  - split; [reflexivity|]. split; [vm_compute; discriminate|].
    apply (proj1 (proj2 (proj2 (proj2 (proj2 dvs_address_words)))) davis240_start 0x1FFF);
      [reflexivity | vm_compute; discriminate].
  - split; [reflexivity|].
    apply (proj1 (proj2 dvs_address_words) davis240_start 0x1005). left. reflexivity.
Defined.

(** C3, counterexample: the single word 0x2003 (X address 3), with no Y
    address before it, writes a polarity event: the pairing property of the
    specification fails.  So it does for Y=5, X=3, X=4, two events for one
    pair ([polarity_two_x_per_y]). *)
Lemma polarity_in_pairs_counterexample :
  ~ spec_polarity_in_pairs davis240_start [0x2003].
Proof. unfold spec_polarity_in_pairs. vm_compute. discriminate. Qed.

Lemma polarity_two_x_per_y :
  polarityEmitted davis240_start [0x1005; 0x2003; 0x2004] = 2%nat
  /\ spec_yx_pairs false [0x1005; 0x2003; 0x2004] = 1%nat.
Proof. split; vm_compute; reflexivity. Qed.

(** ** Iterations without a commit *)

(** No commit check holds when every position is below the capacity and
    at most one. *)
Lemma commit_none st :
  (currentPolarityPacketPosition (packets st) < length (currentPolarityPacket (packets st)))%nat ->
  (currentPolarityPacketPosition (packets st) <= 1)%nat ->
  (currentFramePacketPosition (packets st) < length (currentFramePacket (packets st)))%nat ->
  (currentFramePacketPosition (packets st) <= 1)%nat ->
  (currentIMU6PacketPosition (packets st) < length (currentIMU6Packet (packets st)))%nat ->
  (currentIMU6PacketPosition (packets st) <= 1)%nat ->
  (currentSpecialPacketPosition (packets st) < length (currentSpecialPacket (packets st)))%nat ->
  (currentSpecialPacketPosition (packets st) <= 1)%nat ->
  commitSpecial false (commitIMU6 false (commitFrame false (commitPolarity false st))) = Some st.
Proof.
  intros Hp Hp1 Hf Hf1 Hi Hi1 Hs Hs1.
  assert (Ep : polarityCommitCheck false st = false).
  { unfold polarityCommitCheck, caerEventPacketHeaderGetEventCapacity. cbn [orb].
    rewrite (proj2 (Nat.leb_gt _ _) Hp), (proj2 (Nat.ltb_ge _ _) Hp1). reflexivity. }
  unfold commitPolarity. rewrite Ep.
  assert (Ef : frameCommitCheck false st = false).
  { unfold frameCommitCheck, caerEventPacketHeaderGetEventCapacity. cbn [orb].
    rewrite (proj2 (Nat.leb_gt _ _) Hf), (proj2 (Nat.ltb_ge _ _) Hf1). reflexivity. }
  unfold commitFrame. rewrite Ef.
  assert (Ei : imu6CommitCheck false st = false).
  { unfold imu6CommitCheck, caerEventPacketHeaderGetEventCapacity. cbn [orb].
    rewrite (proj2 (Nat.leb_gt _ _) Hi), (proj2 (Nat.ltb_ge _ _) Hi1). reflexivity. }
  unfold commitIMU6. rewrite Ei.
  assert (Es : specialCommitCheck false st = false).
  { unfold specialCommitCheck, caerEventPacketHeaderGetEventCapacity. cbn [orb].
    rewrite (proj2 (Nat.leb_gt _ _) Hs), (proj2 (Nat.ltb_ge _ _) Hs1). reflexivity. }
  unfold commitSpecial. rewrite Es. reflexivity.
Qed.

Ltac packet_lengths :=
  cbn;
  unfold caerPolarityEventPacketAllocate, caerSpecialEventPacketAllocate,
    caerFrameEventPacketAllocate, caerIMU6EventPacketAllocate;
  rewrite ?length_alter, ?length_insert, ?repeat_length; lia.

(** C4, as the code has it: from the state after start the words 0x0005,
    0x8010, 0x2003 write exactly one polarity event, with x = 3, polarity
    OFF, y = 0 and timestamp 0: the word 0x0005 has code 0 and is the
    special event IMU start, a Y address has code 1, and the timestamp of a
    polarity event is the one taken at the last Y address.  The words
    0x8010, 0x1005 (Y address 5), 0x2003 write exactly one polarity event
    with x = 3, y = 5, polarity OFF and timestamp 0x10.  In both runs
    nothing is committed. *)
Theorem plain_polarity_scenario s gs rr a g :
  3 < dvsSizeX s -> 5 < dvsSizeY s -> dvsInvertXY s = false -> chipID s <> CHIP_DAVIS208 ->
  (1 < maxPolarityPacketSize s)%nat -> (0 < maxSpecialPacketSize s)%nat ->
  (0 < maxFramePacketSize s)%nat -> (0 < maxIMU6PacketSize s)%nat ->
  (exists st', translateEvents (start_state s gs rr a g) [0x0005; 0x8010; 0x2003] = Some st'
     /\ currentPolarityPacketPosition (packets st') = 1%nat
     /\ currentPolarityPacket (packets st')
        = <[0%nat := {| pol_timestamp := 0; pol_polarity := false; pol_x := 3; pol_y := 0;
                        pol_valid := true |}]>
            (caerPolarityEventPacketAllocate (maxPolarityPacketSize s))
     /\ dataExchangeBuffer st' = {| ring := []; consumer := []; freed := [] |})
  /\ (exists st', translateEvents (start_state s gs rr a g) [0x8010; 0x1005; 0x2003] = Some st'
     /\ currentPolarityPacketPosition (packets st') = 1%nat
     /\ currentPolarityPacket (packets st')
        = <[0%nat := {| pol_timestamp := 0x10; pol_polarity := false; pol_x := 3; pol_y := 5;
                        pol_valid := true |}]>
            (caerPolarityEventPacketAllocate (maxPolarityPacketSize s))
     /\ dataExchangeBuffer st' = {| ring := []; consumer := []; freed := [] |}).
Proof.
  intros HX HY Hinv Hchip Hpol Hspe Hfrm Himu.
  assert (Hp0 : repeat polarity_zero (maxPolarityPacketSize s) !! 0%nat = Some polarity_zero).
  { destruct (maxPolarityPacketSize s); [lia | reflexivity]. }
  assert (HXr : (dvsSizeX s <=? 3) = false) by (apply Z.leb_gt; lia).
  assert (HYr : (dvsSizeY s <=? 5) = false) by (apply Z.leb_gt; lia).
  assert (Hpolarity : dvsPolarity s 2 3 = false)
    by (rewrite dvsPolarity_plain by auto; reflexivity).
  split.
  - set (st0 := start_state s gs rr a g).
    set (st1 := imuStart st0).
    set (st2 := with_timestamps (timestampEvent 0x8010 (timestamps st1)) st1).
    set (st3 := dvsXAddress 2 3 st2).
    assert (E1 : translateEvent st0 0x0005 = Some st1).
    { rewrite translateEvent_unfold. change (decodeEvent st0 5) with (st1, false).
      cbn [fst snd]. apply commit_none; subst st1 st0; packet_lengths. }
    assert (E2 : translateEvent st1 0x8010 = Some st2).
    { rewrite translateEvent_unfold. change (decodeEvent st1 0x8010) with (st2, false).
      cbn [fst snd]. apply commit_none; subst st2 st1 st0; packet_lengths. }
    assert (E3 : translateEvent st2 0x2003 = Some st3).
    { rewrite translateEvent_unfold. change (decodeEvent st2 0x2003) with (st3, false).
      cbn [fst snd]. subst st3. unfold dvsXAddress.
      change (settings st2) with s. rewrite HXr.
      apply commit_none; subst st2 st1 st0; packet_lengths. }
    exists st3. split; [cbn [translateEvents]; rewrite E1, E2, E3; reflexivity|].
    subst st3. unfold dvsXAddress. change (settings st2) with s. rewrite HXr, Hinv, Hpolarity.
    cbn. rewrite (alter_as_insert _ _ _ _ Hp0). repeat split.
  - set (st0 := start_state s gs rr a g).
    set (st1 := with_timestamps (timestampEvent 0x8010 (timestamps st0)) st0).
    set (st2 := dvsYAddress 5 st1).
    set (st3 := dvsXAddress 2 3 st2).
    assert (E1 : translateEvent st0 0x8010 = Some st1).
    { rewrite translateEvent_unfold. change (decodeEvent st0 0x8010) with (st1, false).
      cbn [fst snd]. apply commit_none; subst st1 st0; packet_lengths. }
    assert (S2 : st2 = with_dvs {| dvsTimestamp := 0x10; dvsLastY := 5; dvsGotY := true |} st1).
    { subst st2. unfold dvsYAddress. change (settings st1) with s. rewrite HYr. reflexivity. }
    assert (E2 : translateEvent st1 0x1005 = Some st2).
    { rewrite translateEvent_unfold. change (decodeEvent st1 0x1005) with (st2, false).
      cbn [fst snd]. rewrite S2. apply commit_none; subst st1 st0; packet_lengths. }
    assert (E3 : translateEvent st2 0x2003 = Some st3).
    { rewrite translateEvent_unfold. change (decodeEvent st2 0x2003) with (st3, false).
      cbn [fst snd]. subst st3. unfold dvsXAddress. rewrite S2.
      change (settings (with_dvs _ st1)) with s. rewrite HXr.
      apply commit_none; subst st1 st0; packet_lengths. }
    exists st3. split; [cbn [translateEvents]; rewrite E1, E2, E3; reflexivity|].
    subst st3. unfold dvsXAddress. rewrite S2.
    change (settings (with_dvs _ st1)) with s. rewrite HXr, Hinv, Hpolarity.
    cbn. rewrite (alter_as_insert _ _ _ _ Hp0). repeat split.
Qed.

Lemma plain_polarity_scenario_witness :
  exists st', translateEvents davis240_start [0x0005; 0x8010; 0x2003] = Some st'
     /\ currentPolarityPacketPosition (packets st') = 1%nat
     /\ currentPolarityPacket (packets st')
        = <[0%nat := {| pol_timestamp := 0; pol_polarity := false; pol_x := 3; pol_y := 0;
                        pol_valid := true |}]>
            (caerPolarityEventPacketAllocate (maxPolarityPacketSize davis240_settings))
     /\ dataExchangeBuffer st' = {| ring := []; consumer := []; freed := [] |}.
Proof.
  apply (plain_polarity_scenario davis240_settings true true 0 0);
    try (vm_compute; lia); try reflexivity; discriminate.
Defined.

(** The first polarity slot after the words of scenario S1. *)
Lemma S1_first_polarity_event :
  match translateEvents davis240_start spec_S1_words with
  | Some st' => currentPolarityPacket (packets st') !! 0%nat
  | None => None
  end
  = Some {| pol_timestamp := 0; pol_polarity := false; pol_x := 3; pol_y := 0;
            pol_valid := true |}.
Proof. vm_compute. reflexivity. Qed.

(** C4, counterexample: scenario S1 as the specification words it expects
    y = 5 and timestamp 0x10 of the words 0x0005, 0x8010, 0x2003; the event
    written has y = 0 and timestamp 0. *)
Lemma plain_polarity_counterexample : ~ spec_S1_holds davis240_start.
Proof.
  unfold spec_S1_holds. intros (st' & Hrun & _ & Hev).
  pose proof S1_first_polarity_event as H. rewrite Hrun in H.
  rewrite H in Hev. discriminate.
Qed.

(** ** APS frame end and IMU end *)

Lemma frameEndValid_spec st :
  frameEndValid st = true
  <-> count_get (apsCountX (aps st)) APS_READOUT_RESET
      = (if apsResetRead (aps st) then frm_length_x (currentFrameEvent (packets st)) else 0)
      /\ count_get (apsCountX (aps st)) APS_READOUT_SIGNAL
         = frm_length_x (currentFrameEvent (packets st)).
Proof.
  unfold frameEndValid, frameEndCheckValue. cbn [forallb aps_readout_eqb andb].
  rewrite !andb_true_iff, !Z.eqb_eq.
  destruct (apsResetRead (aps st)); cbn [negb]; tauto.
Qed.

(** C5: at an APS frame end (special word with data 10) that is not
    ignored, the frame event at the position, not validated before, is
    validated exactly when every readout phase has counted as many columns
    as the frame is wide (zero columns for the reset phase when reset reads
    are disabled); its tsEndOfFrame is set to currentTimestamp and the
    position of the frame packet is advanced in either case. *)
Theorem aps_frame_end st event e :
  isTimestamp event = false -> eventCode event = 0 -> eventData event = 10 ->
  apsIgnoreEvents (aps st) = false ->
  currentFramePacket (packets st) !! currentFramePacketPosition (packets st) = Some e ->
  frm_valid e = false ->
  let st1 := fst (decodeEvent st event) in
  exists e',
    currentFramePacket (packets st1)
    = <[currentFramePacketPosition (packets st) := e']> (currentFramePacket (packets st))
    /\ (frm_valid e' = true
        <-> count_get (apsCountX (aps st)) APS_READOUT_RESET
            = (if apsResetRead (aps st) then frm_length_x e else 0)
            /\ count_get (apsCountX (aps st)) APS_READOUT_SIGNAL = frm_length_x e)
    /\ frm_ts_end_of_frame e' = currentTimestamp (timestamps st)
    /\ frm_pixels e' = frm_pixels e
    /\ frm_length_x e' = frm_length_x e /\ frm_length_y e' = frm_length_y e
    /\ currentFramePacketPosition (packets st1) = S (currentFramePacketPosition (packets st))
    /\ snd (decodeEvent st event) = false.
Proof.
  intros Hts Hcode Hdata Hign He Hvalid st1. subst st1.
  rewrite decodeEvent_special by assumption. rewrite Hdata.
  cbn [specialEvent fst snd]. unfold apsFrameEnd. rewrite Hign.
  assert (Hcur : currentFrameEvent (packets st) = e)
    by (unfold currentFrameEvent; rewrite He; reflexivity).
  pose proof (frameEndValid_spec st) as Hspec. rewrite Hcur in Hspec.
  destruct (frameEndValid st) eqn:Hv; cbn in Hspec.
  - exists (caerFrameEventValidate
              (caerFrameEventSetTSEndOfFrame (currentTimestamp (timestamps st)) e)).
    cbn. rewrite list_alter_alter_eq.
    rewrite (alter_as_insert _ _ _ _ He).
    split; [reflexivity|].
    split; [split; [intros _; apply Hspec; reflexivity | reflexivity]|].
    repeat split.
  - exists (caerFrameEventSetTSEndOfFrame (currentTimestamp (timestamps st)) e).
    cbn. rewrite (alter_as_insert _ _ _ _ He).
    split; [reflexivity|].
    split; [|repeat split].
    rewrite Hvalid. split; [discriminate|].
    intros H. apply Hspec in H. discriminate.
Qed.

Lemma aps_frame_end_witness :
  isTimestamp 0x000A = false /\ eventCode 0x000A = 0 /\ eventData 0x000A = 10
  /\ apsIgnoreEvents (aps davis240_start) = false
  /\ currentFramePacketPosition (packets (fst (decodeEvent davis240_start 0x000A))) = 1%nat.
Proof.
  destruct (aps_frame_end davis240_start 0x000A frame_zero
              eq_refl eq_refl eq_refl eq_refl eq_refl eq_refl)
    as (e' & _ & _ & _ & _ & _ & _ & Hpos & _).
  split; [reflexivity|]. split; [reflexivity|]. split; [reflexivity|].
  split; [reflexivity|]. exact Hpos.
Defined.

(** C7: at an IMU end (special word with data 7) that is not ignored, the
    IMU6 event at the position is validated and the position of the IMU6
    packet advanced exactly when imuCount is 14; otherwise the word leaves
    the whole state, and with it the packet position, as it was. *)
Theorem imu6_end st event e :
  isTimestamp event = false -> eventCode event = 0 -> eventData event = 7 ->
  imuIgnoreEvents (imu st) = false ->
  currentIMU6Packet (packets st) !! currentIMU6PacketPosition (packets st) = Some e ->
  let st1 := fst (decodeEvent st event) in
  (imuCount (imu st) = 14 ->
     currentIMU6Packet (packets st1)
     = <[currentIMU6PacketPosition (packets st) := caerIMU6EventValidate e]>
         (currentIMU6Packet (packets st))
     /\ currentIMU6PacketPosition (packets st1) = S (currentIMU6PacketPosition (packets st)))
  /\ (imuCount (imu st) <> 14 -> decodeEvent st event = (st, false))
  /\ (currentIMU6PacketPosition (packets st1) = S (currentIMU6PacketPosition (packets st))
      <-> imuCount (imu st) = 14).
Proof.
  intros Hts Hcode Hdata Hign He st1. subst st1.
  rewrite decodeEvent_special by assumption. rewrite Hdata.
  cbn [specialEvent fst snd]. unfold imuEnd. rewrite Hign. unfold IMU6_COUNT.
  destruct (Z.eqb_spec (imuCount (imu st)) 14) as [Heq|Hne].
  - cbn. rewrite (alter_as_insert _ _ _ _ He). repeat split; congruence.
  - repeat split; try congruence. intros H. lia.
Qed.

Lemma imu6_end_witness :
  isTimestamp 0x0007 = false /\ eventCode 0x0007 = 0 /\ eventData 0x0007 = 7
  /\ imuIgnoreEvents (imu davis240_start) = false
  /\ imuCount (imu davis240_start) <> 14
  /\ decodeEvent davis240_start 0x0007 = (davis240_start, false)
  /\ imuCount (imu imu_record_state) = 14
  /\ currentIMU6PacketPosition (packets (fst (decodeEvent imu_record_state 0x0007))) = 1%nat.
Proof.
  assert (Hne : imuCount (imu davis240_start) <> 14) by (vm_compute; discriminate).
  assert (Heq : imuCount (imu imu_record_state) = 14) by (vm_compute; reflexivity).
  assert (He : exists e, currentIMU6Packet (packets imu_record_state)
                         !! currentIMU6PacketPosition (packets imu_record_state) = Some e)
    by (vm_compute; eauto).
  destruct He as [e He].
  split; [reflexivity|]. split; [reflexivity|]. split; [reflexivity|].
  split; [reflexivity|]. split; [exact Hne|]. split.
  - apply (proj1 (proj2 (imu6_end davis240_start 0x0007 imu6_zero
                           eq_refl eq_refl eq_refl eq_refl eq_refl))).
    exact Hne.
  - split; [exact Heq|].
    apply (proj1 (imu6_end imu_record_state 0x0007 e eq_refl eq_refl eq_refl eq_refl He)).
    exact Heq.
Defined.

(** ** APS samples and CDS subtraction *)

Lemma decodeEvent_aps st event :
  isTimestamp event = false -> eventCode event = 4 ->
  decodeEvent st event = (apsADCSample (eventData event) st, false).
Proof. intros H Hc. unfold decodeEvent. rewrite H, Hc. reflexivity. Qed.

Lemma currentFrameEvent_alter f p :
  currentFrameEvent (alter_frame f p)
  = match currentFramePacket p !! currentFramePacketPosition p with
    | Some e => f e
    | None => frame_zero
    end.
Proof.
  unfold currentFrameEvent, alter_frame. cbn.
  rewrite list_lookup_alter_eq.
  destruct (currentFramePacket p !! currentFramePacketPosition p); reflexivity.
Qed.

(** The value a signal read stores, by cases. *)
Lemma apsPixelValue_cases st data :
  apsRGBGlobalShutter st = false ->
  (apsResetValue st < data -> apsPixelValue st data = 0)
  /\ (data <= apsResetValue st ->
      apsPixelValue st data = Z.shiftl (apsResetValue st - data) 6 mod 2 ^ 16)
  /\ (data <= apsResetValue st -> apsResetValue st - data < 1024 ->
      apsPixelValue st data = Z.shiftl (apsResetValue st - data) 6).
Proof.
  intros Hrgb. unfold apsPixelValue. rewrite Hrgb. cbv zeta.
  change (16 - DAVIS_ADC_DEPTH) with 6. unfold U16T.
  repeat split.
  - intros H. destruct (Z.ltb_spec (apsResetValue st - data) 0); [reflexivity | lia].
  - intros H. destruct (Z.ltb_spec (apsResetValue st - data) 0); [lia | reflexivity].
  - intros H Hlt. destruct (Z.ltb_spec (apsResetValue st - data) 0); [lia |].
    rewrite Z.shiftl_mul_pow2 by lia. apply Z.mod_small. lia.
Qed.

(** An ADC sample of the signal phase writes the pixel value at its
    position in the pixel array of the frame. *)
Lemma apsADCSample_signal_store st event :
  isTimestamp event = false -> eventCode event = 4 ->
  apsIgnoreEvents (aps st) = false ->
  apsCurrentReadoutType (aps st) = APS_READOUT_SIGNAL ->
  apsRGBGlobalShutter st = false ->
  count_get (apsCountY (aps st)) APS_READOUT_SIGNAL
  < frm_length_y (currentFrameEvent (packets st)) ->
  frm_pixels (currentFrameEvent (packets (fst (decodeEvent st event))))
  = <[apsPixelPosition st := apsPixelValue st (eventData event)]>
      (frm_pixels (currentFrameEvent (packets st))).
Proof.
  intros Hts Hcode Hign Hrt Hrgb Hy.
  rewrite decodeEvent_aps by assumption. cbn [fst].
  unfold apsADCSample. rewrite Hign. cbv zeta. rewrite Hrt.
  destruct (Z.leb_spec (frm_length_y (currentFrameEvent (packets st)))
              (count_get (apsCountY (aps st)) APS_READOUT_SIGNAL)); [lia|].
  assert (Hread : apsSampleIsResetRead st = false).
  { unfold apsSampleIsResetRead. rewrite Hrt, Hrgb. reflexivity. }
  rewrite Hread.
  destruct (chip_eqb (chipID (settings st)) CHIP_DAVISRGB);
    cbn [packets with_aps with_packets];
    rewrite currentFrameEvent_alter; unfold currentFrameEvent;
    destruct (currentFramePacket (packets st) !! currentFramePacketPosition (packets st));
    reflexivity.
Qed.

(** On the samples of the 10-bit ADC the pixel value of the code is the
    pixel of the specification. *)
Lemma apsPixelValue_spec st data :
  apsRGBGlobalShutter st = false ->
  0 <= data ->
  0 <= apsResetValue st < 2 ^ DAVIS_ADC_DEPTH ->
  apsPixelValue st data = spec_cds_pixel (apsResetValue st) data.
Proof.
  intros Hrgb Hdata HR. change (2 ^ DAVIS_ADC_DEPTH) with 1024 in HR.
  destruct (apsPixelValue_cases st data Hrgb) as (Hlt & _ & Hge).
  unfold spec_cds_pixel. change (16 - DAVIS_ADC_DEPTH) with 6.
  destruct (Z.leb_spec data (apsResetValue st)) as [Hle|Hgt].
  - apply Hge; lia.
  - apply Hlt. exact Hgt.
Qed.

(** C6: an ADC sample of the signal phase (not the DAVIS RGB in global
    shutter mode) with data S, at a pixel whose reset value R is a sample
    of the 10-bit ADC, stores at its position in the pixel array of the
    frame (R - S) << 6 when R >= S and 0 when R < S, and nothing
    elsewhere; the position lying in the array, this is the value of the
    pixel afterwards.  In scenario S5, with R = 800 and S = 200, on a
    2 x 1 monochrome sensor, the pixel is 0x9600. *)
Theorem aps_signal_sample :
  (forall st event,
     isTimestamp event = false -> eventCode event = 4 ->
     apsIgnoreEvents (aps st) = false ->
     apsCurrentReadoutType (aps st) = APS_READOUT_SIGNAL ->
     apsRGBGlobalShutter st = false ->
     count_get (apsCountY (aps st)) APS_READOUT_SIGNAL
     < frm_length_y (currentFrameEvent (packets st)) ->
     0 <= apsResetValue st < 2 ^ DAVIS_ADC_DEPTH ->
     let R := apsResetValue st in
     let S := eventData event in
     let st1 := fst (decodeEvent st event) in
     frm_pixels (currentFrameEvent (packets st1))
     = <[apsPixelPosition st := if S <=? R then Z.shiftl (R - S) 6 else 0]>
         (frm_pixels (currentFrameEvent (packets st)))
     /\ ((apsPixelPosition st < length (frm_pixels (currentFrameEvent (packets st))))%nat ->
         spec_cds_holds st event))
  /\ (exists st', translateEvents mono_2x1_start spec_S5_words = Some st'
        /\ (frm_pixels <$> currentFramePacket (packets st') !! 0%nat) = Some [0x9600; 0]).
Proof.
  split.
  - intros st event Hts Hcode Hign Hrt Hrgb Hy HR R S st1. subst R S st1.
    pose proof (apsADCSample_signal_store st event Hts Hcode Hign Hrt Hrgb Hy) as Hstore.
    pose proof (apsPixelValue_spec st (eventData event) Hrgb
                  (proj1 (eventData_range event)) HR) as Hv.
    rewrite Hv in Hstore. split; [exact Hstore|].
    intros Hpos. unfold spec_cds_holds. rewrite Hstore.
    apply list_lookup_insert_eq. exact Hpos.
  - eexists. split; [vm_compute; reflexivity|]. vm_compute. reflexivity.
Qed.

Lemma aps_signal_sample_witness :
  let st := state_after mono_2x1_start [0x0008; 0x000B; 0x4320; 0x000D; 0x000C] in
  apsResetValue st = 800 /\ eventData 0x40C8 = 200
  /\ frm_pixels (currentFrameEvent (packets (fst (decodeEvent st 0x40C8))))
     = <[apsPixelPosition st := 0x9600]> (frm_pixels (currentFrameEvent (packets st)))
  /\ spec_cds_holds st 0x40C8.
Proof.
  intros st.
  assert (HR : apsResetValue st = 800) by (vm_compute; reflexivity).
  assert (HS : eventData 0x40C8 = 200) by reflexivity.
  assert (Hign : apsIgnoreEvents (aps st) = false) by (vm_compute; reflexivity).
  assert (Hrt : apsCurrentReadoutType (aps st) = APS_READOUT_SIGNAL)
    by (vm_compute; reflexivity).
  assert (Hrgb : apsRGBGlobalShutter st = false) by (vm_compute; reflexivity).
  assert (Hy : count_get (apsCountY (aps st)) APS_READOUT_SIGNAL
               < frm_length_y (currentFrameEvent (packets st)))
    by (vm_compute; reflexivity).
  assert (Hrange : 0 <= apsResetValue st < 2 ^ DAVIS_ADC_DEPTH)
    by (rewrite HR; change (2 ^ DAVIS_ADC_DEPTH) with 1024; lia).
  assert (Hpos : (apsPixelPosition st
                  < length (frm_pixels (currentFrameEvent (packets st))))%nat)
    by (apply Nat.ltb_lt; vm_compute; reflexivity).
  destruct (proj1 aps_signal_sample st 0x40C8 eq_refl eq_refl Hign Hrt Hrgb Hy Hrange)
    as [Hpix Hspec].
  split; [exact HR|]. split; [exact HS|]. split; [|exact (Hspec Hpos)].
  rewrite Hpix, HR, HS. reflexivity.
Defined.

(** The data field of a sample word has 12 bits.  A reset read beyond the
    10 bits of the ADC can leave the range in which the pixel is
    (R - S) << 6: a reset read of 2000 and a signal read of 0 store 62464,
    the 16-bit value of 2000 << 6 = 128000. *)
Remark cds_pixel_beyond_adc_depth :
  let st := state_after mono_2x1_start [0x0008; 0x000B; 0x47D0; 0x000D; 0x000C] in
  apsResetValue st = 2000
  /\ frm_pixels (currentFrameEvent (packets (fst (decodeEvent st 0x4000))))
       !! apsPixelPosition st = Some 62464.
Proof. split; vm_compute; reflexivity. Qed.

(** ** Commits into a full exchange buffer *)

Lemma put_or_drop_full cap x p :
  (cap <=? length (drop (hd 0%nat (consumer x)) (ring x)))%nat = true ->
  put_or_drop cap x p
  = {| ring := drop (hd 0%nat (consumer x)) (ring x);
       consumer := tl (consumer x);
       freed := p :: freed x |}.
Proof.
  intros H. apply Nat.leb_le in H. unfold put_or_drop, ringBufferPut.
  destruct (Nat.ltb_spec (length (drop (hd 0%nat (consumer x)) (ring x))) cap); [lia|].
  reflexivity.
Qed.

Lemma put_or_drop_freed cap x p :
  carriesTimestampReset p = false ->
  forallb (fun q => negb (carriesTimestampReset q)) (freed x) = true ->
  forallb (fun q => negb (carriesTimestampReset q)) (freed (put_or_drop cap x p)) = true.
Proof.
  intros Hp Hx. unfold put_or_drop. destruct (ringBufferPut _ _ _); cbn [freed forallb].
  - exact Hx.
  - rewrite Hp, Hx. reflexivity.
Qed.

Lemma existsb_alter_false {A : Type} (P : A -> bool) (f : A -> A) (i : nat) (l : list A) :
  (forall e, P (f e) = false) -> existsb P l = false -> existsb P (alter f i l) = false.
Proof.
  intros Hf. revert i. induction l as [|x l IH]; intros i H; [reflexivity|].
  cbn in H. apply orb_false_iff in H as [Hx Hl].
  destruct i as [|i]; cbn.
  - rewrite Hf, Hl. reflexivity.
  - rewrite Hx. cbn. apply IH. exact Hl.
Qed.

Lemma existsb_repeat_false {A : Type} (P : A -> bool) (x : A) (n : nat) :
  P x = false -> existsb P (repeat x n) = false.
Proof. intros H. induction n as [|n IH]; cbn; [reflexivity | rewrite H, IH; reflexivity]. Qed.

(** A word that does not force the commit writes no timestamp reset
    marker. *)
Lemma decodeEvent_no_reset st event :
  snd (decodeEvent st event) = false ->
  existsb isTimestampReset (currentSpecialPacket (packets st)) = false ->
  existsb isTimestampReset (currentSpecialPacket (packets (fst (decodeEvent st event)))) = false.
Proof.
  decode_cases event; cbn [fst snd]; intros Hforce Hfree; try discriminate;
    helper_cases; try assumption;
    apply existsb_alter_false; try assumption; intros; reflexivity.
Qed.

Lemma commitPolarity_special force st :
  currentSpecialPacket (packets (commitPolarity force st)) = currentSpecialPacket (packets st)
  /\ (forallb (fun q => negb (carriesTimestampReset q)) (freed (dataExchangeBuffer st)) = true ->
      forallb (fun q => negb (carriesTimestampReset q))
        (freed (dataExchangeBuffer (commitPolarity force st))) = true).
Proof.
  commit_cases; cbn; split; try reflexivity; try tauto.
  apply put_or_drop_freed. reflexivity.
Qed.

Lemma commitFrame_special force st :
  currentSpecialPacket (packets (commitFrame force st)) = currentSpecialPacket (packets st)
  /\ (forallb (fun q => negb (carriesTimestampReset q)) (freed (dataExchangeBuffer st)) = true ->
      forallb (fun q => negb (carriesTimestampReset q))
        (freed (dataExchangeBuffer (commitFrame force st))) = true).
Proof.
  commit_cases; cbn; split; try reflexivity; try tauto.
  apply put_or_drop_freed. reflexivity.
Qed.

Lemma commitIMU6_special force st :
  currentSpecialPacket (packets (commitIMU6 force st)) = currentSpecialPacket (packets st)
  /\ (forallb (fun q => negb (carriesTimestampReset q)) (freed (dataExchangeBuffer st)) = true ->
      forallb (fun q => negb (carriesTimestampReset q))
        (freed (dataExchangeBuffer (commitIMU6 force st))) = true).
Proof.
  commit_cases; cbn; split; try reflexivity; try tauto.
  apply put_or_drop_freed. reflexivity.
Qed.

(** The forced commit of the special packet frees nothing and, when it
    returns, has the packet as the newest of the buffer. *)
Lemma commitSpecial_forced st st' :
  commitSpecial true st = Some st' ->
  freed (dataExchangeBuffer st') = freed (dataExchangeBuffer st)
  /\ (exists r, ring (dataExchangeBuffer st')
                = r ++ [SpecialPacket (currentSpecialPacket (packets st))])
  /\ currentSpecialPacket (packets st')
     = caerSpecialEventPacketAllocate (maxSpecialPacketSize (settings st))
  /\ currentSpecialPacketPosition (packets st') = 0%nat.
Proof.
  unfold commitSpecial. cbn [specialCommitCheck orb]. unfold put_or_spin.
  destruct (retry_special _ _ _ _) as [[sched r]|] eqn:Hretry; [|discriminate].
  intros [= <-]. apply retry_special_some in Hretry as [r0 ->].
  cbn. repeat split. exists r0. reflexivity.
Qed.

Lemma commitSpecial_no_reset_lost force st st' :
  (force = false -> existsb isTimestampReset (currentSpecialPacket (packets st)) = false) ->
  forallb (fun q => negb (carriesTimestampReset q)) (freed (dataExchangeBuffer st)) = true ->
  commitSpecial force st = Some st' ->
  no_reset_lost st'.
Proof.
  intros Hpkt Hfreed. destruct force.
  - intros H. apply commitSpecial_forced in H as (Hf & _ & Hp & _).
    split.
    + rewrite Hp. apply existsb_repeat_false. reflexivity.
    + rewrite Hf. exact Hfreed.
  - specialize (Hpkt eq_refl). unfold commitSpecial.
    destruct (specialCommitCheck false st).
    + intros [= <-]. split; cbn.
      * apply existsb_repeat_false. reflexivity.
      * apply put_or_drop_freed; [exact Hpkt | exact Hfreed].
    + intros [= <-]. split; assumption.
Qed.

Lemma translateEvent_no_reset_lost st event st' :
  no_reset_lost st -> translateEvent st event = Some st' -> no_reset_lost st'.
Proof.
  intros [Hpkt Hfreed]. rewrite translateEvent_unfold.
  set (force := snd (decodeEvent st event)).
  set (st1 := fst (decodeEvent st event)).
  assert (Hfreed1 : forallb (fun q => negb (carriesTimestampReset q))
                      (freed (dataExchangeBuffer st1)) = true).
  { subst st1. rewrite (proj1 (proj2 (decodeEvent_frame st event))). exact Hfreed. }
  apply commitSpecial_no_reset_lost.
  - intros Hforce.
    rewrite (proj1 (commitIMU6_special _ _)), (proj1 (commitFrame_special _ _)),
      (proj1 (commitPolarity_special _ _)).
    apply decodeEvent_no_reset; assumption.
  - apply commitIMU6_special, commitFrame_special, commitPolarity_special. exact Hfreed1.
Qed.

Lemma translateEvents_no_reset_lost events :
  forall st st', no_reset_lost st -> translateEvents st events = Some st' -> no_reset_lost st'.
Proof.
  induction events as [|event rest IH]; intros st st' Hst; cbn [translateEvents].
  - intros [= <-]. exact Hst.
  - destruct (translateEvent st event) as [st1|] eqn:Hstep; [|discriminate].
    apply IH. eapply translateEvent_no_reset_lost; eassumption.
Qed.

Lemma start_state_no_reset_lost s gs rr a g : no_reset_lost (start_state s gs rr a g).
Proof. split; cbn; [apply existsb_repeat_false|]; reflexivity. Qed.

(** C8: when a commit check holds and the exchange buffer is full, the
    polarity, the frame and the IMU6 packet are freed and not enqueued; so
    is the special packet when forcePacketCommit is not set.  Under
    forcePacketCommit the commit of the special packet frees nothing: the
    put is repeated, it does not return while the buffer stays full and
    the consumer idle, it returns once the consumer has taken a packet, and
    when it returns the special packet is the newest packet of the buffer.
    Hence no special packet carrying a TIMESTAMP_RESET event is ever freed:
    the property [no_reset_lost] holds after start and is kept by every
    transfer. *)
Theorem commit_on_full_buffer :
  (forall force st,
     polarityCommitCheck force st = true -> exchangeFull st = true ->
     freed (dataExchangeBuffer (commitPolarity force st))
     = PolarityPacket (currentPolarityPacket (packets st)) :: freed (dataExchangeBuffer st)
     /\ ring (dataExchangeBuffer (commitPolarity force st))
        = drop (hd 0%nat (consumer (dataExchangeBuffer st))) (ring (dataExchangeBuffer st)))
  /\ (forall force st,
        frameCommitCheck force st = true -> exchangeFull st = true ->
        freed (dataExchangeBuffer (commitFrame force st))
        = FramePacket (currentFramePacket (packets st)) :: freed (dataExchangeBuffer st)
        /\ ring (dataExchangeBuffer (commitFrame force st))
           = drop (hd 0%nat (consumer (dataExchangeBuffer st))) (ring (dataExchangeBuffer st)))
  /\ (forall force st,
        imu6CommitCheck force st = true -> exchangeFull st = true ->
        freed (dataExchangeBuffer (commitIMU6 force st))
        = IMU6Packet (currentIMU6Packet (packets st)) :: freed (dataExchangeBuffer st)
        /\ ring (dataExchangeBuffer (commitIMU6 force st))
           = drop (hd 0%nat (consumer (dataExchangeBuffer st))) (ring (dataExchangeBuffer st)))
  /\ (forall st,
        specialCommitCheck false st = true -> exchangeFull st = true ->
        exists st', commitSpecial false st = Some st'
          /\ freed (dataExchangeBuffer st')
             = SpecialPacket (currentSpecialPacket (packets st)) :: freed (dataExchangeBuffer st)
          /\ ring (dataExchangeBuffer st')
             = drop (hd 0%nat (consumer (dataExchangeBuffer st))) (ring (dataExchangeBuffer st)))
  /\ (forall st st',
        commitSpecial true st = Some st' ->
        freed (dataExchangeBuffer st') = freed (dataExchangeBuffer st)
        /\ exists r, ring (dataExchangeBuffer st')
                     = r ++ [SpecialPacket (currentSpecialPacket (packets st))])
  /\ (forall st,
        exchangeFull st = true -> consumer (dataExchangeBuffer st) = [] ->
        commitSpecial true st = None)
  /\ (forall st,
        (0 < dataExchangeBufferSize (settings st))%nat ->
        (length (ring (dataExchangeBuffer st)) <= dataExchangeBufferSize (settings st))%nat ->
        Exists (fun k => (0 < k)%nat) (consumer (dataExchangeBuffer st)) ->
        is_Some (commitSpecial true st))
  /\ (forall s gs rr a g, no_reset_lost (start_state s gs rr a g))
  /\ (forall st events st',
        no_reset_lost st -> translateEvents st events = Some st' -> no_reset_lost st').
Proof.
  repeat apply conj.
  - intros force st Hc Hfull. unfold commitPolarity. rewrite Hc. cbn.
    rewrite put_or_drop_full by exact Hfull. split; reflexivity.
  - intros force st Hc Hfull. unfold commitFrame. rewrite Hc. cbn.
    rewrite put_or_drop_full by exact Hfull. split; reflexivity.
  - intros force st Hc Hfull. unfold commitIMU6. rewrite Hc. cbn.
    rewrite put_or_drop_full by exact Hfull. split; reflexivity.
  - intros st Hc Hfull. unfold commitSpecial. rewrite Hc.
    eexists. split; [reflexivity|]. cbn.
    rewrite put_or_drop_full by exact Hfull. split; reflexivity.
  - intros st st' H. apply commitSpecial_forced in H as (Hf & Hr & _). split; assumption.
  - intros st Hfull Hidle. unfold commitSpecial. cbn [specialCommitCheck orb].
    unfold put_or_spin. rewrite Hidle.
    rewrite retry_special_idle; [reflexivity|].
    unfold exchangeFull in Hfull. rewrite Hidle in Hfull. cbn in Hfull.
    apply Nat.leb_le in Hfull. exact Hfull.
  - intros st Hcap Hlen Hex. unfold commitSpecial. cbn [specialCommitCheck orb].
    unfold put_or_spin.
    destruct (retry_special_progress (dataExchangeBufferSize (settings st))
                (SpecialPacket (currentSpecialPacket (packets st)))
                (consumer (dataExchangeBuffer st)) (ring (dataExchangeBuffer st))
                Hcap Hlen Hex) as [[sched r] Hr].
    rewrite Hr. eauto.
  - apply start_state_no_reset_lost.
  - intros st events st'. apply translateEvents_no_reset_lost.
Qed.

Lemma commit_on_full_buffer_witness :
  polarityCommitCheck true davis240_full = true /\ exchangeFull davis240_full = true
  /\ freed (dataExchangeBuffer (commitPolarity true davis240_full))
     = [PolarityPacket (currentPolarityPacket (packets davis240_full))]
  /\ commitSpecial true davis240_full = None.
Proof.
  split; [reflexivity|]. split; [reflexivity|]. split.
  - apply (proj1 commit_on_full_buffer true davis240_full); reflexivity.
  - apply (proj1 (proj2 (proj2 (proj2 (proj2 (proj2 commit_on_full_buffer)))))
             davis240_full); reflexivity.
Defined.

(** ** davisCommonDataStart *)

(** A failure of one of the first six allocations is reported: the call
    returns false with every pointer NULL and no thread. *)
Lemma davisCommonDataStart_checked o :
  ringBufferInit_ok o && caerEventPacketContainerAllocate_ok o
  && caerPolarityEventPacketAllocate_ok o && caerSpecialEventPacketAllocate_ok o
  && caerFrameEventPacketAllocate_ok o && caerIMU6EventPacketAllocate_ok o = false ->
  davisCommonDataStart o = start_failed memory_null.
Proof.
  destruct o as [[] [] [] [] [] [] c t]; cbn; intros H; try discriminate; reflexivity.
Qed.

(** C9: when every allocation succeeds but the calloc of the reset frame,
    [davisCommonDataStart] returns true with apsCurrentResetFrame NULL and
    the acquisition thread running: the test after the calloc reads
    currentIMU6Packet. *)
Theorem davisCommonDataStart_reset_frame_unchecked :
  start_returned (davisCommonDataStart reset_frame_calloc_fails) = true
  /\ start_thread (davisCommonDataStart reset_frame_calloc_fails) = true
  /\ mem_apsCurrentResetFrame (start_memory (davisCommonDataStart reset_frame_calloc_fails))
     = false
  /\ mem_currentIMU6Packet (start_memory (davisCommonDataStart reset_frame_calloc_fails))
     = true.
Proof. repeat split. Qed.

(** ** The ignore flags *)

Lemma commitFrame_ignore force st :
  frameCommitCheck force st = true \/ apsIgnoreEvents (aps st) = true ->
  apsIgnoreEvents (aps (commitFrame force st)) = true.
Proof.
  unfold commitFrame. destruct (frameCommitCheck force st); [reflexivity|].
  intros [H|H]; [discriminate | exact H].
Qed.

Lemma commitIMU6_ignore force st :
  imu6CommitCheck force st = true \/ imuIgnoreEvents (imu st) = true ->
  imuIgnoreEvents (imu (commitIMU6 force st)) = true.
Proof.
  unfold commitIMU6. destruct (imu6CommitCheck force st); [reflexivity|].
  intros [H|H]; [discriminate | exact H].
Qed.

(** With the flag set an APS word changes nothing. *)
Lemma decodeEvent_aps_ignored st event :
  apsIgnoreEvents (aps st) = true -> isAPSWord event = true ->
  decodeEvent st event = (st, false).
Proof.
  intros Hign Hw. decode_cases event; try word_class_absurd;
    unfold_helpers; rewrite ?Hign; reflexivity.
Qed.

Lemma decodeEvent_imu_ignored st event :
  imuIgnoreEvents (imu st) = true -> isIMUWord event = true ->
  decodeEvent st event = (st, false).
Proof.
  intros Hign Hw. decode_cases event; try word_class_absurd;
    unfold_helpers; cbv zeta; rewrite ?Hign;
    repeat match goal with
           | |- context [match ?x with _ => _ end] => destruct x
           end; reflexivity.
Qed.

Lemma translateEvent_aps_ignore st event st' :
  translateEvent st event = Some st' ->
  frameCommitCheck (snd (decodeEvent st event))
    (commitPolarity (snd (decodeEvent st event)) (fst (decodeEvent st event))) = true
  \/ (apsIgnoreEvents (aps st) = true /\ isAPSFrameStart event = false) ->
  apsIgnoreEvents (aps st') = true.
Proof.
  rewrite translateEvent_unfold. intros H Hcase.
  apply commitSpecial_inv in H as (_ & _ & _ & Ha & _).
  rewrite Ha, commitIMU6_aps. apply commitFrame_ignore.
  destruct Hcase as [Hc | [Hign Hstart]]; [left; exact Hc | right].
  rewrite commitPolarity_aps.
  rewrite (proj1 (proj2 (proj2 (decodeEvent_frame st event))) Hstart). exact Hign.
Qed.

Lemma translateEvent_imu_ignore st event st' :
  translateEvent st event = Some st' ->
  imu6CommitCheck (snd (decodeEvent st event))
    (commitFrame (snd (decodeEvent st event))
       (commitPolarity (snd (decodeEvent st event)) (fst (decodeEvent st event)))) = true
  \/ (imuIgnoreEvents (imu st) = true /\ isIMUStart event = false) ->
  imuIgnoreEvents (imu st') = true.
Proof.
  rewrite translateEvent_unfold. intros H Hcase.
  apply commitSpecial_inv in H as (_ & _ & _ & _ & Hi).
  rewrite Hi. apply commitIMU6_ignore.
  destruct Hcase as [Hc | [Hign Hstart]]; [left; exact Hc | right].
  rewrite commitFrame_imu, commitPolarity_imu.
  rewrite (proj1 (proj2 (proj2 (proj2 (decodeEvent_frame st event)))) Hstart). exact Hign.
Qed.

Lemma translateEvents_aps_ignore events :
  forall st st',
    apsIgnoreEvents (aps st) = true ->
    Forall (fun event => isAPSFrameStart event = false) events ->
    translateEvents st events = Some st' ->
    apsIgnoreEvents (aps st') = true.
Proof.
  induction events as [|event rest IH]; intros st st' Hign Hall; cbn [translateEvents].
  - intros [= <-]. exact Hign.
  - destruct (translateEvent st event) as [st1|] eqn:Hstep; [|discriminate].
    inversion Hall as [|? ? Hevent Hrest]; subst.
    apply IH; [|exact Hrest].
    apply (translateEvent_aps_ignore st event st1 Hstep). right. split; assumption.
Qed.

Lemma translateEvents_imu_ignore events :
  forall st st',
    imuIgnoreEvents (imu st) = true ->
    Forall (fun event => isIMUStart event = false) events ->
    translateEvents st events = Some st' ->
    imuIgnoreEvents (imu st') = true.
Proof.
  induction events as [|event rest IH]; intros st st' Hign Hall; cbn [translateEvents].
  - intros [= <-]. exact Hign.
  - destruct (translateEvent st event) as [st1|] eqn:Hstep; [|discriminate].
    inversion Hall as [|? ? Hevent Hrest]; subst.
    apply IH; [|exact Hrest].
    apply (translateEvent_imu_ignore st event st1 Hstep). right. split; assumption.
Qed.

Lemma decodeEvent_frame_start st event :
  isAPSFrameStart event = true ->
  apsIgnoreEvents (aps (fst (decodeEvent st event))) = false.
Proof.
  intros Hw. decode_cases event; try word_class_absurd;
    unfold_helpers; cbn; reflexivity.
Qed.

Lemma decodeEvent_imu_start st event :
  isIMUStart event = true ->
  imuIgnoreEvents (imu (fst (decodeEvent st event))) = false.
Proof.
  intros Hw. decode_cases event; try word_class_absurd;
    unfold_helpers; cbn; reflexivity.
Qed.

(** *** The start markers clear the ignore flags *)

(** The commit check of the frame packet reads the position, the capacity
    and the slots other than the one at the position. *)
Lemma frameCommitCheck_ext force st1 st2 :
  settings st1 = settings st2 ->
  currentFramePacketPosition (packets st1) = currentFramePacketPosition (packets st2) ->
  length (currentFramePacket (packets st1)) = length (currentFramePacket (packets st2)) ->
  (forall n, n <> currentFramePacketPosition (packets st2) ->
             currentFramePacket (packets st1) !! n = currentFramePacket (packets st2) !! n) ->
  frameCommitCheck force st1 = frameCommitCheck force st2.
Proof.
  intros Hs Hp Hl Hn. unfold frameCommitCheck, caerEventPacketHeaderGetEventCapacity.
  rewrite Hs, Hp, Hl.
  destruct (Nat.ltb_spec 1 (currentFramePacketPosition (packets st2))) as [Hlt|Hge].
  - rewrite !Hn by lia. reflexivity.
  - rewrite !andb_false_l. reflexivity.
Qed.

Lemma imu6CommitCheck_ext force st1 st2 :
  settings st1 = settings st2 ->
  currentIMU6PacketPosition (packets st1) = currentIMU6PacketPosition (packets st2) ->
  length (currentIMU6Packet (packets st1)) = length (currentIMU6Packet (packets st2)) ->
  (forall n, n <> currentIMU6PacketPosition (packets st2) ->
             currentIMU6Packet (packets st1) !! n = currentIMU6Packet (packets st2) !! n) ->
  imu6CommitCheck force st1 = imu6CommitCheck force st2.
Proof.
  intros Hs Hp Hl Hn. unfold imu6CommitCheck, caerEventPacketHeaderGetEventCapacity.
  rewrite Hs, Hp, Hl.
  destruct (Nat.ltb_spec 1 (currentIMU6PacketPosition (packets st2))) as [Hlt|Hge].
  - rewrite !Hn by lia. reflexivity.
  - rewrite !andb_false_l. reflexivity.
Qed.

(** At a frame start the commit check of the frame packet is what it was
    before the word. *)
Lemma frameCommitCheck_frame_start st event :
  isAPSFrameStart event = true ->
  frameCommitCheck false (commitPolarity false (fst (decodeEvent st event)))
  = frameCommitCheck false st.
Proof.
  intros Hw. apply frameCommitCheck_ext.
  - rewrite commitPolarity_settings. apply (decodeEvent_frame st event).
  - commit_cases; decode_cases event; try word_class_absurd;
      cbn [fst]; unfold_helpers; cbn; reflexivity.
  - commit_cases; decode_cases event; try word_class_absurd;
      cbn [fst]; unfold_helpers; cbn; rewrite ?length_alter; reflexivity.
  - intros n Hn. commit_cases; decode_cases event; try word_class_absurd;
      cbn [fst]; unfold_helpers; cbn; rewrite ?list_lookup_alter_ne by congruence;
      reflexivity.
Qed.

Lemma imu6CommitCheck_imu_start st event :
  isIMUStart event = true ->
  imu6CommitCheck false
    (commitFrame false (commitPolarity false (fst (decodeEvent st event))))
  = imu6CommitCheck false st.
Proof.
  intros Hw. apply imu6CommitCheck_ext.
  - rewrite commitFrame_settings, commitPolarity_settings. apply (decodeEvent_frame st event).
  - do 2 commit_cases; decode_cases event; try word_class_absurd;
      cbn [fst]; unfold_helpers; cbn; reflexivity.
  - do 2 commit_cases; decode_cases event; try word_class_absurd;
      cbn [fst]; unfold_helpers; cbn; rewrite ?length_alter; reflexivity.
  - intros n Hn. do 2 commit_cases; decode_cases event; try word_class_absurd;
      cbn [fst]; unfold_helpers; cbn; rewrite ?list_lookup_alter_ne by congruence;
      reflexivity.
Qed.

Lemma decodeEvent_start_unforced st event :
  isAPSFrameStart event = true \/ isIMUStart event = true ->
  snd (decodeEvent st event) = false.
Proof.
  intros [Hw|Hw]; decode_cases event; try word_class_absurd; reflexivity.
Qed.

Lemma translateEvent_frame_start st event st' :
  frameCommitCheck false st = false -> isAPSFrameStart event = true ->
  translateEvent st event = Some st' -> apsIgnoreEvents (aps st') = false.
Proof.
  intros Hq Hw. rewrite translateEvent_unfold.
  rewrite decodeEvent_start_unforced by (left; exact Hw).
  intros H. apply commitSpecial_inv in H as (_ & _ & _ & Ha & _).
  rewrite Ha, commitIMU6_aps. unfold commitFrame.
  rewrite frameCommitCheck_frame_start, Hq by exact Hw.
  rewrite commitPolarity_aps. apply decodeEvent_frame_start. exact Hw.
Qed.

Lemma translateEvent_imu_start st event st' :
  imu6CommitCheck false st = false -> isIMUStart event = true ->
  translateEvent st event = Some st' -> imuIgnoreEvents (imu st') = false.
Proof.
  intros Hq Hw. rewrite translateEvent_unfold.
  rewrite decodeEvent_start_unforced by (right; exact Hw).
  intros H. apply commitSpecial_inv in H as (_ & _ & _ & _ & Hi).
  rewrite Hi. unfold commitIMU6.
  rewrite imu6CommitCheck_imu_start, Hq by exact Hw.
  rewrite commitFrame_imu, commitPolarity_imu. apply decodeEvent_imu_start. exact Hw.
Qed.

(** After every iteration no commit is due. *)
Ltac unfold_checks :=
  unfold specialCommitCheck, imu6CommitCheck, frameCommitCheck, polarityCommitCheck,
    caerEventPacketHeaderGetEventCapacity, caerPolarityEventPacketAllocate,
    caerSpecialEventPacketAllocate, caerFrameEventPacketAllocate,
    caerIMU6EventPacketAllocate.

Lemma commitPolarity_quiescent force st :
  (0 < maxPolarityPacketSize (settings st))%nat ->
  polarityCommitCheck false (commitPolarity force st) = false.
Proof.
  intros S. apply Nat.leb_gt in S. unfold commitPolarity.
  destruct (polarityCommitCheck force st) eqn:C.
  - unfold_checks. cbn. rewrite repeat_length, S. reflexivity.
  - destruct force; [discriminate | exact C].
Qed.

Lemma commitFrame_quiescent force st :
  (0 < maxFramePacketSize (settings st))%nat ->
  frameCommitCheck false (commitFrame force st) = false
  /\ polarityCommitCheck false (commitFrame force st) = polarityCommitCheck false st.
Proof.
  intros S. apply Nat.leb_gt in S. unfold commitFrame.
  destruct (frameCommitCheck force st) eqn:C.
  - unfold_checks. cbn. rewrite repeat_length, S. split; reflexivity.
  - destruct force; [discriminate | split; [exact C | reflexivity]].
Qed.

Lemma commitIMU6_quiescent force st :
  (0 < maxIMU6PacketSize (settings st))%nat ->
  imu6CommitCheck false (commitIMU6 force st) = false
  /\ polarityCommitCheck false (commitIMU6 force st) = polarityCommitCheck false st
  /\ frameCommitCheck false (commitIMU6 force st) = frameCommitCheck false st.
Proof.
  intros S. apply Nat.leb_gt in S. unfold commitIMU6.
  destruct (imu6CommitCheck force st) eqn:C.
  - unfold_checks. cbn. rewrite repeat_length, S. repeat split.
  - destruct force; [discriminate | repeat split; exact C].
Qed.

Lemma commitSpecial_quiescent force st st' :
  (0 < maxSpecialPacketSize (settings st))%nat ->
  commitSpecial force st = Some st' ->
  specialCommitCheck false st' = false
  /\ polarityCommitCheck false st' = polarityCommitCheck false st
  /\ frameCommitCheck false st' = frameCommitCheck false st
  /\ imu6CommitCheck false st' = imu6CommitCheck false st.
Proof.
  intros S. apply Nat.leb_gt in S. unfold commitSpecial.
  destruct (specialCommitCheck force st) eqn:C.
  - destruct (if force then _ else _) as [x|]; [|discriminate].
    intros [= <-]. unfold_checks. cbn. rewrite repeat_length, S. repeat split.
  - intros [= <-]. destruct force; [discriminate | repeat split; exact C].
Qed.

Lemma commit_quiescent force st st' :
  (0 < maxPolarityPacketSize (settings st))%nat -> (0 < maxSpecialPacketSize (settings st))%nat ->
  (0 < maxFramePacketSize (settings st))%nat -> (0 < maxIMU6PacketSize (settings st))%nat ->
  commitSpecial force (commitIMU6 force (commitFrame force (commitPolarity force st))) = Some st' ->
  commits_quiescent st'.
Proof.
  intros Sp Ss Sf Si H.
  apply commitSpecial_quiescent in H as (Hs & Hp3 & Hf3 & Hi3);
    [|rewrite commitIMU6_settings, commitFrame_settings, commitPolarity_settings; exact Ss].
  destruct (commitIMU6_quiescent force (commitFrame force (commitPolarity force st)))
    as (Hi2 & Hp2 & Hf2);
    [rewrite commitFrame_settings, commitPolarity_settings; exact Si|].
  destruct (commitFrame_quiescent force (commitPolarity force st)) as (Hf1 & Hp1);
    [rewrite commitPolarity_settings; exact Sf|].
  pose proof (commitPolarity_quiescent force st Sp) as Hp0.
  unfold commits_quiescent. repeat split; congruence.
Qed.

Lemma translateEvent_quiescent st event st' :
  packets_wf st -> translateEvent st event = Some st' -> commits_quiescent st'.
Proof.
  intros [_ _ _ _ _ _ _ _ Sp Ss Sf Si]. rewrite translateEvent_unfold.
  apply commit_quiescent; rewrite (proj1 (decodeEvent_frame st event)); assumption.
Qed.

Lemma start_state_quiescent s gs rr a g :
  (0 < maxPolarityPacketSize s)%nat -> (0 < maxSpecialPacketSize s)%nat ->
  (0 < maxFramePacketSize s)%nat -> (0 < maxIMU6PacketSize s)%nat ->
  commits_quiescent (start_state s gs rr a g).
Proof.
  intros Sp Ss Sf Si. apply Nat.leb_gt in Sp, Ss, Sf, Si.
  unfold commits_quiescent. unfold_checks.
  cbn. unfold_checks. rewrite !repeat_length, Sp, Ss, Sf, Si. repeat split.
Qed.

(** C10: whenever the commit of the frame packet fires, its put succeeding
    or not, apsIgnoreEvents is set, and whenever the commit of the IMU6
    packet fires imuIgnoreEvents is set; the flag is then set at the end of
    that iteration.  While apsIgnoreEvents is set, every APS word (frame
    end, column start, column end, ADC sample) leaves the decoder state as
    it was, and the flag stays set through every transfer without an APS
    frame start; the decoding of an APS frame start clears it, and it is
    clear at the end of that iteration when no commit of the frame packet
    was due before the word, as is the case between the iterations of a
    well-formed run.  Likewise for imuIgnoreEvents, the IMU words (IMU end,
    scale configuration, IMU data) and the IMU start. *)
Theorem ignore_after_commit :
  (forall force st,
     frameCommitCheck force st = true ->
     apsIgnoreEvents (aps (commitFrame force st)) = true)
  /\ (forall force st,
        imu6CommitCheck force st = true ->
        imuIgnoreEvents (imu (commitIMU6 force st)) = true)
  /\ (forall st event st',
        translateEvent st event = Some st' ->
        frameCommitCheck (snd (decodeEvent st event))
          (commitPolarity (snd (decodeEvent st event)) (fst (decodeEvent st event))) = true ->
        apsIgnoreEvents (aps st') = true)
  /\ (forall st event st',
        translateEvent st event = Some st' ->
        imu6CommitCheck (snd (decodeEvent st event))
          (commitFrame (snd (decodeEvent st event))
             (commitPolarity (snd (decodeEvent st event)) (fst (decodeEvent st event)))) = true ->
        imuIgnoreEvents (imu st') = true)
  /\ (forall st event,
        apsIgnoreEvents (aps st) = true -> isAPSWord event = true ->
        decodeEvent st event = (st, false))
  /\ (forall st event,
        imuIgnoreEvents (imu st) = true -> isIMUWord event = true ->
        decodeEvent st event = (st, false))
  /\ (forall st events st',
        apsIgnoreEvents (aps st) = true ->
        Forall (fun event => isAPSFrameStart event = false) events ->
        translateEvents st events = Some st' ->
        apsIgnoreEvents (aps st') = true)
  /\ (forall st events st',
        imuIgnoreEvents (imu st) = true ->
        Forall (fun event => isIMUStart event = false) events ->
        translateEvents st events = Some st' ->
        imuIgnoreEvents (imu st') = true)
  /\ (forall st event,
        isAPSFrameStart event = true ->
        apsIgnoreEvents (aps (fst (decodeEvent st event))) = false)
  /\ (forall st event,
        isIMUStart event = true ->
        imuIgnoreEvents (imu (fst (decodeEvent st event))) = false)
  /\ (forall st event st',
        frameCommitCheck false st = false -> isAPSFrameStart event = true ->
        translateEvent st event = Some st' -> apsIgnoreEvents (aps st') = false)
  /\ (forall st event st',
        imu6CommitCheck false st = false -> isIMUStart event = true ->
        translateEvent st event = Some st' -> imuIgnoreEvents (imu st') = false)
  /\ (forall st event st',
        packets_wf st -> translateEvent st event = Some st' ->
        packets_wf st' /\ commits_quiescent st').
Proof.
  repeat apply conj.
  - intros force st H. apply commitFrame_ignore. left. exact H.
  - intros force st H. apply commitIMU6_ignore. left. exact H.
  - intros st event st' Hstep H. apply (translateEvent_aps_ignore st event st' Hstep). left. exact H.
  - intros st event st' Hstep H. apply (translateEvent_imu_ignore st event st' Hstep). left. exact H.
  - apply decodeEvent_aps_ignored.
  - apply decodeEvent_imu_ignored.
  - intros st events st'. apply translateEvents_aps_ignore.
  - intros st events st'. apply translateEvents_imu_ignore.
  - apply decodeEvent_frame_start.
  - apply decodeEvent_imu_start.
  - apply translateEvent_frame_start.
  - apply translateEvent_imu_start.
  - intros st event st' Hwf Hstep.
    split; [eapply translateEvent_wf | eapply translateEvent_quiescent]; eassumption.
Qed.

Lemma ignore_after_commit_witness :
  frameCommitCheck true davis240_full = true
  /\ apsIgnoreEvents (aps (commitFrame true davis240_full)) = true
  /\ isAPSWord 0x4123 = true
  /\ decodeEvent (commitFrame true davis240_full) 0x4123 = (commitFrame true davis240_full, false).
Proof.
  split; [reflexivity|].
  assert (H : apsIgnoreEvents (aps (commitFrame true davis240_full)) = true)
    by (apply (proj1 ignore_after_commit true davis240_full); reflexivity).
  split; [exact H|]. split; [reflexivity|].
  apply (proj1 (proj2 (proj2 (proj2 (proj2 ignore_after_commit))))
           (commitFrame true davis240_full) 0x4123 H). reflexivity.
Defined.

(** * Further properties of the driver core *)

(** ** SPI configuration transfers *)

Lemma U8T_testbit x n : 0 <= n -> Z.testbit (U8T x) n = (n <? 8) && Z.testbit x n.
Proof.
  intros Hn. unfold U8T. destruct (Z.ltb_spec n 8).
  - rewrite Z.mod_pow2_bits_low by lia. reflexivity.
  - rewrite Z.mod_pow2_bits_high by lia. reflexivity.
Qed.

Lemma U32T_testbit x n : 0 <= n -> Z.testbit (U32T x) n = (n <? 32) && Z.testbit x n.
Proof.
  intros Hn. unfold U32T. destruct (Z.ltb_spec n 32).
  - rewrite Z.mod_pow2_bits_low by lia. reflexivity.
  - rewrite Z.mod_pow2_bits_high by lia. reflexivity.
Qed.

(** One byte of the parameter, put back at its place. *)
Lemma byte_field_testbit p k n :
  0 <= k -> 0 <= n ->
  Z.testbit (U32T (Z.shiftl (U8T (Z.shiftr p k)) k)) n
  = (k <=? n) && (n <? k + 8) && (n <? 32) && Z.testbit p n.
Proof.
  intros Hk Hn. rewrite U32T_testbit, Z.shiftl_spec by lia.
  destruct (Z.leb_spec k n) as [Hle|Hgt].
  - rewrite U8T_testbit, Z.shiftr_spec by lia.
    replace (n - k + k) with n by lia.
    destruct (Z.ltb_spec (n - k) 8), (Z.ltb_spec n (k + 8)), (Z.ltb_spec n 32);
      cbn; try lia; reflexivity.
  - rewrite Z.testbit_neg_r by lia. rewrite andb_false_r. reflexivity.
Qed.

Lemma spiConfig_read_back moduleAddr paramAddr param :
  spiConfigReceive (ct_data (spiConfigSend moduleAddr paramAddr param)) = U32T param.
Proof.
  unfold spiConfigReceive, spiConfigSend, spiConfigBuffer. cbn.
  apply Z.bits_inj'. intros n Hn.
  rewrite !Z.lor_spec, !byte_field_testbit, U32T_testbit, Z.bits_0 by lia.
  destruct (Z.leb_spec 24 n), (Z.leb_spec 16 n), (Z.leb_spec 8 n), (Z.leb_spec 0 n),
    (Z.ltb_spec n 32), (Z.ltb_spec n (24 + 8)), (Z.ltb_spec n (16 + 8)),
    (Z.ltb_spec n (8 + 8)), (Z.ltb_spec n (0 + 8));
    cbn; try lia; rewrite ?orb_false_r; reflexivity.
Qed.

Lemma byte_at_testbit b k m :
  0 <= k -> 0 <= m ->
  Z.testbit (U32T (Z.shiftl (U8T b) k)) m
  = (k <=? m) && (m <? k + 8) && (m <? 32) && Z.testbit b (m - k).
Proof.
  intros Hk Hm. rewrite U32T_testbit, Z.shiftl_spec by lia.
  destruct (Z.leb_spec k m) as [Hle|Hgt].
  - rewrite U8T_testbit by lia.
    destruct (Z.ltb_spec (m - k) 8), (Z.ltb_spec m (k + 8)), (Z.ltb_spec m 32);
      cbn; try lia; reflexivity.
  - rewrite Z.testbit_neg_r by lia. rewrite andb_false_r. reflexivity.
Qed.

Lemma spiConfig_send_back moduleAddr paramAddr b0 b1 b2 b3 :
  ct_data (spiConfigSend moduleAddr paramAddr
             (spiConfigReceive [U8T b0; U8T b1; U8T b2; U8T b3]))
  = [U8T b0; U8T b1; U8T b2; U8T b3].
Proof.
  unfold spiConfigReceive, spiConfigSend, spiConfigBuffer. cbn.
  f_equal; [|f_equal; [|f_equal; [|f_equal]]];
    apply Z.bits_inj'; intros n Hn;
    rewrite !U8T_testbit, Z.shiftr_spec, !Z.lor_spec, !byte_at_testbit, Z.bits_0 by lia;
    destruct (Z.ltb_spec n 8); cbn [andb orb]; try reflexivity;
    repeat match goal with
           | |- context [(?a <=? ?b)] => destruct (Z.leb_spec a b); try lia
           | |- context [(?a <? ?b)] => destruct (Z.ltb_spec a b); try lia
           end;
    cbn [andb orb]; rewrite ?orb_false_r; try reflexivity; f_equal; lia.
Qed.

(** X1: the bytes [spiConfigSend] writes for a parameter are read back by
    [spiConfigReceive] as that parameter (as a uint32_t), and the bytes
    [spiConfigReceive] reads are those [spiConfigSend] writes for its
    result: the two agree on a big-endian layout.  The result is a 32-bit
    value, and it is 0 when the control transfer returned no data. *)
Theorem spiConfig_round_trip :
  (forall moduleAddr paramAddr param,
     spiConfigReceive (ct_data (spiConfigSend moduleAddr paramAddr param)) = U32T param)
  /\ (forall moduleAddr paramAddr b0 b1 b2 b3,
        0 <= b0 < 256 -> 0 <= b1 < 256 -> 0 <= b2 < 256 -> 0 <= b3 < 256 ->
        ct_data (spiConfigSend moduleAddr paramAddr (spiConfigReceive [b0; b1; b2; b3]))
        = [b0; b1; b2; b3]
        /\ spiConfigReceive [b0; b1; b2; b3]
           = b0 * 2 ^ 24 + b1 * 2 ^ 16 + b2 * 2 ^ 8 + b3)
  /\ spiConfigReceive [] = 0.
Proof.
  split; [apply spiConfig_read_back|]. split; [|reflexivity].
  intros m p b0 b1 b2 b3 H0 H1 H2 H3.
  assert (E : forall b, 0 <= b < 256 -> U8T b = b)
    by (intros b Hb; unfold U8T; apply Z.mod_small; lia).
  split.
  - rewrite <- (E b0 H0), <- (E b1 H1), <- (E b2 H2), <- (E b3 H3).
    apply spiConfig_send_back.
  - pose proof (spiConfig_send_back m p b0 b1 b2 b3) as Hs.
    rewrite !E in Hs by assumption.
    pose proof (spiConfig_read_back m p (b0 * 2 ^ 24 + b1 * 2 ^ 16 + b2 * 2 ^ 8 + b3)) as Hr.
    assert (Hd : ct_data (spiConfigSend m p (b0 * 2 ^ 24 + b1 * 2 ^ 16 + b2 * 2 ^ 8 + b3))
                 = [b0; b1; b2; b3]).
    { unfold spiConfigSend. cbn [ct_data]. unfold U8T.
      rewrite !Z.shiftr_div_pow2 by lia.
      repeat f_equal.
      - replace (b0 * 2 ^ 24 + b1 * 2 ^ 16 + b2 * 2 ^ 8 + b3)
          with (b0 * 2 ^ 24 + (b1 * 2 ^ 16 + b2 * 2 ^ 8 + b3)) by lia.
        rewrite Z.div_add_l by lia. rewrite (Z.div_small (_ + _)) by lia.
        rewrite Z.mod_small; lia.
      - replace (b0 * 2 ^ 24 + b1 * 2 ^ 16 + b2 * 2 ^ 8 + b3)
          with ((b0 * 2 ^ 8 + b1) * 2 ^ 16 + (b2 * 2 ^ 8 + b3)) by lia.
        rewrite Z.div_add_l by lia. rewrite (Z.div_small (_ + _)) by lia.
        rewrite Z.add_0_r, Z.add_comm, Z.mod_add by lia. apply Z.mod_small; lia.
      - replace (b0 * 2 ^ 24 + b1 * 2 ^ 16 + b2 * 2 ^ 8 + b3)
          with ((b0 * 2 ^ 16 + b1 * 2 ^ 8 + b2) * 2 ^ 8 + b3) by lia.
        rewrite Z.div_add_l by lia. rewrite (Z.div_small b3) by lia.
        rewrite Z.add_0_r.
        replace (b0 * 2 ^ 16 + b1 * 2 ^ 8 + b2) with (b2 + (b0 * 2 ^ 8 + b1) * 2 ^ 8) by lia.
        rewrite Z.mod_add by lia. apply Z.mod_small; lia.
      - rewrite Z.div_1_r.
        replace (b0 * 2 ^ 24 + b1 * 2 ^ 16 + b2 * 2 ^ 8 + b3)
          with (b3 + (b0 * 2 ^ 16 + b1 * 2 ^ 8 + b2) * 2 ^ 8) by lia.
        rewrite Z.mod_add by lia. apply Z.mod_small; lia. }
    rewrite Hd in Hr. rewrite Hr. apply U32T_small. lia.
Qed.

Lemma spiConfig_round_trip_witness :
  ct_data (spiConfigSend 1 2 (spiConfigReceive [0x12; 0x34; 0x56; 0x78]))
  = [0x12; 0x34; 0x56; 0x78]
  /\ spiConfigReceive [0x12; 0x34; 0x56; 0x78] = 0x12345678.
Proof.
  destruct (proj1 (proj2 spiConfig_round_trip) 1 2 0x12 0x34 0x56 0x78) as [H1 H2];
    try lia.
  split; [exact H1 | exact H2].
Defined.

(** ** The device search *)

(** One turn of the loop: a usable device ends the search, any other
    device that was opened is closed again. *)
Lemma davisDeviceOpen_loop_step devVID devPID devType busNumber devAddress i d rest r :
  davisDeviceOpen_loop devVID devPID devType busNumber devAddress i (d :: rest) r
  = if deviceUsable devVID devPID devType busNumber devAddress d
    then {| devHandle := Some i;
            handles_opened := handles_opened r ++ [i];
            handles_closed := handles_closed r |}
    else davisDeviceOpen_loop devVID devPID devType busNumber devAddress (S i) rest
           (if deviceOpened devVID devPID devType busNumber devAddress d
            then {| devHandle := None;
                    handles_opened := handles_opened r ++ [i];
                    handles_closed := handles_closed r ++ [i] |}
            else r).
Proof.
  cbn [davisDeviceOpen_loop]. unfold deviceUsable, deviceOpened.
  destruct (dev_descriptor_ok d); [|reflexivity].
  destruct (deviceMatches devVID devPID devType d); [|reflexivity].
  destruct (Z.ltb_spec 0 busNumber), (Z.leb_spec busNumber 0); try lia;
    destruct (dev_bus_number d =? busNumber); try reflexivity;
    destruct (Z.ltb_spec 0 devAddress), (Z.leb_spec devAddress 0); try lia;
    destruct (dev_address d =? devAddress); try reflexivity;
    destruct (dev_open_ok d); try reflexivity;
    destruct (dev_configuration d) as [c|]; try reflexivity;
    destruct (c =? 1), (dev_set_configuration_ok d), (dev_claim_interface_ok d);
    reflexivity.
Qed.

Lemma davisDeviceOpen_loop_spec devVID devPID devType busNumber devAddress devs :
  forall i r,
    handles_opened r = handles_closed r ->
    devHandle r = None ->
    let res := davisDeviceOpen_loop devVID devPID devType busNumber devAddress i devs r in
    match devHandle res with
    | Some k =>
        exists j d, k = (i + j)%nat /\ devs !! j = Some d
          /\ deviceUsable devVID devPID devType busNumber devAddress d = true
          /\ (forall j' d', (j' < j)%nat -> devs !! j' = Some d' ->
                deviceUsable devVID devPID devType busNumber devAddress d' = false)
          /\ handles_opened res = handles_closed res ++ [k]
    | None =>
        Forall (fun d => deviceUsable devVID devPID devType busNumber devAddress d = false) devs
        /\ handles_opened res = handles_closed res
    end.
Proof.
  induction devs as [|d rest IH]; intros i r Hbal Hnull.
  - cbn. rewrite Hnull. split; [constructor | exact Hbal].
  - cbv zeta. rewrite davisDeviceOpen_loop_step.
    destruct (deviceUsable devVID devPID devType busNumber devAddress d) eqn:Hd.
    + cbn [devHandle handles_opened handles_closed].
      exists 0%nat, d. repeat split; [lia | exact Hd | intros; lia | rewrite Hbal; reflexivity].
    + set (r' := if deviceOpened _ _ _ _ _ d then _ else r).
      assert (Hbal' : handles_opened r' = handles_closed r')
        by (subst r'; destruct (deviceOpened _ _ _ _ _ d); cbn; rewrite ?Hbal; reflexivity).
      assert (Hnull' : devHandle r' = None)
        by (subst r'; destruct (deviceOpened _ _ _ _ _ d); [reflexivity | exact Hnull]).
      specialize (IH (S i) r' Hbal' Hnull'). cbv zeta in IH.
      destruct (devHandle (davisDeviceOpen_loop _ _ _ _ _ (S i) rest r')) as [k|].
      * destruct IH as (j & d0 & Hk & Hj & Hu & Hfirst & Hop).
        exists (S j), d0. repeat split; try assumption; [lia|].
        intros [|j'] d' Hlt Hl; cbn in Hl.
        -- injection Hl as <-. exact Hd.
        -- apply (Hfirst j' d'); [lia | exact Hl].
      * destruct IH as [Hall Hop]. split; [constructor; assumption | exact Hop].
Qed.

(** X2: [davisDeviceOpen] returns the first device of the list that passes
    every test (descriptor, vendor, product, device type, bus and address
    restriction when given) and on which every call succeeds (open, get
    configuration, set configuration 1 when another is active, claim
    interface); it returns NULL exactly when the list holds no such device,
    and when the list cannot be obtained.  Every device it opened and does
    not return has been closed again. *)
Theorem davisDeviceOpen_first_usable devs devVID devPID devType busNumber devAddress :
  match devHandle (davisDeviceOpen (Some devs) devVID devPID devType busNumber devAddress) with
  | Some i =>
      exists d, devs !! i = Some d
        /\ deviceUsable devVID devPID devType busNumber devAddress d = true
        /\ (forall j d', (j < i)%nat -> devs !! j = Some d' ->
              deviceUsable devVID devPID devType busNumber devAddress d' = false)
        /\ handles_opened (davisDeviceOpen (Some devs) devVID devPID devType busNumber devAddress)
           = handles_closed (davisDeviceOpen (Some devs) devVID devPID devType busNumber devAddress)
             ++ [i]
  | None =>
      Forall (fun d => deviceUsable devVID devPID devType busNumber devAddress d = false) devs
      /\ handles_opened (davisDeviceOpen (Some devs) devVID devPID devType busNumber devAddress)
         = handles_closed (davisDeviceOpen (Some devs) devVID devPID devType busNumber devAddress)
  end
  /\ davisDeviceOpen None devVID devPID devType busNumber devAddress
     = {| devHandle := None; handles_opened := []; handles_closed := [] |}.
Proof.
  split; [|reflexivity].
  unfold davisDeviceOpen.
  pose proof (davisDeviceOpen_loop_spec devVID devPID devType busNumber devAddress devs 0
                {| devHandle := None; handles_opened := []; handles_closed := [] |}
                eq_refl eq_refl) as H.
  cbv zeta in H.
  destruct (devHandle (davisDeviceOpen_loop _ _ _ _ _ 0 devs _)) as [k|].
  - destruct H as (j & d & Hk & Hj & Hu & Hfirst & Hop). cbn in Hk. subst k.
    exists d. repeat split; assumption.
  - exact H.
Qed.

(** ** The transfer ring *)

Lemma allocateTransfer_spec (i : nat) (o : transfer_outcome) (u : usb_transfers)
  (arr : list (option nat)) :
  dataTransfers u = Some arr ->
  0 <= activeDataTransfers u ->
  activeDataTransfers u + 1 < 2 ^ 64 ->
  dataTransfers (allocateTransfer i o u)
    = Some (<[i := if transferSubmitted o then Some i else None]> arr)
  /\ dataTransfersLength (allocateTransfer i o u) = dataTransfersLength u
  /\ activeDataTransfers (allocateTransfer i o u)
     = activeDataTransfers u + (if transferSubmitted o then 1 else 0)
  /\ transfersFreed (allocateTransfer i o u)
     = transfersFreed u ++ (if transferDiscarded o then [i] else []).
Proof.
  intros Harr H0 Hlt.
  unfold allocateTransfer, transferSubmitted, transferDiscarded.
  destruct o as [a m s]; cbn [alloc_transfer_ok malloc_buffer_ok submit_transfer_ok].
  destruct a, m, s; cbn; rewrite ?Harr; cbn;
    rewrite ?list_insert_insert_eq, ?app_nil_r, ?Z.add_0_r;
    repeat split; try reflexivity.
  unfold SIZE_T. apply Z.mod_small. lia.
Qed.

Lemma allocateTransfers_loop_spec (outcomes : list transfer_outcome) :
  forall (i : nat) (u : usb_transfers) (arr : list (option nat)),
    dataTransfers u = Some arr ->
    (i + length outcomes <= length arr)%nat ->
    0 <= activeDataTransfers u ->
    activeDataTransfers u + Z.of_nat (length outcomes) < 2 ^ 64 ->
    exists arr' l,
      dataTransfers (allocateTransfers_loop i outcomes u) = Some arr'
      /\ length arr' = length arr
      /\ dataTransfersLength (allocateTransfers_loop i outcomes u) = dataTransfersLength u
      /\ (forall j, (j < i \/ i + length outcomes <= j)%nat -> arr' !! j = arr !! j)
      /\ (forall k o, outcomes !! k = Some o ->
            arr' !! (i + k)%nat
              = Some (if transferSubmitted o then Some (i + k)%nat else None))
      /\ activeDataTransfers (allocateTransfers_loop i outcomes u)
         = activeDataTransfers u + Z.of_nat (submittedCount outcomes)
      /\ transfersFreed (allocateTransfers_loop i outcomes u) = transfersFreed u ++ l
      /\ NoDup l
      /\ (forall t, t ∈ l <->
            exists k o, t = (i + k)%nat /\ outcomes !! k = Some o
                        /\ transferDiscarded o = true).
Proof.
  induction outcomes as [|o rest IH]; intros i u arr Harr Hlen H0 Hlt.
  - exists arr, []. cbn. rewrite app_nil_r, Z.add_0_r.
    split; [exact Harr|]. split; [reflexivity|]. split; [reflexivity|].
    split; [reflexivity|]. split; [intros k o Hk; discriminate|].
    split; [reflexivity|]. split; [reflexivity|]. split; [constructor|].
    intros t. split.
    + intros Hin. inversion Hin.
    + intros (k & o & _ & Hk & _). discriminate.
  - cbn [length] in Hlen, Hlt.
    destruct (allocateTransfer_spec i o u arr Harr H0 ltac:(lia))
      as (Ha & Hl & Hact & Hfr).
    destruct (IH (S i) (allocateTransfer i o u) _ Ha) as
      (arr' & l & Harr' & Hlen' & Hl' & Hout & Hin & Hact' & Hfr' & Hnd & Hmem).
    + rewrite length_insert. lia.
    + rewrite Hact. destruct (transferSubmitted o); lia.
    + rewrite Hact. destruct (transferSubmitted o); lia.
    + exists arr', ((if transferDiscarded o then [i] else []) ++ l).
      cbn [allocateTransfers_loop].
      split; [exact Harr'|].
      split; [rewrite Hlen', length_insert; reflexivity|].
      split; [rewrite Hl', Hl; reflexivity|].
      split.
      { intros j Hj. cbn [length] in Hj. rewrite Hout by lia.
        apply list_lookup_insert_ne. lia. }
      split.
      { intros [|k] o' Hk.
        - cbn in Hk. injection Hk as <-.
          rewrite Hout by lia. rewrite Nat.add_0_r.
          apply list_lookup_insert_eq. lia.
        - cbn in Hk. replace (i + S k)%nat with (S i + k)%nat by lia.
          apply Hin. exact Hk. }
      split.
      { rewrite Hact', Hact. unfold submittedCount. cbn [List.filter].
        destruct (transferSubmitted o); cbn [length]; lia. }
      split.
      { rewrite Hfr', Hfr, <- app_assoc. reflexivity. }
      assert (Hge : forall t, t ∈ l -> (S i <= t)%nat).
      { intros t Ht. apply Hmem in Ht. destruct Ht as (k & _ & -> & _). lia. }
      split.
      { destruct (transferDiscarded o); cbn; [|exact Hnd].
        constructor; [|exact Hnd]. intros Hi. apply Hge in Hi. lia. }
      intros t. split.
      { intros Ht. apply elem_of_app in Ht. destruct Ht as [Ht|Ht].
        - destruct (transferDiscarded o) eqn:Hd; [|inversion Ht].
          apply list_elem_of_singleton in Ht. subst t.
          exists 0%nat, o. repeat split; [lia|exact Hd].
        - apply Hmem in Ht. destruct Ht as (k & o' & -> & Hk & Hd).
          exists (S k), o'. repeat split; [lia|exact Hk|exact Hd]. }
      { intros (k & o' & -> & Hk & Hd). apply elem_of_app.
        destruct k as [|k].
        - cbn in Hk. injection Hk as <-. rewrite Hd. left.
          rewrite Nat.add_0_r. apply list_elem_of_singleton. reflexivity.
        - right. apply Hmem. exists k, o'. repeat split; [lia|exact Hk|exact Hd]. }
Qed.

Lemma elem_of_omap_id (arr : list (option nat)) (t : nat) :
  t ∈ omap id arr <-> exists i, arr !! i = Some (Some t).
Proof.
  rewrite list_elem_of_omap. split.
  - intros (x & Hx & Hid). apply list_elem_of_lookup_1 in Hx.
    destruct Hx as [i Hi]. exists i. rewrite Hi. cbn in Hid. congruence.
  - intros [i Hi]. exists (Some t). split; [|reflexivity].
    eapply list_elem_of_lookup_2. exact Hi.
Qed.

Lemma omap_id_indexed_NoDup (arr : list (option nat)) :
  forall off : nat,
    (forall i t, arr !! i = Some (Some t) -> t = (off + i)%nat) ->
    NoDup (omap id arr).
Proof.
  induction arr as [|s arr IH]; intros off H; [constructor|].
  assert (Hrest : forall i t, arr !! i = Some (Some t) -> t = (S off + i)%nat).
  { intros i t Hi. specialize (H (S i) t Hi). lia. }
  destruct s as [t|]; cbn.
  - constructor; [|exact (IH _ Hrest)].
    intros Hin. apply elem_of_omap_id in Hin. destruct Hin as [i Hi].
    apply Hrest in Hi. specialize (H 0%nat t eq_refl). lia.
  - exact (IH _ Hrest).
Qed.

Lemma omap_id_submitted_length (outcomes : list transfer_outcome) :
  forall (arr : list (option nat)) (off : nat),
    length arr = length outcomes ->
    (forall i o, outcomes !! i = Some o ->
       arr !! i = Some (if transferSubmitted o then Some (off + i)%nat else None)) ->
    length (omap id arr) = submittedCount outcomes.
Proof.
  unfold submittedCount.
  induction outcomes as [|o rest IH]; intros arr off Hlen H.
  - destruct arr; [reflexivity|discriminate].
  - destruct arr as [|s arr]; [discriminate|].
    pose proof (H 0%nat o eq_refl) as H0. cbn in H0. injection H0 as ->.
    assert (Hrest : length (omap id arr) = length (List.filter transferSubmitted rest)).
    { apply (IH arr (S off)); [cbn in Hlen; lia|].
      intros i o' Hi. specialize (H (S i) o' Hi). cbn in H.
      replace (S off + i)%nat with (off + S i)%nat by lia. exact H. }
    cbn. destruct (transferSubmitted o); cbn; rewrite Hrest; reflexivity.
Qed.

(** X3: [davisAllocateTransfers], called on a handle without transfers for
    fewer than 2^32 transfers, counts in [activeDataTransfers] the
    transfers for which allocation, buffer and submission all succeeded,
    keeps exactly these in the array (at their index, the other entries
    NULL) and frees exactly once each transfer that was allocated but not
    submitted.  When no transfer was submitted the array is given back
    (NULL, length 0); when the array itself cannot be allocated nothing
    else changes. *)
Theorem davisAllocateTransfers_result (outcomes : list transfer_outcome)
  (Hnum : Z.of_nat (length outcomes) < 2 ^ 32) :
  let u := davisAllocateTransfers true outcomes no_transfers in
  activeDataTransfers u = Z.of_nat (submittedCount outcomes)
  /\ NoDup (transfersFreed u)
  /\ (forall t, t ∈ transfersFreed u <->
        exists o, outcomes !! t = Some o /\ transferDiscarded o = true)
  /\ (submittedCount outcomes = 0%nat ->
        dataTransfers u = None /\ dataTransfersLength u = 0%nat)
  /\ (submittedCount outcomes <> 0%nat ->
        transfers_wf u
        /\ dataTransfersLength u = length outcomes
        /\ exists arr, dataTransfers u = Some arr
             /\ forall i o, outcomes !! i = Some o ->
                  arr !! i = Some (if transferSubmitted o then Some i else None))
  /\ davisAllocateTransfers false outcomes no_transfers = no_transfers.
Proof.
  set (u1 := {| dataTransfers := Some (repeat None (length outcomes));
                dataTransfersLength := length outcomes;
                activeDataTransfers := 0;
                transfersFreed := [] |}).
  destruct (allocateTransfers_loop_spec outcomes 0 u1 (repeat None (length outcomes)))
    as (arr & l & Harr & Hlen & Hl & _ & Hin & Hact & Hfr & Hnd & Hmem).
  { reflexivity. }
  { rewrite repeat_length. lia. }
  { cbn. lia. }
  { cbn. lia. }
  cbn in Hact, Hfr, Hl. rewrite repeat_length in Hlen.
  rewrite ?Z.add_0_l in Hact.
  assert (Hin' : forall i o, outcomes !! i = Some o ->
            arr !! i = Some (if transferSubmitted o then Some i else None))
    by exact Hin.
  clear Hin. rename Hin' into Hin.
  assert (Hfreed : forall t, t ∈ l <->
            exists o, outcomes !! t = Some o /\ transferDiscarded o = true).
  { intros t. rewrite Hmem. split.
    - intros (k & o & -> & Hk & Hd). exists o. split; assumption.
    - intros (o & Ht & Hd). exists t, o. repeat split; assumption. }
  assert (Hu : davisAllocateTransfers true outcomes no_transfers
               = if activeDataTransfers (allocateTransfers_loop 0 outcomes u1) =? 0
                 then {| dataTransfers := None; dataTransfersLength := 0;
                         activeDataTransfers :=
                           activeDataTransfers (allocateTransfers_loop 0 outcomes u1);
                         transfersFreed :=
                           transfersFreed (allocateTransfers_loop 0 outcomes u1) |}
                 else allocateTransfers_loop 0 outcomes u1) by reflexivity.
  intros u. subst u. rewrite Hu. clear Hu. rewrite Hact.
  destruct (Z.eqb_spec (Z.of_nat (submittedCount outcomes)) 0) as [Hz|Hnz].
  - cbn [activeDataTransfers transfersFreed dataTransfers dataTransfersLength].
    rewrite ?Hact, Hfr.
    split; [reflexivity|]. split; [exact Hnd|]. split; [exact Hfreed|].
    split; [intros _; split; reflexivity|]. split; [lia|reflexivity].
  - rewrite ?Hact, Hfr.
    split; [reflexivity|]. split; [exact Hnd|]. split; [exact Hfreed|].
    split; [lia|]. split; [|reflexivity]. intros _.
    assert (Hflight : transfersInFlight (allocateTransfers_loop 0 outcomes u1)
                      = omap id arr).
    { unfold transfersInFlight. rewrite Harr, Hl, <- Hlen, firstn_all. reflexivity. }
    split; [|split; [exact Hl|exists arr; split; [exact Harr|exact Hin]]].
    constructor.
    + exists arr. split; [exact Harr|]. rewrite Hl. exact Hlen.
    + rewrite Hact, Hflight. f_equal. symmetry.
      apply (omap_id_submitted_length outcomes arr 0 Hlen). exact Hin.
    + rewrite Hflight. apply (omap_id_indexed_NoDup arr 0).
      intros i t Hi. destruct (outcomes !! i) as [o|] eqn:Ho.
      * rewrite (Hin i o Ho) in Hi.
        destruct (transferSubmitted o); [injection Hi as <-; reflexivity|discriminate].
      * apply lookup_ge_None in Ho. apply lookup_lt_Some in Hi. lia.
    + intros t Ht. rewrite Hflight in Ht. rewrite Hfr. cbn. intros Hf.
      apply elem_of_omap_id in Ht. destruct Ht as [i Hi].
      apply Hfreed in Hf. destruct Hf as (o & Ho & Hd).
      destruct (outcomes !! i) as [o'|] eqn:Ho'.
      * rewrite (Hin i o' Ho') in Hi.
        destruct (transferSubmitted o') eqn:Hs; [|congruence].
        assert (i = t) by congruence. subst i.
        assert (o' = o) by congruence. subst o'.
        unfold transferSubmitted in Hs. unfold transferDiscarded in Hd.
        destruct (alloc_transfer_ok o), (malloc_buffer_ok o), (submit_transfer_ok o);
          discriminate.
      * apply lookup_ge_None in Ho'. apply lookup_lt_Some in Hi. lia.
    + rewrite Hl. lia.
Qed.

Lemma davisAllocateTransfers_result_witness :
  let outcomes := [ {| alloc_transfer_ok := true; malloc_buffer_ok := true;
                       submit_transfer_ok := true |};
                    {| alloc_transfer_ok := true; malloc_buffer_ok := true;
                       submit_transfer_ok := false |};
                    {| alloc_transfer_ok := false; malloc_buffer_ok := true;
                       submit_transfer_ok := true |};
                    {| alloc_transfer_ok := true; malloc_buffer_ok := true;
                       submit_transfer_ok := true |} ] in
  Z.of_nat (length outcomes) < 2 ^ 32
  /\ activeDataTransfers (davisAllocateTransfers true outcomes no_transfers) = 2
  /\ transfers_wf (davisAllocateTransfers true outcomes no_transfers).
Proof.
  intros outcomes.
  assert (Hnum : Z.of_nat (length outcomes) < 2 ^ 32) by (vm_compute; reflexivity).
  destruct (davisAllocateTransfers_result outcomes Hnum)
    as (Hact & _ & _ & _ & Hwf & _).
  split; [exact Hnum|]. split; [exact Hact|].
  apply Hwf. vm_compute. discriminate.
Defined.

Lemma omap_id_length_le (arr : list (option nat)) :
  (length (omap id arr) <= length arr)%nat.
Proof.
  induction arr as [|[t|] arr IH]; cbn; lia.
Qed.

Lemma omap_id_clear (t : nat) (arr : list (option nat)) :
  omap id (map (fun s : option nat =>
                  match s with
                  | Some t' => if (t' =? t)%nat then None else s
                  | None => None
                  end) arr)
  = filter (fun t' => t' <> t) (omap id arr).
Proof.
  induction arr as [|[t'|] arr IH]; cbn -[filter]; [reflexivity| |exact IH].
  destruct (Nat.eqb_spec t' t) as [->|Hne].
  - rewrite filter_cons_False by (intros H; apply H; reflexivity). exact IH.
  - rewrite filter_cons_True by exact Hne. cbn -[filter]. rewrite IH. reflexivity.
Qed.

Lemma filter_ne_length (t : nat) (l : list nat) :
  NoDup l -> t ∈ l -> (length (filter (fun t' => t' <> t) l) + 1 = length l)%nat.
Proof.
  induction 1 as [|x l Hx Hnd IH]; intros Hin; [inversion Hin|].
  destruct (decide (x = t)) as [->|Hne].
  - rewrite filter_cons_False by (intros H; apply H; reflexivity).
    assert (Hall : filter (fun t' => t' <> t) l = l).
    { clear IH Hnd Hin. induction l as [|y l IHl]; [reflexivity|].
      rewrite filter_cons_True.
      - rewrite IHl; [reflexivity|]. intros H. apply Hx. right. exact H.
      - intros ->. apply Hx. left. }
    rewrite Hall. cbn [length]. lia.
  - rewrite filter_cons_True by exact Hne. cbn [length].
    apply elem_of_cons in Hin. destruct Hin as [->|Hin]; [congruence|].
    specialize (IH Hin). lia.
Qed.

Lemma transfersInFlight_wf (u : usb_transfers) (arr : list (option nat)) :
  dataTransfers u = Some arr -> length arr = dataTransfersLength u ->
  transfersInFlight u = omap id arr.
Proof.
  intros Harr Hlen. unfold transfersInFlight.
  rewrite Harr, <- Hlen, firstn_all. reflexivity.
Qed.

Lemma removeTransfer_wf (t : nat) (u : usb_transfers) :
  transfers_wf u -> t ∈ transfersInFlight u ->
  transfers_wf (removeTransfer t u)
  /\ transfersInFlight (removeTransfer t u)
     = filter (fun t' => t' <> t) (transfersInFlight u)
  /\ activeDataTransfers (removeTransfer t u) = activeDataTransfers u - 1.
Proof.
  intros [(arr & Harr & Hlen) Hact Hnd Hlive Hsmall] Hin.
  pose proof (transfersInFlight_wf u arr Harr Hlen) as Hfl.
  assert (Harr' : dataTransfers (removeTransfer t u)
                  = Some (map (fun s : option nat =>
                                 match s with
                                 | Some t' => if (t' =? t)%nat then None else s
                                 | None => None
                                 end) arr)).
  { unfold removeTransfer. cbn. rewrite Harr, <- Hlen, firstn_all, drop_all, app_nil_r.
    reflexivity. }
  assert (Hfl' : transfersInFlight (removeTransfer t u)
                 = filter (fun t' => t' <> t) (transfersInFlight u)).
  { rewrite (transfersInFlight_wf _ _ Harr'), Hfl; [apply omap_id_clear|].
    rewrite length_map. exact Hlen. }
  pose proof (filter_ne_length t _ Hnd Hin) as Hcount.
  pose proof (omap_id_length_le arr) as Hle. rewrite <- Hfl in Hle.
  assert (Hact' : activeDataTransfers (removeTransfer t u) = activeDataTransfers u - 1).
  { cbn. unfold SIZE_T. apply Z.mod_small. lia. }
  split; [|split; [exact Hfl'|exact Hact']].
  constructor.
  - eexists. split; [exact Harr'|]. rewrite length_map. exact Hlen.
  - rewrite Hact', Hfl', Hact. lia.
  - rewrite Hfl'. apply list.NoDup_filter. exact Hnd.
  - intros t' Ht'. rewrite Hfl' in Ht'. apply list_elem_of_filter in Ht'.
    destruct Ht' as [Hne Ht']. cbn. intros Hf. apply elem_of_app in Hf.
    destruct Hf as [Hf|Hf].
    + exact (Hlive t' Ht' Hf).
    + apply list_elem_of_singleton in Hf. contradiction.
  - exact Hsmall.
Qed.

(** X4: the callback keeps the transfer ring consistent.  For a transfer
    of the array, the received bytes are translated exactly when the
    status is COMPLETED; the transfer stays in the ring, which is then
    unchanged, exactly when the status is neither CANCELLED nor NO_DEVICE
    and submitting it again succeeds; otherwise it is taken out of the
    array, the counter goes down by one, the transfer is freed, and the
    counter still counts the transfers of the array. *)
Theorem davisLibUsbCallback_ring (h h' : davis_handle) (transfer : nat)
  (status : transfer_status) (buffer : list Byte.byte) (resubmit_ok : bool)
  (Hwf : transfers_wf (handle_transfers h))
  (Hin : transfer ∈ transfersInFlight (handle_transfers h))
  (Hret : davisLibUsbCallback h transfer status buffer resubmit_ok = Some h') :
  transfers_wf (handle_transfers h')
  /\ (status = LIBUSB_TRANSFER_COMPLETED ->
        davisEventTranslator (handle_state h) buffer = Some (handle_state h'))
  /\ (status <> LIBUSB_TRANSFER_COMPLETED -> handle_state h' = handle_state h)
  /\ (status <> LIBUSB_TRANSFER_CANCELLED -> status <> LIBUSB_TRANSFER_NO_DEVICE ->
      resubmit_ok = true -> handle_transfers h' = handle_transfers h)
  /\ (status = LIBUSB_TRANSFER_CANCELLED \/ status = LIBUSB_TRANSFER_NO_DEVICE
      \/ resubmit_ok = false ->
        transfersInFlight (handle_transfers h')
          = filter (fun t => t <> transfer) (transfersInFlight (handle_transfers h))
        /\ activeDataTransfers (handle_transfers h')
           = activeDataTransfers (handle_transfers h) - 1
        /\ transfersFreed (handle_transfers h')
           = transfersFreed (handle_transfers h) ++ [transfer]).
Proof.
  destruct (removeTransfer_wf transfer _ Hwf Hin) as (Hwf' & Hfl & Hact).
  unfold davisLibUsbCallback in Hret.
  destruct status, resubmit_ok; cbn in Hret;
    try (destruct (davisEventTranslator (handle_state h) buffer) as [st|] eqn:Htr;
         [|discriminate]);
    injection Hret as <-; cbn [handle_transfers handle_state];
    (split; [assumption|]);
    (split; [intros; congruence|]);
    (split; [intros; congruence|]);
    (split; [intros; congruence|]);
    (intros [?|[?|?]]; try discriminate;
     (split; [exact Hfl|split; [exact Hact|reflexivity]])).
Qed.

Lemma two_transfers_wf :
  transfers_wf {| dataTransfers := Some [Some 0%nat; Some 1%nat];
                  dataTransfersLength := 2;
                  activeDataTransfers := 2;
                  transfersFreed := [] |}.
Proof.
  constructor.
  - eexists. split; reflexivity.
  - reflexivity.
  - cbn. apply list.NoDup_cons. split; [|apply list.NoDup_singleton].
    intros H. apply list_elem_of_singleton in H. discriminate.
  - intros t _ H. inversion H.
  - vm_compute. reflexivity.
Qed.

Lemma davisLibUsbCallback_ring_witness :
  let u := {| dataTransfers := Some [Some 0%nat; Some 1%nat];
              dataTransfersLength := 2;
              activeDataTransfers := 2;
              transfersFreed := [] |} in
  let h := {| handle_state := davis240_start; handle_transfers := u |} in
  let h' := {| handle_state := davis240_start;
               handle_transfers := removeTransfer 0 u |} in
  transfers_wf (handle_transfers h')
  /\ activeDataTransfers (handle_transfers h') = 1.
Proof.
  intros u h h'.
  assert (Hin : 0%nat ∈ transfersInFlight (handle_transfers h)) by left.
  assert (Hret : davisLibUsbCallback h 0 LIBUSB_TRANSFER_CANCELLED [] false = Some h')
    by reflexivity.
  destruct (davisLibUsbCallback_ring h h' 0 LIBUSB_TRANSFER_CANCELLED [] false
              two_transfers_wf Hin Hret) as (Hwf & _ & _ & _ & Hrem).
  split; [exact Hwf|].
  destruct (Hrem (or_introl eq_refl)) as (_ & Hact & _).
  rewrite Hact. reflexivity.
Defined.

Lemma filter_ne_Permutation (t : nat) (l l' : list nat) :
  NoDup l -> t :: l' ≡ₚ l -> l' ≡ₚ filter (fun t' => t' <> t) l.
Proof.
  intros Hnd Hp.
  rewrite <- Hp in Hnd. apply list.NoDup_cons in Hnd. destruct Hnd as [Hnotin _].
  rewrite <- Hp.
  rewrite filter_cons_False by (intros H; apply H; reflexivity).
  clear Hp. induction l' as [|x l' IH]; [reflexivity|].
  rewrite filter_cons_True.
  - constructor. apply IH. intros H. apply Hnotin. right. exact H.
  - intros ->. apply Hnotin. left.
Qed.

Lemma callback_final (h : davis_handle) (e : callback_event) :
  cb_final e = true ->
  davisLibUsbCallback h (cb_transfer e) (cb_status e) (cb_buffer e) (cb_resubmit_ok e)
  = Some {| handle_state := handle_state h;
            handle_transfers := removeTransfer (cb_transfer e) (handle_transfers h) |}.
Proof.
  unfold cb_final, davisLibUsbCallback. destruct (cb_status e); cbn; try discriminate;
    reflexivity.
Qed.

Lemma handle_events_final (b : list callback_event) :
  forall (h : davis_handle) (rest : list nat),
    transfers_wf (handle_transfers h) ->
    Forall (fun e => cb_final e = true) b ->
    map cb_transfer b ++ rest ≡ₚ transfersInFlight (handle_transfers h) ->
    exists h', handle_events b h = Some h'
      /\ transfers_wf (handle_transfers h')
      /\ handle_state h' = handle_state h
      /\ rest ≡ₚ transfersInFlight (handle_transfers h')
      /\ transfersFreed (handle_transfers h')
         = transfersFreed (handle_transfers h) ++ map cb_transfer b.
Proof.
  induction b as [|e b IH]; intros h rest Hwf Hfin Hp.
  - exists h. cbn [handle_events map]. rewrite app_nil_r.
    split; [reflexivity|]. split; [exact Hwf|]. split; [reflexivity|].
    split; [exact Hp|reflexivity].
  - inversion Hfin as [|? ? He Hb]; subst.
    cbn [handle_events]. rewrite (callback_final h e He).
    assert (Hin : cb_transfer e ∈ transfersInFlight (handle_transfers h)).
    { rewrite <- Hp. left. }
    destruct (removeTransfer_wf (cb_transfer e) _ Hwf Hin) as (Hwf' & Hfl & _).
    destruct (IH {| handle_state := handle_state h;
                    handle_transfers := removeTransfer (cb_transfer e) (handle_transfers h) |}
                 rest Hwf' Hb) as (h' & Hev & Hwf'' & Hst & Hp' & Hfr).
    { cbn [handle_transfers]. rewrite Hfl.
      apply filter_ne_Permutation; [apply Hwf|exact Hp]. }
    exists h'. split; [exact Hev|]. split; [exact Hwf''|]. split; [exact Hst|].
    split; [exact Hp'|]. rewrite Hfr.
    cbn [handle_transfers removeTransfer transfersFreed map].
    rewrite <- app_assoc. reflexivity.
Qed.

Lemma waitTransfers_final (batches : list (list callback_event)) :
  forall h : davis_handle,
    transfers_wf (handle_transfers h) ->
    Forall (fun e => cb_final e = true) (concat batches) ->
    map cb_transfer (concat batches) ≡ₚ transfersInFlight (handle_transfers h) ->
    exists h', waitTransfers batches h = Some h'
      /\ handle_state h' = handle_state h
      /\ transfers_wf (handle_transfers h')
      /\ activeDataTransfers (handle_transfers h') = 0
      /\ transfersFreed (handle_transfers h')
         = transfersFreed (handle_transfers h) ++ map cb_transfer (concat batches).
Proof.
  induction batches as [|b batches IH]; intros h Hwf Hfin Hp.
  - cbn in Hp. apply Permutation_length in Hp. cbn in Hp.
    assert (Hz : activeDataTransfers (handle_transfers h) = 0).
    { rewrite (twf_active _ Hwf), <- Hp. reflexivity. }
    exists h. cbn [waitTransfers concat map]. rewrite app_nil_r.
    split; [rewrite Hz; reflexivity|]. split; [reflexivity|]. split; [exact Hwf|].
    split; [exact Hz|reflexivity].
  - cbn [waitTransfers].
    destruct (Z.ltb_spec 0 (activeDataTransfers (handle_transfers h))) as [Hpos|Hzero].
    + cbn [concat] in Hfin, Hp. rewrite map_app in Hp.
      apply Forall_app in Hfin. destruct Hfin as [Hb Hrest].
      destruct (handle_events_final b h _ Hwf Hb Hp)
        as (h1 & Hev & Hwf1 & Hst1 & Hp1 & Hfr1).
      rewrite Hev.
      destruct (IH h1 Hwf1 Hrest Hp1) as (h' & Hw & Hst & Hwf' & Hact & Hfr).
      exists h'. split; [exact Hw|]. split; [congruence|]. split; [exact Hwf'|].
      split; [exact Hact|]. rewrite Hfr, Hfr1. cbn [concat].
      rewrite map_app, app_assoc. reflexivity.
    + assert (Hz : activeDataTransfers (handle_transfers h) = 0).
      { rewrite (twf_active _ Hwf) in *. lia. }
      assert (Hnil : map cb_transfer (concat (b :: batches)) = []).
      { apply Permutation_length in Hp. rewrite (twf_active _ Hwf) in Hz.
        destruct (map cb_transfer (concat (b :: batches))); [reflexivity|].
        cbn in Hp. lia. }
      exists h. rewrite Hnil, app_nil_r.
      split; [reflexivity|]. split; [reflexivity|]. split; [exact Hwf|].
      split; [exact Hz|reflexivity].
Qed.

Lemma waitTransfers_no_callback (batches : list (list callback_event)) (h : davis_handle) :
  0 < activeDataTransfers (handle_transfers h) ->
  concat batches = [] ->
  waitTransfers batches h = None.
Proof.
  intros Hpos. apply Z.ltb_lt in Hpos.
  induction batches as [|b batches IH]; intros Hnil; cbn [waitTransfers];
    rewrite Hpos; [reflexivity|].
  cbn [concat] in Hnil. apply app_eq_nil in Hnil. destruct Hnil as [-> Hnil].
  cbn. exact (IH Hnil).
Qed.

(** X5: [davisDeallocateTransfers] on a consistent ring asks for the
    cancellation of every transfer of the array.  When libusb then runs,
    in any order and in any grouping, one callback with status CANCELLED
    or NO_DEVICE for each of them, the function returns: the counter is
    0, the array is freed (NULL, length 0), every transfer of the array
    has been freed, in the order of the callbacks, and the decoder state
    is untouched.  When transfers are active and libusb runs no callback,
    it never returns. *)
Theorem davisDeallocateTransfers_cancelled (batches : list (list callback_event))
  (h : davis_handle) (Hwf : transfers_wf (handle_transfers h)) :
  (Forall (fun e => cb_final e = true) (concat batches) ->
   map cb_transfer (concat batches) ≡ₚ transfersInFlight (handle_transfers h) ->
   exists h',
     davisDeallocateTransfers batches h
       = (transfersInFlight (handle_transfers h), Some h')
     /\ handle_state h' = handle_state h
     /\ dataTransfers (handle_transfers h') = None
     /\ dataTransfersLength (handle_transfers h') = 0%nat
     /\ activeDataTransfers (handle_transfers h') = 0
     /\ transfersFreed (handle_transfers h')
        = transfersFreed (handle_transfers h) ++ map cb_transfer (concat batches)
     /\ forall t, t ∈ transfersInFlight (handle_transfers h) ->
                  t ∈ transfersFreed (handle_transfers h'))
  /\ (transfersInFlight (handle_transfers h) <> [] -> concat batches = [] ->
      snd (davisDeallocateTransfers batches h) = None).
Proof.
  split.
  - intros Hfin Hp.
    destruct (waitTransfers_final batches h Hwf Hfin Hp)
      as (h1 & Hw & Hst & _ & Hact & Hfr).
    unfold davisDeallocateTransfers. rewrite Hw. eexists. split; [reflexivity|].
    cbn [handle_state handle_transfers dataTransfers dataTransfersLength
         activeDataTransfers transfersFreed].
    split; [exact Hst|]. split; [reflexivity|]. split; [reflexivity|].
    split; [exact Hact|]. split; [exact Hfr|].
    intros t Ht. rewrite Hfr. apply elem_of_app. right. rewrite Hp. exact Ht.
  - intros Hne Hnil. unfold davisDeallocateTransfers. cbn [snd].
    rewrite waitTransfers_no_callback; [reflexivity| |exact Hnil].
    rewrite (twf_active _ Hwf).
    destruct (transfersInFlight (handle_transfers h)); [congruence|cbn; lia].
Qed.

Lemma davisDeallocateTransfers_cancelled_witness :
  let u := {| dataTransfers := Some [Some 0%nat; Some 1%nat];
              dataTransfersLength := 2;
              activeDataTransfers := 2;
              transfersFreed := [] |} in
  let h := {| handle_state := davis240_start; handle_transfers := u |} in
  let cancelled t := {| cb_transfer := t; cb_status := LIBUSB_TRANSFER_CANCELLED;
                        cb_buffer := []; cb_resubmit_ok := false |} in
  exists h',
    davisDeallocateTransfers [[]; [cancelled 1%nat]; [cancelled 0%nat]] h
      = ([0%nat; 1%nat], Some h')
    /\ transfersFreed (handle_transfers h') = [1%nat; 0%nat].
Proof.
  intros u h cancelled.
  destruct (davisDeallocateTransfers_cancelled
              [[]; [cancelled 1%nat]; [cancelled 0%nat]] h two_transfers_wf)
    as [Hret _].
  destruct Hret as (h' & Hd & _ & _ & _ & _ & Hfr & _).
  - repeat constructor.
  - cbn. apply Permutation_swap.
  - exists h'. split; [exact Hd|exact Hfr].
Defined.

(** ** Transfers as a stream of words *)

Lemma translateEvents_app (ws1 : list Z) :
  forall (st : davis_state) (ws2 : list Z),
    translateEvents st (ws1 ++ ws2)
    = match translateEvents st ws1 with
      | Some st' => translateEvents st' ws2
      | None => None
      end.
Proof.
  induction ws1 as [|w ws1 IH]; intros st ws2; cbn [app translateEvents]; [reflexivity|].
  destruct (translateEvent st w) as [st1|]; [apply IH|reflexivity].
Qed.

Lemma le16_words_even_app (b1 : list Byte.byte) :
  forall b2 : list Byte.byte,
    Nat.Even (length b1) -> le16_words (b1 ++ b2) = le16_words b1 ++ le16_words b2.
Proof.
  intros b2 [k Hk]. revert b1 Hk.
  induction k as [|k IH]; intros b1 Hk.
  - destruct b1; [reflexivity | cbn in Hk; lia].
  - destruct b1 as [|lo [|hi rest]]; cbn in Hk; try lia.
    cbn [app]. rewrite !le16_words_app. cbn [app]. f_equal. apply IH. lia.
Qed.

(** X6: the decoder state carries over from one transfer to the next.
    Translating a buffer cut at a word boundary into two transfers, one
    after the other, gives the state translating it in one transfer gives
    (and does not return if either part does not); an odd last byte of a
    transfer is not decoded, and is lost: it is not joined with the first
    byte of the next transfer. *)
Theorem davisEventTranslator_transfers (st : davis_state) (b1 b2 : list Byte.byte)
  (x : Byte.byte) (Heven : Nat.Even (length b1)) :
  davisEventTranslator st (b1 ++ b2)
  = match davisEventTranslator st b1 with
    | Some st' => davisEventTranslator st' b2
    | None => None
    end
  /\ davisEventTranslator st (b1 ++ [x]) = davisEventTranslator st b1
  /\ match davisEventTranslator st (b1 ++ [x]) with
     | Some st' => davisEventTranslator st' b2
     | None => None
     end = davisEventTranslator st (b1 ++ b2).
Proof.
  assert (Happ : davisEventTranslator st (b1 ++ b2)
                 = match davisEventTranslator st b1 with
                   | Some st' => davisEventTranslator st' b2
                   | None => None
                   end).
  { unfold davisEventTranslator.
    rewrite le16_words_even_app by exact Heven. apply translateEvents_app. }
  split; [exact Happ|].
  rewrite davisEventTranslator_odd by exact Heven.
  split; [reflexivity|]. symmetry. exact Happ.
Qed.

Lemma davisEventTranslator_transfers_witness :
  let b1 := [Byte.x10; Byte.x80; Byte.x05; Byte.x10] in
  let b2 := [Byte.x03; Byte.x20] in
  Nat.Even (length b1)
  /\ davisEventTranslator davis240_start (b1 ++ b2)
     = match davisEventTranslator davis240_start b1 with
       | Some st' => davisEventTranslator st' b2
       | None => None
       end.
Proof.
  intros b1 b2.
  assert (Heven : Nat.Even (length b1)) by (exists 2%nat; reflexivity).
  split; [exact Heven|].
  exact (proj1 (davisEventTranslator_transfers davis240_start b1 b2 Byte.x00 Heven)).
Defined.

(** ** The translator returns *)

Lemma decodeEvent_force st event :
  isSpecial event 1 = false -> snd (decodeEvent st event) = false.
Proof.
  intros H. decode_cases event; cbn [fst snd]; try reflexivity.
  unfold isSpecial in H. rewrite Hts, Hcode, Hdata in H. discriminate.
Qed.

Lemma translateEvents_returns (events : list Z) :
  forall st : davis_state,
    Forall (fun event => isSpecial event 1 = false) events ->
    is_Some (translateEvents st events).
Proof.
  induction events as [|event rest IH]; intros st Hall; cbn [translateEvents]; [eauto|].
  inversion Hall as [|? ? Hev Hrest]; subst.
  destruct (translateEvent_unforced st event (decodeEvent_force st event Hev)) as [st1 Hst1].
  rewrite Hst1. apply IH. exact Hrest.
Qed.

(** X7: the translator returns from every transfer without a
    TIMESTAMP_RESET word (special event, data 1), whatever the state, the
    filling of the exchange buffer and the consumer do: a packet that
    finds the buffer full is dropped.  Such a transfer leaves the
    timestamp reset markers alone: none is written and none is freed. *)
Theorem davisEventTranslator_returns (st : davis_state) (buffer : list Byte.byte)
  (Hwords : Forall (fun event => isSpecial event 1 = false) (le16_words buffer)) :
  exists st', davisEventTranslator st buffer = Some st'
    /\ settings st' = settings st
    /\ (no_reset_lost st -> no_reset_lost st').
Proof.
  destruct (translateEvents_returns _ st Hwords) as [st' Hst'].
  exists st'. split; [exact Hst'|]. split.
  - clear Hwords. unfold davisEventTranslator in Hst'.
    revert st Hst'. induction (le16_words buffer) as [|w ws IH]; intros st Hst';
      cbn [translateEvents] in Hst'.
    + congruence.
    + destruct (translateEvent st w) as [st1|] eqn:Hstep; [|discriminate].
      rewrite (IH st1 Hst'). exact (translateEvent_settings _ _ _ Hstep).
  - intros Hnr. exact (translateEvents_no_reset_lost _ _ _ Hnr Hst').
Qed.

Lemma davisEventTranslator_returns_witness :
  exists st', davisEventTranslator davis240_full
                [Byte.x10; Byte.x80; Byte.x05; Byte.x10; Byte.x03; Byte.x20] = Some st'
    /\ settings st' = davis240_settings.
Proof.
  destruct (davisEventTranslator_returns davis240_full
              [Byte.x10; Byte.x80; Byte.x05; Byte.x10; Byte.x03; Byte.x20])
    as (st' & Hst' & Hs & _).
  - repeat constructor.
  - exists st'. split; [exact Hst'|exact Hs].
Defined.

(** ** Invariants of a run *)

Lemma callback_packets (h h' : davis_handle) (e : callback_event) :
  davisLibUsbCallback h (cb_transfer e) (cb_status e) (cb_buffer e) (cb_resubmit_ok e)
  = Some h' ->
  handle_state h' = handle_state h
  \/ davisEventTranslator (handle_state h) (cb_buffer e) = Some (handle_state h').
Proof.
  unfold davisLibUsbCallback.
  destruct (transfer_status_eqb (cb_status e) LIBUSB_TRANSFER_COMPLETED).
  - destruct (davisEventTranslator (handle_state h) (cb_buffer e)) as [st|]; [|discriminate].
    destruct (_ && _); intros [= <-]; right; reflexivity.
  - destruct (_ && _); intros [= <-]; left; reflexivity.
Qed.

Lemma translateEvents_quiescent (events : list Z) :
  forall st st', packets_wf st -> commits_quiescent st ->
    translateEvents st events = Some st' -> commits_quiescent st'.
Proof.
  induction events as [|event rest IH]; intros st st' Hwf Hq; cbn [translateEvents].
  - intros [= <-]. exact Hq.
  - destruct (translateEvent st event) as [st1|] eqn:Hstep; [|discriminate].
    apply IH.
    + eapply translateEvent_wf; eassumption.
    + eapply translateEvent_quiescent; eassumption.
Qed.

Lemma translateEvents_settings (events : list Z) :
  forall st st', translateEvents st events = Some st' -> settings st' = settings st.
Proof.
  induction events as [|event rest IH]; intros st st'; cbn [translateEvents].
  - intros [= <-]. reflexivity.
  - destruct (translateEvent st event) as [st1|] eqn:Hstep; [|discriminate].
    intros H. rewrite (IH _ _ H). exact (translateEvent_settings _ _ _ Hstep).
Qed.

(** X8: from the state data start leaves (positive packet sizes), after
    any sequence of transfer callbacks, whatever their status and
    content, the translator is between two words in a state where each
    of the four packets in progress has a free slot at its position (so
    the next event is written inside its packet), no slot from the
    position on is validated, no commit is due, no timestamp reset marker
    was dropped, and the settings are those of the start. *)
Theorem translator_run_invariants (s : davis_settings) (gs rr : bool) (a g : Z)
  (u : usb_transfers) (events : list callback_event) (h' : davis_handle)
  (Sp : (0 < maxPolarityPacketSize s)%nat) (Ss : (0 < maxSpecialPacketSize s)%nat)
  (Sf : (0 < maxFramePacketSize s)%nat) (Si : (0 < maxIMU6PacketSize s)%nat)
  (Hrun : handle_events events
            {| handle_state := start_state s gs rr a g; handle_transfers := u |}
          = Some h') :
  packets_wf (handle_state h')
  /\ commits_quiescent (handle_state h')
  /\ no_reset_lost (handle_state h')
  /\ settings (handle_state h') = s.
Proof.
  assert (Hinv : forall evs h,
            packets_wf (handle_state h) -> commits_quiescent (handle_state h) ->
            no_reset_lost (handle_state h) ->
            handle_events evs h = Some h' ->
            packets_wf (handle_state h') /\ commits_quiescent (handle_state h')
            /\ no_reset_lost (handle_state h')
            /\ settings (handle_state h') = settings (handle_state h)).
  { induction evs as [|e evs IH]; intros h Hwf Hq Hnr; cbn [handle_events].
    - intros [= <-]. split; [exact Hwf|]. split; [exact Hq|]. split; [exact Hnr|reflexivity].
    - destruct (davisLibUsbCallback h (cb_transfer e) (cb_status e) (cb_buffer e)
                  (cb_resubmit_ok e)) as [h1|] eqn:Hcb; [|discriminate].
      intros Hrest.
      destruct (callback_packets h h1 e Hcb) as [Heq|Htr].
      + rewrite <- Heq. apply IH; [rewrite Heq; assumption..|exact Hrest].
      + unfold davisEventTranslator in Htr.
        rewrite <- (translateEvents_settings _ _ _ Htr).
        apply IH; [ | | |exact Hrest].
        * exact (translateEvents_wf _ _ _ Hwf Htr).
        * exact (translateEvents_quiescent _ _ _ Hwf Hq Htr).
        * exact (translateEvents_no_reset_lost _ _ _ Hnr Htr). }
  apply (Hinv events {| handle_state := start_state s gs rr a g; handle_transfers := u |}
           (start_state_wf s gs rr a g Sp Ss Sf Si)
           (start_state_quiescent s gs rr a g Sp Ss Sf Si)
           (start_state_no_reset_lost s gs rr a g) Hrun).
Qed.

Lemma option_returns {A : Type} (o : option A) :
  match o with Some _ => true | None => false end = true -> exists x, o = Some x.
Proof. destruct o as [x|]; [exists x; reflexivity|discriminate]. Qed.

Lemma translator_run_invariants_witness :
  let e := {| cb_transfer := 0%nat; cb_status := LIBUSB_TRANSFER_COMPLETED;
              cb_buffer := [Byte.x10; Byte.x80; Byte.x05; Byte.x10; Byte.x03; Byte.x20];
              cb_resubmit_ok := true |} in
  exists h',
    handle_events [e; e] {| handle_state := davis240_start; handle_transfers := no_transfers |}
    = Some h'
    /\ packets_wf (handle_state h')
    /\ settings (handle_state h') = davis240_settings.
Proof.
  intros e.
  assert (Hsome : match handle_events [e; e]
                          {| handle_state := davis240_start;
                             handle_transfers := no_transfers |} with
                  | Some _ => true
                  | None => false
                  end = true) by (vm_compute; reflexivity).
  apply option_returns in Hsome. destruct Hsome as [h' Hrun].
  exists h'. split; [exact Hrun|].
  assert (Sp : (0 < maxPolarityPacketSize davis240_settings)%nat) by (cbn; lia).
  assert (Ss : (0 < maxSpecialPacketSize davis240_settings)%nat) by (cbn; lia).
  assert (Sf : (0 < maxFramePacketSize davis240_settings)%nat) by (cbn; lia).
  assert (Si : (0 < maxIMU6PacketSize davis240_settings)%nat) by (cbn; lia).
  destruct (translator_run_invariants davis240_settings true true 0 0 no_transfers
              [e; e] h' Sp Ss Sf Si Hrun) as (Hwf & _ & _ & Hs).
  split; [exact Hwf|exact Hs].
Defined.

(** ** Polarity events lie within the array *)

Lemma forallb_alter_true {A : Type} (P : A -> bool) (f : A -> A) (i : nat) (l : list A) :
  forallb P l = true -> (forall e, P (f e) = true) -> forallb P (alter f i l) = true.
Proof.
  intros Hl Hf. revert i. induction l as [|x l IH]; intros i; [reflexivity|].
  cbn in Hl. apply andb_prop in Hl as [Hx Hl].
  destruct i as [|i]; cbn.
  - rewrite Hf, Hl. reflexivity.
  - rewrite Hx. apply IH. exact Hl.
Qed.

Lemma forallb_drop {A : Type} (P : A -> bool) (k : nat) (l : list A) :
  forallb P l = true -> forallb P (drop k l) = true.
Proof.
  revert k. induction l as [|x l IH]; intros k H; destruct k; cbn; try assumption;
    try reflexivity.
  cbn in H. apply andb_prop in H as [_ H]. apply IH. exact H.
Qed.

Lemma put_or_drop_all (P : event_packet -> bool) cap x p :
  P p = true -> forallb P (ring x) = true -> forallb P (freed x) = true ->
  forallb P (ring (put_or_drop cap x p)) = true
  /\ forallb P (freed (put_or_drop cap x p)) = true.
Proof.
  intros Hp Hr Hf. unfold put_or_drop, ringBufferPut.
  destruct (_ <? _)%nat; cbn [ring freed].
  - split; [|exact Hf]. rewrite forallb_app, forallb_drop by exact Hr.
    cbn. rewrite Hp. reflexivity.
  - split; [apply forallb_drop; exact Hr|]. cbn. rewrite Hp, Hf. reflexivity.
Qed.

Lemma retry_special_all (P : event_packet -> bool) cap p sched :
  forall r sched' r',
    P p = true -> forallb P r = true ->
    retry_special cap sched r p = Some (sched', r') -> forallb P r' = true.
Proof.
  induction sched as [|k sched IH]; intros r sched' r' Hp Hr; cbn [retry_special];
    unfold ringBufferPut.
  - destruct (_ <? _)%nat; [|discriminate]. intros [= _ <-].
    rewrite forallb_app, Hr. cbn. rewrite Hp. reflexivity.
  - destruct (_ <? _)%nat.
    + intros [= _ <-]. rewrite forallb_app, forallb_drop by exact Hr.
      cbn. rewrite Hp. reflexivity.
    + apply IH; [exact Hp|apply forallb_drop; exact Hr].
Qed.

Lemma decodeEvent_in_array st event :
  polarity_in_array st -> polarity_in_array (fst (decodeEvent st event)).
Proof.
  intros (Hy & Hp & Hr & Hf).
  unfold polarity_in_array.
  rewrite (proj1 (decodeEvent_frame st event)).
  rewrite (proj1 (proj2 (decodeEvent_frame st event))).
  split; [|split; [|split; assumption]].
  - pose proof (eventData_range event) as Hd.
    decode_cases event; cbn [fst snd]; helper_cases; try assumption; lia.
  - pose proof (eventData_range event) as Hd.
    decode_cases event; cbn [fst snd]; helper_cases; try assumption;
      apply forallb_alter_true; try assumption; intros e;
      unfold polarityInArray, info_dvsSizeX, info_dvsSizeY; cbn;
      repeat match goal with H : dvsInvertXY _ = _ |- _ => rewrite H end;
      repeat (apply andb_true_intro; split); lia.
Qed.

Lemma forallb_repeat_true {A : Type} (P : A -> bool) (x : A) (n : nat) :
  P x = true -> forallb P (repeat x n) = true.
Proof. intros H. induction n as [|n IH]; cbn; [reflexivity | rewrite H, IH; reflexivity]. Qed.

Lemma commitPolarity_in_array force st :
  polarity_in_array st -> polarity_in_array (commitPolarity force st).
Proof.
  intros (Hy & Hp & Hr & Hf). unfold polarity_in_array.
  rewrite commitPolarity_dvs, commitPolarity_settings.
  split; [exact Hy|].
  commit_cases; cbn [packets dataExchangeBuffer with_packets with_exchange
                     set_polarity currentPolarityPacket];
    [|split; [|split]; assumption].
  destruct (put_or_drop_all (packetInArray (settings st))
              (dataExchangeBufferSize (settings st)) (dataExchangeBuffer st)
              (PolarityPacket (currentPolarityPacket (packets st))) Hp Hr Hf) as [Hr' Hf'].
  split; [|split; assumption].
  apply forallb_repeat_true. reflexivity.
Qed.

Lemma commitFrame_in_array force st :
  polarity_in_array st -> polarity_in_array (commitFrame force st).
Proof.
  intros (Hy & Hp & Hr & Hf). unfold polarity_in_array.
  rewrite commitFrame_dvs, commitFrame_settings.
  split; [exact Hy|].
  commit_cases; cbn [packets dataExchangeBuffer with_packets with_exchange with_aps
                     set_frame currentPolarityPacket];
    [|split; [|split]; assumption].
  destruct (put_or_drop_all (packetInArray (settings st))
              (dataExchangeBufferSize (settings st)) (dataExchangeBuffer st)
              (FramePacket (currentFramePacket (packets st))) eq_refl Hr Hf) as [Hr' Hf'].
  split; [|split]; assumption.
Qed.

Lemma commitIMU6_in_array force st :
  polarity_in_array st -> polarity_in_array (commitIMU6 force st).
Proof.
  intros (Hy & Hp & Hr & Hf). unfold polarity_in_array.
  rewrite commitIMU6_dvs, commitIMU6_settings.
  split; [exact Hy|].
  commit_cases; cbn [packets dataExchangeBuffer with_packets with_exchange with_imu
                     set_imu6 currentPolarityPacket];
    [|split; [|split]; assumption].
  destruct (put_or_drop_all (packetInArray (settings st))
              (dataExchangeBufferSize (settings st)) (dataExchangeBuffer st)
              (IMU6Packet (currentIMU6Packet (packets st))) eq_refl Hr Hf) as [Hr' Hf'].
  split; [|split]; assumption.
Qed.

Lemma commitSpecial_in_array force st st' :
  polarity_in_array st -> commitSpecial force st = Some st' -> polarity_in_array st'.
Proof.
  intros (Hy & Hp & Hr & Hf). unfold commitSpecial.
  destruct (specialCommitCheck force st); [|intros [= <-]; exact (conj Hy (conj Hp (conj Hr Hf)))].
  destruct force.
  - unfold put_or_spin.
    destruct (retry_special _ _ _ _) as [[sched r]|] eqn:Hretry; [|discriminate].
    intros [= <-]. unfold polarity_in_array. cbn.
    split; [exact Hy|]. split; [exact Hp|]. split; [|exact Hf].
    eapply retry_special_all; [|exact Hr|exact Hretry]. reflexivity.
  - intros [= <-]. unfold polarity_in_array. cbn.
    destruct (put_or_drop_all (packetInArray (settings st))
                (dataExchangeBufferSize (settings st)) (dataExchangeBuffer st)
                (SpecialPacket (currentSpecialPacket (packets st))) eq_refl Hr Hf)
      as [Hr' Hf'].
    split; [exact Hy|]. split; [exact Hp|]. split; assumption.
Qed.

Lemma translateEvent_in_array st event st' :
  polarity_in_array st -> translateEvent st event = Some st' -> polarity_in_array st'.
Proof.
  intros Hin. rewrite translateEvent_unfold.
  apply commitSpecial_in_array, commitIMU6_in_array, commitFrame_in_array,
    commitPolarity_in_array, decodeEvent_in_array, Hin.
Qed.

Lemma translateEvents_in_array (events : list Z) :
  forall st st', polarity_in_array st -> translateEvents st events = Some st' ->
                 polarity_in_array st'.
Proof.
  induction events as [|event rest IH]; intros st st' Hin; cbn [translateEvents].
  - intros [= <-]. exact Hin.
  - destruct (translateEvent st event) as [st1|] eqn:Hstep; [|discriminate].
    apply IH. eapply translateEvent_in_array; eassumption.
Qed.

Lemma start_state_in_array s gs rr a g :
  0 < dvsSizeY s -> polarity_in_array (start_state s gs rr a g).
Proof.
  intros Hy. unfold polarity_in_array. cbn.
  split; [lia|]. split; [|split; reflexivity].
  apply forallb_repeat_true. reflexivity.
Qed.

(** X9: every validated polarity event the translator produces lies
    within the DVS array of the device info (0 <= x < dvsSizeX and
    0 <= y < dvsSizeY as davisOpen publishes them, exchanged when the
    array is read transposed).  From the state data start leaves, on a
    device with at least one row, this holds after any sequence of
    transfer callbacks for the events of the polarity packet in progress,
    of every packet in the exchange buffer and of every packet dropped. *)
Theorem polarity_events_in_array (s : davis_settings) (gs rr : bool) (a g : Z)
  (u : usb_transfers) (events : list callback_event) (h' : davis_handle)
  (Hrows : 0 < dvsSizeY s)
  (Hrun : handle_events events
            {| handle_state := start_state s gs rr a g; handle_transfers := u |}
          = Some h') :
  (forall e, In e (currentPolarityPacket (packets (handle_state h'))) ->
             pol_valid e = true ->
             0 <= pol_x e < info_dvsSizeX s /\ 0 <= pol_y e < info_dvsSizeY s)
  /\ (forall l e,
        In (PolarityPacket l) (ring (dataExchangeBuffer (handle_state h'))
                               ++ freed (dataExchangeBuffer (handle_state h'))) ->
        In e l -> pol_valid e = true ->
        0 <= pol_x e < info_dvsSizeX s /\ 0 <= pol_y e < info_dvsSizeY s).
Proof.
  assert (Hinv : forall evs h,
            polarity_in_array (handle_state h) ->
            handle_events evs h = Some h' ->
            polarity_in_array (handle_state h')
            /\ settings (handle_state h') = settings (handle_state h)).
  { induction evs as [|e evs IH]; intros h Hin; cbn [handle_events].
    - intros [= <-]. split; [exact Hin|reflexivity].
    - destruct (davisLibUsbCallback h (cb_transfer e) (cb_status e) (cb_buffer e)
                  (cb_resubmit_ok e)) as [h1|] eqn:Hcb; [|discriminate].
      intros Hrest.
      destruct (callback_packets h h1 e Hcb) as [Heq|Htr].
      + rewrite <- Heq. apply IH; [rewrite Heq; exact Hin|exact Hrest].
      + unfold davisEventTranslator in Htr.
        rewrite <- (translateEvents_settings _ _ _ Htr).
        apply IH; [|exact Hrest].
        exact (translateEvents_in_array _ _ _ Hin Htr). }
  destruct (Hinv events {| handle_state := start_state s gs rr a g; handle_transfers := u |}
              (start_state_in_array s gs rr a g Hrows) Hrun)
    as ((_ & Hp & Hr & Hf) & Hs).
  cbn [handle_state] in Hs. change (settings (start_state s gs rr a g)) with s in Hs.
  rewrite Hs in Hp, Hr, Hf.
  assert (Hev : forall e, polarityInArray s e = true -> pol_valid e = true ->
                  0 <= pol_x e < info_dvsSizeX s /\ 0 <= pol_y e < info_dvsSizeY s).
  { intros e He Hv. unfold polarityInArray in He. rewrite Hv in He. cbn in He.
    apply andb_prop in He as [He Hy2]. apply andb_prop in He as [He Hy1].
    apply andb_prop in He as [Hx1 Hx2]. lia. }
  rewrite forallb_forall in Hp, Hr, Hf.
  split.
  - intros e He Hv. apply Hev; [apply Hp; exact He|exact Hv].
  - intros l e Hl He Hv. apply Hev; [|exact Hv].
    assert (Hpk : packetInArray s (PolarityPacket l) = true).
    { apply in_app_or in Hl. destruct Hl as [Hl|Hl]; [apply Hr|apply Hf]; exact Hl. }
    cbn in Hpk. rewrite forallb_forall in Hpk. apply Hpk. exact He.
Qed.

Lemma polarity_events_in_array_witness :
  let e := {| cb_transfer := 0%nat; cb_status := LIBUSB_TRANSFER_COMPLETED;
              cb_buffer := [Byte.x05; Byte.x10; Byte.x03; Byte.x20];
              cb_resubmit_ok := true |} in
  0 < dvsSizeY davis240_settings
  /\ exists h',
       handle_events [e] {| handle_state := davis240_start; handle_transfers := no_transfers |}
       = Some h'
       /\ forall p, In p (currentPolarityPacket (packets (handle_state h'))) ->
                    pol_valid p = true ->
                    0 <= pol_x p < 240 /\ 0 <= pol_y p < 180.
Proof.
  intros e.
  assert (Hrows : 0 < dvsSizeY davis240_settings) by (cbn; lia).
  split; [exact Hrows|].
  assert (Hsome : match handle_events [e]
                          {| handle_state := davis240_start;
                             handle_transfers := no_transfers |} with
                  | Some _ => true
                  | None => false
                  end = true) by (vm_compute; reflexivity).
  apply option_returns in Hsome. destruct Hsome as [h' Hrun].
  exists h'. split; [exact Hrun|].
  exact (proj1 (polarity_events_in_array davis240_settings true true 0 0 no_transfers
                  [e] h' Hrows Hrun)).
Defined.

(** ** Commits happen only after a word that writes an event *)

Lemma quiet_word_unforced st event :
  isQuietWord event = true -> snd (decodeEvent st event) = false.
Proof.
  intros Hq. apply decodeEvent_force. unfold isQuietWord in Hq.
  destruct (isSpecial event 1); [discriminate|reflexivity].
Qed.

Lemma quiet_word_packets st event :
  isQuietWord event = true ->
  let st1 := fst (decodeEvent st event) in
  currentPolarityPacket (packets st1) = currentPolarityPacket (packets st)
  /\ currentPolarityPacketPosition (packets st1) = currentPolarityPacketPosition (packets st)
  /\ currentSpecialPacket (packets st1) = currentSpecialPacket (packets st)
  /\ currentSpecialPacketPosition (packets st1) = currentSpecialPacketPosition (packets st)
  /\ currentFramePacketPosition (packets st1) = currentFramePacketPosition (packets st)
  /\ currentIMU6PacketPosition (packets st1) = currentIMU6PacketPosition (packets st)
  /\ length (currentFramePacket (packets st1)) = length (currentFramePacket (packets st))
  /\ length (currentIMU6Packet (packets st1)) = length (currentIMU6Packet (packets st))
  /\ (forall n, n <> currentFramePacketPosition (packets st) ->
        currentFramePacket (packets st1) !! n = currentFramePacket (packets st) !! n)
  /\ (forall n, n <> currentIMU6PacketPosition (packets st) ->
        currentIMU6Packet (packets st1) !! n = currentIMU6Packet (packets st) !! n).
Proof.
  intros Hq. unfold isQuietWord in Hq.
  apply negb_true_iff in Hq.
  repeat (apply orb_false_elim in Hq; destruct Hq as [Hq ?]).
  decode_cases event; try word_class_absurd; cbn [fst]; helper_cases;
    repeat split; intros; rewrite ?length_alter, ?list_lookup_alter_ne by congruence;
    reflexivity.
Qed.

Lemma quiet_word_checks st event :
  isQuietWord event = true ->
  let st1 := fst (decodeEvent st event) in
  polarityCommitCheck false st1 = polarityCommitCheck false st
  /\ frameCommitCheck false st1 = frameCommitCheck false st
  /\ imu6CommitCheck false st1 = imu6CommitCheck false st
  /\ specialCommitCheck false st1 = specialCommitCheck false st.
Proof.
  intros Hq st1.
  destruct (quiet_word_packets st event Hq)
    as (Hp & Hpp & Hs & Hsp & Hfp & Hip & Hfl & Hil & Hfn & Hin).
  fold st1 in Hp, Hpp, Hs, Hsp, Hfp, Hip, Hfl, Hil, Hfn, Hin.
  assert (Hset : settings st1 = settings st) by apply (decodeEvent_frame st event).
  split; [|split; [|split]].
  - unfold polarityCommitCheck. rewrite Hp, Hpp, Hset. reflexivity.
  - apply frameCommitCheck_ext; assumption.
  - apply imu6CommitCheck_ext; assumption.
  - unfold specialCommitCheck. rewrite Hs, Hsp, Hset. reflexivity.
Qed.

Lemma commit_quiescent_id st :
  commits_quiescent st ->
  commitSpecial false (commitIMU6 false (commitFrame false (commitPolarity false st))) = Some st.
Proof.
  intros (Hp & Hf & Hi & Hs).
  unfold commitPolarity. rewrite Hp.
  unfold commitFrame. rewrite Hf.
  unfold commitIMU6. rewrite Hi.
  unfold commitSpecial. rewrite Hs. reflexivity.
Qed.

Lemma quiet_word_quiescent st event :
  isQuietWord event = true -> commits_quiescent st ->
  commits_quiescent (fst (decodeEvent st event)).
Proof.
  intros Hq (Hp & Hf & Hi & Hs).
  destruct (quiet_word_checks st event Hq) as (Ep & Ef & Ei & Es).
  unfold commits_quiescent. rewrite Ep, Ef, Ei, Es. repeat split; assumption.
Qed.

Lemma translateEvent_quiet st event :
  isQuietWord event = true -> commits_quiescent st ->
  translateEvent st event = Some (fst (decodeEvent st event)).
Proof.
  intros Hq Hst. rewrite translateEvent_unfold, quiet_word_unforced by exact Hq.
  apply commit_quiescent_id, quiet_word_quiescent; assumption.
Qed.

Lemma translateEvents_quiet (events : list Z) :
  forall st, Forall (fun event => isQuietWord event = true) events ->
    commits_quiescent st ->
    translateEvents st events = Some (decodeEvents st events)
    /\ commits_quiescent (decodeEvents st events).
Proof.
  unfold decodeEvents.
  induction events as [|event rest IH]; intros st Hall Hst; cbn [translateEvents fold_left].
  - split; [reflexivity|exact Hst].
  - inversion Hall as [|? ? Hq Hrest]; subst.
    rewrite translateEvent_quiet by assumption.
    apply IH; [exact Hrest|]. apply quiet_word_quiescent; assumption.
Qed.

Lemma decodeEvents_exchange (events : list Z) :
  forall st, dataExchangeBuffer (decodeEvents st events) = dataExchangeBuffer st
             /\ settings (decodeEvents st events) = settings st.
Proof.
  unfold decodeEvents.
  induction events as [|event rest IH]; intros st; cbn [fold_left]; [split; reflexivity|].
  destruct (IH (fst (decodeEvent st event))) as [Hx Hs]. rewrite Hx, Hs.
  split; apply (decodeEvent_frame st event).
Qed.

Lemma decodeEvents_quiet_positions (events : list Z) :
  forall st, Forall (fun event => isQuietWord event = true) events ->
    currentPolarityPacket (packets (decodeEvents st events))
    = currentPolarityPacket (packets st)
    /\ currentSpecialPacket (packets (decodeEvents st events))
       = currentSpecialPacket (packets st)
    /\ currentPolarityPacketPosition (packets (decodeEvents st events))
       = currentPolarityPacketPosition (packets st)
    /\ currentSpecialPacketPosition (packets (decodeEvents st events))
       = currentSpecialPacketPosition (packets st)
    /\ currentFramePacketPosition (packets (decodeEvents st events))
       = currentFramePacketPosition (packets st)
    /\ currentIMU6PacketPosition (packets (decodeEvents st events))
       = currentIMU6PacketPosition (packets st).
Proof.
  unfold decodeEvents.
  induction events as [|event rest IH]; intros st Hall; cbn [fold_left].
  - repeat split.
  - inversion Hall as [|? ? Hq Hrest]; subst.
    destruct (IH (fst (decodeEvent st event)) Hrest) as (H1 & H2 & H3 & H4 & H5 & H6).
    destruct (quiet_word_packets st event Hq) as (Hp & Hpp & Hs & Hsp & Hfp & Hip & _).
    rewrite H1, H2, H3, H4, H5, H6. repeat split; assumption.
Qed.

(** X10: a packet is committed only in an iteration whose word writes an
    event.  Over a run of words none of which is a timestamp reset, an
    external input, an IMU end, an APS frame end or a DVS address, started
    between two iterations (no commit due), the translator returns, the
    state it leaves is the one the decoding of the words alone gives, no
    packet is put into the exchange buffer or freed, the polarity and the
    special packet in progress are unchanged, no packet position moves
    and no commit is due at the end. *)
Theorem commits_need_an_event (st : davis_state) (events : list Z)
  (Hquiet : Forall (fun event => isQuietWord event = true) events)
  (Hst : commits_quiescent st) :
  exists st',
    translateEvents st events = Some st'
    /\ st' = decodeEvents st events
    /\ dataExchangeBuffer st' = dataExchangeBuffer st
    /\ currentPolarityPacket (packets st') = currentPolarityPacket (packets st)
    /\ currentSpecialPacket (packets st') = currentSpecialPacket (packets st)
    /\ currentPolarityPacketPosition (packets st') = currentPolarityPacketPosition (packets st)
    /\ currentSpecialPacketPosition (packets st') = currentSpecialPacketPosition (packets st)
    /\ currentFramePacketPosition (packets st') = currentFramePacketPosition (packets st)
    /\ currentIMU6PacketPosition (packets st') = currentIMU6PacketPosition (packets st)
    /\ commits_quiescent st'.
Proof.
  destruct (translateEvents_quiet events st Hquiet Hst) as [Hrun Hq].
  destruct (decodeEvents_quiet_positions events st Hquiet) as (H1 & H2 & H3 & H4 & H5 & H6).
  exists (decodeEvents st events).
  split; [exact Hrun|]. split; [reflexivity|].
  split; [apply decodeEvents_exchange|].
  repeat (split; [assumption|]). exact Hq.
Qed.

Lemma commits_need_an_event_witness :
  exists st',
    translateEvents davis240_start [0x8010; 0x0008; 0x000B; 0x4320; 0x000D; 0x0005; 0x5001]
    = Some st'
    /\ dataExchangeBuffer st' = dataExchangeBuffer davis240_start
    /\ currentFramePacketPosition (packets st') = 0%nat.
Proof.
  destruct (commits_need_an_event davis240_start
              [0x8010; 0x0008; 0x000B; 0x4320; 0x000D; 0x0005; 0x5001])
    as (st' & Hrun & _ & Hx & _ & _ & _ & _ & Hf & _).
  - repeat constructor.
  - apply start_state_quiescent; cbn; lia.
  - exists st'. split; [exact Hrun|]. split; [exact Hx|exact Hf].
Defined.

(** ** The readout of a frame *)

Section FrameReadout.

Variable s : davis_settings.
Hypothesis Hwin : upright_window s.

Let W := apsWindow0SizeX s.
Let H := apsWindow0SizeY s.

Lemma rgb_shutter_off st : settings st = s -> apsRGBGlobalShutter st = false.
Proof.
  intros Hs. unfold apsRGBGlobalShutter. rewrite Hs, (uw_chip s Hwin). reflexivity.
Qed.

(** The position of the sample in the frame and in the reset frame. *)
Lemma apsSampleXY_upright st (x y : nat) :
  settings st = s ->
  count_get (apsCountX (aps st)) (apsCurrentReadoutType (aps st)) = Z.of_nat x ->
  count_get (apsCountY (aps st)) (apsCurrentReadoutType (aps st)) = Z.of_nat y ->
  Z.of_nat x < W -> Z.of_nat y < H ->
  apsSampleXY st = (Z.of_nat x, Z.of_nat y).
Proof.
  intros Hs Hx Hy Hxw Hyh. unfold apsSampleXY. cbv zeta.
  rewrite Hs, (uw_flipX s Hwin), (uw_flipY s Hwin), (uw_chip s Hwin), (uw_invert s Hwin).
  rewrite Hx, Hy. unfold U16T.
  destruct Hwin. subst W H.
  rewrite !Z.mod_small by lia. reflexivity.
Qed.

Lemma apsPixelPosition_upright st (x y : nat) :
  settings st = s ->
  frm_length_x (currentFrameEvent (packets st)) = W ->
  count_get (apsCountX (aps st)) (apsCurrentReadoutType (aps st)) = Z.of_nat x ->
  count_get (apsCountY (aps st)) (apsCurrentReadoutType (aps st)) = Z.of_nat y ->
  Z.of_nat x < W -> Z.of_nat y < H ->
  apsPixelPosition st = Z.to_nat (Z.of_nat y * W + Z.of_nat x).
Proof.
  intros Hs Hl Hx Hy Hxw Hyh. unfold apsPixelPosition.
  rewrite (apsSampleXY_upright st x y) by assumption. rewrite Hl. reflexivity.
Qed.

Lemma apsPixelPositionAbs_upright st (x y : nat) :
  settings st = s ->
  count_get (apsCountX (aps st)) (apsCurrentReadoutType (aps st)) = Z.of_nat x ->
  count_get (apsCountY (aps st)) (apsCurrentReadoutType (aps st)) = Z.of_nat y ->
  Z.of_nat x < W -> Z.of_nat y < H ->
  apsPixelPositionAbs st
  = Z.to_nat ((Z.of_nat y + apsWindow0StartY s) * apsSizeX s
              + (Z.of_nat x + apsWindow0StartX s)).
Proof.
  intros Hs Hx Hy Hxw Hyh. unfold apsPixelPositionAbs.
  rewrite (apsSampleXY_upright st x y) by assumption. rewrite Hs. unfold U16T.
  destruct Hwin. subst W H.
  rewrite !Z.mod_small by lia. reflexivity.
Qed.

(** Distinct entries of an array of rows of width [w] have distinct
    positions. *)
Lemma row_major_inj (w a b a' b' : Z) :
  0 <= a < w -> 0 <= a' < w -> 0 <= b -> 0 <= b' ->
  Z.to_nat (b * w + a) = Z.to_nat (b' * w + a') -> a = a' /\ b = b'.
Proof.
  intros Ha Ha' Hb Hb' Heq.
  apply Z2Nat.inj in Heq; [|nia|nia].
  assert (b = b') by nia.
  split; [nia|assumption].
Qed.

Lemma lookup_snoc_Some {A : Type} (l : list A) (a c : A) (x : nat) :
  (l ++ [a]) !! x = Some c ->
  ((x < length l)%nat /\ l !! x = Some c) \/ (x = length l /\ c = a).
Proof.
  intros Hx. destruct (Nat.lt_ge_cases x (length l)) as [Hlt|Hge].
  - left. split; [exact Hlt|]. rewrite lookup_app_l in Hx by exact Hlt. exact Hx.
  - right. rewrite lookup_app_r in Hx by exact Hge.
    destruct (x - length l)%nat as [|k] eqn:Hk; cbn in Hx; [|discriminate].
    split; [lia|congruence].
Qed.

Lemma apsADCSample_reset st (x y : nat) (d : Z) :
  settings st = s ->
  apsIgnoreEvents (aps st) = false ->
  apsCurrentReadoutType (aps st) = APS_READOUT_RESET ->
  frm_length_y (currentFrameEvent (packets st)) = H ->
  count_get (apsCountX (aps st)) APS_READOUT_RESET = Z.of_nat x ->
  count_get (apsCountY (aps st)) APS_READOUT_RESET = Z.of_nat y ->
  Z.of_nat x < W -> Z.of_nat y < H ->
  apsADCSample d st
  = with_aps
      (set_apsCountY (count_set (apsCountY (aps st)) APS_READOUT_RESET (Z.of_nat (S y)))
         (set_apsCurrentResetFrame
            (<[Z.to_nat ((Z.of_nat y + apsWindow0StartY s) * apsSizeX s
                         + (Z.of_nat x + apsWindow0StartX s)) := d]>
               (apsCurrentResetFrame (aps st)))
            (aps st)))
      st.
Proof.
  intros Hs Hign Hrt Hly Hx Hy Hxw Hyh.
  unfold apsADCSample. rewrite Hign. cbv zeta. rewrite Hrt, Hly, Hy.
  destruct (Z.leb_spec H (Z.of_nat y)) as [Hle|_]; [lia|].
  assert (Hread : apsSampleIsResetRead st = true).
  { unfold apsSampleIsResetRead. rewrite Hrt, rgb_shutter_off by exact Hs. reflexivity. }
  rewrite Hread.
  rewrite (apsPixelPositionAbs_upright st x y) by (rewrite ?Hrt; assumption).
  rewrite Hs, (uw_chip s Hwin).
  cbn [aps with_aps apsCountY set_apsCurrentResetFrame].
  rewrite Hy. unfold U16T. rewrite Z.mod_small by (destruct Hwin; subst W H; lia).
  replace (Z.of_nat y + 1) with (Z.of_nat (S y)) by lia.
  reflexivity.
Qed.

Lemma apsADCSample_signal st (x y : nat) (d : Z) :
  settings st = s ->
  apsIgnoreEvents (aps st) = false ->
  apsCurrentReadoutType (aps st) = APS_READOUT_SIGNAL ->
  frm_length_x (currentFrameEvent (packets st)) = W ->
  frm_length_y (currentFrameEvent (packets st)) = H ->
  count_get (apsCountX (aps st)) APS_READOUT_SIGNAL = Z.of_nat x ->
  count_get (apsCountY (aps st)) APS_READOUT_SIGNAL = Z.of_nat y ->
  Z.of_nat x < W -> Z.of_nat y < H ->
  apsADCSample d st
  = with_aps
      (set_apsCountY (count_set (apsCountY (aps st)) APS_READOUT_SIGNAL (Z.of_nat (S y)))
         (aps st))
      (with_packets
         (alter_frame
            (fun e => frame_set_pixels
                        (<[Z.to_nat (Z.of_nat y * W + Z.of_nat x)
                           := cdsPixel (default 0 (resetFrameEntry st x y)) d]>
                           (frm_pixels e)) e)
            (packets st))
         st).
Proof.
  intros Hs Hign Hrt Hlx Hly Hx Hy Hxw Hyh.
  unfold apsADCSample. rewrite Hign. cbv zeta. rewrite Hrt, Hly, Hy.
  destruct (Z.leb_spec H (Z.of_nat y)) as [Hle|_]; [lia|].
  assert (Hread : apsSampleIsResetRead st = false).
  { unfold apsSampleIsResetRead. rewrite Hrt, rgb_shutter_off by exact Hs. reflexivity. }
  rewrite Hread.
  rewrite (apsPixelPosition_upright st x y) by (rewrite ?Hrt; assumption).
  assert (Hval : apsPixelValue st d = cdsPixel (default 0 (resetFrameEntry st x y)) d).
  { unfold apsPixelValue, apsResetValue, cdsPixel, resetFrameEntry.
    rewrite rgb_shutter_off by exact Hs.
    rewrite (apsPixelPositionAbs_upright st x y) by (rewrite ?Hrt; assumption).
    rewrite Hs. cbv zeta.
    destruct (Z.ltb_spec (default 0
                (apsCurrentResetFrame (aps st)
                   !! Z.to_nat ((Z.of_nat y + apsWindow0StartY s) * apsSizeX s
                                + (Z.of_nat x + apsWindow0StartX s))) - d) 0);
      [rewrite Z.max_l by lia|rewrite Z.max_r by lia]; reflexivity. }
  rewrite Hval, Hs, (uw_chip s Hwin).
  cbn [aps with_aps with_packets apsCountY].
  rewrite Hy. unfold U16T. rewrite Z.mod_small by (destruct Hwin; subst W H; lia).
  replace (Z.of_nat y + 1) with (Z.of_nat (S y)) by lia.
  reflexivity.
Qed.

Lemma isAPSSample_inv w :
  isAPSSample w = true -> isTimestamp w = false /\ eventCode w = 4.
Proof.
  unfold isAPSSample. intros Hw. apply andb_prop in Hw as [Ht Hc].
  apply negb_true_iff in Ht. apply Z.eqb_eq in Hc. split; assumption.
Qed.

Lemma readout_sample_reset st Rs Ss ns done w :
  readout_inv s (Rs ++ [done]) Ss (length Rs) ns st ->
  apsCurrentReadoutType (aps st) = APS_READOUT_RESET ->
  count_get (apsCountY (aps st)) APS_READOUT_RESET = Z.of_nat (length done) ->
  Z.of_nat (length Rs) < W -> Z.of_nat (length done) < H ->
  (length Ss <= length Rs)%nat ->
  isAPSSample w = true ->
  readout_inv s (Rs ++ [done ++ [eventData w]]) Ss (length Rs) ns (fst (decodeEvent st w))
  /\ apsCurrentReadoutType (aps (fst (decodeEvent st w))) = APS_READOUT_RESET
  /\ count_get (apsCountY (aps (fst (decodeEvent st w)))) APS_READOUT_RESET
     = Z.of_nat (length (done ++ [eventData w])).
Proof.
  intros [Hs Hign Hrr Hxr Hxs Hrl Hreset Hslot Hlx Hly Hpl Hpix] Hrt Hy Hxw Hyh Hord Hw.
  destruct (isAPSSample_inv w Hw) as [Hts Hcode].
  rewrite decodeEvent_aps by assumption. cbn [fst].
  rewrite (apsADCSample_reset st (length Rs) (length done)) by assumption.
  split; [|split; [exact Hrt|rewrite length_app; cbn; f_equal; lia]].
  pose proof Hwin as [_ _ _ _ Hw0 Hh0 _ Hsx Hsy Hex Hey Hzx Hzy]. fold W H in Hw0, Hh0, Hex, Hey.
  constructor; cbn [settings aps packets with_aps apsIgnoreEvents apsResetRead apsCountX
                    set_apsCountY set_apsCurrentResetFrame apsCurrentResetFrame];
    try assumption.
  - rewrite length_insert. exact Hrl.
  - intros x rcol y r Hx Hr. unfold resetFrameEntry.
    cbn [settings aps with_aps set_apsCountY set_apsCurrentResetFrame apsCurrentResetFrame].
    rewrite Hs.
    assert (Hxb : (x <= length Rs)%nat).
    { apply lookup_lt_Some in Hx. rewrite length_app in Hx. cbn in Hx. lia. }
    destruct (lookup_snoc_Some _ _ _ _ Hx) as [[Hlt Hx']|[-> ->]].
    + rewrite list_lookup_insert_ne.
      * specialize (Hreset x rcol y r). unfold resetFrameEntry in Hreset.
        rewrite Hs in Hreset. apply Hreset; [|exact Hr].
        rewrite lookup_app_l by exact Hlt. exact Hx'.
      * intros Heq. apply row_major_inj in Heq; lia.
    + destruct (lookup_snoc_Some _ _ _ _ Hr) as [[Hlt Hr']|[-> ->]].
      * rewrite list_lookup_insert_ne.
        -- specialize (Hreset (length Rs) done y r). unfold resetFrameEntry in Hreset.
           rewrite Hs in Hreset. apply Hreset; [|exact Hr'].
           rewrite lookup_app_r by lia. rewrite Nat.sub_diag. reflexivity.
        -- intros Heq. apply row_major_inj in Heq; lia.
      * apply list_lookup_insert_eq. nia.
  - intros x rcol scol y r sg Hx Hsx' Hr Hsg.
    assert (Hlt : (x < length Rs)%nat) by (apply lookup_lt_Some in Hsx'; lia).
    apply (Hpix x rcol scol y r sg); try assumption.
    rewrite lookup_app_l in Hx |- * by exact Hlt. exact Hx.
Qed.

Lemma currentFrameEvent_written f p :
  is_Some (currentFramePacket p !! currentFramePacketPosition p) ->
  currentFrameEvent (alter_frame f p) = f (currentFrameEvent p)
  /\ is_Some (currentFramePacket (alter_frame f p)
                !! currentFramePacketPosition (alter_frame f p)).
Proof.
  intros [e He]. unfold currentFrameEvent, alter_frame. cbn.
  rewrite list_lookup_alter_eq, He. cbn. split; [reflexivity|eauto].
Qed.

Lemma readout_sample_signal st Rs Ss nr done w :
  readout_inv s Rs (Ss ++ [done]) nr (length Ss) st ->
  apsCurrentReadoutType (aps st) = APS_READOUT_SIGNAL ->
  count_get (apsCountY (aps st)) APS_READOUT_SIGNAL = Z.of_nat (length done) ->
  Z.of_nat (length Ss) < W -> Z.of_nat (length done) < H ->
  isAPSSample w = true ->
  readout_inv s Rs (Ss ++ [done ++ [eventData w]]) nr (length Ss) (fst (decodeEvent st w))
  /\ apsCurrentReadoutType (aps (fst (decodeEvent st w))) = APS_READOUT_SIGNAL
  /\ count_get (apsCountY (aps (fst (decodeEvent st w)))) APS_READOUT_SIGNAL
     = Z.of_nat (length (done ++ [eventData w])).
Proof.
  intros [Hs Hign Hrr Hxr Hxs Hrl Hreset Hslot Hlx Hly Hpl Hpix] Hrt Hy Hxw Hyh Hw.
  destruct (isAPSSample_inv w Hw) as [Hts Hcode].
  rewrite decodeEvent_aps by assumption. cbn [fst].
  rewrite (apsADCSample_signal st (length Ss) (length done)) by assumption.
  split; [|split; [exact Hrt|rewrite length_app; cbn; f_equal; lia]].
  pose proof Hwin as [_ _ _ _ Hw0 Hh0 _ Hsx Hsy Hex Hey Hzx Hzy]. fold W H in Hw0, Hh0, Hex, Hey.
  match goal with
  | |- context [alter_frame ?f (packets st)] =>
      destruct (currentFrameEvent_written f (packets st) Hslot) as [Hcur Hslot']
  end.
  constructor; cbn [settings aps packets with_aps with_packets apsIgnoreEvents apsResetRead
                    apsCountX set_apsCountY apsCurrentResetFrame];
    rewrite ?Hcur; cbn [frm_length_x frm_length_y frm_pixels frame_set_pixels];
    try assumption.
  - rewrite length_insert. exact Hpl.
  - intros x rcol scol y r sg Hx Hsx' Hr Hsg. unfold framePixel.
    cbn [frm_length_x frm_pixels frame_set_pixels]. rewrite Hlx. fold W.
    assert (Hxb : (x <= length Ss)%nat).
    { apply lookup_lt_Some in Hsx'. rewrite length_app in Hsx'. cbn in Hsx'. lia. }
    destruct (lookup_snoc_Some _ _ _ _ Hsx') as [[Hlt Hx']|[-> ->]].
    + rewrite list_lookup_insert_ne.
      * specialize (Hpix x rcol scol y r sg). unfold framePixel in Hpix.
        rewrite Hlx in Hpix. apply Hpix; try assumption.
        rewrite lookup_app_l by exact Hlt. exact Hx'.
      * intros Heq. apply row_major_inj in Heq; lia.
    + destruct (lookup_snoc_Some _ _ _ _ Hsg) as [[Hlt Hsg']|[-> ->]].
      * rewrite list_lookup_insert_ne.
        -- specialize (Hpix (length Ss) rcol done y r sg). unfold framePixel in Hpix.
           rewrite Hlx in Hpix. apply Hpix; try assumption.
           rewrite lookup_app_r by lia. rewrite Nat.sub_diag. reflexivity.
        -- intros Heq. apply row_major_inj in Heq; lia.
      * rewrite (Hreset (length Ss) rcol (length done) r Hx Hr). cbn [default].
        apply list_lookup_insert_eq. fold W H in Hpl. nia.
Qed.

Lemma readout_inv_open_reset st Rs Ss nr ns :
  readout_inv s Rs Ss nr ns st -> readout_inv s (Rs ++ [[]]) Ss nr ns st.
Proof.
  intros [Hs Hign Hrr Hxr Hxs Hrl Hreset Hslot Hlx Hly Hpl Hpix].
  constructor; try assumption.
  - intros x rcol y r Hx Hr.
    destruct (lookup_snoc_Some _ _ _ _ Hx) as [[_ Hx']|[_ ->]]; [|discriminate].
    exact (Hreset x rcol y r Hx' Hr).
  - intros x rcol scol y r sg Hx Hsx Hr Hsg.
    destruct (lookup_snoc_Some _ _ _ _ Hx) as [[_ Hx']|[_ ->]]; [|discriminate].
    exact (Hpix x rcol scol y r sg Hx' Hsx Hr Hsg).
Qed.

Lemma readout_inv_open_signal st Rs Ss nr ns :
  readout_inv s Rs Ss nr ns st -> readout_inv s Rs (Ss ++ [[]]) nr ns st.
Proof.
  intros [Hs Hign Hrr Hxr Hxs Hrl Hreset Hslot Hlx Hly Hpl Hpix].
  constructor; try assumption.
  intros x rcol scol y r sg Hx Hsx Hr Hsg.
  destruct (lookup_snoc_Some _ _ _ _ Hsx) as [[_ Hsx']|[_ ->]]; [|discriminate].
  exact (Hpix x rcol scol y r sg Hx Hsx' Hr Hsg).
Qed.

Lemma readout_column_start st Rs Ss nr ns rt :
  readout_inv s Rs Ss nr ns st ->
  readout_inv s Rs Ss nr ns (fst (decodeEvent st (apsColumnStartWord rt)))
  /\ apsCurrentReadoutType (aps (fst (decodeEvent st (apsColumnStartWord rt)))) = rt
  /\ count_get (apsCountY (aps (fst (decodeEvent st (apsColumnStartWord rt))))) rt = 0.
Proof.
  intros [Hs Hign Hrr Hxr Hxs Hrl Hreset Hslot Hlx Hly Hpl Hpix].
  destruct rt.
  - change (decodeEvent st (apsColumnStartWord APS_READOUT_RESET))
      with (apsResetColumnStart st, false).
    cbn [fst]. unfold apsResetColumnStart. rewrite Hign. cbv zeta.
    destruct (currentFrameEvent_written
                (caerFrameEventSetTSStartOfExposure (currentTimestamp (timestamps st)))
                (packets st) Hslot) as [Hcur Hslot'].
    destruct (negb _ && _); (split; [|split; reflexivity]);
      constructor; cbn [settings aps packets timestamps with_aps with_packets];
      rewrite ?Hcur; try exact Hslot'; cbn; assumption.
  - change (decodeEvent st (apsColumnStartWord APS_READOUT_SIGNAL))
      with (apsSignalColumnStart st, false).
    cbn [fst]. unfold apsSignalColumnStart. rewrite Hign. cbv zeta.
    destruct (currentFrameEvent_written
                (caerFrameEventSetTSEndOfExposure (currentTimestamp (timestamps st)))
                (packets st) Hslot) as [Hcur Hslot'].
    destruct (_ =? _); (split; [|split; reflexivity]);
      constructor; cbn [settings aps packets timestamps with_aps with_packets];
      rewrite ?Hcur; try exact Hslot'; cbn; assumption.
Qed.

Lemma readout_column_end_reset st Rs Ss nr ns :
  readout_inv s Rs Ss nr ns st ->
  apsCurrentReadoutType (aps st) = APS_READOUT_RESET ->
  Z.of_nat nr < W ->
  readout_inv s Rs Ss (S nr) ns (fst (decodeEvent st 0x000D)).
Proof.
  intros [Hs Hign Hrr Hxr Hxs Hrl Hreset Hslot Hlx Hly Hpl Hpix] Hrt Hnr.
  change (decodeEvent st 0x000D) with (apsColumnEnd st, false).
  cbn [fst]. unfold apsColumnEnd. rewrite Hign. cbv zeta.
  destruct (currentFrameEvent_written
              (caerFrameEventSetTSStartOfExposure (currentTimestamp (timestamps st)))
              (packets st) Hslot) as [Hcur Hslot'].
  pose proof Hwin as [_ _ _ _ Hw0 Hh0 _ Hsx Hsy Hex Hey Hzx Hzy]. fold W H in Hw0, Hh0, Hex, Hey.
  assert (Hr1 : U16T (Z.of_nat nr + 1) = Z.of_nat (S nr))
    by (unfold U16T; rewrite Z.mod_small by lia; lia).
  rewrite Hrt, Hxr, Hr1.
  destruct (_ && _);
    constructor; cbn [settings aps packets timestamps with_aps with_packets];
    rewrite ?Hcur; try exact Hslot'; cbn; first [assumption|reflexivity].
Qed.

Lemma readout_column_end_signal st Rs Ss nr ns :
  readout_inv s Rs Ss nr ns st ->
  apsCurrentReadoutType (aps st) = APS_READOUT_SIGNAL ->
  Z.of_nat ns < W ->
  readout_inv s Rs Ss nr (S ns) (fst (decodeEvent st 0x000D)).
Proof.
  intros [Hs Hign Hrr Hxr Hxs Hrl Hreset Hslot Hlx Hly Hpl Hpix] Hrt Hns.
  change (decodeEvent st 0x000D) with (apsColumnEnd st, false).
  cbn [fst]. unfold apsColumnEnd. rewrite Hign. cbv zeta.
  destruct (currentFrameEvent_written
              (caerFrameEventSetTSStartOfExposure (currentTimestamp (timestamps st)))
              (packets st) Hslot) as [Hcur Hslot'].
  pose proof Hwin as [_ _ _ _ Hw0 Hh0 _ Hsx Hsy Hex Hey Hzx Hzy]. fold W H in Hw0, Hh0, Hex, Hey.
  assert (Hs1 : U16T (Z.of_nat ns + 1) = Z.of_nat (S ns))
    by (unfold U16T; rewrite Z.mod_small by lia; lia).
  rewrite Hrt, Hxs, Hs1.
  destruct (_ && _);
    constructor; cbn [settings aps packets timestamps with_aps with_packets];
    rewrite ?Hcur; try exact Hslot'; cbn; first [assumption|reflexivity].
Qed.

(** The samples of a column of the reset read. *)
Lemma readout_samples_reset Rs Ss ns (ws : list Z) :
  forall (done : list Z) (st : davis_state),
    readout_inv s (Rs ++ [done]) Ss (length Rs) ns st ->
    apsCurrentReadoutType (aps st) = APS_READOUT_RESET ->
    count_get (apsCountY (aps st)) APS_READOUT_RESET = Z.of_nat (length done) ->
    Z.of_nat (length Rs) < W ->
    Z.of_nat (length done) + Z.of_nat (length ws) <= H ->
    (length Ss <= length Rs)%nat ->
    forallb isAPSSample ws = true ->
    readout_inv s (Rs ++ [done ++ map eventData ws]) Ss (length Rs) ns (decodeEvents st ws)
    /\ apsCurrentReadoutType (aps (decodeEvents st ws)) = APS_READOUT_RESET.
Proof.
  unfold decodeEvents.
  induction ws as [|w ws IH]; intros done st Hinv Hrt Hy Hx Hlen Hord Hws; cbn [fold_left map].
  - rewrite app_nil_r. split; assumption.
  - cbn [forallb] in Hws. apply andb_prop in Hws as [Hw Hws]. cbn [length] in Hlen.
    destruct (readout_sample_reset st Rs Ss ns done w Hinv Hrt Hy Hx ltac:(lia) Hord Hw)
      as (Hinv' & Hrt' & Hy').
    replace (done ++ eventData w :: map eventData ws)
      with ((done ++ [eventData w]) ++ map eventData ws)
      by (rewrite <- app_assoc; reflexivity).
    apply IH; try assumption.
    rewrite length_app. cbn [length]. lia.
Qed.

(** The samples of a column of the signal read. *)
Lemma readout_samples_signal Rs Ss nr (ws : list Z) :
  forall (done : list Z) (st : davis_state),
    readout_inv s Rs (Ss ++ [done]) nr (length Ss) st ->
    apsCurrentReadoutType (aps st) = APS_READOUT_SIGNAL ->
    count_get (apsCountY (aps st)) APS_READOUT_SIGNAL = Z.of_nat (length done) ->
    Z.of_nat (length Ss) < W ->
    Z.of_nat (length done) + Z.of_nat (length ws) <= H ->
    forallb isAPSSample ws = true ->
    readout_inv s Rs (Ss ++ [done ++ map eventData ws]) nr (length Ss) (decodeEvents st ws)
    /\ apsCurrentReadoutType (aps (decodeEvents st ws)) = APS_READOUT_SIGNAL.
Proof.
  unfold decodeEvents.
  induction ws as [|w ws IH]; intros done st Hinv Hrt Hy Hx Hlen Hws; cbn [fold_left map].
  - rewrite app_nil_r. split; assumption.
  - cbn [forallb] in Hws. apply andb_prop in Hws as [Hw Hws]. cbn [length] in Hlen.
    destruct (readout_sample_signal st Rs Ss nr done w Hinv Hrt Hy Hx ltac:(lia) Hw)
      as (Hinv' & Hrt' & Hy').
    replace (done ++ eventData w :: map eventData ws)
      with ((done ++ [eventData w]) ++ map eventData ws)
      by (rewrite <- app_assoc; reflexivity).
    apply IH; try assumption.
    rewrite length_app. cbn [length]. lia.
Qed.

(** A lookup in [Rs ++ [col]] does not see whether the column is
    complete. *)
Lemma readout_inv_counts st Rs Ss nr ns nr' ns' :
  readout_inv s Rs Ss nr ns st ->
  count_get (apsCountX (aps st)) APS_READOUT_RESET = Z.of_nat nr' ->
  count_get (apsCountX (aps st)) APS_READOUT_SIGNAL = Z.of_nat ns' ->
  readout_inv s Rs Ss nr' ns' st.
Proof.
  intros [Hs Hign Hrr Hxr Hxs Hrl Hreset Hslot Hlx Hly Hpl Hpix] Hr' Hs'.
  constructor; assumption.
Qed.

(** One column: column start, samples, column end. *)
Lemma readout_column_reset st Rs Ss ws :
  readout_inv s Rs Ss (length Rs) (length Ss) st ->
  Z.of_nat (length Rs) < W ->
  (length Ss <= length Rs)%nat ->
  Z.of_nat (length ws) <= H ->
  forallb isAPSSample ws = true ->
  readout_inv s (Rs ++ [map eventData ws]) Ss (S (length Rs)) (length Ss)
    (decodeEvents st (apsColumnWords (APS_READOUT_RESET, ws))).
Proof.
  intros Hinv Hr Hord Hlen Hws.
  unfold apsColumnWords, decodeEvents. cbn [fst snd fold_left]. rewrite fold_left_app.
  cbn [fold_left].
  destruct (readout_column_start st Rs Ss (length Rs) (length Ss) APS_READOUT_RESET Hinv)
    as (Hinv1 & Hrt1 & Hy1).
  set (st1 := fst (decodeEvent st (apsColumnStartWord APS_READOUT_RESET))) in *.
  destruct (readout_samples_reset Rs Ss (length Ss) ws [] st1
              (readout_inv_open_reset _ _ _ _ _ Hinv1) Hrt1 Hy1 Hr
              ltac:(cbn [length]; lia) Hord Hws) as [Hinv2 Hrt2].
  cbn [app] in Hinv2.
  exact (readout_column_end_reset _ _ _ _ _ Hinv2 Hrt2 Hr).
Qed.

Lemma readout_column_signal st Rs Ss ws :
  readout_inv s Rs Ss (length Rs) (length Ss) st ->
  Z.of_nat (length Ss) < W ->
  Z.of_nat (length ws) <= H ->
  forallb isAPSSample ws = true ->
  readout_inv s Rs (Ss ++ [map eventData ws]) (length Rs) (S (length Ss))
    (decodeEvents st (apsColumnWords (APS_READOUT_SIGNAL, ws))).
Proof.
  intros Hinv Hsg Hlen Hws.
  unfold apsColumnWords, decodeEvents. cbn [fst snd fold_left]. rewrite fold_left_app.
  cbn [fold_left].
  destruct (readout_column_start st Rs Ss (length Rs) (length Ss) APS_READOUT_SIGNAL Hinv)
    as (Hinv1 & Hrt1 & Hy1).
  set (st1 := fst (decodeEvent st (apsColumnStartWord APS_READOUT_SIGNAL))) in *.
  destruct (readout_samples_signal Rs Ss (length Rs) ws [] st1
              (readout_inv_open_signal _ _ _ _ _ Hinv1) Hrt1 Hy1 Hsg
              ltac:(cbn [length]; lia) Hws) as [Hinv2 Hrt2].
  cbn [app] in Hinv2.
  exact (readout_column_end_signal _ _ _ _ _ Hinv2 Hrt2 Hsg).
Qed.

(** The columns of a readout, in the order the device sends them. *)
Lemma readout_columns (columns : list (aps_readout * list Z)) :
  forall Rs Ss st,
    readout_inv s Rs Ss (length Rs) (length Ss) st ->
    readoutOrdered (length Rs) (length Ss) columns = true ->
    Z.of_nat (length (Rs ++ readoutColumns APS_READOUT_RESET columns)) <= W ->
    Z.of_nat (length (Ss ++ readoutColumns APS_READOUT_SIGNAL columns)) <= W ->
    columnsWellFormed H columns = true ->
    readout_inv s (Rs ++ readoutColumns APS_READOUT_RESET columns)
      (Ss ++ readoutColumns APS_READOUT_SIGNAL columns)
      (length (Rs ++ readoutColumns APS_READOUT_RESET columns))
      (length (Ss ++ readoutColumns APS_READOUT_SIGNAL columns))
      (decodeEvents st (apsReadoutWords columns)).
Proof.
  induction columns as [|[rt ws] columns IH]; intros Rs Ss st Hinv Hord Hr Hsg Hwf.
  - cbn. rewrite !app_nil_r. exact Hinv.
  - unfold apsReadoutWords, decodeEvents. cbn [map concat]. rewrite fold_left_app.
    fold (decodeEvents st (apsColumnWords (rt, ws))).
    fold (apsReadoutWords columns).
    fold (decodeEvents (decodeEvents st (apsColumnWords (rt, ws))) (apsReadoutWords columns)).
    cbn [columnsWellFormed forallb snd] in Hwf.
    apply andb_prop in Hwf as [Hcol Hwf]. apply andb_prop in Hcol as [Hlen Hws].
    apply Z.leb_le in Hlen.
    unfold readoutColumns in Hr, Hsg |- *.
    destruct rt; cbn [List.filter fst snd aps_readout_eqb map readoutOrdered] in *.
    + apply andb_prop in Hord as [Hle Hord]. apply Nat.leb_le in Hle.
      rewrite length_app in Hr. cbn [length] in Hr.
      assert (Hstep := readout_column_reset st Rs Ss ws Hinv ltac:(lia) Hle Hlen Hws).
      specialize (IH (Rs ++ [map eventData ws]) Ss
                    (decodeEvents st (apsColumnWords (APS_READOUT_RESET, ws)))).
      rewrite <- !app_assoc in IH. cbn [app] in IH.
      rewrite !length_app in IH. cbn [length] in IH.
      rewrite !length_app. cbn [length].
      apply IH.
      * replace (length Rs + 1)%nat with (S (length Rs)) by lia. exact Hstep.
      * replace (length Rs + 1)%nat with (S (length Rs)) by lia. exact Hord.
      * exact Hr.
      * rewrite length_app in Hsg. exact Hsg.
      * exact Hwf.
    + rewrite length_app in Hsg. cbn [length] in Hsg.
      assert (Hstep := readout_column_signal st Rs Ss ws Hinv ltac:(lia) Hlen Hws).
      specialize (IH Rs (Ss ++ [map eventData ws])
                    (decodeEvents st (apsColumnWords (APS_READOUT_SIGNAL, ws)))).
      rewrite <- !app_assoc in IH. cbn [app] in IH.
      rewrite !length_app in IH. cbn [length] in IH.
      rewrite !length_app. cbn [length].
      apply IH.
      * replace (length Ss + 1)%nat with (S (length Ss)) by lia. exact Hstep.
      * replace (length Ss + 1)%nat with (S (length Ss)) by lia. exact Hord.
      * rewrite length_app in Hr. exact Hr.
      * exact Hsg.
      * exact Hwf.
Qed.

(** The frame start sets the frame up for the window. *)
Lemma readout_frame_start st gs :
  settings st = s ->
  is_Some (currentFramePacket (packets st) !! currentFramePacketPosition (packets st)) ->
  apsSizeX s * apsSizeY s <= Z.of_nat (length (apsCurrentResetFrame (aps st))) ->
  readout_inv s [] [] 0 0 (fst (decodeEvent st (apsFrameStartWord gs))).
Proof.
  intros Hs Hslot Hrl.
  assert (Heq : decodeEvent st (apsFrameStartWord gs) = (apsFrameStart gs true st, false))
    by (destruct gs; reflexivity).
  rewrite Heq. cbn [fst]. unfold apsFrameStart, initFrame. cbv zeta.
  pose proof Hwin as [_ _ _ _ Hw0 Hh0 Hc Hsx Hsy Hex Hey Hzx Hzy].
  destruct (currentFrameEvent_written
              (fun e => caerFrameEventAllocatePixels (apsWindow0SizeX s) (apsWindow0SizeY s)
                          (apsChannels s)
                          (caerFrameEventSetTSStartOfFrame (currentTimestamp (timestamps st)) e))
              (packets st) Hslot) as [Hcur Hslot'].
  constructor; cbn [settings aps packets timestamps with_aps with_packets];
    rewrite ?Hs, ?Hcur; try exact Hslot'; cbn; try first [assumption|reflexivity].
  - intros x rcol y r Hx. destruct x; discriminate.
  - rewrite repeat_length. nia.
  - intros x rcol scol y r sg Hx. destruct x; discriminate.
Qed.

(** The frame end validates the frame when both phases have read every
    column. *)
Lemma readout_frame_end st Rs Ss nr ns :
  readout_inv s Rs Ss nr ns st ->
  Z.of_nat nr = W -> Z.of_nat ns = W ->
  exists e,
    currentFramePacket (packets (fst (decodeEvent st 0x000A)))
      !! currentFramePacketPosition (packets st) = Some e
    /\ frm_valid e = true
    /\ frm_length_x e = W /\ frm_length_y e = H
    /\ frm_ts_end_of_frame e = currentTimestamp (timestamps st)
    /\ currentFramePacketPosition (packets (fst (decodeEvent st 0x000A)))
       = S (currentFramePacketPosition (packets st))
    /\ forall x rcol scol y r sg,
         Rs !! x = Some rcol -> Ss !! x = Some scol ->
         rcol !! y = Some r -> scol !! y = Some sg ->
         framePixel e x y = Some (cdsPixel r sg).
Proof.
  intros [Hs Hign Hrr Hxr Hxs Hrl Hreset Hslot Hlx Hly Hpl Hpix] Hnr Hns.
  change (decodeEvent st 0x000A) with (apsFrameEnd st, false).
  cbn [fst]. unfold apsFrameEnd. rewrite Hign. cbv zeta.
  assert (Hvalid : frameEndValid st = true).
  { unfold frameEndValid, frameEndCheckValue. cbn [forallb aps_readout_eqb andb negb].
    rewrite Hrr, Hxr, Hxs, Hlx. cbn [negb]. fold W. rewrite Hnr, Hns, Z.eqb_refl.
    reflexivity. }
  rewrite Hvalid.
  destruct Hslot as [e0 He0].
  assert (Hcur : currentFrameEvent (packets st) = e0)
    by (unfold currentFrameEvent; rewrite He0; reflexivity).
  rewrite Hcur in Hlx, Hly, Hpix.
  exists (caerFrameEventValidate
            (caerFrameEventSetTSEndOfFrame (currentTimestamp (timestamps st)) e0)).
  cbn. rewrite !list_lookup_alter_eq, He0. cbn.
  split; [reflexivity|]. split; [reflexivity|].
  split; [exact Hlx|]. split; [exact Hly|].
  split; [reflexivity|]. split; [reflexivity|].
  exact Hpix.
Qed.

End FrameReadout.

Lemma aps_sample_quiet w : isAPSSample w = true -> isQuietWord w = true.
Proof.
  intros Hw. destruct (isAPSSample_inv w Hw) as [Hts Hcode].
  unfold isQuietWord, isSpecial, isDvsY, isDvsX. rewrite Hts, Hcode. reflexivity.
Qed.

Lemma aps_readout_quiet (h : Z) (columns : list (aps_readout * list Z)) :
  columnsWellFormed h columns = true ->
  Forall (fun event => isQuietWord event = true) (apsReadoutWords columns).
Proof.
  unfold apsReadoutWords.
  induction columns as [|[rt ws] columns IH]; intros Hwf; cbn [map concat]; [constructor|].
  cbn [columnsWellFormed forallb snd] in Hwf.
  apply andb_prop in Hwf as [Hcol Hwf]. apply andb_prop in Hcol as [_ Hws].
  apply Forall_app. split; [|apply IH; exact Hwf].
  unfold apsColumnWords. cbn [fst snd].
  constructor; [destruct rt; reflexivity|].
  apply Forall_app. split; [|repeat constructor].
  apply Forall_forall. intros w Hin. apply aps_sample_quiet.
  rewrite forallb_forall in Hws. apply Hws. exact Hin.
Qed.

(** X11: the readout of a frame assembles the frame by correlated double
    sampling.  On a sensor read upright (no DAVIS RGB, window within the
    array), between two iterations with a free frame slot, the words
    frame start (global or rolling shutter, with reset read), then the
    columns of the reset and of the signal read in any interleaving in
    which no signal read comes before the reset read of its column, each
    column as column start, at most as many ADC samples as the window
    has rows, column end, are translated without any commit; and when
    each phase has read as many columns as the window is wide, the frame
    end validates the frame event at the position and advances the
    position.  The frame has the size of the window, and its pixel at
    column x and row y is the 16-bit value of
    max(0, reset(x, y) - signal(x, y)) << 6 for the samples reset(x, y)
    and signal(x, y) of the two reads. *)
Theorem aps_frame_readout (st : davis_state) (globalShutter : bool)
  (columns : list (aps_readout * list Z))
  (Hwin : upright_window (settings st))
  (Hwf : packets_wf st) (Hquiet : commits_quiescent st)
  (Hreset : apsSizeX (settings st) * apsSizeY (settings st)
            <= Z.of_nat (length (apsCurrentResetFrame (aps st))))
  (Hord : readoutOrdered 0 0 columns = true)
  (Hcols : columnsWellFormed (apsWindow0SizeY (settings st)) columns = true)
  (Hnr : Z.of_nat (length (readoutColumns APS_READOUT_RESET columns))
         = apsWindow0SizeX (settings st))
  (Hns : Z.of_nat (length (readoutColumns APS_READOUT_SIGNAL columns))
         = apsWindow0SizeX (settings st)) :
  exists st1,
    translateEvents st (apsFrameStartWord globalShutter :: apsReadoutWords columns) = Some st1
    /\ dataExchangeBuffer st1 = dataExchangeBuffer st
    /\ is_Some (translateEvent st1 0x000A)
    /\ exists e,
         currentFramePacket (packets (fst (decodeEvent st1 0x000A)))
           !! currentFramePacketPosition (packets st) = Some e
         /\ currentFramePacketPosition (packets (fst (decodeEvent st1 0x000A)))
            = S (currentFramePacketPosition (packets st))
         /\ frm_valid e = true
         /\ frm_length_x e = apsWindow0SizeX (settings st)
         /\ frm_length_y e = apsWindow0SizeY (settings st)
         /\ forall x y rcol scol r sg,
              readoutColumns APS_READOUT_RESET columns !! x = Some rcol ->
              readoutColumns APS_READOUT_SIGNAL columns !! x = Some scol ->
              rcol !! y = Some r -> scol !! y = Some sg ->
              framePixel e x y = Some (cdsPixel r sg).
Proof.
  set (words := apsFrameStartWord globalShutter :: apsReadoutWords columns).
  assert (Hq : Forall (fun event => isQuietWord event = true) words).
  { constructor; [destruct globalShutter; reflexivity|].
    eapply aps_readout_quiet. exact Hcols. }
  destruct (translateEvents_quiet words st Hq Hquiet) as [Hrun Hq1].
  destruct (decodeEvents_quiet_positions words st Hq) as (_ & _ & _ & _ & Hpos & _).
  exists (decodeEvents st words).
  split; [exact Hrun|]. split; [apply decodeEvents_exchange|].
  split; [apply translateEvent_unforced; reflexivity|].
  assert (Hslot : is_Some (currentFramePacket (packets st)
                             !! currentFramePacketPosition (packets st))).
  { apply lookup_lt_is_Some_2. apply Hwf. }
  pose proof (readout_frame_start (settings st) Hwin st globalShutter eq_refl Hslot Hreset)
    as Hinv0.
  assert (Hinv : readout_inv (settings st)
                   (readoutColumns APS_READOUT_RESET columns)
                   (readoutColumns APS_READOUT_SIGNAL columns)
                   (length (readoutColumns APS_READOUT_RESET columns))
                   (length (readoutColumns APS_READOUT_SIGNAL columns))
                   (decodeEvents st words)).
  { subst words. unfold decodeEvents. cbn [fold_left].
    apply (readout_columns (settings st) Hwin columns [] []); cbn [app length];
      try assumption; lia. }
  destruct (readout_frame_end (settings st) _ _ _ _ _ Hinv Hnr Hns)
    as (e & He & Hv & Hlx & Hly & _ & Hp & Hpix).
  rewrite Hpos in He, Hp.
  exists e. split; [exact He|]. split; [exact Hp|]. split; [exact Hv|].
  split; [exact Hlx|]. split; [exact Hly|].
  intros x y rcol scol r sg Hx Hsx Hr Hsg. exact (Hpix x rcol scol y r sg Hx Hsx Hr Hsg).
Qed.

Lemma mono_2x1_upright : upright_window mono_2x1_settings.
Proof. constructor; cbn; first [reflexivity|lia]. Qed.

Lemma aps_frame_readout_witness :
  let columns := [(APS_READOUT_RESET, [0x4320]); (APS_READOUT_SIGNAL, [0x40C8]);
                  (APS_READOUT_RESET, [0x4100]); (APS_READOUT_SIGNAL, [0x4050])] in
  exists st1,
    translateEvents mono_2x1_start (apsFrameStartWord false :: apsReadoutWords columns)
    = Some st1
    /\ exists e,
         currentFramePacket (packets (fst (decodeEvent st1 0x000A))) !! 0%nat = Some e
         /\ frm_valid e = true
         /\ framePixel e 0 0 = Some 0x9600
         /\ framePixel e 1 0 = Some 11264.
Proof.
  intros columns.
  assert (Hwf : packets_wf mono_2x1_start) by (apply start_state_wf; cbn; lia).
  assert (Hq : commits_quiescent mono_2x1_start) by (apply start_state_quiescent; cbn; lia).
  assert (Hreset : apsSizeX (settings mono_2x1_start) * apsSizeY (settings mono_2x1_start)
                   <= Z.of_nat (length (apsCurrentResetFrame (aps mono_2x1_start))))
    by (apply Z.leb_le; reflexivity).
  destruct (aps_frame_readout mono_2x1_start false columns mono_2x1_upright Hwf Hq Hreset
              eq_refl eq_refl eq_refl eq_refl)
    as (st1 & Hrun & _ & _ & e & He & _ & Hv & _ & _ & Hpix).
  exists st1. split; [exact Hrun|].
  exists e. split; [exact He|]. split; [exact Hv|]. split.
  - exact (Hpix 0%nat 0%nat [800] [200] 800 200 eq_refl eq_refl eq_refl eq_refl).
  - exact (Hpix 1%nat 0%nat [256] [80] 256 80 eq_refl eq_refl eq_refl eq_refl).
Defined.

(** ** The rows of a DAVIS RGB column *)

Lemma decodeEvents_cons st w ws :
  decodeEvents st (w :: ws) = decodeEvents (fst (decodeEvent st w)) ws.
Proof. reflexivity. Qed.

Lemma I16T_small (x : Z) : - 2 ^ 15 <= x < 2 ^ 15 -> I16T x = x.
Proof.
  intros Hx. unfold I16T. cbv zeta.
  destruct (Z.le_gt_cases 0 x) as [Hpos|Hneg].
  - rewrite Z.mod_small by lia. destruct (Z.ltb_spec x (2 ^ 15)); lia.
  - assert (Hm : x mod 2 ^ 16 = x + 2 ^ 16).
    { symmetry. apply (Z.mod_unique x (2 ^ 16) (-1) (x + 2 ^ 16)); lia. }
    rewrite Hm. destruct (Z.ltb_spec (x + 2 ^ 16) (2 ^ 15)); lia.
Qed.

(** The offset and the direction of the walk before sample number [i]. *)
Lemma rgb_walk_step (a : aps_state) (i : Z) :
  0 <= i < 640 ->
  apsRGBPixelOffset a = rgbRow i - i ->
  apsRGBPixelOffsetDirection a = (if i <? 320 then 0 else 1) ->
  apsRGBPixelOffset (apsRGBOffsetStep a) = rgbRow (i + 1) - (i + 1)
  /\ apsRGBPixelOffsetDirection (apsRGBOffsetStep a) = (if i + 1 <? 320 then 0 else 1).
Proof.
  intros Hi Hoff Hdir. unfold apsRGBOffsetStep.
  unfold rgbRow in *.
  destruct (Z.ltb_spec i 320) as [Hlt|Hge]; rewrite Hdir; cbn [Z.eqb].
  - rewrite Hoff, I16T_small by lia.
    destruct (Z.eqb_spec (2 * i + 1 - i + 1) 321) as [He|Hne];
      cbn [apsRGBPixelOffset apsRGBPixelOffsetDirection set_apsRGBPixelOffset];
      rewrite ?Hdir; destruct (Z.ltb_spec (i + 1) 320); split; lia.
  - rewrite Hoff, I16T_small by lia.
    cbn [apsRGBPixelOffset apsRGBPixelOffsetDirection set_apsRGBPixelOffset].
    rewrite ?Hdir. destruct (Z.ltb_spec (i + 1) 320); split; lia.
Qed.

(** The rows of the walk are the rows 0 to 639, each once. *)
Lemma rgbRow_bijective (i j : Z) :
  0 <= i < 640 -> 0 <= j < 640 ->
  0 <= rgbRow i < 640 /\ (rgbRow i = rgbRow j -> i = j).
Proof.
  intros Hi Hj. unfold rgbRow.
  destruct (Z.ltb_spec i 320), (Z.ltb_spec j 320); split; lia.
Qed.

Lemma rgbRow_onto (r : Z) :
  0 <= r < 640 -> exists i, 0 <= i < 640 /\ rgbRow i = r.
Proof.
  intros Hr. unfold rgbRow.
  destruct (Z.odd r) eqn:Hodd.
  - exists ((r - 1) / 2).
    assert (Hdiv : r = 2 * ((r - 1) / 2) + 1).
    { rewrite (Zodd_div2 r) at 1 by (apply Zodd_bool_iff; exact Hodd).
      rewrite Z.div2_div.
      replace ((r - 1) / 2) with (r / 2); [reflexivity|].
      rewrite (Z.div_mod r 2) at 2 by lia.
      rewrite <- Z.bit0_mod, Z.bit0_odd, Hodd. cbn [Z.b2z].
      replace (2 * (r / 2) + 1 - 1) with ((r / 2) * 2) by lia.
      rewrite Z.div_mul by lia. reflexivity. }
    destruct (Z.ltb_spec ((r - 1) / 2) 320); split; lia.
  - exists ((1278 - r) / 2).
    assert (Hev : r = 2 * (r / 2)).
    { rewrite (Z.div_mod r 2) at 1 by lia.
      rewrite <- Z.bit0_mod, Z.bit0_odd, Hodd. cbn [Z.b2z]. lia. }
    assert (Hdiv : (1278 - r) / 2 = 639 - r / 2).
    { rewrite Hev at 1. replace (1278 - 2 * (r / 2)) with ((639 - r / 2) * 2) by lia.
      apply Z.div_mul. lia. }
    rewrite Hdiv. destruct (Z.ltb_spec (639 - r / 2) 320); split; lia.
Qed.

Lemma rgb_sample_step st w (i : Z) :
  chip_eqb (chipID (settings st)) CHIP_DAVISRGB = true ->
  apsIgnoreEvents (aps st) = false ->
  isAPSSample w = true ->
  count_get (apsCountY (aps st)) (apsCurrentReadoutType (aps st)) = i ->
  0 <= i < 640 ->
  i < frm_length_y (currentFrameEvent (packets st)) ->
  apsRGBPixelOffset (aps st) = rgbRow i - i ->
  apsRGBPixelOffsetDirection (aps st) = (if i <? 320 then 0 else 1) ->
  let st' := fst (decodeEvent st w) in
  settings st' = settings st
  /\ apsIgnoreEvents (aps st') = false
  /\ apsCurrentReadoutType (aps st') = apsCurrentReadoutType (aps st)
  /\ count_get (apsCountY (aps st')) (apsCurrentReadoutType (aps st')) = i + 1
  /\ frm_length_y (currentFrameEvent (packets st'))
     = frm_length_y (currentFrameEvent (packets st))
  /\ apsRGBPixelOffset (aps st') = rgbRow (i + 1) - (i + 1)
  /\ apsRGBPixelOffsetDirection (aps st') = (if i + 1 <? 320 then 0 else 1).
Proof.
  intros Hchip Hign Hw Hy Hi Hlen Hoff Hdir st'. subst st'.
  destruct (isAPSSample_inv w Hw) as [Hts Hcode].
  rewrite decodeEvent_aps by assumption. cbn [fst].
  unfold apsADCSample. rewrite Hign. cbv zeta. rewrite Hy.
  destruct (Z.leb_spec (frm_length_y (currentFrameEvent (packets st))) i) as [Hle|_]; [lia|].
  rewrite Hchip.
  assert (Hinc : U16T (i + 1) = i + 1) by (unfold U16T; apply Z.mod_small; lia).
  destruct (apsSampleIsResetRead st);
    cbn [aps packets settings with_aps with_packets apsCountY set_apsCurrentResetFrame];
    rewrite Hy, Hinc;
    match goal with
    | |- context [apsRGBOffsetStep ?a2] =>
        destruct (rgb_walk_step a2 i Hi) as [Hoff' Hdir'];
          [exact Hoff|exact Hdir|]
    end;
    (split; [reflexivity|]);
    (split; [unfold apsRGBOffsetStep; cbn; repeat destruct (_ =? _); cbn; exact Hign|]);
    (split; [unfold apsRGBOffsetStep; cbn; repeat destruct (_ =? _); reflexivity|]);
    (split; [unfold apsRGBOffsetStep; cbn; repeat destruct (_ =? _); cbn;
             destruct (apsCurrentReadoutType (aps st)); reflexivity|]);
    (split; [|split; [exact Hoff'|exact Hdir']]).
  - reflexivity.
  - rewrite currentFrameEvent_alter. unfold currentFrameEvent.
    destruct (currentFramePacket (packets st) !! currentFramePacketPosition (packets st));
      reflexivity.
Qed.

Section RGBColumn.

Variable s : davis_settings.
Hypothesis Hwin : rgb_window s.

Lemma rgbRowIndex_row (i : nat) :
  (i < 640)%nat -> Z.of_nat (rgbRowIndex i) = rgbRow (Z.of_nat i).
Proof.
  intros Hi. unfold rgbRowIndex.
  pose proof (proj1 (rgbRow_bijective (Z.of_nat i) (Z.of_nat i) ltac:(lia) ltac:(lia))).
  lia.
Qed.

Lemma rgbRowIndex_inj (i j : nat) :
  (i < 640)%nat -> (j < 640)%nat -> rgbRowIndex i = rgbRowIndex j -> i = j.
Proof.
  intros Hi Hj Heq.
  assert (Hz : rgbRow (Z.of_nat i) = rgbRow (Z.of_nat j)).
  { rewrite <- !rgbRowIndex_row by assumption. rewrite Heq. reflexivity. }
  apply (proj2 (rgbRow_bijective (Z.of_nat i) (Z.of_nat j) ltac:(lia) ltac:(lia))) in Hz.
  lia.
Qed.

(** The samples of a column are at most as many as the frame has rows
    when each of them has its row in the frame. *)
Lemma rgb_rows_count (n : nat) (h : Z) :
  0 < h -> (n <= 640)%nat ->
  (forall i, (i < n)%nat -> rgbRow (Z.of_nat i) < h) ->
  Z.of_nat n <= h.
Proof.
  intros Hh H640 Hrows.
  destruct n as [|n]; [lia|].
  destruct (le_lt_dec (S n) 320) as [Hle|Hgt].
  - pose proof (Hrows n ltac:(lia)) as Hr. unfold rgbRow in Hr.
    destruct (Z.ltb_spec (Z.of_nat n) 320); lia.
  - pose proof (Hrows 319%nat ltac:(lia)) as Hr. unfold rgbRow in Hr.
    change (Z.of_nat 319 <? 320) with true in Hr. cbv iota in Hr. lia.
Qed.

(** The position of sample number [i] of column [x]. *)
Lemma rgb_sample_position st (x i : nat) :
  settings st = s ->
  count_get (apsCountX (aps st)) (apsCurrentReadoutType (aps st)) = Z.of_nat x ->
  count_get (apsCountY (aps st)) (apsCurrentReadoutType (aps st)) = Z.of_nat i ->
  Z.of_nat x < apsWindow0SizeX s ->
  (i < 640)%nat -> rgbRow (Z.of_nat i) < apsWindow0SizeY s ->
  apsRGBPixelOffset (aps st) = rgbRow (Z.of_nat i) - Z.of_nat i ->
  apsPixelPosition st
  = framePixelIndex (frm_length_x (currentFrameEvent (packets st))) x (rgbRowIndex i)
  /\ apsPixelPositionAbs st = resetFrameIndex s x (rgbRowIndex i).
Proof.
  intros Hs Hx Hy Hxw Hi Hrow Hoff.
  pose proof (proj1 (rgbRow_bijective (Z.of_nat i) (Z.of_nat i) ltac:(lia) ltac:(lia)))
    as Hrange.
  assert (Hxy : apsSampleXY st = (Z.of_nat x, rgbRow (Z.of_nat i))).
  { unfold apsSampleXY. cbv zeta.
    rewrite Hs, (rw_flipX s Hwin), (rw_flipY s Hwin), (rw_chip s Hwin), (rw_invert s Hwin).
    rewrite Hx, Hy, Hoff. unfold U16T.
    destruct Hwin.
    rewrite (Z.mod_small (Z.of_nat x)) by lia.
    rewrite (Z.mod_small (Z.of_nat i)) by lia.
    replace (Z.of_nat i + (rgbRow (Z.of_nat i) - Z.of_nat i)) with (rgbRow (Z.of_nat i))
      by lia.
    rewrite Z.mod_small by lia. reflexivity. }
  unfold apsPixelPosition, apsPixelPositionAbs, framePixelIndex, resetFrameIndex.
  rewrite Hxy, Hs, rgbRowIndex_row by exact Hi. unfold U16T.
  destruct Hwin.
  rewrite !Z.mod_small by lia.
  split; reflexivity.
Qed.

Lemma rgb_reset_store st :
  settings st = s ->
  apsRGBGlobalShutter st = apsGlobalShutter (aps st)
  /\ apsSampleIsResetRead st
     = rgbResetStore (apsGlobalShutter (aps st)) (apsCurrentReadoutType (aps st)).
Proof.
  intros Hs. unfold apsSampleIsResetRead, apsRGBGlobalShutter.
  rewrite Hs, (rw_chip s Hwin). cbn [andb].
  split; [reflexivity|].
  destruct (apsCurrentReadoutType (aps st)), (apsGlobalShutter (aps st)); reflexivity.
Qed.

Lemma rgb_pixel_value st d :
  settings st = s ->
  apsPixelValue st d = rgbPixel (apsGlobalShutter (aps st)) (apsResetValue st) d.
Proof.
  intros Hs. unfold apsPixelValue, rgbPixel. cbv zeta.
  rewrite (proj1 (rgb_reset_store st Hs)).
  destruct (apsGlobalShutter (aps st)).
  - destruct (Z.ltb_spec (d - apsResetValue st) 0);
      [rewrite Z.max_l by lia|rewrite Z.max_r by lia]; reflexivity.
  - destruct (Z.ltb_spec (apsResetValue st - d) 0);
      [rewrite Z.max_l by lia|rewrite Z.max_r by lia]; reflexivity.
Qed.

(** What a sample writes, and what it leaves. *)
Lemma rgb_sample_store st w :
  settings st = s ->
  apsIgnoreEvents (aps st) = false ->
  isAPSSample w = true ->
  count_get (apsCountY (aps st)) (apsCurrentReadoutType (aps st))
  < frm_length_y (currentFrameEvent (packets st)) ->
  let st' := fst (decodeEvent st w) in
  apsGlobalShutter (aps st') = apsGlobalShutter (aps st)
  /\ apsCountX (aps st') = apsCountX (aps st)
  /\ frm_length_x (currentFrameEvent (packets st'))
     = frm_length_x (currentFrameEvent (packets st))
  /\ (if apsSampleIsResetRead st
      then apsCurrentResetFrame (aps st')
           = <[apsPixelPositionAbs st := eventData w]> (apsCurrentResetFrame (aps st))
           /\ frm_pixels (currentFrameEvent (packets st'))
              = frm_pixels (currentFrameEvent (packets st))
      else apsCurrentResetFrame (aps st') = apsCurrentResetFrame (aps st)
           /\ frm_pixels (currentFrameEvent (packets st'))
              = <[apsPixelPosition st := apsPixelValue st (eventData w)]>
                  (frm_pixels (currentFrameEvent (packets st)))).
Proof.
  intros Hs Hign Hw Hy st'. subst st'.
  destruct (isAPSSample_inv w Hw) as [Hts Hcode].
  rewrite decodeEvent_aps by assumption. cbn [fst].
  unfold apsADCSample. rewrite Hign. cbv zeta.
  destruct (Z.leb_spec (frm_length_y (currentFrameEvent (packets st)))
              (count_get (apsCountY (aps st)) (apsCurrentReadoutType (aps st))))
    as [Hle|_]; [lia|].
  rewrite Hs, (rw_chip s Hwin).
  destruct (apsSampleIsResetRead st);
    cbn [aps packets settings with_aps with_packets];
    unfold apsRGBOffsetStep; cbn; repeat destruct (_ =? _); cbn;
    rewrite ?currentFrameEvent_alter; unfold currentFrameEvent;
    destruct (currentFramePacket (packets st) !! currentFramePacketPosition (packets st));
    repeat split; reflexivity.
Qed.


(** The column start: the rows are counted from 0, the walk starts at
    offset 1, and no sample is touched. *)
Lemma rgb_column_start st rt :
  apsIgnoreEvents (aps st) = false ->
  let st1 := fst (decodeEvent st (apsColumnStartWord rt)) in
  settings st1 = settings st
  /\ apsIgnoreEvents (aps st1) = false
  /\ apsCurrentReadoutType (aps st1) = rt
  /\ apsGlobalShutter (aps st1) = apsGlobalShutter (aps st)
  /\ apsCountX (aps st1) = apsCountX (aps st)
  /\ count_get (apsCountY (aps st1)) rt = 0
  /\ apsRGBPixelOffset (aps st1) = 1
  /\ apsRGBPixelOffsetDirection (aps st1) = 0
  /\ apsCurrentResetFrame (aps st1) = apsCurrentResetFrame (aps st)
  /\ frm_length_x (currentFrameEvent (packets st1))
     = frm_length_x (currentFrameEvent (packets st))
  /\ frm_length_y (currentFrameEvent (packets st1))
     = frm_length_y (currentFrameEvent (packets st))
  /\ frm_pixels (currentFrameEvent (packets st1))
     = frm_pixels (currentFrameEvent (packets st)).
Proof.
  intros Hign st1. subst st1. destruct rt.
  - change (decodeEvent st (apsColumnStartWord APS_READOUT_RESET))
      with (apsResetColumnStart st, false).
    cbn [fst]. unfold apsResetColumnStart. rewrite Hign. cbv zeta.
    destruct (negb _ && _); cbn [settings aps packets with_aps with_packets];
      rewrite ?currentFrameEvent_alter; unfold currentFrameEvent;
      cbn; repeat split; try assumption;
      destruct (currentFramePacket (packets st) !! currentFramePacketPosition (packets st));
      reflexivity.
  - change (decodeEvent st (apsColumnStartWord APS_READOUT_SIGNAL))
      with (apsSignalColumnStart st, false).
    cbn [fst]. unfold apsSignalColumnStart. rewrite Hign. cbv zeta.
    destruct (_ =? _); cbn [settings aps packets with_aps with_packets];
      rewrite ?currentFrameEvent_alter; unfold currentFrameEvent;
      cbn; repeat split; try assumption;
      destruct (currentFramePacket (packets st) !! currentFramePacketPosition (packets st));
      reflexivity.
Qed.

Lemma resetFrameIndex_bound (x y : nat) :
  Z.of_nat x < apsWindow0SizeX s -> Z.of_nat y < apsWindow0SizeY s ->
  Z.of_nat (resetFrameIndex s x y) < apsSizeX s * apsSizeY s.
Proof.
  intros Hx Hy. unfold resetFrameIndex. destruct Hwin.
  rewrite Z2Nat.id by nia. nia.
Qed.

Lemma resetFrameIndex_inj (x y y' : nat) :
  Z.of_nat x < apsWindow0SizeX s ->
  resetFrameIndex s x y = resetFrameIndex s x y' -> y = y'.
Proof.
  intros Hx Heq. unfold resetFrameIndex in Heq.
  pose proof (rw_startX s Hwin). pose proof (rw_startY s Hwin). pose proof (rw_endX s Hwin).
  apply (row_major_inj s) in Heq; [destruct Heq; lia|lia..].
Qed.

Lemma framePixelIndex_bound (x y : nat) :
  Z.of_nat x < apsWindow0SizeX s -> Z.of_nat y < apsWindow0SizeY s ->
  Z.of_nat (framePixelIndex (apsWindow0SizeX s) x y)
  < apsWindow0SizeX s * apsWindow0SizeY s.
Proof.
  intros Hx Hy. unfold framePixelIndex.
  rewrite Z2Nat.id by nia. nia.
Qed.

Lemma framePixelIndex_inj (x y y' : nat) :
  Z.of_nat x < apsWindow0SizeX s ->
  framePixelIndex (apsWindow0SizeX s) x y = framePixelIndex (apsWindow0SizeX s) x y' ->
  y = y'.
Proof.
  intros Hx Heq. unfold framePixelIndex in Heq.
  apply (row_major_inj s) in Heq; [destruct Heq; lia|lia..].
Qed.

(** The samples of a column, from sample number [i] on. *)
Lemma rgb_samples_store (x : nat) (ws : list Z) :
  forall (st : davis_state) (i : nat),
    settings st = s ->
    apsIgnoreEvents (aps st) = false ->
    forallb isAPSSample ws = true ->
    count_get (apsCountX (aps st)) (apsCurrentReadoutType (aps st)) = Z.of_nat x ->
    count_get (apsCountY (aps st)) (apsCurrentReadoutType (aps st)) = Z.of_nat i ->
    Z.of_nat x < apsWindow0SizeX s ->
    (i + length ws <= 640)%nat ->
    Z.of_nat (i + length ws) <= apsWindow0SizeY s ->
    (forall k, (k < length ws)%nat -> rgbRow (Z.of_nat (i + k)) < apsWindow0SizeY s) ->
    frm_length_x (currentFrameEvent (packets st)) = apsWindow0SizeX s ->
    frm_length_y (currentFrameEvent (packets st)) = apsWindow0SizeY s ->
    apsRGBPixelOffset (aps st) = rgbRow (Z.of_nat i) - Z.of_nat i ->
    apsRGBPixelOffsetDirection (aps st) = (if Z.of_nat i <? 320 then 0 else 1) ->
    apsSizeX s * apsSizeY s <= Z.of_nat (length (apsCurrentResetFrame (aps st))) ->
    apsWindow0SizeX s * apsWindow0SizeY s
    <= Z.of_nat (length (frm_pixels (currentFrameEvent (packets st)))) ->
    let st' := decodeEvents st ws in
    let gs := apsGlobalShutter (aps st) in
    let rt := apsCurrentReadoutType (aps st) in
    count_get (apsCountY (aps st')) rt = Z.of_nat (i + length ws)
    /\ frm_length_x (currentFrameEvent (packets st')) = apsWindow0SizeX s
    /\ (if rgbResetStore gs rt
        then frm_pixels (currentFrameEvent (packets st'))
             = frm_pixels (currentFrameEvent (packets st))
             /\ (forall k w, ws !! k = Some w ->
                   apsCurrentResetFrame (aps st') !! resetFrameIndex s x (rgbRowIndex (i + k))
                   = Some (eventData w))
             /\ (forall p,
                   (forall k, (k < length ws)%nat ->
                              p <> resetFrameIndex s x (rgbRowIndex (i + k))) ->
                   apsCurrentResetFrame (aps st') !! p = apsCurrentResetFrame (aps st) !! p)
        else apsCurrentResetFrame (aps st') = apsCurrentResetFrame (aps st)
             /\ (forall k w, ws !! k = Some w ->
                   exists r,
                     apsCurrentResetFrame (aps st) !! resetFrameIndex s x (rgbRowIndex (i + k))
                     = Some r
                     /\ frm_pixels (currentFrameEvent (packets st'))
                          !! framePixelIndex (apsWindow0SizeX s) x (rgbRowIndex (i + k))
                        = Some (rgbPixel gs r (eventData w)))
             /\ (forall p,
                   (forall k, (k < length ws)%nat ->
                              p <> framePixelIndex (apsWindow0SizeX s) x (rgbRowIndex (i + k))) ->
                   frm_pixels (currentFrameEvent (packets st')) !! p
                   = frm_pixels (currentFrameEvent (packets st)) !! p)).
Proof.
  unfold decodeEvents.
  induction ws as [|w ws IH];
    intros st i Hs Hign Hws Hx Hy Hxw H640 Hcount Hrows Hlx Hly Hoff Hdir Hrl Hpl;
    cbn [length fold_left] in *.
  { cbv zeta. rewrite Nat.add_0_r. split; [exact Hy|]. split; [exact Hlx|].
    destruct (rgbResetStore _ _); (split; [reflexivity|]); split;
      try (intros k w Hk; rewrite lookup_nil in Hk; discriminate);
      intros p _; reflexivity. }
  cbn [forallb] in Hws. apply andb_prop in Hws as [Hw Hws].
  assert (Hchip : chip_eqb (chipID (settings st)) CHIP_DAVISRGB = true)
    by (rewrite Hs; exact (rw_chip s Hwin)).
  pose proof (Hrows 0%nat ltac:(lia)) as Hrow0. rewrite Nat.add_0_r in Hrow0.
  destruct (rgb_sample_step st w (Z.of_nat i) Hchip Hign Hw Hy ltac:(lia)
              ltac:(rewrite Hly; lia) Hoff Hdir)
    as (Hs1 & Hign1 & Hrt1 & Hy1 & Hly1 & Hoff1 & Hdir1).
  destruct (rgb_sample_store st w Hs Hign Hw ltac:(rewrite Hy, Hly; lia))
    as (Hgs1 & Hcx1 & Hlx1 & Hstore).
  destruct (rgb_sample_position st x i Hs Hx Hy Hxw ltac:(lia) Hrow0 Hoff)
    as [Hpos Hposabs].
  rewrite Hlx in Hpos.
  destruct (rgb_reset_store st Hs) as [_ Hread].
  set (st1 := fst (decodeEvent st w)) in *.
  assert (Hrowi : Z.of_nat (rgbRowIndex i) < apsWindow0SizeY s)
    by (rewrite rgbRowIndex_row by lia; exact Hrow0).
  assert (Hlen1 : length (apsCurrentResetFrame (aps st1))
                  = length (apsCurrentResetFrame (aps st))
                  /\ length (frm_pixels (currentFrameEvent (packets st1)))
                     = length (frm_pixels (currentFrameEvent (packets st)))).
  { destruct (apsSampleIsResetRead st); destruct Hstore as [-> ->];
      rewrite ?length_insert; split; reflexivity. }
  destruct Hlen1 as [Hrl1 Hpl1].
  replace (Z.of_nat i + 1) with (Z.of_nat (S i)) in Hy1, Hoff1, Hdir1 by lia.
  specialize (IH st1 (S i)).
  rewrite Hrt1, Hgs1, Hcx1, Hs1, Hlx1, Hly1, Hrl1, Hpl1 in IH.
  specialize (IH Hs Hign1 Hws Hx).
  rewrite Hrt1 in Hy1. specialize (IH Hy1 Hxw ltac:(lia) ltac:(lia)).
  assert (Hrows1 : forall k, (k < length ws)%nat ->
                     rgbRow (Z.of_nat (S i + k)) < apsWindow0SizeY s).
  { intros k Hk. replace (S i + k)%nat with (i + S k)%nat by lia. apply Hrows. lia. }
  specialize (IH Hrows1 Hlx Hly Hoff1 Hdir1 Hrl Hpl).
  cbv zeta in IH. destruct IH as (Hcnt & Hlx' & IH).
  cbv zeta. split; [rewrite Hcnt; f_equal; lia|]. split; [exact Hlx'|].
  rewrite Hread in Hstore.
  destruct (rgbResetStore (apsGlobalShutter (aps st)) (apsCurrentReadoutType (aps st))).
  - destruct Hstore as [Hreset Hpix]. destruct IH as (Hpix' & Hin & Hout).
    split; [rewrite Hpix'; exact Hpix|]. split.
    + intros [|k] w' Hk; cbn in Hk.
      * injection Hk as <-. rewrite Nat.add_0_r.
        rewrite Hout.
        -- rewrite Hreset, Hposabs. apply list_lookup_insert_eq.
           pose proof (resetFrameIndex_bound x (rgbRowIndex i) Hxw Hrowi). lia.
        -- intros k Hk Heq. apply resetFrameIndex_inj in Heq; [|exact Hxw].
           apply rgbRowIndex_inj in Heq; lia.
      * replace (i + S k)%nat with (S i + k)%nat by lia. apply Hin. exact Hk.
    + intros p Hp. rewrite Hout.
      * rewrite Hreset, Hposabs. apply list_lookup_insert_ne.
        intros Heq. apply (Hp 0%nat ltac:(lia)). rewrite Nat.add_0_r. symmetry. exact Heq.
      * intros k Hk. replace (S i + k)%nat with (i + S k)%nat by lia. apply Hp. lia.
  - destruct Hstore as [Hreset Hpix]. destruct IH as (Hreset' & Hin & Hout).
    split; [rewrite Hreset'; exact Hreset|]. split.
    + intros [|k] w' Hk; cbn in Hk.
      * injection Hk as <-. rewrite Nat.add_0_r.
        assert (Hlt : (resetFrameIndex s x (rgbRowIndex i)
                       < length (apsCurrentResetFrame (aps st)))%nat).
        { pose proof (resetFrameIndex_bound x (rgbRowIndex i) Hxw Hrowi). lia. }
        destruct (lookup_lt_is_Some_2 _ _ Hlt) as [r Hr].
        exists r. split; [exact Hr|].
        rewrite Hout.
        -- rewrite Hpix, Hpos, rgb_pixel_value by exact Hs.
           unfold apsResetValue. rewrite Hposabs, Hr. cbn [default].
           apply list_lookup_insert_eq.
           pose proof (framePixelIndex_bound x (rgbRowIndex i) Hxw Hrowi). lia.
        -- intros k Hk Heq. apply framePixelIndex_inj in Heq; [|exact Hxw].
           apply rgbRowIndex_inj in Heq; lia.
      * replace (i + S k)%nat with (S i + k)%nat by lia.
        destruct (Hin k w' Hk) as (r & Hr & Hv). exists r.
        split; [rewrite <- Hreset; exact Hr|exact Hv].
    + intros p Hp. rewrite Hout.
      * rewrite Hpix, Hpos. apply list_lookup_insert_ne.
        intros Heq. apply (Hp 0%nat ltac:(lia)). rewrite Nat.add_0_r. symmetry. exact Heq.
      * intros k Hk. replace (S i + k)%nat with (i + S k)%nat by lia. apply Hp. lia.
Qed.

End RGBColumn.

(** X12: a column of the DAVIS RGB.  On a DAVIS RGB read upright, with
    its window inside the array, a column start followed by samples whose
    rows all lie in the frame is translated without a commit, counts
    the samples and stores sample number i (counted from 0) in row
    2 i + 1 of the column while i < 320 and in row 1278 - 2 i from then
    on: the odd rows upwards, then the even rows downwards.  The samples of a reset read (of a
    signal read in global shutter mode) are stored as they are in the
    reset frame, and the pixel array of the frame is left as it was; the
    samples of the other read are stored in the pixel array as the 16-bit
    value of the difference to the entry of the reset frame, clamped at 0
    and shifted by 6, and the reset frame is left as it was.  No other
    entry of the array written is changed.  The rows of the walk are the
    rows 0 to 639, each visited once. *)
Theorem rgb_column_rows (s : davis_settings) (st : davis_state) (rt : aps_readout)
  (ws : list Z) (x : nat)
  (Hwin : rgb_window s)
  (Hs : settings st = s)
  (Hign : apsIgnoreEvents (aps st) = false)
  (Hquiet : commits_quiescent st)
  (Hx : count_get (apsCountX (aps st)) rt = Z.of_nat x)
  (Hxw : Z.of_nat x < apsWindow0SizeX s)
  (Hlx : frm_length_x (currentFrameEvent (packets st)) = apsWindow0SizeX s)
  (Hly : frm_length_y (currentFrameEvent (packets st)) = apsWindow0SizeY s)
  (Hrl : apsSizeX s * apsSizeY s <= Z.of_nat (length (apsCurrentResetFrame (aps st))))
  (Hpl : apsWindow0SizeX s * apsWindow0SizeY s
         <= Z.of_nat (length (frm_pixels (currentFrameEvent (packets st)))))
  (Hws : forallb isAPSSample ws = true)
  (H640 : (length ws <= 640)%nat)
  (Hrows : forall i, (i < length ws)%nat -> rgbRow (Z.of_nat i) < apsWindow0SizeY s) :
  let st' := decodeEvents st (apsColumnStartWord rt :: ws) in
  let gs := apsGlobalShutter (aps st) in
  translateEvents st (apsColumnStartWord rt :: ws) = Some st'
  /\ count_get (apsCountY (aps st')) rt = Z.of_nat (length ws)
  /\ (forall i, (i < length ws)%nat ->
        rgbRow (Z.of_nat i) = (if (i <? 320)%nat then 2 * Z.of_nat i + 1
                               else 1278 - 2 * Z.of_nat i)
        /\ 0 <= rgbRow (Z.of_nat i) < apsWindow0SizeY s)
  /\ (if rgbResetStore gs rt
      then frm_pixels (currentFrameEvent (packets st'))
           = frm_pixels (currentFrameEvent (packets st))
           /\ (forall i w, ws !! i = Some w ->
                 resetFrameEntry st' x (rgbRowIndex i) = Some (eventData w))
           /\ (forall p,
                 (forall i, (i < length ws)%nat ->
                            p <> resetFrameIndex s x (rgbRowIndex i)) ->
                 apsCurrentResetFrame (aps st') !! p = apsCurrentResetFrame (aps st) !! p)
      else apsCurrentResetFrame (aps st') = apsCurrentResetFrame (aps st)
           /\ (forall i w, ws !! i = Some w ->
                 exists r,
                   resetFrameEntry st x (rgbRowIndex i) = Some r
                   /\ framePixel (currentFrameEvent (packets st')) x (rgbRowIndex i)
                      = Some (rgbPixel gs r (eventData w)))
           /\ (forall p,
                 (forall i, (i < length ws)%nat ->
                            p <> framePixelIndex (apsWindow0SizeX s) x (rgbRowIndex i)) ->
                 frm_pixels (currentFrameEvent (packets st')) !! p
                 = frm_pixels (currentFrameEvent (packets st)) !! p))
  /\ (forall i j : nat, (i < 640)%nat -> (j < 640)%nat -> rgbRowIndex i = rgbRowIndex j -> i = j)
  /\ (forall r : nat, (r < 640)%nat -> exists i, (i < 640)%nat /\ rgbRowIndex i = r).
Proof.
  intros st' gs.
  assert (Hquietw : Forall (fun event => isQuietWord event = true)
                      (apsColumnStartWord rt :: ws)).
  { constructor; [destruct rt; reflexivity|].
    apply Forall_forall. intros w Hin. apply aps_sample_quiet.
    rewrite forallb_forall in Hws. apply Hws. exact Hin. }
  split; [apply translateEvents_quiet; assumption|].
  assert (Hcount : Z.of_nat (length ws) <= apsWindow0SizeY s)
    by (apply rgb_rows_count; [exact (rw_height s Hwin)|exact H640|exact Hrows]).
  destruct (rgb_column_start st rt Hign)
    as (Hs1 & Hign1 & Hrt1 & Hgs1 & Hcx1 & Hy1 & Hoff1 & Hdir1 & Hreset1 & Hlx1 & Hly1 & Hpix1).
  subst st' gs. rewrite decodeEvents_cons.
  set (st1 := fst (decodeEvent st (apsColumnStartWord rt))) in *.
  pose proof (rgb_samples_store s Hwin x ws st1 0%nat) as Hrun.
  rewrite Hrt1, Hgs1, Hcx1, Hs1, Hlx1, Hly1, Hreset1, Hpix1, Hoff1, Hdir1 in Hrun.
  specialize (Hrun Hs Hign1 Hws Hx Hy1 Hxw H640 Hcount Hrows Hlx Hly eq_refl eq_refl Hrl Hpl).
  cbv zeta in Hrun. cbn [Nat.add] in Hrun.
  destruct Hrun as (Hcnt & Hlx' & Hrun).
  split; [exact Hcnt|]. split.
  { intros i Hi. split.
    - unfold rgbRow. destruct (Nat.ltb_spec i 320), (Z.ltb_spec (Z.of_nat i) 320);
        try reflexivity; lia.
    - split; [|apply Hrows; exact Hi].
      apply (proj1 (rgbRow_bijective (Z.of_nat i) (Z.of_nat i) ltac:(lia) ltac:(lia))). }
  split.
  { destruct (rgbResetStore (apsGlobalShutter (aps st)) rt).
    - destruct Hrun as (Hpix & Hin & Hout).
      split; [exact Hpix|]. split; [|exact Hout].
      intros i w Hi. unfold resetFrameEntry.
      rewrite (proj2 (decodeEvents_exchange ws st1)), Hs1, Hs.
      exact (Hin i w Hi).
    - destruct Hrun as (Hreset & Hin & Hout).
      split; [exact Hreset|]. split; [|exact Hout].
      intros i w Hi. destruct (Hin i w Hi) as (r & Hr & Hv).
      exists r. split.
      + unfold resetFrameEntry. rewrite Hs. exact Hr.
      + unfold framePixel. rewrite Hlx'. exact Hv. }
  split.
  - intros i j Hi Hj. apply rgbRowIndex_inj; assumption.
  - intros r Hr. destruct (rgbRow_onto (Z.of_nat r) ltac:(lia)) as (j & Hj & Hrow).
    exists (Z.to_nat j). split; [lia|].
    unfold rgbRowIndex. rewrite Z2Nat.id by lia. rewrite Hrow. lia.
Qed.

Lemma rgb_2x4_frame_quiescent : commits_quiescent rgb_2x4_frame.
Proof. repeat split; vm_compute; reflexivity. Qed.

Lemma rgb_2x4_window : rgb_window rgb_2x4_settings.
Proof. constructor; cbn; first [reflexivity|lia]. Qed.

Lemma rgb_column_rows_witness :
  exists st',
    translateEvents rgb_2x4_frame [0x000C; 0x4001; 0x4002] = Some st'
    /\ resetFrameEntry st' 0 1 = Some 1
    /\ resetFrameEntry st' 0 3 = Some 2
    /\ frm_pixels (currentFrameEvent (packets st'))
       = frm_pixels (currentFrameEvent (packets rgb_2x4_frame)).
Proof.
  assert (Hs : settings rgb_2x4_frame = rgb_2x4_settings) by (vm_compute; reflexivity).
  assert (Hign : apsIgnoreEvents (aps rgb_2x4_frame) = false) by (vm_compute; reflexivity).
  assert (Hx : count_get (apsCountX (aps rgb_2x4_frame)) APS_READOUT_SIGNAL = Z.of_nat 0)
    by (vm_compute; reflexivity).
  assert (Hxw : Z.of_nat 0 < apsWindow0SizeX rgb_2x4_settings) by (cbn; lia).
  assert (Hlx : frm_length_x (currentFrameEvent (packets rgb_2x4_frame))
                = apsWindow0SizeX rgb_2x4_settings) by (vm_compute; reflexivity).
  assert (Hly : frm_length_y (currentFrameEvent (packets rgb_2x4_frame))
                = apsWindow0SizeY rgb_2x4_settings) by (vm_compute; reflexivity).
  assert (Hrl : apsSizeX rgb_2x4_settings * apsSizeY rgb_2x4_settings
                <= Z.of_nat (length (apsCurrentResetFrame (aps rgb_2x4_frame))))
    by (apply Z.leb_le; vm_compute; reflexivity).
  assert (Hpl : apsWindow0SizeX rgb_2x4_settings * apsWindow0SizeY rgb_2x4_settings
                <= Z.of_nat (length (frm_pixels (currentFrameEvent (packets rgb_2x4_frame)))))
    by (apply Z.leb_le; vm_compute; reflexivity).
  assert (H640 : (length [0x4001; 0x4002]%Z <= 640)%nat) by (cbn [length]; lia).
  assert (Hrows : forall i, (i < length [0x4001; 0x4002]%Z)%nat ->
                    rgbRow (Z.of_nat i) < apsWindow0SizeY rgb_2x4_settings).
  { intros i Hi. cbn [length] in Hi.
    destruct i as [|[|i]]; [vm_compute; reflexivity..|lia]. }
  assert (Hgs : rgbResetStore (apsGlobalShutter (aps rgb_2x4_frame)) APS_READOUT_SIGNAL = true)
    by (vm_compute; reflexivity).
  pose proof (rgb_column_rows rgb_2x4_settings rgb_2x4_frame APS_READOUT_SIGNAL
                [0x4001; 0x4002] 0 rgb_2x4_window Hs Hign rgb_2x4_frame_quiescent
                Hx Hxw Hlx Hly Hrl Hpl eq_refl H640 Hrows) as Hthm.
  cbv zeta in Hthm. rewrite Hgs in Hthm.
  destruct Hthm as (Hrun & _ & _ & (Hpix & Hin & _) & _).
  eexists. split; [exact Hrun|].
  split; [exact (Hin 0%nat 0x4001 eq_refl)|].
  split; [exact (Hin 1%nat 0x4002 eq_refl)|exact Hpix].
Defined.

(** ** The IMU record *)

Lemma byte_pair (hi lo : Z) :
  0 <= hi -> 0 <= lo < 256 -> Z.lor (Z.shiftl hi 8) lo = hi * 256 + lo.
Proof.
  intros Hhi Hlo.
  assert (Hland : Z.land (Z.shiftl hi 8) lo = 0).
  { apply Z.bits_inj'. intros n Hn. rewrite Z.land_spec, Z.bits_0.
    destruct (Z.ltb_spec n 8) as [Hlt|Hge].
    - rewrite Z.shiftl_spec_low by lia. reflexivity.
    - replace (Z.testbit lo n) with false; [apply andb_false_r|].
      symmetry. destruct (Z.eq_dec lo 0) as [->|Hne]; [apply Z.bits_0|].
      apply Z.bits_above_log2; [lia|].
      assert (Z.log2 lo < 8) by (apply Z.log2_lt_pow2; lia). lia. }
  pose proof (Z.add_lor_land (Z.shiftl hi 8) lo) as Hadd.
  rewrite Hland, Z.add_0_r in Hadd. rewrite Hadd.
  rewrite Z.shiftl_mul_pow2 by lia. reflexivity.
Qed.

Lemma imuDataByte_range w : 0 <= imuDataByte w < 256.
Proof. unfold imuDataByte, U8T. apply Z.mod_pos_bound. lia. Qed.

Lemma decodeEvent_imu_data st w :
  isIMUData w = true -> decodeEvent st w = (imuData (imuDataByte w) st, false).
Proof.
  unfold isIMUData. intros Hw.
  apply andb_prop in Hw as [Hw Hm]. apply andb_prop in Hw as [Hts Hcode].
  apply negb_true_iff in Hts. apply Z.eqb_eq in Hcode, Hm.
  unfold decodeEvent. rewrite Hts, Hcode. unfold misc8Event. rewrite Hm. reflexivity.
Qed.

Lemma decodeEvent_imu_scale st w :
  isIMUScaleConfig w = true -> decodeEvent st w = (imuScaleConfig (eventData w) st, false).
Proof.
  unfold isIMUScaleConfig. intros Hw.
  apply andb_prop in Hw as [Hw Hhi]. apply andb_prop in Hw as [Hw Hlo].
  apply andb_prop in Hw as [Hts Hcode].
  apply negb_true_iff in Hts. apply Z.eqb_eq in Hcode.
  apply Z.leb_le in Hlo, Hhi.
  unfold decodeEvent. rewrite Hts, Hcode.
  assert (Hcases : eventData w = 16 \/ eventData w = 17 \/ eventData w = 18
                   \/ eventData w = 19 \/ eventData w = 20 \/ eventData w = 21
                   \/ eventData w = 22 \/ eventData w = 23 \/ eventData w = 24
                   \/ eventData w = 25 \/ eventData w = 26 \/ eventData w = 27
                   \/ eventData w = 28 \/ eventData w = 29 \/ eventData w = 30
                   \/ eventData w = 31) by lia.
  repeat destruct Hcases as [Hcases|Hcases]; rewrite Hcases; reflexivity.
Qed.

Lemma imu_words_quiet w :
  isIMUData w = true \/ isIMUScaleConfig w = true -> isQuietWord w = true.
Proof.
  intros [Hw|Hw].
  - unfold isIMUData in Hw. apply andb_prop in Hw as [Hw _].
    apply andb_prop in Hw as [Hts Hcode].
    apply negb_true_iff in Hts. apply Z.eqb_eq in Hcode.
    unfold isQuietWord, isSpecial, isDvsY, isDvsX. rewrite Hts, Hcode. reflexivity.
  - unfold isIMUScaleConfig in Hw.
    apply andb_prop in Hw as [Hw Hhi]. apply andb_prop in Hw as [Hw Hlo].
    apply andb_prop in Hw as [Hts Hcode].
    apply negb_true_iff in Hts. apply Z.eqb_eq in Hcode. apply Z.leb_le in Hlo, Hhi.
    unfold isQuietWord, isSpecial, isDvsY, isDvsX. rewrite Hts, Hcode. cbn.
    repeat match goal with
           | |- context [eventData w =? ?k] =>
               destruct (Z.eqb_spec (eventData w) k); [lia|]
           end.
    reflexivity.
Qed.

Lemma currentIMU6Event_written f p :
  is_Some (currentIMU6Packet p !! currentIMU6PacketPosition p) ->
  currentIMU6Event (alter_imu6 f p) = f (currentIMU6Event p)
  /\ is_Some (currentIMU6Packet (alter_imu6 f p) !! currentIMU6PacketPosition (alter_imu6 f p))
  /\ currentIMU6PacketPosition (alter_imu6 f p) = currentIMU6PacketPosition p.
Proof.
  intros [e He]. unfold currentIMU6Event, alter_imu6. cbn.
  rewrite list_lookup_alter_eq, He. cbn. split; [reflexivity|]. split; [eauto|reflexivity].
Qed.

(** The high byte of a sample is kept, the low byte completes it. *)
Lemma imuData_high st b k :
  imuIgnoreEvents (imu st) = false -> imuCount (imu st) = k ->
  k = 1 \/ k = 3 \/ k = 5 \/ k = 7 \/ k = 9 \/ k = 11 ->
  imuData b st = with_imu (set_imuCount (k + 1) (set_imuTmpData b (imu st))) st.
Proof.
  intros Hign Hcnt Hk. unfold imuData. rewrite Hign. cbv zeta.
  repeat destruct Hk as [Hk|Hk]; rewrite Hk in Hcnt |- *; rewrite Hcnt;
    change (IMU6_COUNT <=? _) with false; cbv iota;
    cbn [imu with_packets with_imu set_imuTmpData set_imuCount imuCount]; rewrite ?Hcnt;
    reflexivity.
Qed.

Lemma imuData_low st b k :
  imuIgnoreEvents (imu st) = false -> imuCount (imu st) = k ->
  k = 2 \/ k = 4 \/ k = 6 \/ k = 8 \/ k = 10 \/ k = 12 ->
  imuData b st
  = with_imu (set_imuCount (k + 1) (imu st))
      (with_packets
         (alter_imu6
            (match k with
             | 2 => caerIMU6EventSetAccelX (float_div (imuSample (imu st) b) (imuAccelScale (imu st)))
             | 4 => caerIMU6EventSetAccelY (float_div (imuSample (imu st) b) (imuAccelScale (imu st)))
             | 6 => caerIMU6EventSetAccelZ (float_div (imuSample (imu st) b) (imuAccelScale (imu st)))
             | 8 => caerIMU6EventSetTemp
                      (float_add (float_div (imuSample (imu st) b) (float_of_Z 340))
                         float_36_53)
             | 10 => caerIMU6EventSetGyroX (float_div (imuSample (imu st) b) (imuGyroScale (imu st)))
             | _ => caerIMU6EventSetGyroY (float_div (imuSample (imu st) b) (imuGyroScale (imu st)))
             end)
            (packets st))
         st).
Proof.
  intros Hign Hcnt Hk. unfold imuData. rewrite Hign. cbv zeta.
  repeat destruct Hk as [Hk|Hk]; rewrite Hk in Hcnt |- *; rewrite Hcnt;
    change (IMU6_COUNT <=? _) with false; cbv iota;
    cbn [imu with_packets with_imu]; rewrite Hcnt; reflexivity.
Qed.

(** Two data bytes, high then low, write one field of the IMU6 event. *)
Lemma imu_pair st whi wlo k :
  imuIgnoreEvents (imu st) = false -> imuCount (imu st) = k ->
  k = 1 \/ k = 3 \/ k = 5 \/ k = 7 \/ k = 9 \/ k = 11 ->
  is_Some (currentIMU6Packet (packets st) !! currentIMU6PacketPosition (packets st)) ->
  isIMUData whi = true -> isIMUData wlo = true ->
  let st2 := decodeEvents st [whi; wlo] in
  let v := imuInt16 (imuDataByte whi) (imuDataByte wlo) in
  imuIgnoreEvents (imu st2) = false
  /\ imuCount (imu st2) = k + 2
  /\ imuAccelScale (imu st2) = imuAccelScale (imu st)
  /\ imuGyroScale (imu st2) = imuGyroScale (imu st)
  /\ is_Some (currentIMU6Packet (packets st2) !! currentIMU6PacketPosition (packets st2))
  /\ currentIMU6Event (packets st2)
     = (match k with
        | 1 => caerIMU6EventSetAccelX (float_div v (imuAccelScale (imu st)))
        | 3 => caerIMU6EventSetAccelY (float_div v (imuAccelScale (imu st)))
        | 5 => caerIMU6EventSetAccelZ (float_div v (imuAccelScale (imu st)))
        | 7 => caerIMU6EventSetTemp
                 (float_add (float_div v (float_of_Z 340)) float_36_53)
        | 9 => caerIMU6EventSetGyroX (float_div v (imuGyroScale (imu st)))
        | _ => caerIMU6EventSetGyroY (float_div v (imuGyroScale (imu st)))
        end) (currentIMU6Event (packets st)).
Proof.
  intros Hign Hcnt Hk Hslot Hhi Hlo st2 v. subst st2 v.
  unfold decodeEvents. cbn [fold_left].
  rewrite (decodeEvent_imu_data st whi Hhi). cbn [fst].
  rewrite (decodeEvent_imu_data _ wlo Hlo). cbn [fst].
  rewrite (imuData_high st (imuDataByte whi) k Hign Hcnt Hk).
  pose proof (imuDataByte_range whi) as Rhi. pose proof (imuDataByte_range wlo) as Rlo.
  set (st1 := with_imu (set_imuCount (k + 1) (set_imuTmpData (imuDataByte whi) (imu st))) st).
  assert (Hsample : imuSample (imu st1) (imuDataByte wlo)
                    = imuInt16 (imuDataByte whi) (imuDataByte wlo)).
  { unfold imuSample, imuInt16. subst st1. cbn [imu with_imu imuTmpData set_imuCount
      set_imuTmpData]. rewrite byte_pair by lia. reflexivity. }
  rewrite (imuData_low st1 (imuDataByte wlo) (k + 1));
    [|exact Hign|reflexivity|lia].
  rewrite Hsample. subst st1.
  repeat destruct Hk as [Hk|Hk]; rewrite Hk in Hcnt |- *;
    cbn [Z.add Pos.add Pos.succ imu packets with_imu with_packets imuIgnoreEvents imuCount
         imuAccelScale imuGyroScale set_imuCount set_imuTmpData];
    match goal with
    | |- context [alter_imu6 ?f (packets st)] =>
        destruct (currentIMU6Event_written f (packets st) Hslot) as (Hcur & Hslot' & _);
          rewrite Hcur
    end;
    (split; [exact Hign|]); (split; [reflexivity|]); (split; [reflexivity|]);
    (split; [reflexivity|]); (split; [exact Hslot'|reflexivity]).
Qed.

(** X13: an IMU record.  Between two iterations, with a free IMU6 slot,
    the words IMU start, IMU scale configuration and twelve IMU data
    bytes are translated without any commit and leave in the IMU6 event
    at the position: the timestamp of the IMU start; as accelerations X,
    Y, Z the signed 16-bit values of the byte pairs 1-2, 3-4 and 5-6
    (high byte first) divided in binary32 by the accelerometer scale
    selected by bits 3:2 of the configuration (16384, 8192, 4096 or
    2048 per g); as temperature the value of bytes 7-8 divided in
    binary32 by 340, plus 36.53f, rounded again; as rotations X and Y
    the values of bytes 9-10 and 11-12 divided in binary32 by the
    gyroscope scale selected by bits 1:0, which is the binary32 quotient
    of 65536 and 500, 1000, 2000 or 4000: 8589935 * 2^-16
    (131.072006...), halved for each step.  The sample count is then
    13. *)
Theorem imu6_record (st : davis_state) (cfg w1 w2 w3 w4 w5 w6 w7 w8 w9 w10 w11 w12 : Z)
  (Hquiet : commits_quiescent st)
  (Hslot : is_Some (currentIMU6Packet (packets st) !! currentIMU6PacketPosition (packets st)))
  (Hcfg : isIMUScaleConfig cfg = true)
  (Hdata : forallb isIMUData [w1; w2; w3; w4; w5; w6; w7; w8; w9; w10; w11; w12] = true) :
  let words := [0x0005; cfg; w1; w2; w3; w4; w5; w6; w7; w8; w9; w10; w11; w12] in
  let A := calculateIMUAccelScale (Z.land (Z.shiftr (eventData cfg) 2) 0x03) in
  let G := calculateIMUGyroScale (Z.land (eventData cfg) 0x03) in
  let b := imuDataByte in
  (exists st1,
     translateEvents st words = Some st1
     /\ dataExchangeBuffer st1 = dataExchangeBuffer st
     /\ currentIMU6PacketPosition (packets st1) = currentIMU6PacketPosition (packets st)
     /\ imuCount (imu st1) = 13
     /\ imu_timestamp (currentIMU6Event (packets st1)) = currentTimestamp (timestamps st)
     /\ imu_accel_x (currentIMU6Event (packets st1)) = float_div (imuInt16 (b w1) (b w2)) A
     /\ imu_accel_y (currentIMU6Event (packets st1)) = float_div (imuInt16 (b w3) (b w4)) A
     /\ imu_accel_z (currentIMU6Event (packets st1)) = float_div (imuInt16 (b w5) (b w6)) A
     /\ imu_temp (currentIMU6Event (packets st1))
        = float_add (float_div (imuInt16 (b w7) (b w8)) (float_of_Z 340))
            float_36_53
     /\ imu_gyro_x (currentIMU6Event (packets st1)) = float_div (imuInt16 (b w9) (b w10)) G
     /\ imu_gyro_y (currentIMU6Event (packets st1)) = float_div (imuInt16 (b w11) (b w12)) G)
  /\ calculateIMUAccelScale 0 = float_of_Z 16384
  /\ calculateIMUAccelScale 1 = float_of_Z 8192
  /\ calculateIMUAccelScale 2 = float_of_Z 4096
  /\ calculateIMUAccelScale 3 = float_of_Z 2048
  /\ calculateIMUGyroScale 0 = SpecFloat.S754_finite false 8589935 (-16)
  /\ calculateIMUGyroScale 1 = SpecFloat.S754_finite false 8589935 (-17)
  /\ calculateIMUGyroScale 2 = SpecFloat.S754_finite false 8589935 (-18)
  /\ calculateIMUGyroScale 3 = SpecFloat.S754_finite false 8589935 (-19).
Proof.
  intros words A G b.
  split; [|repeat split; vm_compute; reflexivity].
  cbn [forallb] in Hdata.
  repeat match type of Hdata with
         | (_ && _) = true => apply andb_prop in Hdata as [? Hdata]
         end.
  assert (Hq : Forall (fun event => isQuietWord event = true) words).
  { subst words. constructor; [reflexivity|].
    repeat (constructor; [apply imu_words_quiet; auto|]). constructor. }
  destruct (translateEvents_quiet words st Hq Hquiet) as [Hrun _].
  destruct (decodeEvents_quiet_positions words st Hq) as (_ & _ & _ & _ & _ & Hpos).
  exists (decodeEvents st words).
  split; [exact Hrun|]. split; [apply decodeEvents_exchange|]. split; [exact Hpos|].
  clear Hrun Hpos Hq.
  (* IMU start and scale configuration *)
  set (sta := fst (decodeEvent st 0x0005)).
  set (stb := fst (decodeEvent sta cfg)).
  assert (Hb : imuIgnoreEvents (imu stb) = false /\ imuCount (imu stb) = 1
               /\ imuAccelScale (imu stb) = A /\ imuGyroScale (imu stb) = G
               /\ is_Some (currentIMU6Packet (packets stb)
                             !! currentIMU6PacketPosition (packets stb))
               /\ currentIMU6Event (packets stb)
                  = caerIMU6EventSetTimestamp (currentTimestamp (timestamps st))
                      (currentIMU6Event (packets st))).
  { subst stb sta. change (decodeEvent st 5) with (imuStart st, false). cbn [fst].
    rewrite decodeEvent_imu_scale by exact Hcfg. cbn [fst].
    unfold imuScaleConfig, imuStart.
    destruct (currentIMU6Event_written
                (caerIMU6EventSetTimestamp (currentTimestamp (timestamps st)))
                (packets st) Hslot) as (Hcur & Hslot' & _).
    cbn [imu packets with_imu with_packets imuIgnoreEvents imuCount imuAccelScale
         imuGyroScale set_imuCount set_imuIgnoreEvents set_imuScales].
    repeat split; try reflexivity; assumption. }
  destruct Hb as (Hign & Hcnt & HA & HG & Hslotb & Heb).
  set (p1 := decodeEvents stb [w1; w2]).
  set (p2 := decodeEvents p1 [w3; w4]).
  set (p3 := decodeEvents p2 [w5; w6]).
  set (p4 := decodeEvents p3 [w7; w8]).
  set (p5 := decodeEvents p4 [w9; w10]).
  set (p6 := decodeEvents p5 [w11; w12]).
  assert (Hall : decodeEvents st words = p6).
  { subst words p6 p5 p4 p3 p2 p1 stb sta.
    rewrite !decodeEvents_cons. reflexivity. }
  rewrite Hall. clear Hall.
  destruct (imu_pair stb w1 w2 1 Hign Hcnt ltac:(tauto) Hslotb) as (I1 & C1 & A1 & G1 & S1 & E1);
    [assumption..|]. fold p1 in I1, C1, A1, G1, S1, E1.
  destruct (imu_pair p1 w3 w4 3 I1 C1 ltac:(tauto) S1) as (I2 & C2 & A2 & G2 & S2 & E2);
    [assumption..|]. fold p2 in I2, C2, A2, G2, S2, E2.
  destruct (imu_pair p2 w5 w6 5 I2 C2 ltac:(tauto) S2) as (I3 & C3 & A3 & G3 & S3 & E3);
    [assumption..|]. fold p3 in I3, C3, A3, G3, S3, E3.
  destruct (imu_pair p3 w7 w8 7 I3 C3 ltac:(tauto) S3) as (I4 & C4 & A4 & G4 & S4 & E4);
    [assumption..|]. fold p4 in I4, C4, A4, G4, S4, E4.
  destruct (imu_pair p4 w9 w10 9 I4 C4 ltac:(tauto) S4) as (I5 & C5 & A5 & G5 & S5 & E5);
    [assumption..|]. fold p5 in I5, C5, A5, G5, S5, E5.
  destruct (imu_pair p5 w11 w12 11 I5 C5 ltac:(tauto) S5) as (I6 & C6 & A6 & G6 & S6 & E6);
    [assumption..|]. fold p6 in I6, C6, A6, G6, S6, E6.
  split; [exact C6|].
  rewrite E6, E5, E4, E3, E2, E1, Heb. cbv iota.
  rewrite ?G5, ?G4, ?G3, ?G2, ?G1, ?A3, ?A2, ?A1, ?HA, ?HG.
  repeat split.
Qed.

Lemma imu6_record_witness :
  exists st1,
    translateEvents davis240_start
      [0x0005; 0x0014; 0x5001; 0x5002; 0x50FF; 0x50FE; 0x5000; 0x5010;
       0x5000; 0x5000; 0x5000; 0x5064; 0x5000; 0x5001] = Some st1
    /\ imuCount (imu st1) = 13
    /\ imu_accel_x (currentIMU6Event (packets st1))
       = float_div (imuInt16 1 2) (calculateIMUAccelScale 1)
    /\ imu_accel_y (currentIMU6Event (packets st1))
       = float_div (imuInt16 255 254) (calculateIMUAccelScale 1)
    /\ imu_temp (currentIMU6Event (packets st1)) = float_36_53
    /\ imu_gyro_x (currentIMU6Event (packets st1))
       = SpecFloat.S754_finite false 12799999 (-24).
Proof.
  assert (Hq : commits_quiescent davis240_start)
    by (apply start_state_quiescent; cbn; lia).
  assert (Hslot : is_Some (currentIMU6Packet (packets davis240_start)
                             !! currentIMU6PacketPosition (packets davis240_start)))
    by (exists imu6_zero; reflexivity).
  destruct (imu6_record davis240_start 0x0014 0x5001 0x5002 0x50FF 0x50FE 0x5000 0x5010
              0x5000 0x5000 0x5000 0x5064 0x5000 0x5001 Hq Hslot eq_refl eq_refl)
    as [(st1 & Hrun & _ & _ & Hcnt & _ & Hx & Hy & _ & Ht & Hgx & _) _].
  exists st1. split; [exact Hrun|]. split; [exact Hcnt|]. split; [exact Hx|].
  split; [exact Hy|]. split; [rewrite Ht|rewrite Hgx]; vm_compute; reflexivity.
Defined.

(** ** davisOpen *)

(** X14: davisOpen succeeds exactly when libusb_init succeeds, the
    device search finds a device, the log string is allocated, the
    serial number is unrestricted or equal to the one read, and the logic
    revision read from the device is not below the required one.  On
    success nothing is released, the packet sizes are the positive
    defaults and the sizes in the device info are those of the state,
    exchanged when the array is read transposed.  On every failure the
    handle is freed exactly once, the libusb context is exited exactly
    when it had been initialised, the device closed exactly when it had
    been opened and the log string freed exactly when it had been
    allocated.  The path of a logic revision that is too old, and only
    this path, prints handle->info.logicVersion after the handle was
    freed. *)
Theorem davisOpen_outcome (c : davis_config) (env : open_environment) (s0 : davis_settings)
  (VID PID DID_TYPE deviceID busNumberRestrict devAddressRestrict : Z)
  (serialNumberRestrict : String.string) (requiredLogicRevision : Z) :
  let r := davisOpen c env s0 VID PID DID_TYPE deviceID busNumberRestrict
             devAddressRestrict serialNumberRestrict requiredLogicRevision in
  let found := devHandle (davisDeviceOpen (env_devicesList env) VID PID DID_TYPE
                            busNumberRestrict devAddressRestrict) in
  let serial_ok := caerStrEquals serialNumberRestrict String.EmptyString
                   || caerStrEquals serialNumberRestrict (env_serialNumber env) in
  let logicVersion :=
    U16T (spiConfigReceive (env_registers env (DAVIS_CONFIG_SYSINFO c)
                              (DAVIS_CONFIG_SYSINFO_LOGIC_VERSION c))) in
  let opened := libusb_init_ok env && bool_decide (is_Some found) in
  let named := opened && malloc_fullLogString_ok env in
  (open_returned r = true <->
     named = true /\ serial_ok = true /\ requiredLogicRevision <= logicVersion)
  /\ (open_returned r = true ->
        open_actions r = []
        /\ devHandle (open_search r) = found
        /\ (0 < maxPolarityPacketSize (open_settings r))%nat
        /\ (0 < maxSpecialPacketSize (open_settings r))%nat
        /\ (0 < maxFramePacketSize (open_settings r))%nat
        /\ (0 < maxIMU6PacketSize (open_settings r))%nat
        /\ exists info, open_info r = Some info
             /\ info_logicVersion info = logicVersion
             /\ info_dvsSize info
                = (if dvsInvertXY (open_settings r)
                   then (dvsSizeY (open_settings r), dvsSizeX (open_settings r))
                   else (dvsSizeX (open_settings r), dvsSizeY (open_settings r)))
             /\ info_apsSize info
                = (if apsInvertXY (open_settings r)
                   then (apsSizeY (open_settings r), apsSizeX (open_settings r))
                   else (apsSizeX (open_settings r), apsSizeY (open_settings r))))
  /\ (open_returned r = false ->
        actionCount FREE_HANDLE (open_actions r) = 1%nat
        /\ actionCount LIBUSB_EXIT (open_actions r)
           = (if libusb_init_ok env then 1 else 0)%nat
        /\ actionCount LIBUSB_CLOSE (open_actions r) = (if opened then 1 else 0)%nat
        /\ actionCount FREE_LOG_STRING (open_actions r) = (if named then 1 else 0)%nat)
  /\ (In LOG_LOGIC_VERSION (open_actions r) <->
        named = true /\ serial_ok = true /\ logicVersion < requiredLogicRevision)
  /\ (In LOG_LOGIC_VERSION (open_actions r) ->
        exists before after,
          open_actions r = before ++ FREE_HANDLE :: LOG_LOGIC_VERSION :: after).
Proof.
  intros r found serial_ok logicVersion opened named.
  subst r found serial_ok logicVersion opened named. unfold davisOpen.
  assert (Hsplit : forall before after : list open_action,
            before ++ FREE_HANDLE :: LOG_LOGIC_VERSION :: after
            = before ++ FREE_HANDLE :: LOG_LOGIC_VERSION :: after) by reflexivity.
  destruct (libusb_init_ok env); cbn [negb andb];
    [|cbn; intuition (try congruence; try lia)].
  destruct (devHandle (davisDeviceOpen (env_devicesList env) VID PID DID_TYPE
                         busNumberRestrict devAddressRestrict)) as [i|] eqn:Hfound;
    [rewrite bool_decide_eq_true_2 by eauto
    |rewrite bool_decide_eq_false_2 by (intros [? ?]; discriminate);
     cbn; intuition (try congruence; try lia)].
  destruct (malloc_fullLogString_ok env); cbn [negb andb];
    [|cbn; intuition (try congruence; try lia)].
  assert (Hgeo : forall s,
            (info_dvsSizeX s, info_dvsSizeY s)
            = (if dvsInvertXY s then (dvsSizeY s, dvsSizeX s) else (dvsSizeX s, dvsSizeY s))
            /\ (info_apsSizeX s, info_apsSizeY s)
               = (if apsInvertXY s then (apsSizeY s, apsSizeX s)
                  else (apsSizeX s, apsSizeY s))).
  { intros s. unfold info_dvsSizeX, info_dvsSizeY, info_apsSizeX, info_apsSizeY.
    destruct (dvsInvertXY s), (apsInvertXY s); split; reflexivity. }
  destruct (caerStrEquals serialNumberRestrict String.EmptyString);
    destruct (caerStrEquals serialNumberRestrict (env_serialNumber env)); cbn [negb andb orb];
    try (cbn; intuition (try congruence; try lia); fail);
    cbv zeta; cbn [info_logicVersion];
    (destruct (Z.ltb_spec
                 (U16T (spiConfigReceive (env_registers env (DAVIS_CONFIG_SYSINFO c)
                                            (DAVIS_CONFIG_SYSINFO_LOGIC_VERSION c))))
                 requiredLogicRevision) as [Hlt|Hge]);
    cbn [open_returned open_actions open_search open_info open_settings info_logicVersion
         info_dvsSize info_apsSize actionCount List.filter open_action_eqb length In];
    repeat match goal with
           | |- _ /\ _ => split
           | |- _ <-> _ => split
           | |- _ -> _ => intro
           end;
    try discriminate; try reflexivity; try lia; try assumption; try (cbn; lia);
    try (intuition (try congruence; try lia); fail);
    try (eexists; split; [reflexivity|]; split; [reflexivity|]; apply Hgeo);
    try (exists [LIBUSB_CLOSE; LIBUSB_EXIT], [FREE_LOG_STRING]; reflexivity).
Qed.
